(** * Error provenance tracer of linux-trace-error

    A shallow embedding of the recorder [set_last_err] (kernel/trace_error.c),
    of the wrapper macro [ERR] (include/linux/trace_error.h), of some
    instrumented call sites, and of the source rewrite that
    spatch_errors.sh performs, together with the properties the
    specification states about them. *)

From stdpp Require Import gmap strings list.
From Stdlib Require Import ZArith Lia Ascii.

Set Warnings "-register-all".

Local Open Scope Z_scope.

(** ** C integer conversions *)

(** Conversion to an unsigned type of [w] bits. *)
Definition wrap_unsigned (w z : Z) : Z := z mod 2 ^ w.

(** Conversion to a signed type of [w] bits (two's complement). *)
Definition wrap_signed (w z : Z) : Z :=
  (z + 2 ^ (w - 1)) mod 2 ^ w - 2 ^ (w - 1).

Definition to_int (z : Z) : Z := wrap_signed 32 z.
Definition to_uint (z : Z) : Z := wrap_unsigned 32 z.

Definition int_range (z : Z) : Prop := - 2 ^ 31 <= z < 2 ^ 31.
Definition uint_range (z : Z) : Prop := 0 <= z < 2 ^ 32.

(** ** A monad for kernel code: state, fault, and a log of recorder calls

    [S] is the state, [E] the type of logged events.  A computation either
    faults (an access through a pointer that designates no object) or ends
    with a value, a new state and the events it emitted, oldest first.  The
    log is an observer's device: the code cannot read it. *)

Inductive outcome (S E A : Type) : Type :=
| Fault : outcome S E A
| Done (v : A) (st : S) (calls : list E) : outcome S E A.

Arguments Fault {S E A}.
Arguments Done {S E A} v st calls.

Definition M (S E A : Type) : Type := S -> outcome S E A.

Definition ret {S E A} (a : A) : M S E A := fun st => Done a st [].

Definition bind {S E A B} (m : M S E A) (k : A -> M S E B) : M S E B :=
  fun st =>
    match m st with
    | Fault => Fault
    | Done a st1 c1 =>
        match k a st1 with
        | Fault => Fault
        | Done b st2 c2 => Done b st2 (c1 ++ c2)
        end
    end.

Definition emit {S E} (e : E) : M S E unit := fun st => Done tt st [e].

Declare Scope kern_scope.
Delimit Scope kern_scope with kern.
Notation "x <- m ;; k" := (bind m (fun x => k))
  (at level 100, m at next level, right associativity) : kern_scope.
Notation "m >> k" := (bind m (fun _ => k))
  (at level 100, k at level 200, right associativity) : kern_scope.
Local Open Scope kern_scope.

(** ** The record and the task structure (include/linux/trace_error.h) *)

(** [const char *]: a null pointer or a pointer to a static string, which
    is identified with its characters. *)
Abbreviation cstr := (option string).

(** struct last_err *)
Record last_err : Type := mk_last_err {
  file : cstr;
  line : Z;   (* unsigned int *)
  errno : Z   (* int *)
}.

(** One invocation of the recorder: the arguments it was called with. *)
Record rec_call : Type := mk_rec_call {
  rc_file : cstr;
  rc_line : Z;
  rc_errno : Z
}.

Definition set_file (v : cstr) (r : last_err) : last_err :=
  {| file := v; line := line r; errno := errno r |}.
Definition set_line (v : Z) (r : last_err) : last_err :=
  {| file := file r; line := v; errno := errno r |}.
Definition set_errno (v : Z) (r : last_err) : last_err :=
  {| file := file r; line := line r; errno := v |}.

Section Kernel.

(** [struct task_struct] is declared in <linux/sched.h>, outside these
    sources: every field but the embedded [last_err] is kept as one
    value of a type [Other].  [Global] is all kernel state that belongs
    to no task. *)
Context {Other Global : Type}.

Record task_struct : Type := mk_task {
  ts_other : Other;
  ts_last_err : last_err
}.

(** Kernel state as one CPU sees it.  Task pointers are addresses. *)
Record kstate : Type := mk_kstate {
  ctx_in_task : bool;        (* what in_task() evaluates to *)
  current : Z;               (* what the macro current evaluates to *)
  tasks : gmap Z task_struct;
  globals : Global
}.

Definition K (A : Type) : Type := M kstate rec_call A.

(** Modelled from the spec: in_task() of <linux/preempt.h>, which is not
    among the sources; it tells whether the code runs with a current-task
    identity, as opposed to interrupt context. *)
Definition in_task : K bool := fun st => Done (ctx_in_task st) st [].

Definition get_current : K Z := fun st => Done (current st) st [].

Definition with_tasks (st : kstate) (ts : gmap Z task_struct) : kstate :=
  {| ctx_in_task := ctx_in_task st; current := current st;
     tasks := ts; globals := globals st |}.

(** A store to one field of [p->last_err]; faults when [p] designates no
    task. *)
Definition store_last_err (p : Z) (upd : last_err -> last_err) : K unit :=
  fun st =>
    match tasks st !! p with
    | None => Fault
    | Some t =>
        Done tt
          (with_tasks st
             (<[p := {| ts_other := ts_other t;
                        ts_last_err := upd (ts_last_err t) |}]> (tasks st)))
          []
    end.

(** void set_last_err(const char *file, unsigned int line, int errno)

    The leading [emit] is the observer's log entry for this invocation;
    the rest is the body of the function. *)
Definition set_last_err (file : cstr) (line errno : Z) : K unit :=
  emit (mk_rec_call file line errno) >>
  t <- in_task ;;
  if negb t then ret tt
  else
    last_err <- get_current ;;
    store_last_err last_err (set_file file) >>
    store_last_err last_err (set_line line) >>
    store_last_err last_err (set_errno errno).

(** #define ERR(errno) ({ set_last_err(__FILE__, __LINE__, errno); errno; })

    A macro: its argument is an expression, evaluated once as the third
    argument of the call (converted to int) and once more as the value
    of the statement expression. *)
Definition ERR (FILE : string) (LINE : Z) (errno : K Z) : K Z :=
  v <- errno ;;
  set_last_err (Some FILE) (to_uint LINE) (to_int v) >>
  errno.

(** The inspection side: the record of the task at [p], if there is one. *)
Definition read_last_err (p : Z) (st : kstate) : option last_err :=
  ts_last_err <$> tasks st !! p.

(** [current] designates a task whenever the code runs in task context. *)
Definition current_valid (st : kstate) : Prop :=
  ctx_in_task st = true -> is_Some (tasks st !! current st).

End Kernel.

Arguments task_struct : clear implicits.
Arguments kstate : clear implicits.
Arguments K : clear implicits.

(** ** Error constants

    The names the embedded functions use.  Their values come from
    include/uapi/asm-generic/errno-base.h, errno.h and include/linux/errno.h
    (and, for EFSCORRUPTED, from fs/xfs/xfs_linux.h), none of which is among
    the sources: the functions below take them as a parameter [errno_of]. *)

Inductive errname : Type :=
| EPERM | ENOENT | EIO | ENXIO | ENOMEM | EACCES | EFAULT | EBUSY | EEXIST
| ENODEV | ENOTDIR | EISDIR | EINVAL | EFBIG | ENOSPC | EROFS | EMLINK
| EDEADLK | ENAMETOOLONG | ENOLCK | ENOTEMPTY | ELOOP | EBADRQC | ETIME
| ENONET | EPROTO | EOVERFLOW | EADDRNOTAVAIL | ENETUNREACH | ECONNABORTED
| ECONNRESET | ETIMEDOUT | ECONNREFUSED | EHOSTDOWN | EHOSTUNREACH
| EREMOTEIO | EDQUOT | ENOMEDIUM | EKEYEXPIRED | EKEYREJECTED | ERFKILL
| ENOIOCTLCMD | ENOTSUPP | EFSCORRUPTED.

(** The values of the Linux 5.8 headers, used to instantiate [errno_of];
    EFSCORRUPTED is xfs's alias of EUCLEAN. *)
Definition linux_errno (e : errname) : Z :=
  match e with
  | EPERM => 1 | ENOENT => 2 | EIO => 5 | ENXIO => 6 | ENOMEM => 12
  | EACCES => 13 | EFAULT => 14 | EBUSY => 16 | EEXIST => 17 | ENODEV => 19
  | ENOTDIR => 20 | EISDIR => 21 | EINVAL => 22 | EFBIG => 27 | ENOSPC => 28
  | EROFS => 30 | EMLINK => 31 | EDEADLK => 35 | ENAMETOOLONG => 36
  | ENOLCK => 37 | ENOTEMPTY => 39 | ELOOP => 40 | EBADRQC => 56
  | ETIME => 62 | ENONET => 64 | EPROTO => 71 | EOVERFLOW => 75
  | EADDRNOTAVAIL => 99 | ENETUNREACH => 101 | ECONNABORTED => 103
  | ECONNRESET => 104 | ETIMEDOUT => 110 | ECONNREFUSED => 111
  | EHOSTDOWN => 112 | EHOSTUNREACH => 113 | EREMOTEIO => 121 | EDQUOT => 122
  | ENOMEDIUM => 123 | EKEYEXPIRED => 127 | EKEYREJECTED => 129
  | ERFKILL => 132 | ENOIOCTLCMD => 515 | ENOTSUPP => 524
  | EFSCORRUPTED => 117
  end.

(** ** sound/core/hwdep_compat.c *)

(** The members of struct snd_hwdep_dsp_image32 and of struct
    snd_hwdep_dsp_image that the function reads and writes one by one. *)
Inductive image_member : Type := m_image | m_length | m_driver_data.

Section HwdepCompat.

Context {Other Global : Type}.
Variable errno_of : errname -> Z.

(** What the file takes from outside.  The user-space access primitives
    belong to arch/, which spatch_errors.sh leaves alone: they are given
    by their results.  The functions of sound/core/hwdep.c and the
    driver's callback are computations, which may record. *)
Record hwdep_ext : Type := mk_hwdep_ext {
  sizeof_dsp_image : Z;                      (* sizeof(struct snd_hwdep_dsp_image) *)
  compat_alloc_user_space : Z -> Z;
  compat_ptr : Z -> Z;
  copy_in_user : Z -> Z -> Z -> Z;           (* to, from, n: bytes left *)
  get_user : Z -> image_member -> Z * Z;     (* &src->m: (result, value read) *)
  put_user : Z -> Z -> image_member -> Z;    (* value, &dst->m: result *)
  snd_hwdep_dsp_load : Z -> Z -> K Other Global Z;
  snd_hwdep_ioctl : Z -> Z -> Z -> K Other Global Z;
  private_data : Z -> Z;                     (* file->private_data *)
  ioctl_compat : Z -> option (Z -> Z -> Z -> Z -> K Other Global Z);
                                             (* hw->ops.ioctl_compat, if set *)
  SNDRV_HWDEP_IOCTL_PVERSION : Z;
  SNDRV_HWDEP_IOCTL_INFO : Z;
  SNDRV_HWDEP_IOCTL_DSP_STATUS : Z;
  SNDRV_HWDEP_IOCTL_DSP_LOAD32 : Z
}.

Variable X : hwdep_ext.

Definition hwdep_compat_c : string := "sound/core/hwdep_compat.c".

(** C truth of an integer. *)
Definition nonzero (z : Z) : bool := negb (z =? 0).

(** static int snd_hwdep_dsp_load_compat(struct snd_hwdep *hw,
                                         struct snd_hwdep_dsp_image32 __user *src) *)
Definition snd_hwdep_dsp_load_compat (hw src : Z) : K Other Global Z :=
  let dst := compat_alloc_user_space X (sizeof_dsp_image X) in
  (* index and name *)
  if nonzero (copy_in_user X dst src (4 + 64)) then
    ret (- errno_of EFAULT)
  else
  let '(r, ptr) := get_user X src m_image in
  if nonzero r || nonzero (put_user X (compat_ptr X ptr) dst m_image) then
    ret (- errno_of EFAULT)
  else
  let '(r, val) := get_user X src m_length in
  if nonzero r || nonzero (put_user X val dst m_length) then
    ret (- errno_of EFAULT)
  else
  let '(r, val) := get_user X src m_driver_data in
  if nonzero r || nonzero (put_user X val dst m_driver_data) then
    ret (- errno_of EFAULT)
  else
  snd_hwdep_dsp_load X hw dst.

(** static long snd_hwdep_ioctl_compat(struct file * file, unsigned int cmd,
                                       unsigned long arg) *)
Definition snd_hwdep_ioctl_compat (file cmd arg : Z) : K Other Global Z :=
  let hw := private_data X file in
  let argp := compat_ptr X arg in
  if (cmd =? SNDRV_HWDEP_IOCTL_PVERSION X)
     || (cmd =? SNDRV_HWDEP_IOCTL_INFO X)
     || (cmd =? SNDRV_HWDEP_IOCTL_DSP_STATUS X) then
    snd_hwdep_ioctl X file cmd argp
  else if cmd =? SNDRV_HWDEP_IOCTL_DSP_LOAD32 X then
    snd_hwdep_dsp_load_compat hw argp
  else
  match ioctl_compat X hw with
  | Some f => f hw file cmd arg
  | None =>
      v <- ERR hwdep_compat_c 63 (ret (errno_of ENOIOCTLCMD)) ;;
      ret (- v)
  end.

End HwdepCompat.

(** ** sound/soc/intel/common/sst-acpi.c *)

(** struct sst_acpi_desc *)
Record sst_acpi_desc : Type := mk_sst_acpi_desc {
  drv_name : string;
  machines : Z;
  resindex_lpe_base : Z;
  resindex_pcicfg_base : Z;
  resindex_fw_base : Z;
  irqindex_host_ipc : Z;
  resindex_dma_base : Z;
  sst_id : Z;
  dma_engine : Z;
  dma_size : Z
}.

(** struct sst_pdata is declared in sst-dsp.h, outside the sources: it is
    kept as a map from member name to the value assigned, a member never
    assigned being absent (the allocation is zeroed). *)
Abbreviation sst_pdata := (gmap string Z).

(** struct sst_acpi_priv; [desc] and [mach] are pointers, null at first. *)
Record sst_acpi_priv : Type := mk_sst_acpi_priv {
  pdev_mach : Z;
  pdev_pcm : Z;
  priv_pdata : sst_pdata;
  priv_desc : option sst_acpi_desc;
  priv_mach : option Z
}.

(** What devm_kzalloc returns: zeroed memory. *)
Definition zeroed_priv : sst_acpi_priv :=
  {| pdev_mach := 0; pdev_pcm := 0; priv_pdata := ∅;
     priv_desc := None; priv_mach := None |}.

Definition with_pdata (f : sst_pdata -> sst_pdata) (a : sst_acpi_priv)
  : sst_acpi_priv :=
  {| pdev_mach := pdev_mach a; pdev_pcm := pdev_pcm a;
     priv_pdata := f (priv_pdata a);
     priv_desc := priv_desc a; priv_mach := priv_mach a |}.

Definition with_desc_mach (d : sst_acpi_desc) (m : Z) (a : sst_acpi_priv)
  : sst_acpi_priv :=
  {| pdev_mach := pdev_mach a; pdev_pcm := pdev_pcm a;
     priv_pdata := priv_pdata a;
     priv_desc := Some d; priv_mach := Some m |}.

Definition with_pdev_mach (p : Z) (a : sst_acpi_priv) : sst_acpi_priv :=
  {| pdev_mach := p; pdev_pcm := pdev_pcm a; priv_pdata := priv_pdata a;
     priv_desc := priv_desc a; priv_mach := priv_mach a |}.

(** The members of struct snd_soc_acpi_mach (sound/soc-acpi.h) the probe
    reads, with the address of the table entry. *)
Record acpi_mach : Type := mk_acpi_mach {
  mach_addr : Z;
  mach_drv_name : string;
  fw_filename : string
}.

(** struct resource: the two members the probe reads. *)
Record resource : Type := mk_resource { r_start : Z; r_end : Z }.

Section SstAcpi.

Context {Other Global : Type}.
Variable errno_of : errname -> Z.

(** What the file takes from outside.  The driver core, ACPI and the
    firmware loader live under drivers/, which spatch_errors.sh leaves
    alone, so the allocator, the ACPI match and the resource getters are
    given by their results; the other callees are computations. *)
Record sst_ext : Type := mk_sst_ext {
  dev_of : Z -> Z;                                      (* &pdev->dev *)
  devm_kzalloc : Z -> option Z;                         (* null on failure *)
  acpi_match_device : Z -> option sst_acpi_desc;        (* id->driver_data *)
  snd_soc_acpi_find_machine : Z -> K Other Global (option acpi_mach);
  dev_err : Z -> string -> K Other Global unit;
  platform_get_irq : Z -> Z -> Z;
  IORESOURCE_MEM : Z;
  platform_get_resource : Z -> Z -> Z -> option resource;
  resource_size : resource -> Z;
  platform_set_drvdata : Z -> Z -> K Other Global unit;
  set_mach_pdata : Z -> Z -> K Other Global unit;       (* mach->pdata = ... *)
  platform_device_register_data :
    Z -> string -> Z -> Z -> K Other Global Z;
  IS_ERR : Z -> bool;
  PTR_ERR : Z -> Z;
  request_firmware_nowait : string -> Z -> Z -> K Other Global Z;
  platform_device_unregister : Z -> K Other Global unit
}.

Variable X : sst_ext.

Definition sst_acpi_c : string := "sound/soc/intel/common/sst-acpi.c".

(** The block
    [if (idx >= 0) { mmio = platform_get_resource(pdev, IORESOURCE_MEM, idx);
                     if (mmio) { base = mmio->start; size = resource_size(mmio); } }] *)
Definition map_resource (pdev idx : Z) (base size : string)
    (pd : sst_pdata) : sst_pdata :=
  if 0 <=? idx then
    match platform_get_resource X pdev (IORESOURCE_MEM X) idx with
    | Some mmio => <[size := resource_size X mmio]> (<[base := r_start mmio]> pd)
    | None => pd
    end
  else pd.

(** The assignments to *sst_pdata between the machine lookup and
    platform_set_drvdata. *)
Definition fill_pdata (pdev dev : Z) (desc : sst_acpi_desc)
    (pd : sst_pdata) : sst_pdata :=
  let pd := <["id" := sst_id desc]> pd in
  let pd := <["dma_dev" := dev]> pd in
  let pd := <["resindex_dma_base" := resindex_dma_base desc]> pd in
  let pd :=
    if 0 <=? resindex_dma_base desc then
      <["dma_size" := dma_size desc]>
        (<["dma_base" := resindex_dma_base desc]>
           (<["dma_engine" := dma_engine desc]> pd))
    else pd in
  let pd :=
    if 0 <=? irqindex_host_ipc desc then
      <["irq" := platform_get_irq X pdev (irqindex_host_ipc desc)]> pd
    else pd in
  let pd := map_resource pdev (resindex_lpe_base desc) "lpe_base" "lpe_size" pd in
  let pd := map_resource pdev (resindex_pcicfg_base desc)
              "pcicfg_base" "pcicfg_size" pd in
  map_resource pdev (resindex_fw_base desc) "fw_base" "fw_size" pd.

(** static int sst_acpi_probe(struct platform_device *pdev)

    The result is the value returned together with the contents of the
    object allocated for [sst_acpi], if the allocation succeeded. *)
Definition sst_acpi_probe (pdev : Z) : K Other Global (Z * option sst_acpi_priv) :=
  let dev := dev_of X pdev in
  match devm_kzalloc X dev with
  | None => ret (- errno_of ENOMEM, None)
  | Some p =>
  let sst_acpi := zeroed_priv in
  match acpi_match_device X dev with
  | None =>
      v <- ERR sst_acpi_c 91 (ret (errno_of ENODEV)) ;;
      ret (- v, Some sst_acpi)
  | Some desc =>
  mach <- snd_soc_acpi_find_machine X (machines desc) ;;
  match mach with
  | None =>
      dev_err X dev "No matching ASoC machine driver found" >>
      v <- ERR sst_acpi_c 97 (ret (errno_of ENODEV)) ;;
      ret (- v, Some sst_acpi)
  | Some mach =>
  let sst_acpi :=
    with_pdata (fill_pdata pdev dev desc)
      (with_desc_mach desc (mach_addr mach) sst_acpi) in
  platform_set_drvdata X pdev p >>
  set_mach_pdata X (mach_addr mach) p >>
  (* register machine driver *)
  pm <- platform_device_register_data X dev (mach_drv_name mach) (-1)
          (mach_addr mach) ;;
  let sst_acpi := with_pdev_mach pm sst_acpi in
  if IS_ERR X pm then ret (to_int (PTR_ERR X pm), Some sst_acpi)
  else
  (* continue SST probing after firmware is loaded *)
  r <- request_firmware_nowait X (fw_filename mach) dev pdev ;;
  if nonzero r then
    platform_device_unregister X pm >> ret (r, Some sst_acpi)
  else ret (r, Some sst_acpi)
  end end end.

End SstAcpi.

(** ** fs/afs/misc.c *)

(** The abort codes that label the cases of afs_abort_to_error.  They are
    enumerators of afs_fs.h, afs_vl.h, protocol_uae.h and rxrpc/packet.h,
    outside the sources: their values are a parameter [abort_val]. *)
Inductive abort_name : Type :=
| VSALVAGE | VNOVNODE | VNOVOL | VVOLEXISTS | VNOSERVICE | VOFFLINE | VONLINE
| VDISKFULL | VOVERQUOTA | VBUSY | VMOVED | AFSVL_IDEXIST | AFSVL_IO
| AFSVL_NAMEEXIST | AFSVL_CREATEFAIL | AFSVL_NOENT | AFSVL_EMPTY
| AFSVL_ENTDELETED | AFSVL_BADNAME | AFSVL_BADINDEX | AFSVL_BADVOLTYPE
| AFSVL_BADSERVER | AFSVL_BADPARTITION | AFSVL_REPSFULL | AFSVL_NOREPSERVER
| AFSVL_DUPREPSERVER | AFSVL_RWNOTFOUND | AFSVL_BADREFCOUNT
| AFSVL_SIZEEXCEEDED | AFSVL_BADENTRY | AFSVL_BADVOLIDBUMP
| AFSVL_IDALREADYHASHED | AFSVL_ENTRYLOCKED | AFSVL_BADVOLOPER
| AFSVL_BADRELLOCKTYPE | AFSVL_RERELEASE | AFSVL_BADSERVERFLAG | AFSVL_PERM
| AFSVL_NOMEM | UAEPERM | UAENOENT | UAEACCES | UAEBUSY | UAEEXIST
| UAENOTDIR | UAEISDIR | UAEFBIG | UAENOSPC | UAEROFS | UAEMLINK | UAEDEADLK
| UAENAMETOOLONG | UAENOLCK | UAENOTEMPTY | UAELOOP | UAEOVERFLOW
| UAENOMEDIUM | UAEDQUOT | RXKADINCONSISTENCY | RXKADPACKETSHORT
| RXKADLEVELFAIL | RXKADTICKETLEN | RXKADOUTOFSEQUENCE | RXKADNOAUTH
| RXKADBADKEY | RXKADBADTICKET | RXKADUNKNOWNKEY | RXKADEXPIRED
| RXKADSEALEDINCON | RXKADDATALEN | RXKADILLEGALLEVEL | RXGEN_OPCODE.

(** A sample assignment of distinct values, patterned on those headers,
    to instantiate [abort_val]. *)
Definition sample_abort_val (a : abort_name) : Z :=
  match a with
  | VSALVAGE => 101 | VNOVNODE => 102 | VNOVOL => 103 | VVOLEXISTS => 104
  | VNOSERVICE => 105 | VOFFLINE => 106 | VONLINE => 107 | VDISKFULL => 108
  | VOVERQUOTA => 109 | VBUSY => 110 | VMOVED => 111
  | AFSVL_IDEXIST => 363520 | AFSVL_IO => 363521 | AFSVL_NAMEEXIST => 363522
  | AFSVL_CREATEFAIL => 363523 | AFSVL_NOENT => 363524
  | AFSVL_EMPTY => 363525 | AFSVL_ENTDELETED => 363526
  | AFSVL_BADNAME => 363527 | AFSVL_BADINDEX => 363528
  | AFSVL_BADVOLTYPE => 363529 | AFSVL_BADSERVER => 363530
  | AFSVL_BADPARTITION => 363531 | AFSVL_REPSFULL => 363532
  | AFSVL_NOREPSERVER => 363533 | AFSVL_DUPREPSERVER => 363534
  | AFSVL_RWNOTFOUND => 363535 | AFSVL_BADREFCOUNT => 363536
  | AFSVL_SIZEEXCEEDED => 363537 | AFSVL_BADENTRY => 363538
  | AFSVL_BADVOLIDBUMP => 363539 | AFSVL_IDALREADYHASHED => 363540
  | AFSVL_ENTRYLOCKED => 363541 | AFSVL_BADVOLOPER => 363542
  | AFSVL_BADRELLOCKTYPE => 363543 | AFSVL_RERELEASE => 363544
  | AFSVL_BADSERVERFLAG => 363545 | AFSVL_PERM => 363546
  | AFSVL_NOMEM => 363547 | UAEPERM => 49733377 | UAENOENT => 49733378
  | UAEACCES => 49733389 | UAEBUSY => 49733392 | UAEEXIST => 49733393
  | UAENOTDIR => 49733396 | UAEISDIR => 49733397 | UAEFBIG => 49733403
  | UAENOSPC => 49733404 | UAEROFS => 49733406 | UAEMLINK => 49733407
  | UAEDEADLK => 49733411 | UAENAMETOOLONG => 49733412 | UAENOLCK => 49733413
  | UAENOTEMPTY => 49733415 | UAELOOP => 49733416 | UAEOVERFLOW => 49733451
  | UAENOMEDIUM => 49733499 | UAEDQUOT => 49733498
  | RXKADINCONSISTENCY => 19270400 | RXKADPACKETSHORT => 19270401
  | RXKADLEVELFAIL => 19270402 | RXKADTICKETLEN => 19270403
  | RXKADOUTOFSEQUENCE => 19270404 | RXKADNOAUTH => 19270405
  | RXKADBADKEY => 19270406 | RXKADBADTICKET => 19270407
  | RXKADUNKNOWNKEY => 19270408 | RXKADEXPIRED => 19270409
  | RXKADSEALEDINCON => 19270410 | RXKADDATALEN => 19270411
  | RXKADILLEGALLEVEL => 19270412 | RXGEN_OPCODE => (-455)
  end.

(** struct afs_error (fs/afs/internal.h). *)
Record afs_error : Type := mk_afs_error {
  error : Z;
  responded : bool
}.

Section AfsMisc.

Context {Other Global : Type}.
Variable errno_of : errname -> Z.
Variable abort_val : abort_name -> Z.
(** The conversion from int to the declared type of the member [error],
    which internal.h fixes. *)
Variable to_error_member : Z -> Z.

Definition afs_misc_c : string := "fs/afs/misc.c".

(** The cases of the switch of afs_abort_to_error, in source order: the
    label, the line of its return statement and the constant returned. *)
Definition afs_abort_cases : list (Z * (Z * errname)) :=
  [
    (13, (22, EACCES)); (27, (23, EFBIG)); (30, (24, EROFS));
    (abort_val VSALVAGE, (27, EIO)); (abort_val VNOVNODE, (28, ENOENT));
    (abort_val VNOVOL, (29, ENOMEDIUM));
    (abort_val VVOLEXISTS, (30, EEXIST));
    (abort_val VNOSERVICE, (31, EIO)); (abort_val VOFFLINE, (32, ENOENT));
    (abort_val VONLINE, (33, EEXIST)); (abort_val VDISKFULL, (34, ENOSPC));
    (abort_val VOVERQUOTA, (35, EDQUOT)); (abort_val VBUSY, (36, EBUSY));
    (abort_val VMOVED, (37, ENXIO));
    (abort_val AFSVL_IDEXIST, (40, EEXIST));
    (abort_val AFSVL_IO, (41, EREMOTEIO));
    (abort_val AFSVL_NAMEEXIST, (42, EEXIST));
    (abort_val AFSVL_CREATEFAIL, (43, EREMOTEIO));
    (abort_val AFSVL_NOENT, (44, ENOMEDIUM));
    (abort_val AFSVL_EMPTY, (45, ENOMEDIUM));
    (abort_val AFSVL_ENTDELETED, (46, ENOMEDIUM));
    (abort_val AFSVL_BADNAME, (47, EINVAL));
    (abort_val AFSVL_BADINDEX, (48, EINVAL));
    (abort_val AFSVL_BADVOLTYPE, (49, EINVAL));
    (abort_val AFSVL_BADSERVER, (50, EINVAL));
    (abort_val AFSVL_BADPARTITION, (51, EINVAL));
    (abort_val AFSVL_REPSFULL, (52, EFBIG));
    (abort_val AFSVL_NOREPSERVER, (53, ENOENT));
    (abort_val AFSVL_DUPREPSERVER, (54, EEXIST));
    (abort_val AFSVL_RWNOTFOUND, (55, ENOENT));
    (abort_val AFSVL_BADREFCOUNT, (56, EINVAL));
    (abort_val AFSVL_SIZEEXCEEDED, (57, EINVAL));
    (abort_val AFSVL_BADENTRY, (58, EINVAL));
    (abort_val AFSVL_BADVOLIDBUMP, (59, EINVAL));
    (abort_val AFSVL_IDALREADYHASHED, (60, EINVAL));
    (abort_val AFSVL_ENTRYLOCKED, (61, EBUSY));
    (abort_val AFSVL_BADVOLOPER, (62, EBADRQC));
    (abort_val AFSVL_BADRELLOCKTYPE, (63, EINVAL));
    (abort_val AFSVL_RERELEASE, (64, EREMOTEIO));
    (abort_val AFSVL_BADSERVERFLAG, (65, EINVAL));
    (abort_val AFSVL_PERM, (66, EACCES));
    (abort_val AFSVL_NOMEM, (67, EREMOTEIO));
    (abort_val UAEPERM, (70, EPERM)); (abort_val UAENOENT, (71, ENOENT));
    (abort_val UAEACCES, (72, EACCES)); (abort_val UAEBUSY, (73, EBUSY));
    (abort_val UAEEXIST, (74, EEXIST));
    (abort_val UAENOTDIR, (75, ENOTDIR));
    (abort_val UAEISDIR, (76, EISDIR)); (abort_val UAEFBIG, (77, EFBIG));
    (abort_val UAENOSPC, (78, ENOSPC)); (abort_val UAEROFS, (79, EROFS));
    (abort_val UAEMLINK, (80, EMLINK));
    (abort_val UAEDEADLK, (81, EDEADLK));
    (abort_val UAENAMETOOLONG, (82, ENAMETOOLONG));
    (abort_val UAENOLCK, (83, ENOLCK));
    (abort_val UAENOTEMPTY, (84, ENOTEMPTY));
    (abort_val UAELOOP, (85, ELOOP));
    (abort_val UAEOVERFLOW, (86, EOVERFLOW));
    (abort_val UAENOMEDIUM, (87, ENOMEDIUM));
    (abort_val UAEDQUOT, (88, EDQUOT));
    (abort_val RXKADINCONSISTENCY, (91, EPROTO));
    (abort_val RXKADPACKETSHORT, (92, EPROTO));
    (abort_val RXKADLEVELFAIL, (93, EKEYREJECTED));
    (abort_val RXKADTICKETLEN, (94, EKEYREJECTED));
    (abort_val RXKADOUTOFSEQUENCE, (95, EPROTO));
    (abort_val RXKADNOAUTH, (96, EKEYREJECTED));
    (abort_val RXKADBADKEY, (97, EKEYREJECTED));
    (abort_val RXKADBADTICKET, (98, EKEYREJECTED));
    (abort_val RXKADUNKNOWNKEY, (99, EKEYREJECTED));
    (abort_val RXKADEXPIRED, (100, EKEYEXPIRED));
    (abort_val RXKADSEALEDINCON, (101, EKEYREJECTED));
    (abort_val RXKADDATALEN, (102, EKEYREJECTED));
    (abort_val RXKADILLEGALLEVEL, (103, EKEYREJECTED));
    (abort_val RXGEN_OPCODE, (105, ENOTSUPP))
  ].

(** The first case whose label, converted to the type of the controlling
    expression, equals [code]. *)
Fixpoint switch_u32 {A} (cases : list (Z * A)) (code : Z) : option A :=
  match cases with
  | [] => None
  | (label, a) :: rest =>
      if code =? to_uint label then Some a else switch_u32 rest code
  end.

(** int afs_abort_to_error(u32 abort_code) *)
Definition afs_abort_to_error (abort_code : Z) : K Other Global Z :=
  match switch_u32 afs_abort_cases abort_code with
  | Some (l, e) => v <- ERR afs_misc_c l (ret (errno_of e)) ;; ret (- v)
  | None => v <- ERR afs_misc_c 107 (ret (errno_of EREMOTEIO)) ;; ret (- v)
  end.

Definition set_error (v : Z) (e : afs_error) : afs_error :=
  {| error := to_error_member v; responded := responded e |}.

Definition is_err (e : afs_error) (n : errname) : bool :=
  error e =? - errno_of n.

(** The labelled statements of the switch of afs_prioritise_error, last
    first; each falls through into the one defined before it. *)
Definition at_ECONNRESET (e : afs_error) (error : Z) : afs_error :=
  if responded e then e else set_error error e.
Definition at_ECONNREFUSED (e : afs_error) (error : Z) : afs_error :=
  if is_err e ECONNRESET then e else at_ECONNRESET e error.
Definition at_EHOSTDOWN (e : afs_error) (error : Z) : afs_error :=
  if is_err e ECONNREFUSED then e else at_ECONNREFUSED e error.
Definition at_EHOSTUNREACH (e : afs_error) (error : Z) : afs_error :=
  if is_err e EHOSTDOWN then e else at_EHOSTDOWN e error.
Definition at_ENETUNREACH (e : afs_error) (error : Z) : afs_error :=
  if is_err e EHOSTUNREACH then e else at_EHOSTUNREACH e error.
Definition at_EADDRNOTAVAIL (e : afs_error) (error : Z) : afs_error :=
  if is_err e ENETUNREACH then e else at_ENETUNREACH e error.
Definition at_ERFKILL (e : afs_error) (error : Z) : afs_error :=
  if is_err e EADDRNOTAVAIL then e else at_EADDRNOTAVAIL e error.
Definition at_ENOMEM (e : afs_error) (error : Z) : afs_error :=
  if is_err e ERFKILL then e else at_ERFKILL e error.
Definition at_ETIMEDOUT (e : afs_error) (error : Z) : afs_error :=
  if is_err e ENOMEM || is_err e ENONET then e else at_ENOMEM e error.
Definition at_default (e : afs_error) (error : Z) : afs_error :=
  if is_err e ETIMEDOUT || is_err e ETIME then e else at_ETIMEDOUT e error.

Definition is_code (error : Z) (n : errname) : bool :=
  error =? - errno_of n.

(** void afs_prioritise_error(struct afs_error *e, int error, u32 abort_code)

    The object [*e] is passed in and its final contents returned.  The
    case labels are tried in source order. *)
Definition afs_prioritise_error (e : afs_error) (error abort_code : Z)
  : K Other Global afs_error :=
  if error =? 0 then ret e
  else if is_code error ETIMEDOUT || is_code error ETIME then
    ret (at_ETIMEDOUT e error)
  else if is_code error ENOMEM || is_code error ENONET then
    ret (at_ENOMEM e error)
  else if is_code error ERFKILL then ret (at_ERFKILL e error)
  else if is_code error EADDRNOTAVAIL then ret (at_EADDRNOTAVAIL e error)
  else if is_code error ENETUNREACH then ret (at_ENETUNREACH e error)
  else if is_code error EHOSTUNREACH then ret (at_EHOSTUNREACH e error)
  else if is_code error EHOSTDOWN then ret (at_EHOSTDOWN e error)
  else if is_code error ECONNREFUSED then ret (at_ECONNREFUSED e error)
  else if is_code error ECONNRESET then ret (at_ECONNRESET e error)
  else if is_code error ECONNABORTED then
    v <- afs_abort_to_error abort_code ;;
    ret {| error := to_error_member v; responded := true |}
  else ret (at_default e error).

End AfsMisc.


(** ** fs/xfs/xfs_acl.c *)

(** struct xfs_acl_entry and struct xfs_acl: the on-disk form, big endian. *)
Record xfs_acl_entry : Type := mk_xfs_acl_entry {
  ae_tag : Z;
  ae_id : Z;
  ae_perm : Z
}.

Record xfs_acl : Type := mk_xfs_acl {
  acl_cnt : Z;
  acl_entry : list xfs_acl_entry
}.

(** The anonymous union of struct posix_acl_entry; [id_unset] when neither
    member has been written. *)
Inductive acl_id : Type := id_unset | id_uid (u : Z) | id_gid (g : Z).

Record posix_acl_entry : Type := mk_posix_acl_entry {
  e_tag : Z;
  e_perm : Z;
  e_id : acl_id
}.

(** A [struct posix_acl *] result: the entries of the ACL, or ERR_PTR(code). *)
Inductive acl_or_err : Type :=
| acl_ptr (a_entries : list posix_acl_entry)
| ERR_PTR (code : Z).

(** How the loop of xfs_acl_from_disk ends. *)
Inductive loop_end : Type :=
| loop_done (a_entries : list posix_acl_entry)
| loop_fail                      (* goto fail *)
| loop_beyond.                   (* a read past the end of the buffer *)

Section XfsAcl.

Context {Other Global : Type}.
Variable errno_of : errname -> Z.

(** What the file takes from outside. *)
Record xfs_ext : Type := mk_xfs_ext {
  size_t_bits : Z;                              (* width of size_t *)
  sizeof_xfs_acl : Z;                           (* sizeof(struct xfs_acl) *)
  XFS_ACL_SIZE : Z -> Z;
  XFS_CORRUPTION_ERROR : Z -> xfs_acl -> Z -> K Other Global unit;
  be32_to_cpu : Z -> Z;
  be16_to_cpu : Z -> Z;
  posix_acl_alloc : Z -> K Other Global bool;   (* false: a null pointer *)
  posix_acl_release : K Other Global unit;
  make_kuid : Z -> Z;
  make_kgid : Z -> Z;
  ACL_USER_OBJ : Z; ACL_USER : Z; ACL_GROUP_OBJ : Z;
  ACL_GROUP : Z; ACL_MASK : Z; ACL_OTHER : Z
}.

Variable X : xfs_ext.

Definition xfs_acl_c : string := "fs/xfs/xfs_acl.c".

(** The body of the for loop for one entry; [None] is the default case of
    the switch. *)
Definition entry_from_disk (ace : xfs_acl_entry) : option posix_acl_entry :=
  (* The tag is 32 bits on disk and 16 bits in core. *)
  let tag := wrap_signed 16 (be32_to_cpu X (ae_tag ace)) in
  let perm := be16_to_cpu X (ae_perm ace) in
  if tag =? ACL_USER X then
    Some {| e_tag := tag; e_perm := perm;
            e_id := id_uid (make_kuid X (be32_to_cpu X (ae_id ace))) |}
  else if tag =? ACL_GROUP X then
    Some {| e_tag := tag; e_perm := perm;
            e_id := id_gid (make_kgid X (be32_to_cpu X (ae_id ace))) |}
  else if (tag =? ACL_USER_OBJ X) || (tag =? ACL_GROUP_OBJ X)
          || (tag =? ACL_MASK X) || (tag =? ACL_OTHER X) then
    Some {| e_tag := tag; e_perm := perm; e_id := id_unset |}
  else None.

(** for (i = 0; i < count; i++) ..., with [n] iterations left from index
    [i] and [filled] the entries converted so far. *)
Fixpoint from_disk_loop (aclp : xfs_acl) (i n : nat)
    (filled : list posix_acl_entry) : loop_end :=
  match n with
  | O => loop_done filled
  | S n' =>
      match acl_entry aclp !! i with
      | None => loop_beyond
      | Some ace =>
          match entry_from_disk ace with
          | None => loop_fail
          | Some acl_e => from_disk_loop aclp (S i) n' (filled ++ [acl_e])
          end
      end
  end.

(** STATIC struct posix_acl *
    xfs_acl_from_disk(struct xfs_mount *mp, const struct xfs_acl *aclp,
                      int len, int max_entries) *)
Definition xfs_acl_from_disk (mp : Z) (aclp : xfs_acl) (len max_entries : Z)
  : K Other Global acl_or_err :=
  if wrap_unsigned (size_t_bits X) len <? sizeof_xfs_acl X then
    XFS_CORRUPTION_ERROR X mp aclp len >>
    ret (ERR_PTR (- errno_of EFSCORRUPTED))
  else
  let count := to_uint (be32_to_cpu X (acl_cnt aclp)) in
  if (to_uint max_entries <? count)
     || negb (XFS_ACL_SIZE X count =? wrap_unsigned (size_t_bits X) len) then
    XFS_CORRUPTION_ERROR X mp aclp len >>
    ret (ERR_PTR (- errno_of EFSCORRUPTED))
  else
  acl <- posix_acl_alloc X (to_int count) ;;
  if negb acl then ret (ERR_PTR (- errno_of ENOMEM))
  else
  match from_disk_loop aclp 0 (Z.to_nat count) [] with
  | loop_done a_entries => ret (acl_ptr a_entries)
  | loop_fail =>
      posix_acl_release X >>
      v <- ERR xfs_acl_c 92 (ret (errno_of EINVAL)) ;;
      ret (ERR_PTR (- v))
  | loop_beyond => fun _ => Fault
  end.

End XfsAcl.


(** ** spatch_errors.sh: the list of error names *)

Local Open Scope string_scope.

Definition is_space (c : ascii) : bool :=       (* grep's \s *)
  let n := nat_of_ascii c in
  ((n =? 32) || ((9 <=? n) && (n <=? 13)))%nat.

Definition is_blank (c : ascii) : bool :=       (* awk's field separators *)
  let n := nat_of_ascii c in
  ((n =? 32) || (n =? 9) || (n =? 10))%nat.

Definition is_digit_char (c : ascii) : bool :=  (* [0-9] *)
  let n := nat_of_ascii c in ((48 <=? n) && (n <=? 57))%nat.

Definition is_upper_or_digit (c : ascii) : bool :=   (* [A-Z0-9] *)
  let n := nat_of_ascii c in
  (((65 <=? n) && (n <=? 90)) || is_digit_char c)%nat.

(** The longest prefix whose characters satisfy [p], and what follows. *)
Fixpoint span (p : ascii -> bool) (s : string) : string * string :=
  match s with
  | String c s' =>
      if p c then let '(a, b) := span p s' in (String c a, b)
      else (EmptyString, s)
  | EmptyString => (EmptyString, EmptyString)
  end.

Fixpoint strip_prefix (pre s : string) : option string :=
  match pre, s with
  | EmptyString, _ => Some s
  | String a pre', String b s' =>
      if Ascii.eqb a b then strip_prefix pre' s' else None
  | String _ _, EmptyString => None
  end.

Definition is_empty (s : string) : bool :=
  match s with EmptyString => true | _ => false end.

(** grep '^#define\s\+E[A-Z0-9]\+\s\+[0-9]\+' *)
Definition grep_define (l : string) : bool :=
  match strip_prefix "#define" l with
  | None => false
  | Some r =>
      let '(ws1, r) := span is_space r in
      match r with
      | String "E" r =>
          let '(nm, r) := span is_upper_or_digit r in
          let '(ws2, r) := span is_space r in
          let '(ds, _) := span is_digit_char r in
          negb (is_empty ws1) && negb (is_empty nm)
          && negb (is_empty ws2) && negb (is_empty ds)
      | _ => false
      end
  end.

(** awk '{print $2}' *)
Definition awk_second_field (l : string) : string :=
  let '(_, r) := span is_blank l in
  let '(_, r) := span (fun c => negb (is_blank c)) r in
  let '(_, r) := span is_blank r in
  fst (span (fun c => negb (is_blank c)) r).

(** Whether [needle] occurs in [s]. *)
Fixpoint contains (needle s : string) : bool :=
  match strip_prefix needle s with
  | Some _ => true
  | None =>
      match s with
      | String _ s' => contains needle s'
      | EmptyString => false
      end
  end.

(** grep -Ev '(ENOMEM|EFAULT)' keeps the lines this holds of.
    IGNORE_ERRORS='(ENOMEM|EFAULT)' *)
Definition not_ignored (name : string) : bool :=
  negb (contains "ENOMEM" name || contains "EFAULT" name).

(** The names that make up $ERRORS, from the lines of the three errno
    headers (which are not among the sources).  sort -u orders the names
    and drops repetitions; the pattern built from them is a disjunction,
    so only the repetitions are dropped here. *)
Definition ERRORS (headers : list string) : list string :=
  filter (fun n => not_ignored n = true)
    (remove_dups (map awk_second_field
                    (filter (fun l => grep_define l = true) headers))).

(** ** spatch_errors.sh: the semantic patch *)

(** C expressions, as far as the patch tells them apart. *)
Inductive expr : Type :=
| EId (x : string)
| ENum (n : Z)
| EUnop (op : string) (a : expr)
| EBinop (op : string) (a b : expr)
| ECond (c a b : expr)
| EMember (a : expr) (m : string)
| ECall (f : string) (args : list expr).

(** C statements. *)
Inductive stmt : Type :=
| SSkip
| SSeq (s1 s2 : stmt)
| SExpr (e : expr)
| SAssign (var1 rhs : expr)                (* var1 = rhs; *)
| SDecl (T var2 : string) (init : expr)    (* T var2 = init; *)
| SReturn (e : expr)                       (* return e; *)
| SReturnVoid
| SIf (c : expr) (s1 s2 : stmt)
| SWhile (c : expr) (s : stmt)
| SSwitch (c : expr) (body : stmt)
| SCase (label : expr) (s : stmt)
| SDefault (s : stmt).

Section Patch.

(** $ERRORS *)
Variable errors : list string.

(** The second rule, [- E@p + ERR(E)], at every position [p] the first rule
    binds inside an expression: each occurrence of a listed name, at any
    depth ([<+... ...+>]). *)
Fixpoint wrap_errors (e : expr) : expr :=
  match e with
  | EId x => if bool_decide (x ∈ errors) then ECall "ERR" [EId x] else EId x
  | ENum n => ENum n
  | EUnop op a => EUnop op (wrap_errors a)
  | EBinop op a b => EBinop op (wrap_errors a) (wrap_errors b)
  | ECond c a b => ECond (wrap_errors c) (wrap_errors a) (wrap_errors b)
  | EMember a m => EMember (wrap_errors a) m
  | ECall f args => ECall f (map wrap_errors args)
  end.

(** The first rule selects the right-hand side of an assignment statement,
    the initialiser of a declaration and the operand of a return; the
    patch is applied to every statement of a file. *)
Fixpoint spatch (s : stmt) : stmt :=
  match s with
  | SSkip => SSkip
  | SSeq s1 s2 => SSeq (spatch s1) (spatch s2)
  | SExpr e => SExpr e
  | SAssign var1 rhs => SAssign var1 (wrap_errors rhs)
  | SDecl T var2 init => SDecl T var2 (wrap_errors init)
  | SReturn e => SReturn (wrap_errors e)
  | SReturnVoid => SReturnVoid
  | SIf c s1 s2 => SIf c (spatch s1) (spatch s2)
  | SWhile c s => SWhile c (spatch s)
  | SSwitch c body => SSwitch c (spatch body)
  | SCase label s => SCase label (spatch s)
  | SDefault s => SDefault (spatch s)
  end.

End Patch.

(** The expressions in positions that steer control: the conditions of if
    and while, the controlling expression of a switch, the case labels. *)
Fixpoint guards (s : stmt) : list expr :=
  match s with
  | SSeq s1 s2 => guards s1 ++ guards s2
  | SIf c s1 s2 => c :: guards s1 ++ guards s2
  | SWhile c s => c :: guards s
  | SSwitch c body => c :: guards body
  | SCase label s => label :: guards s
  | SDefault s => guards s
  | _ => []
  end.

(** How many times a name of [errors] occurs in an expression. *)
Fixpoint occurrences (errors : list string) (e : expr) : nat :=
  match e with
  | EId x => if bool_decide (x ∈ errors) then 1 else 0
  | ENum _ => 0
  | EUnop _ a => occurrences errors a
  | EBinop _ a b => occurrences errors a + occurrences errors b
  | ECond c a b =>
      occurrences errors c + occurrences errors a + occurrences errors b
  | EMember a _ => occurrences errors a
  | ECall _ args => list_sum (map (occurrences errors) args)
  end%nat.

(** How many calls of ERR an expression holds. *)
Fixpoint wrappers (e : expr) : nat :=
  match e with
  | EId _ | ENum _ => 0
  | EUnop _ a | EMember a _ => wrappers a
  | EBinop _ a b => wrappers a + wrappers b
  | ECond c a b => wrappers c + wrappers a + wrappers b
  | ECall f args =>
      (if String.eqb f "ERR" then 1 else 0) + list_sum (map wrappers args)
  end%nat.


(** How many times a name of [errors] occurs in an expression without
    being the argument of ERR. *)
Fixpoint bare (errors : list string) (e : expr) : nat :=
  match e with
  | EId x => if bool_decide (x ∈ errors) then 1 else 0
  | ENum _ => 0
  | EUnop _ a | EMember a _ => bare errors a
  | EBinop _ a b => bare errors a + bare errors b
  | ECond c a b => bare errors c + bare errors a + bare errors b
  | ECall f args =>
      if String.eqb f "ERR" then
        match args with
        | [EId _] => 0
        | _ => list_sum (map (bare errors) args)
        end
      else list_sum (map (bare errors) args)
  end%nat.

(** The same count over the three positions the patch selects, in every
    statement. *)
Fixpoint bare_rvalues (errors : list string) (s : stmt) : nat :=
  match s with
  | SAssign _ rhs => bare errors rhs
  | SDecl _ _ init => bare errors init
  | SReturn e => bare errors e
  | SSeq s1 s2 | SIf _ s1 s2 => bare_rvalues errors s1 + bare_rvalues errors s2
  | SWhile _ s | SSwitch _ s | SCase _ s | SDefault s => bare_rvalues errors s
  | SSkip | SExpr _ | SReturnVoid => 0
  end%nat.

Local Open Scope Z_scope.

(** ** Evaluating the expressions the patch produces *)

Section Denote.

Context {Other Global : Type}.

(** The value of each identifier that names an integer constant. *)
Variable value_of : string -> option Z.
(** __FILE__ and __LINE__ where the expression stands. *)
Variable FILE : string.
Variable LINE : Z.

(** The computation an expression stands for, for integer constants, unary
    minus and calls of the macro ERR; [None] for any other expression. *)
Fixpoint denote (e : expr) : option (K Other Global Z) :=
  match e with
  | EId x => (fun v => ret v) <$> value_of x
  | ENum n => Some (ret n)
  | EUnop op a =>
      if String.eqb op "-" then
        (fun m => v <- m ;; ret (- v)) <$> denote a
      else None
  | ECall f args =>
      if String.eqb f "ERR" then
        match args with
        | [a] => ERR FILE LINE <$> denote a
        | _ => None
        end
      else None
  | _ => None
  end.

End Denote.

(** ** A task recording several errors in a row *)

Definition as_record (c : rec_call) : last_err :=
  {| file := rc_file c; line := rc_line c; errno := rc_errno c |}.

Fixpoint record_all {Other Global : Type} (cs : list rec_call)
  : K Other Global unit :=
  match cs with
  | [] => ret tt
  | c :: cs' =>
      set_last_err (rc_file c) (rc_line c) (rc_errno c) >> record_all cs'
  end.

(** The return statement [return -ERR(X);] at line [LINE] of [FILE]. *)
Definition return_neg_ERR {Other Global : Type} (FILE : string) (LINE X : Z)
  : K Other Global Z :=
  v <- ERR FILE LINE (ret X) ;; ret (- v).

(** ** Conditions the statements use *)

(** Whether one of the user-space copies of snd_hwdep_dsp_load_compat
    fails, in the order the function makes them. *)
Definition a_user_copy_fails {Other Global : Type}
    (X : @hwdep_ext Other Global) (src : Z) : bool :=
  let dst := compat_alloc_user_space X (sizeof_dsp_image X) in
  nonzero (copy_in_user X dst src (4 + 64))
  || (let '(r, ptr) := get_user X src m_image in
      nonzero r || nonzero (put_user X (compat_ptr X ptr) dst m_image))
  || (let '(r, val) := get_user X src m_length in
      nonzero r || nonzero (put_user X val dst m_length))
  || (let '(r, val) := get_user X src m_driver_data in
      nonzero r || nonzero (put_user X val dst m_driver_data)).

(** Whether an ioctl command is one of the four cases of the switch of
    snd_hwdep_ioctl_compat. *)
Definition hwdep_known_cmd {Other Global : Type}
    (X : @hwdep_ext Other Global) (cmd : Z) : bool :=
  (cmd =? SNDRV_HWDEP_IOCTL_PVERSION X) || (cmd =? SNDRV_HWDEP_IOCTL_INFO X)
  || (cmd =? SNDRV_HWDEP_IOCTL_DSP_STATUS X)
  || (cmd =? SNDRV_HWDEP_IOCTL_DSP_LOAD32 X).

(** No earlier case label of the switch of afs_prioritise_error has the
    value of -ECONNABORTED (C requires the labels to differ). *)
Definition ECONNABORTED_label_differs (errno_of : errname -> Z) : Prop :=
  errno_of ECONNABORTED <> 0
  /\ Forall (fun n => errno_of ECONNABORTED <> errno_of n)
       [ETIMEDOUT; ETIME; ENOMEM; ENONET; ERFKILL; EADDRNOTAVAIL;
        ENETUNREACH; EHOSTUNREACH; EHOSTDOWN; ECONNREFUSED; ECONNRESET].

(** ** Sample inputs *)

(** Two tasks, the first one running in task context; no other state. *)
Definition sample_state : kstate unit unit :=
  {| ctx_in_task := true;
     current := 1;
     tasks := {[ 1 := mk_task tt (mk_last_err None 0 0);
                 2 := mk_task tt (mk_last_err (Some "fs/namei.c") 1269 2) ]};
     globals := tt |}.

(** The same machine while it serves an interrupt. *)
Definition sample_irq_state : kstate unit unit :=
  {| ctx_in_task := false;
     current := 1;
     tasks := tasks sample_state;
     globals := tt |}.

(** The surroundings of hwdep_compat.c on a machine where copy_in_user
    leaves [copies_left] bytes uncopied, with sample ioctl numbers and a
    driver that has no ioctl_compat. *)
Definition sample_hwdep (copies_left : Z) : @hwdep_ext unit unit :=
  {| sizeof_dsp_image := 96;
     compat_alloc_user_space := fun _ => 4096;
     compat_ptr := fun p => p;
     copy_in_user := fun _ _ _ => copies_left;
     get_user := fun _ _ => (0, 0);
     put_user := fun _ _ _ => 0;
     snd_hwdep_dsp_load := fun _ _ => ret 0;
     snd_hwdep_ioctl := fun _ _ _ => ret 0;
     private_data := fun f => f;
     ioctl_compat := fun _ => None;
     SNDRV_HWDEP_IOCTL_PVERSION := 0x80044800;
     SNDRV_HWDEP_IOCTL_INFO := 0x80dc4801;
     SNDRV_HWDEP_IOCTL_DSP_STATUS := 0x80404802;
     SNDRV_HWDEP_IOCTL_DSP_LOAD32 := 0x40504803 |}.

Definition sample_desc : sst_acpi_desc :=
  {| drv_name := "haswell-pcm-audio"; machines := 0;
     resindex_lpe_base := 0; resindex_pcicfg_base := 1;
     resindex_fw_base := -1; irqindex_host_ipc := 0;
     resindex_dma_base := 0x0F0000; sst_id := 0;
     dma_engine := 0; dma_size := 1024 - 1 |}.

(** The surroundings of sst-acpi.c, by what the allocator, the ACPI match
    and the machine lookup answer. *)
Definition sample_sst (alloc : option Z) (matched : option sst_acpi_desc)
    (mach : option acpi_mach) : @sst_ext unit unit :=
  {| dev_of := fun pdev => pdev + 16;
     devm_kzalloc := fun _ => alloc;
     acpi_match_device := fun _ => matched;
     snd_soc_acpi_find_machine := fun _ => ret mach;
     dev_err := fun _ _ => ret tt;
     platform_get_irq := fun _ _ => 5;
     IORESOURCE_MEM := 0x200;
     platform_get_resource := fun _ _ _ => None;
     resource_size := fun r => r_end r - r_start r + 1;
     platform_set_drvdata := fun _ _ => ret tt;
     set_mach_pdata := fun _ _ => ret tt;
     platform_device_register_data := fun _ _ _ _ => ret 8192;
     IS_ERR := fun p => (-4095 <=? p) && (p <? 0);
     PTR_ERR := fun p => p;
     request_firmware_nowait := fun _ _ _ => ret 0;
     platform_device_unregister := fun _ => ret tt |}.

(** The surroundings of xfs_acl.c on a 64-bit big-endian machine whose
    corruption report records nothing. *)
Definition sample_xfs : @xfs_ext unit unit :=
  {| size_t_bits := 64;
     sizeof_xfs_acl := 4;
     XFS_ACL_SIZE := fun cnt => 4 + 12 * cnt;
     XFS_CORRUPTION_ERROR := fun _ _ _ => ret tt;
     be32_to_cpu := fun x => x;
     be16_to_cpu := fun x => x;
     posix_acl_alloc := fun _ => ret true;
     posix_acl_release := ret tt;
     make_kuid := fun x => x;
     make_kgid := fun x => x;
     ACL_USER_OBJ := 0x01; ACL_USER := 0x02; ACL_GROUP_OBJ := 0x04;
     ACL_GROUP := 0x08; ACL_MASK := 0x10; ACL_OTHER := 0x20 |}.

Definition sample_aclp : xfs_acl := {| acl_cnt := 0; acl_entry := [] |}.

(** A few lines in the style of the errno headers, and one alias. *)
Definition sample_headers : list string :=
  [ "#ifndef _ASM_GENERIC_ERRNO_BASE_H";
    "#define _ASM_GENERIC_ERRNO_BASE_H";
    "#define	EPERM		 1	/* Operation not permitted */";
    "#define	ENOMEM		12	/* Out of memory */";
    "#define	EFAULT		14	/* Bad address */";
    "#define	ENODEV		19	/* No such device */";
    "#define	EINVAL		22	/* Invalid argument */";
    "#define	EWOULDBLOCK	EAGAIN	/* Operation would block */";
    "#define	EUCLEAN		117	/* Structure needs cleaning */";
    "#define ENOIOCTLCMD	515	/* No ioctl command */";
    "#define EFSCORRUPTED	EUCLEAN" ].

(** The integer constants the sample headers define. *)
Definition sample_value_of (x : string) : option Z :=
  if String.eqb x "EPERM" then Some 1
  else if String.eqb x "ENODEV" then Some 19
  else if String.eqb x "EINVAL" then Some 22
  else None.

(** * Further code *)

(** ** Further error constants

    Names the functions below use beyond [errname]; their values, too,
    come from the errno headers outside the sources and are a parameter
    [errno_ext]. *)

Inductive errname_ext : Type :=
| E2BIG | EOPNOTSUPP | EMSGSIZE | ENOATTR
| ENOSYS | ECOMM | EBADMSG | EALREADY.

(** The values of the Linux 5.8 headers, to instantiate [errno_ext]. *)
Definition linux_errno_ext (e : errname_ext) : Z :=
  match e with
  | E2BIG => 7 | EOPNOTSUPP => 95 | EMSGSIZE => 90
  | ENOATTR => 61   (* xfs's alias of ENODATA *)
  | ENOSYS => 38 | ECOMM => 70 | EBADMSG => 74 | EALREADY => 114
  end.

(** ** State passing over the global kernel state *)

Section Globals.

Context {Other Global : Type}.

Definition replace_globals (st : kstate Other Global) (g : Global)
  : kstate Other Global :=
  {| ctx_in_task := ctx_in_task st; current := current st;
     tasks := tasks st; globals := g |}.

Definition read_globals : K Other Global Global :=
  fun st => Done (globals st) st [].

Definition write_globals (g : Global) : K Other Global unit :=
  fun st => Done tt (replace_globals st g) [].

(** No result: an access through a pointer that designates no object. *)
Definition no_result {A : Type} : K Other Global A := fun _ => Fault.

End Globals.

(** ** net/netfilter/nft_bitwise.c: evaluation *)

Module NftBitwise.

(** struct nft_bitwise; [mask], [xor] and [data] are the words of the
    three struct nft_data members. *)
Record nft_bitwise : Type := mk_nft_bitwise {
  sreg : Z;
  dreg : Z;
  op : Z;
  len : Z;
  mask : list Z;
  xor : list Z;
  data : list Z
}.

(** BITS_PER_TYPE(u32) *)
Definition BITS_PER_U32 : Z := 32.

(** DIV_ROUND_UP(n, d) *)
Definition DIV_ROUND_UP (n d : Z) : Z := (n + d - 1) / d.

(** [x << s] and [x >> s] on u32: undefined ([None]) unless the shift
    count, itself a u32, is below the width. *)
Definition shl_u32 (x s : Z) : option Z :=
  if to_uint s <? BITS_PER_U32 then Some (to_uint (Z.shiftl x (to_uint s)))
  else None.

Definition shr_u32 (x s : Z) : option Z :=
  if to_uint s <? BITS_PER_U32 then Some (Z.shiftr x (to_uint s))
  else None.

(** The words of regs->data, and an access to the word at an index:
    [None] outside the array. *)
Definition load (regs : list Z) (k : nat) : option Z := regs !! k.

Definition store (regs : list Z) (k : nat) (v : Z) : option (list Z) :=
  if decide (k < length regs)%nat then Some (<[k := v]> regs) else None.

(** for (i = 0; i < DIV_ROUND_UP(priv->len, 4); i++)
        dst[i] = (src[i] & priv->mask.data[i]) ^ priv->xor.data[i];
    with [n] iterations left from index [i]. *)
Fixpoint eval_bool_loop (priv : nft_bitwise) (dst src : nat) (i n : nat)
    (regs : list Z) : option (list Z) :=
  match n with
  | O => Some regs
  | S n' =>
      s ← load regs (src + i);
      m ← mask priv !! i;
      x ← xor priv !! i;
      regs' ← store regs (dst + i) (Z.lxor (Z.land s m) x);
      eval_bool_loop priv dst src (S i) n' regs'
  end.

(** static void nft_bitwise_eval_bool(u32 *dst, const u32 *src,
                                      const struct nft_bitwise *priv)
    [dst] and [src] are indexes into the register file. *)
Definition nft_bitwise_eval_bool (dst src : nat) (priv : nft_bitwise)
    (regs : list Z) : option (list Z) :=
  eval_bool_loop priv dst src 0 (Z.to_nat (DIV_ROUND_UP (len priv) 4)) regs.

(** for (i = DIV_ROUND_UP(priv->len, sizeof(u32)); i > 0; i--) {
        dst[i - 1] = (src[i - 1] << shift) | carry;
        carry = src[i - 1] >> (BITS_PER_TYPE(u32) - shift);
    }
    The second statement reads src[i - 1] from memory again, after the
    store to dst[i - 1]. *)
Fixpoint eval_lshift_loop (shift : Z) (dst src : nat) (i : nat) (carry : Z)
    (regs : list Z) : option (list Z) :=
  match i with
  | O => Some regs
  | S i' =>
      s ← load regs (src + i');
      hi ← shl_u32 s shift;
      regs' ← store regs (dst + i') (Z.lor hi carry);
      s' ← load regs' (src + i');
      carry' ← shr_u32 s' (BITS_PER_U32 - shift);
      eval_lshift_loop shift dst src i' carry' regs'
  end.

(** static void nft_bitwise_eval_lshift(u32 *dst, const u32 *src,
                                        const struct nft_bitwise *priv) *)
Definition nft_bitwise_eval_lshift (dst src : nat) (priv : nft_bitwise)
    (regs : list Z) : option (list Z) :=
  shift ← data priv !! 0%nat;
  eval_lshift_loop shift dst src (Z.to_nat (DIV_ROUND_UP (len priv) 4)) 0 regs.

(** for (i = 0; i < DIV_ROUND_UP(priv->len, sizeof(u32)); i++) {
        dst[i] = carry | (src[i] >> shift);
        carry = src[i] << (BITS_PER_TYPE(u32) - shift);
    } *)
Fixpoint eval_rshift_loop (shift : Z) (dst src : nat) (i n : nat) (carry : Z)
    (regs : list Z) : option (list Z) :=
  match n with
  | O => Some regs
  | S n' =>
      s ← load regs (src + i);
      lo ← shr_u32 s shift;
      regs' ← store regs (dst + i) (Z.lor carry lo);
      s' ← load regs' (src + i);
      carry' ← shl_u32 s' (BITS_PER_U32 - shift);
      eval_rshift_loop shift dst src (S i) n' carry' regs'
  end.

(** static void nft_bitwise_eval_rshift(u32 *dst, const u32 *src,
                                        const struct nft_bitwise *priv) *)
Definition nft_bitwise_eval_rshift (dst src : nat) (priv : nft_bitwise)
    (regs : list Z) : option (list Z) :=
  shift ← data priv !! 0%nat;
  eval_rshift_loop shift dst src 0 (Z.to_nat (DIV_ROUND_UP (len priv) 4)) 0 regs.

(** The number a run of [n] words from index [base] stands for, the first
    word the most significant; a word outside the array counts as 0. *)
Fixpoint be_value (regs : list Z) (base n : nat) : Z :=
  match n with
  | O => 0
  | S n' => be_value regs base n' * 2 ^ 32 + default 0 (regs !! (base + n')%nat)
  end.

(** Every word is a u32. *)
Definition words_u32 (regs : list Z) : Prop :=
  Forall (fun w => 0 <= w < 2 ^ 32) regs.

(** A two-word expression shifting by four bits, a one-word one, and a
    register file of six words. *)
Definition sample_bitwise : nft_bitwise :=
  {| sreg := 0; dreg := 2; op := 0; len := 8;
     mask := [0xff00ff00; 0x0000ffff]; xor := [0x1; 0x80000000];
     data := [4] |}.

Definition sample_bitwise_word : nft_bitwise :=
  {| sreg := 1; dreg := 1; op := 1; len := 4;
     mask := []; xor := []; data := [4] |}.

Definition sample_regs : list Z :=
  [0x12345678; 0x9abcdef0; 0; 0; 0xffffffff; 0x1].

End NftBitwise.

(** ** fs/afs/misc.c: the order afs_prioritise_error keeps *)

(** The rank of an error value in the switch of afs_prioritise_error: the
    position of the group of case labels it belongs to, counted from the
    top; 0 for a value that meets the default label. *)
Definition afs_rank (errno_of : errname -> Z) (x : Z) : Z :=
  if is_code errno_of x ETIMEDOUT || is_code errno_of x ETIME then 1
  else if is_code errno_of x ENOMEM || is_code errno_of x ENONET then 2
  else if is_code errno_of x ERFKILL then 3
  else if is_code errno_of x EADDRNOTAVAIL then 4
  else if is_code errno_of x ENETUNREACH then 5
  else if is_code errno_of x EHOSTUNREACH then 6
  else if is_code errno_of x EHOSTDOWN then 7
  else if is_code errno_of x ECONNREFUSED then 8
  else if is_code errno_of x ECONNRESET then 9
  else 0.

(** The constants that label its cases; C wants the labels of one switch
    distinct. *)
Definition afs_labels : list errname :=
  [ETIMEDOUT; ETIME; ENOMEM; ENONET; ERFKILL; EADDRNOTAVAIL; ENETUNREACH;
   EHOSTUNREACH; EHOSTDOWN; ECONNREFUSED; ECONNRESET; ECONNABORTED].

Definition afs_labels_distinct (errno_of : errname -> Z) : Prop :=
  NoDup (map errno_of afs_labels).

(** ** kernel/bpf/reuseport_array.c *)

Module ReuseportArray.

(** struct bpf_map: the members the file reads. *)
Record bpf_map : Type := mk_bpf_map {
  max_entries : Z;   (* u32 *)
  value_size : Z     (* u32 *)
}.

(** struct sock: the members the file reads or writes.  [sk_rcu_free] and
    [sk_is_hashed] are what sock_flag(sk, SOCK_RCU_FREE) and sk_hashed(sk)
    evaluate to; [sk_callback_lock] tells whether the lock is held. *)
Record sock : Type := mk_sock {
  sk_protocol : Z;
  sk_family : Z;
  sk_type : Z;
  sk_rcu_free : bool;
  sk_is_hashed : bool;
  sk_reuseport_cb : Z;
  sk_user_data : Z;          (* void *, read as a uintptr_t *)
  sk_callback_lock : bool
}.

(** struct socket *)
Record socket : Type := mk_socket {
  socket_sk : Z;
  socket_file : Z
}.

(** The kernel objects the file works on; pointers are addresses, 0 the
    null pointer.  [slots] is the memory of the struct sock * elements of
    every array, by address; [reuseport_lock] tells whether the global
    lock is held, [rcu_nesting] counts the open read-side sections. *)
Record world : Type := mk_world {
  bpf_maps : gmap Z bpf_map;
  slots : gmap Z Z;
  socks : gmap Z sock;
  sockets : gmap Z socket;
  fdtable : gmap Z Z;        (* descriptor -> struct socket * *)
  f_count : gmap Z Z;        (* struct file * -> references held *)
  reuseport_lock : bool;
  rcu_nesting : Z
}.

Definition with_slots (f : gmap Z Z -> gmap Z Z) (w : world) : world :=
  {| bpf_maps := bpf_maps w; slots := f (slots w); socks := socks w;
     sockets := sockets w; fdtable := fdtable w; f_count := f_count w;
     reuseport_lock := reuseport_lock w; rcu_nesting := rcu_nesting w |}.

Definition with_socks (f : gmap Z sock -> gmap Z sock) (w : world) : world :=
  {| bpf_maps := bpf_maps w; slots := slots w; socks := f (socks w);
     sockets := sockets w; fdtable := fdtable w; f_count := f_count w;
     reuseport_lock := reuseport_lock w; rcu_nesting := rcu_nesting w |}.

Definition with_f_count (f : gmap Z Z -> gmap Z Z) (w : world) : world :=
  {| bpf_maps := bpf_maps w; slots := slots w; socks := socks w;
     sockets := sockets w; fdtable := fdtable w; f_count := f (f_count w);
     reuseport_lock := reuseport_lock w; rcu_nesting := rcu_nesting w |}.

Definition with_reuseport_lock (b : bool) (w : world) : world :=
  {| bpf_maps := bpf_maps w; slots := slots w; socks := socks w;
     sockets := sockets w; fdtable := fdtable w; f_count := f_count w;
     reuseport_lock := b; rcu_nesting := rcu_nesting w |}.

Definition with_rcu_nesting (n : Z) (w : world) : world :=
  {| bpf_maps := bpf_maps w; slots := slots w; socks := socks w;
     sockets := sockets w; fdtable := fdtable w; f_count := f_count w;
     reuseport_lock := reuseport_lock w; rcu_nesting := n |}.

Definition with_bpf_maps (f : gmap Z bpf_map -> gmap Z bpf_map) (w : world)
  : world :=
  {| bpf_maps := f (bpf_maps w); slots := slots w; socks := socks w;
     sockets := sockets w; fdtable := fdtable w; f_count := f_count w;
     reuseport_lock := reuseport_lock w; rcu_nesting := rcu_nesting w |}.

Definition set_sk_user_data (v : Z) (s : sock) : sock :=
  {| sk_protocol := sk_protocol s; sk_family := sk_family s;
     sk_type := sk_type s; sk_rcu_free := sk_rcu_free s;
     sk_is_hashed := sk_is_hashed s; sk_reuseport_cb := sk_reuseport_cb s;
     sk_user_data := v; sk_callback_lock := sk_callback_lock s |}.

Definition set_sk_callback_lock (b : bool) (s : sock) : sock :=
  {| sk_protocol := sk_protocol s; sk_family := sk_family s;
     sk_type := sk_type s; sk_rcu_free := sk_rcu_free s;
     sk_is_hashed := sk_is_hashed s; sk_reuseport_cb := sk_reuseport_cb s;
     sk_user_data := sk_user_data s; sk_callback_lock := b |}.

(** What the file takes from headers outside the sources. *)
Record ra_consts : Type := mk_ra_consts {
  SK_USER_DATA_NOCOPY : Z;
  SK_USER_DATA_BPF : Z;
  SK_USER_DATA_PTRMASK : Z;
  IPPROTO_UDP : Z; IPPROTO_TCP : Z;
  AF_INET : Z; AF_INET6 : Z;
  SOCK_STREAM : Z; SOCK_DGRAM : Z;
  BPF_NOEXIST : Z; BPF_EXIST : Z;
  ptrs_offset : Z;           (* offsetof(struct reuseport_array, ptrs) *)
  sizeof_ptr : Z;            (* sizeof(struct sock * ) *)
  sockfd_lookup_err : Z -> Z (* what sockfd_lookup stores in *err *)
}.

Section Code.

Context {Other : Type}.
Variable errno_of : errname -> Z.
Variable errno_ext : errname_ext -> Z.
Variable C : ra_consts.

Definition reuseport_array_c : string := "kernel/bpf/reuseport_array.c".

Definition get_world : K Other world world :=
  fun st => Done (globals st) st [].

Definition with_globals (st : kstate Other world) (w : world)
  : kstate Other world :=
  {| ctx_in_task := ctx_in_task st; current := current st;
     tasks := tasks st; globals := w |}.

Definition set_world (w : world) : K Other world unit :=
  fun st => Done tt (with_globals st w) [].

(** No result: an access through a pointer that designates no object, or
    a lock taken while it is held. *)
Definition fault {A : Type} : K Other world A := fun _ => Fault.

(** &array->ptrs[index] *)
Definition ptrs_at (map index : Z) : Z :=
  map + ptrs_offset C + sizeof_ptr C * index.

Definition read_map (map : Z) : K Other world bpf_map :=
  w <- get_world ;;
  match bpf_maps w !! map with
  | Some m => ret m
  | None => fault
  end.

(** A load from, and a store to, the struct sock * at an address. *)
Definition read_slot (a : Z) : K Other world Z :=
  w <- get_world ;;
  match slots w !! a with
  | Some p => ret p
  | None => fault
  end.

Definition write_slot (a v : Z) : K Other world unit :=
  w <- get_world ;;
  match slots w !! a with
  | Some _ => set_world (with_slots <[a := v]> w)
  | None => fault
  end.

Definition read_sock (sk : Z) : K Other world sock :=
  w <- get_world ;;
  match socks w !! sk with
  | Some s => ret s
  | None => fault
  end.

Definition update_sock (sk : Z) (f : sock -> sock) : K Other world unit :=
  w <- get_world ;;
  match socks w !! sk with
  | Some s => set_world (with_socks <[sk := f s]> w)
  | None => fault
  end.

(** Modelled: the locking primitives of <linux/spinlock.h>,
    <linux/rwlock.h> and <linux/rcupdate.h>, which are outside the
    sources.  A lock is free or held; taking a held lock, or releasing a
    free one, gives no result. *)
Definition write_lock_bh (sk : Z) : K Other world unit :=
  s <- read_sock sk ;;
  if sk_callback_lock s then fault
  else update_sock sk (set_sk_callback_lock true).

Definition write_unlock_bh (sk : Z) : K Other world unit :=
  s <- read_sock sk ;;
  if sk_callback_lock s then update_sock sk (set_sk_callback_lock false)
  else fault.

Definition spin_lock_bh : K Other world unit :=
  w <- get_world ;;
  if reuseport_lock w then fault
  else set_world (with_reuseport_lock true w).

Definition spin_unlock_bh : K Other world unit :=
  w <- get_world ;;
  if reuseport_lock w then set_world (with_reuseport_lock false w)
  else fault.

Definition rcu_read_lock : K Other world unit :=
  w <- get_world ;;
  set_world (with_rcu_nesting (rcu_nesting w + 1) w).

Definition rcu_read_unlock : K Other world unit :=
  w <- get_world ;;
  if rcu_nesting w <=? 0 then fault
  else set_world (with_rcu_nesting (rcu_nesting w - 1) w).

(** Modelled: synchronize_rcu waits for the readers and changes none of
    the objects here. *)
Definition synchronize_rcu : K Other world unit := ret tt.

(** Modelled: bpf_map_area_free (kernel/bpf/syscall.c) releases the
    memory of the array: the map and its [n] elements are objects no
    more. *)
Fixpoint free_slots (map : Z) (i : Z) (n : nat) (m : gmap Z Z) : gmap Z Z :=
  match n with
  | O => m
  | S n' => free_slots map (i + 1) n' (delete (ptrs_at map i) m)
  end.

Definition bpf_map_area_free (map : Z) : K Other world unit :=
  m <- read_map map ;;
  w <- get_world ;;
  set_world
    (with_bpf_maps (delete map)
       (with_slots (free_slots map 0 (Z.to_nat (max_entries m))) w)).

(** Modelled: sockfd_lookup and fput (net/socket.c, fs/file_table.c).
    sockfd_lookup gives the socket of a descriptor and takes a reference
    on its file, or gives a null pointer and stores a code in *err; the
    second component is what *err holds afterwards, if it was written. *)
Definition sockfd_lookup (fd : Z) : K Other world (Z * option Z) :=
  w <- get_world ;;
  match fdtable w !! fd with
  | None => ret (0, Some (sockfd_lookup_err C fd))
  | Some sock =>
      match sockets w !! sock with
      | None => fault
      | Some so =>
          match f_count w !! socket_file so with
          | None => fault
          | Some n =>
              set_world (with_f_count <[socket_file so := n + 1]> w) >>
              ret (sock, None)
          end
      end
  end.

Definition fput (file : Z) : K Other world unit :=
  w <- get_world ;;
  match f_count w !! file with
  | None => fault
  | Some n => set_world (with_f_count <[file := n - 1]> w)
  end.

Definition read_socket (sock : Z) : K Other world socket :=
  w <- get_world ;;
  match sockets w !! sock with
  | Some so => ret so
  | None => fault
  end.

(** void bpf_sk_reuseport_detach(struct sock *sk) *)
Definition bpf_sk_reuseport_detach (sk : Z) : K Other world unit :=
  write_lock_bh sk >>
  s <- read_sock sk ;;
  let sk_user_data := sk_user_data s in
  (if negb (Z.land sk_user_data (SK_USER_DATA_BPF C) =? 0) then
     let socks := Z.land sk_user_data (SK_USER_DATA_PTRMASK C) in
     update_sock sk (set_sk_user_data 0) >>
     write_slot socks 0
   else ret tt) >>
  write_unlock_bh sk.

(** static void *reuseport_array_lookup_elem(struct bpf_map *map, void *key)

    [index] is the u32 that [key] points to. *)
Definition reuseport_array_lookup_elem (map index : Z) : K Other world Z :=
  m <- read_map map ;;
  if max_entries m <=? index then ret 0
  else read_slot (ptrs_at map index).

(** static int reuseport_array_delete_elem(struct bpf_map *map, void *key) *)
Definition reuseport_array_delete_elem (map index : Z) : K Other world Z :=
  m <- read_map map ;;
  if max_entries m <=? index then
    v <- ERR reuseport_array_c 72 (ret (errno_ext E2BIG)) ;; ret (- v)
  else
  p <- read_slot (ptrs_at map index) ;;
  if p =? 0 then
    v <- ERR reuseport_array_c 75 (ret (errno_of ENOENT)) ;; ret (- v)
  else
  spin_lock_bh >>
  sk <- read_slot (ptrs_at map index) ;;
  err <- (if negb (sk =? 0) then
            write_lock_bh sk >>
            update_sock sk (set_sk_user_data 0) >>
            write_slot (ptrs_at map index) 0 >>
            write_unlock_bh sk >>
            ret 0
          else
            v <- ERR reuseport_array_c 88 (ret (errno_of ENOENT)) ;;
            ret (- v)) ;;
  spin_unlock_bh >>
  ret err.

(** for (i = 0; i < map->max_entries; i++) ..., with [n] iterations left
    from index [i]. *)
Fixpoint free_loop (map : Z) (i : Z) (n : nat) : K Other world unit :=
  match n with
  | O => ret tt
  | S n' =>
      sk <- read_slot (ptrs_at map i) ;;
      (if negb (sk =? 0) then
         write_lock_bh sk >>
         update_sock sk (set_sk_user_data 0) >>
         write_unlock_bh sk >>
         write_slot (ptrs_at map i) 0
       else ret tt) >>
      free_loop map (i + 1) n'
  end.

(** static void reuseport_array_free(struct bpf_map *map) *)
Definition reuseport_array_free (map : Z) : K Other world unit :=
  synchronize_rcu >>
  rcu_read_lock >>
  m <- read_map map ;;
  free_loop map 0 (Z.to_nat (max_entries m)) >>
  rcu_read_unlock >>
  bpf_map_area_free map.

(** static int reuseport_array_update_check(...)

    [nsk] is read through its pointer; the array argument is unused. *)
Definition reuseport_array_update_check (nsk osk nsk_reuse map_flags : Z)
  : K Other world Z :=
  if negb (osk =? 0) && (map_flags =? BPF_NOEXIST C) then
    v <- ERR reuseport_array_c 214 (ret (errno_of EEXIST)) ;; ret (- v)
  else if (osk =? 0) && (map_flags =? BPF_EXIST C) then
    v <- ERR reuseport_array_c 217 (ret (errno_of ENOENT)) ;; ret (- v)
  else
  s <- read_sock nsk ;;
  if negb (sk_protocol s =? IPPROTO_UDP C)
     && negb (sk_protocol s =? IPPROTO_TCP C) then
    v <- ERR reuseport_array_c 220 (ret (errno_of ENOTSUPP)) ;; ret (- v)
  else if negb (sk_family s =? AF_INET C)
          && negb (sk_family s =? AF_INET6 C) then
    v <- ERR reuseport_array_c 223 (ret (errno_of ENOTSUPP)) ;; ret (- v)
  else if negb (sk_type s =? SOCK_STREAM C)
          && negb (sk_type s =? SOCK_DGRAM C) then
    v <- ERR reuseport_array_c 226 (ret (errno_of ENOTSUPP)) ;; ret (- v)
  else if negb (sk_rcu_free s) || negb (sk_is_hashed s) || (nsk_reuse =? 0)
  then
    v <- ERR reuseport_array_c 237 (ret (errno_of EINVAL)) ;; ret (- v)
  else if negb (sk_user_data s =? 0) then
    v <- ERR reuseport_array_c 241 (ret (errno_of EBUSY)) ;; ret (- v)
  else ret 0.

(** The part of bpf_fd_reuseport_array_update_elem from the label
    put_file_unlock on. *)
Definition put_file_unlock (nsk free_osk file err : Z) : K Other world Z :=
  write_unlock_bh nsk >>
  (if negb (free_osk =? 0) then
     write_lock_bh free_osk >>
     update_sock free_osk (set_sk_user_data 0) >>
     write_unlock_bh free_osk
   else ret tt) >>
  spin_unlock_bh >>
  fput file >>
  ret err.

(** int bpf_fd_reuseport_array_update_elem(struct bpf_map *map, void *key,
                                           void *value, u64 map_flags)

    [index] is the u32 that [key] points to; [value_u64] and [value_int]
    are what *(u64 * )value and *(int * )value read. *)
Definition bpf_fd_reuseport_array_update_elem
    (map index value_u64 value_int map_flags : Z) : K Other world Z :=
  if BPF_EXIST C <? map_flags then
    v <- ERR reuseport_array_c 263 (ret (errno_of EINVAL)) ;; ret (- v)
  else
  m <- read_map map ;;
  if max_entries m <=? index then
    v <- ERR reuseport_array_c 266 (ret (errno_ext E2BIG)) ;; ret (- v)
  else
  if (value_size m =? 8) && (2 ^ 31 - 1 <? value_u64) then
    v <- ERR reuseport_array_c 272 (ret (errno_of EINVAL)) ;; ret (- v)
  else
  let fd := if value_size m =? 8 then to_int value_u64 else value_int in
  r <- sockfd_lookup fd ;;
  let '(sock, err) := r in
  if sock =? 0 then
    match err with
    | Some e => ret e
    | None => fault
    end
  else
  so <- read_socket sock ;;
  let nsk := socket_sk so in
  if nsk =? 0 then
    v <- ERR reuseport_array_c 284 (ret (errno_of EINVAL)) ;;
    fput (socket_file so) >>
    ret (- v)
  else
  osk0 <- read_slot (ptrs_at map index) ;;
  s0 <- read_sock nsk ;;
  err <- reuseport_array_update_check nsk osk0 (sk_reuseport_cb s0) map_flags ;;
  if negb (err =? 0) then
    fput (socket_file so) >>
    ret err
  else
  spin_lock_bh >>
  write_lock_bh nsk >>
  osk <- read_slot (ptrs_at map index) ;;
  s <- read_sock nsk ;;
  let reuse := sk_reuseport_cb s in
  err <- reuseport_array_update_check nsk osk reuse map_flags ;;
  if negb (err =? 0) then
    put_file_unlock nsk 0 (socket_file so) err
  else
  let sk_user_data :=
    Z.lor (Z.lor (ptrs_at map index) (SK_USER_DATA_NOCOPY C))
      (SK_USER_DATA_BPF C) in
  update_sock nsk (set_sk_user_data sk_user_data) >>
  write_slot (ptrs_at map index) nsk >>
  put_file_unlock nsk osk (socket_file so) 0.

(** static int reuseport_array_get_next_key(struct bpf_map *map, void *key,
                                            void *next_key)

    [key] is the u32 that the pointer designates, or [None] for a null
    pointer; the second component of the result is what was stored in
    *next_key, if anything. *)
Definition reuseport_array_get_next_key (map : Z) (key : option Z)
  : K Other world (Z * option Z) :=
  m <- read_map map ;;
  let index := match key with Some k => k | None => 2 ^ 32 - 1 end in
  if max_entries m <=? index then ret (0, Some 0)
  else if index =? to_uint (max_entries m - 1) then
    v <- ERR reuseport_array_c 348 (ret (errno_of ENOENT)) ;;
    ret (- v, None)
  else ret (0, Some (to_uint (index + 1))).

(** The walk over the keys that a caller makes with the function: the
    keys it hands out from [key] on, until it fails; [fuel] bounds their
    number. *)
Fixpoint next_keys (fuel : nat) (map : Z) (key : option Z)
  : K Other world (list Z) :=
  match fuel with
  | O => ret []
  | S fuel' =>
      r <- reuseport_array_get_next_key map key ;;
      let '(err, next) := r in
      if err =? 0 then
        match next with
        | Some k => ks <- next_keys fuel' map (Some k) ;; ret (k :: ks)
        | None => fault
        end
      else ret []
  end.

End Code.

(** A slot address survives the round trip through sk_user_data, and the
    tagged pointer carries the BPF flag. *)
Definition tagged (C : ra_consts) (a : Z) : Z :=
  Z.lor (Z.lor a (SK_USER_DATA_NOCOPY C)) (SK_USER_DATA_BPF C).

Definition slots_taggable (C : ra_consts) (w : world) : Prop :=
  forall a, is_Some (slots w !! a) ->
    Z.land (tagged C a) (SK_USER_DATA_PTRMASK C) = a
    /\ Z.land (tagged C a) (SK_USER_DATA_BPF C) <> 0.

(** The array and the sockets refer to each other: an element that holds
    a socket is what the socket's sk_user_data designates, and a socket
    whose sk_user_data carries the BPF flag sits in the element it
    designates. *)
Definition linked (C : ra_consts) (w : world) : Prop :=
  (forall a sk, slots w !! a = Some sk -> sk <> 0 ->
     exists s, socks w !! sk = Some s /\ sk_user_data s = tagged C a)
  /\ (forall sk s, socks w !! sk = Some s ->
        Z.land (sk_user_data s) (SK_USER_DATA_BPF C) <> 0 ->
        slots w !! Z.land (sk_user_data s) (SK_USER_DATA_PTRMASK C) = Some sk).

(** No lock of the file is held. *)
Definition unlocked (w : world) : Prop :=
  reuseport_lock w = false
  /\ forall sk s, socks w !! sk = Some s -> sk_callback_lock s = false.

(** The elements of the array at [map] are objects. *)
Definition array_mapped (C : ra_consts) (w : world) (map : Z) (m : bpf_map)
  : Prop :=
  bpf_maps w !! map = Some m
  /\ forall i, 0 <= i < max_entries m -> is_Some (slots w !! ptrs_at C map i).

(** The descriptors designate sockets that are objects, with their files
    and their struct sock; the null pointer designates nothing. *)
Definition files_ok (w : world) : Prop :=
  socks w !! 0 = None
  /\ forall fd sock, fdtable w !! fd = Some sock ->
       sock <> 0
       /\ exists so n,
            sockets w !! sock = Some so
            /\ f_count w !! socket_file so = Some n
            /\ (socket_sk so = 0 \/ is_Some (socks w !! socket_sk so)).

(** What reuseport_array_update_check asks of the flags and of the new
    socket. *)
Definition flags_agree (C : ra_consts) (osk map_flags : Z) : Prop :=
  (osk <> 0 -> map_flags <> BPF_NOEXIST C)
  /\ (osk = 0 -> map_flags <> BPF_EXIST C).

Definition acceptable (C : ra_consts) (s : sock) : Prop :=
  (sk_protocol s = IPPROTO_UDP C \/ sk_protocol s = IPPROTO_TCP C)
  /\ (sk_family s = AF_INET C \/ sk_family s = AF_INET6 C)
  /\ (sk_type s = SOCK_STREAM C \/ sk_type s = SOCK_DGRAM C)
  /\ sk_rcu_free s = true
  /\ sk_is_hashed s = true
  /\ sk_reuseport_cb s <> 0
  /\ sk_user_data s = 0.

(** The objects once the socket [nsk] has been put into the element at
    [a] in place of [osk]: [nsk] carries the tagged address, and [osk],
    when it designates a socket, no sk_user_data. *)
Definition clear_user_data (osk : Z) (sm : gmap Z sock) : gmap Z sock :=
  match sm !! osk with
  | Some so => <[osk := set_sk_user_data 0 so]> sm
  | None => sm
  end.

Definition installed (C : ra_consts) (w : world) (a nsk osk : Z) (sn : sock)
  : world :=
  with_socks
    (fun sm =>
       clear_user_data osk (<[nsk := set_sk_user_data (tagged C a) sn]> sm))
    (with_slots <[a := nsk]> w).

(** The constants as Linux 5.8 on x86-64 has them, with a sample offset
    of the elements; sockfd_lookup failing with -EBADF. *)
Definition linux_ra_consts : ra_consts :=
  {| SK_USER_DATA_NOCOPY := 1; SK_USER_DATA_BPF := 2;
     SK_USER_DATA_PTRMASK := 2 ^ 64 - 4;
     IPPROTO_UDP := 17; IPPROTO_TCP := 6; AF_INET := 2; AF_INET6 := 10;
     SOCK_STREAM := 1; SOCK_DGRAM := 2; BPF_NOEXIST := 1; BPF_EXIST := 2;
     ptrs_offset := 256; sizeof_ptr := 8;
     sockfd_lookup_err := fun _ => - 9 |}.

(** A listening TCP socket with a given sk_user_data. *)
Definition sample_sock (user_data : Z) : sock :=
  {| sk_protocol := 6; sk_family := 2; sk_type := 1; sk_rcu_free := true;
     sk_is_hashed := true; sk_reuseport_cb := 5000;
     sk_user_data := user_data; sk_callback_lock := false |}.

(** An array of two elements at address 4096 and a socket at 9000, open
    as descriptor 3; the first element is empty or holds the socket. *)
Definition sample_world (first user_data : Z) : world :=
  {| bpf_maps := {[4096 := mk_bpf_map 2 8]};
     slots := {[4352 := first; 4360 := 0]};
     socks := {[9000 := sample_sock user_data]};
     sockets := {[8000 := mk_socket 9000 7000]};
     fdtable := {[3 := 8000]};
     f_count := {[7000 := 1]};
     reuseport_lock := false;
     rcu_nesting := 0 |}.

Definition sample_empty : world := sample_world 0 0.
Definition sample_held : world := sample_world 9000 4355.

(** The same with the reuseport_lock held, as the caller of
    bpf_sk_reuseport_detach holds it. *)
Definition sample_held_locked : world :=
  with_reuseport_lock true sample_held.

Definition sample_ra_state (w : world) : kstate unit world :=
  {| ctx_in_task := true; current := 1;
     tasks := {[1 := mk_task tt (mk_last_err None 0 0)]};
     globals := w |}.

End ReuseportArray.

(** ** fs/xfs/xfs_acl.c: the way to disk, and xfs_set_acl *)

(** struct xfs_da_args: the members the file sets. *)
Record xfs_da_args : Type := mk_xfs_da_args {
  da_name : string;
  da_valuelen : Z;
  da_value : option xfs_acl      (* [None]: a null pointer *)
}.

Definition with_entry (i : nat) (ace : xfs_acl_entry) (aclp : xfs_acl)
  : xfs_acl :=
  {| acl_cnt := acl_cnt aclp; acl_entry := <[i := ace]> (acl_entry aclp) |}.

(** The kuid_t or kgid_t read from the union of an entry: the two members
    share their storage; nothing is there before one is written. *)
Definition union_val (id : acl_id) : option Z :=
  match id with
  | id_unset => None
  | id_uid u => Some u
  | id_gid g => Some g
  end.

(** The buffer kmem_zalloc_large hands out for an ACL of [n] entries. *)
Definition zeroed_acl (n : nat) : xfs_acl :=
  {| acl_cnt := 0; acl_entry := replicate n (mk_xfs_acl_entry 0 0 0) |}.

Section XfsAclSet.

Context {Other Global : Type}.
Variable errno_of : errname -> Z.
Variable errno_ext : errname_ext -> Z.

(** [struct posix_acl *]: a null pointer, or the entries of the ACL,
    a_count being their number. *)
Definition posix_acl : Type := option (list posix_acl_entry).

(** What these functions take from outside, beyond [xfs_ext]. *)
Record xfs_set_ext : Type := mk_xfs_set_ext {
  cpu_to_be32 : Z -> Z;
  cpu_to_be16 : Z -> Z;
  from_kuid : Z -> Z;
  from_kgid : Z -> Z;
  ACL_UNDEFINED_ID : Z;
  ACL_TYPE_ACCESS : Z;
  ACL_TYPE_DEFAULT : Z;
  SGI_ACL_FILE : string;
  SGI_ACL_DEFAULT : string;
  XFS_ACL_MAX_ENTRIES : Z -> Z;        (* of the mount of an inode *)
  S_ISDIR : Z -> bool;
  read_i_mode : Z -> K Other Global Z; (* inode->i_mode *)
  kmem_zalloc_large : Z -> K Other Global bool;   (* false: a null pointer *)
  kmem_free : option xfs_acl -> K Other Global unit;
  xfs_attr_set : Z -> xfs_da_args -> K Other Global Z;
  set_cached_acl : Z -> Z -> posix_acl -> K Other Global unit;
  posix_acl_update_mode :
    Z -> list posix_acl_entry -> K Other Global (Z * Z * posix_acl);
  current_time : Z -> K Other Global Z;
  xfs_setattr_nonsize : Z -> Z -> Z -> K Other Global Z
}.

Variable X : @xfs_ext Other Global.
Variable Y : xfs_set_ext.


(** The body of the for loop of xfs_acl_to_disk for one entry; [None]
    when it reads a union member that was never written. *)
Definition entry_to_disk (acl_e : posix_acl_entry) : option xfs_acl_entry :=
  let tag := cpu_to_be32 Y (to_uint (e_tag acl_e)) in
  let perm := cpu_to_be16 Y (e_perm acl_e) in
  if e_tag acl_e =? ACL_USER X then
    u ← union_val (e_id acl_e);
    Some {| ae_tag := tag; ae_id := cpu_to_be32 Y (from_kuid Y u);
            ae_perm := perm |}
  else if e_tag acl_e =? ACL_GROUP X then
    g ← union_val (e_id acl_e);
    Some {| ae_tag := tag; ae_id := cpu_to_be32 Y (from_kgid Y g);
            ae_perm := perm |}
  else
    Some {| ae_tag := tag;
            ae_id := cpu_to_be32 Y (to_uint (ACL_UNDEFINED_ID Y));
            ae_perm := perm |}.

(** for (i = 0; i < acl->a_count; i++) ..., with [n] iterations left from
    index [i]; [None] when an entry lies outside the buffer. *)
Fixpoint to_disk_loop (acl : list posix_acl_entry) (i n : nat)
    (aclp : xfs_acl) : option xfs_acl :=
  match n with
  | O => Some aclp
  | S n' =>
      acl_e ← acl !! i;
      if decide (i < length (acl_entry aclp))%nat then
        ace ← entry_to_disk acl_e;
        to_disk_loop acl (S i) n' (with_entry i ace aclp)
      else None
  end.

(** STATIC void
    xfs_acl_to_disk(struct xfs_acl *aclp, const struct posix_acl *acl)

    The buffer [*aclp] is passed in and its final contents returned. *)
Definition xfs_acl_to_disk (aclp : xfs_acl) (acl : list posix_acl_entry)
  : option xfs_acl :=
  to_disk_loop acl 0 (length acl)
    {| acl_cnt := cpu_to_be32 Y (to_uint (Z.of_nat (length acl)));
       acl_entry := acl_entry aclp |}.






End XfsAclSet.

(** What the round trip through the disk format needs of an entry in
    core: a tag that fits the member and is one of the six, mode bits
    that fit theirs, and for ACL_USER and ACL_GROUP an id that survives
    the two conversions. *)
Definition entry_in_core_ok {Other Global : Type} (X : @xfs_ext Other Global)
    (Y : @xfs_set_ext Other Global) (e : posix_acl_entry) : Prop :=
  - 2 ^ 15 <= e_tag e < 2 ^ 15
  /\ 0 <= e_perm e < 2 ^ 16
  /\ (e_tag e = ACL_USER X
      /\ (exists u, e_id e = id_uid u /\ uint_range (from_kuid Y u)
                    /\ make_kuid X (from_kuid Y u) = u)
      \/ e_tag e = ACL_GROUP X /\ e_tag e <> ACL_USER X
         /\ (exists g, e_id e = id_gid g /\ uint_range (from_kgid Y g)
                       /\ make_kgid X (from_kgid Y g) = g)
      \/ (e_tag e = ACL_USER_OBJ X \/ e_tag e = ACL_GROUP_OBJ X
          \/ e_tag e = ACL_MASK X \/ e_tag e = ACL_OTHER X)
         /\ e_tag e <> ACL_USER X /\ e_tag e <> ACL_GROUP X
         /\ e_id e = id_unset).

(** What an entry that xfs_acl_from_disk hands out looks like. *)
Definition entry_valid {Other Global : Type} (X : @xfs_ext Other Global)
    (e : posix_acl_entry) : Prop :=
  e_tag e = ACL_USER X /\ (exists u, e_id e = id_uid u)
  \/ e_tag e = ACL_GROUP X /\ (exists g, e_id e = id_gid g)
  \/ (e_tag e = ACL_USER_OBJ X \/ e_tag e = ACL_GROUP_OBJ X
      \/ e_tag e = ACL_MASK X \/ e_tag e = ACL_OTHER X)
     /\ e_id e = id_unset.

(** The byte order conversions undo each other. *)
Definition byte_order_ok {Other Global : Type} (X : @xfs_ext Other Global)
    (Y : @xfs_set_ext Other Global) : Prop :=
  (forall x, uint_range x -> be32_to_cpu X (cpu_to_be32 Y x) = x)
  /\ (forall x, 0 <= x < 2 ^ 16 -> be16_to_cpu X (cpu_to_be16 Y x) = x).

(** Sample values for [xfs_set_ext], every callee succeeding. *)
Definition sample_xfs_set : @xfs_set_ext unit unit :=
  {| cpu_to_be32 := fun x => x;
     cpu_to_be16 := fun x => x;
     from_kuid := fun x => x;
     from_kgid := fun x => x;
     ACL_UNDEFINED_ID := - 1;
     ACL_TYPE_ACCESS := 0x8000;
     ACL_TYPE_DEFAULT := 0x4000;
     SGI_ACL_FILE := "SGI_ACL_FILE";
     SGI_ACL_DEFAULT := "SGI_ACL_DEFAULT";
     XFS_ACL_MAX_ENTRIES := fun _ => 25;
     S_ISDIR := fun m => Z.land m 0xf000 =? 0x4000;
     read_i_mode := fun _ => ret 0x41ed;
     kmem_zalloc_large := fun _ => ret true;
     kmem_free := fun _ => ret tt;
     xfs_attr_set := fun _ _ => ret 0;
     set_cached_acl := fun _ _ _ => ret tt;
     posix_acl_update_mode := fun _ a => ret (0, 0x41ed, Some a);
     current_time := fun _ => ret 0;
     xfs_setattr_nonsize := fun _ _ _ => ret 0 |}.




(** An ACL of three entries: the owner, one named user, the others. *)
Definition sample_acl : list posix_acl_entry :=
  [ {| e_tag := 0x01; e_perm := 7; e_id := id_unset |};
    {| e_tag := 0x02; e_perm := 5; e_id := id_uid 1000 |};
    {| e_tag := 0x20; e_perm := 4; e_id := id_unset |} ].

(** Its disk image under the sample conversions. *)
Definition sample_disk_acl : xfs_acl :=
  {| acl_cnt := 3;
     acl_entry := [ mk_xfs_acl_entry 0x01 0xffffffff 7;
                    mk_xfs_acl_entry 0x02 1000 5;
                    mk_xfs_acl_entry 0x20 0xffffffff 4 ] |}.

(** ** kernel/trace/trace_functions.c: the counted probes and the commands *)

Module TraceFunctions.

(** enum ftrace_dump_mode (include/linux/kernel.h) *)
Inductive ftrace_dump_mode : Type := DUMP_NONE | DUMP_ALL | DUMP_ORIG.

(** The kernel objects these functions work on.  [counts] holds the long
    of every entry of every ftrace_func_mapper, by mapper and ip;
    [tracer_on] what tracer_tracing_is_on gives for a trace_array;
    [dumps] the calls of ftrace_dump made, latest first; and
    [ftrace_commands] the names of the registered commands, latest
    first. *)
Record world : Type := mk_world {
  counts : gmap (Z * Z) Z;
  tracer_on : gmap Z bool;
  dumps : list ftrace_dump_mode;
  ftrace_commands : list string
}.

Definition with_counts (f : gmap (Z * Z) Z -> gmap (Z * Z) Z) (w : world)
  : world :=
  {| counts := f (counts w); tracer_on := tracer_on w; dumps := dumps w;
     ftrace_commands := ftrace_commands w |}.

Definition with_tracer_on (f : gmap Z bool -> gmap Z bool) (w : world)
  : world :=
  {| counts := counts w; tracer_on := f (tracer_on w); dumps := dumps w;
     ftrace_commands := ftrace_commands w |}.

Definition with_dumps (f : list ftrace_dump_mode -> list ftrace_dump_mode)
    (w : world) : world :=
  {| counts := counts w; tracer_on := tracer_on w; dumps := f (dumps w);
     ftrace_commands := ftrace_commands w |}.

Definition with_ftrace_commands (f : list string -> list string) (w : world)
  : world :=
  {| counts := counts w; tracer_on := tracer_on w; dumps := dumps w;
     ftrace_commands := f (ftrace_commands w) |}.

Section Code.

Context {Other : Type}.
Variable errno_of : errname -> Z.

(** Modelled: the mapper, the switch of a trace_array, ftrace_dump and
    the list of commands belong to kernel/trace/ftrace.c and trace.c,
    outside the sources.  ftrace_func_mapper_find_ip gives a pointer to
    the long of an entry, here the pair that designates it, or a null
    pointer; what these callees record themselves is left out. *)
Definition ftrace_func_mapper_find_ip (mapper ip : Z)
  : K Other world (option (Z * Z)) :=
  w <- read_globals ;;
  match counts w !! (mapper, ip) with
  | Some _ => ret (Some (mapper, ip))
  | None => ret None
  end.

Definition read_count (p : Z * Z) : K Other world Z :=
  w <- read_globals ;;
  match counts w !! p with
  | Some v => ret v
  | None => no_result
  end.

Definition write_count (p : Z * Z) (v : Z) : K Other world unit :=
  w <- read_globals ;;
  match counts w !! p with
  | Some _ => write_globals (with_counts <[p := v]> w)
  | None => no_result
  end.

Definition tracer_tracing_is_on (tr : Z) : K Other world bool :=
  w <- read_globals ;;
  match tracer_on w !! tr with
  | Some b => ret b
  | None => no_result
  end.

Definition tracer_tracing_set (tr : Z) (b : bool) : K Other world unit :=
  w <- read_globals ;;
  match tracer_on w !! tr with
  | Some _ => write_globals (with_tracer_on <[tr := b]> w)
  | None => no_result
  end.

Definition tracer_tracing_on (tr : Z) : K Other world unit :=
  tracer_tracing_set tr true.

Definition tracer_tracing_off (tr : Z) : K Other world unit :=
  tracer_tracing_set tr false.

Definition ftrace_dump (mode : ftrace_dump_mode) : K Other world unit :=
  w <- read_globals ;;
  write_globals (with_dumps (cons mode) w).

(** register_ftrace_command refuses a name that is in the list with
    -EBUSY; unregister_ftrace_command takes the latest entry of that
    name out, or gives -ENODEV. *)
Fixpoint remove_first (name : string) (l : list string) : list string :=
  match l with
  | [] => []
  | x :: l' => if decide (x = name) then l' else x :: remove_first name l'
  end.

Definition register_ftrace_command (name : string) : K Other world Z :=
  w <- read_globals ;;
  if decide (name ∈ ftrace_commands w) then ret (- errno_of EBUSY)
  else write_globals (with_ftrace_commands (cons name) w) >> ret 0.

Definition unregister_ftrace_command (name : string) : K Other world Z :=
  w <- read_globals ;;
  if decide (name ∈ ftrace_commands w) then
    write_globals (with_ftrace_commands (remove_first name) w) >> ret 0
  else ret (- errno_of ENODEV).

(** static void update_traceon_count(struct ftrace_probe_ops *ops,
        unsigned long ip, struct trace_array *tr, bool on, void *data)

    The two barriers order memory accesses between CPUs and change
    nothing on one. *)
Definition update_traceon_count (ip tr : Z) (on : bool) (data : Z)
  : K Other world unit :=
  count <- ftrace_func_mapper_find_ip data ip ;;
  match count with
  | None => no_result
  | Some count =>
      old_count <- read_count count ;;
      if old_count <=? 0 then ret tt
      else
        is_on <- tracer_tracing_is_on tr ;;
        if Bool.eqb on is_on then ret tt
        else
          (if on then tracer_tracing_on tr else tracer_tracing_off tr) >>
          write_count count (old_count - 1)
  end.

(** static void ftrace_traceon_count(...), ftrace_traceoff_count(...) *)
Definition ftrace_traceon_count (ip parent_ip tr data : Z)
  : K Other world unit :=
  update_traceon_count ip tr true data.

Definition ftrace_traceoff_count (ip parent_ip tr data : Z)
  : K Other world unit :=
  update_traceon_count ip tr false data.

(** static int update_count(struct ftrace_probe_ops *ops, unsigned long ip,
                            void *data) *)
Definition update_count (ip data : Z) : K Other world Z :=
  count <- (if negb (data =? 0) then ftrace_func_mapper_find_ip data ip
            else ret None) ;;
  match count with
  | Some count =>
      v <- read_count count ;;
      if v <=? 0 then ret 0
      else write_count count (v - 1) >> ret 1
  | None => ret 1
  end.

(** static void ftrace_dump_probe(...), ftrace_cpudump_probe(...) *)
Definition ftrace_dump_probe (ip parent_ip tr data : Z) : K Other world unit :=
  r <- update_count ip data ;;
  if negb (r =? 0) then ftrace_dump DUMP_ALL else ret tt.

Definition ftrace_cpudump_probe (ip parent_ip tr data : Z)
  : K Other world unit :=
  r <- update_count ip data ;;
  if negb (r =? 0) then ftrace_dump DUMP_ORIG else ret tt.

(** The names of the five struct ftrace_func_command objects. *)
Definition ftrace_traceon_cmd : string := "traceon".
Definition ftrace_traceoff_cmd : string := "traceoff".
Definition ftrace_stacktrace_cmd : string := "stacktrace".
Definition ftrace_dump_cmd : string := "dump".
Definition ftrace_cpudump_cmd : string := "cpudump".

(** The labels of init_func_cmd_traceon, last first; each falls through
    into the one defined before it. *)
Definition out_free_traceoff (ret_ : Z) : K Other world Z :=
  unregister_ftrace_command ftrace_traceoff_cmd >> ret ret_.
Definition out_free_traceon (ret_ : Z) : K Other world Z :=
  unregister_ftrace_command ftrace_traceon_cmd >> out_free_traceoff ret_.
Definition out_free_stacktrace (ret_ : Z) : K Other world Z :=
  unregister_ftrace_command ftrace_stacktrace_cmd >> out_free_traceon ret_.
Definition out_free_dump (ret_ : Z) : K Other world Z :=
  unregister_ftrace_command ftrace_dump_cmd >> out_free_stacktrace ret_.

(** static int __init init_func_cmd_traceon(void) *)
Definition init_func_cmd_traceon : K Other world Z :=
  r <- register_ftrace_command ftrace_traceoff_cmd ;;
  if negb (r =? 0) then ret r else
  r <- register_ftrace_command ftrace_traceon_cmd ;;
  if negb (r =? 0) then out_free_traceoff r else
  r <- register_ftrace_command ftrace_stacktrace_cmd ;;
  if negb (r =? 0) then out_free_traceon r else
  r <- register_ftrace_command ftrace_dump_cmd ;;
  if negb (r =? 0) then out_free_stacktrace r else
  r <- register_ftrace_command ftrace_cpudump_cmd ;;
  if negb (r =? 0) then out_free_dump r else
  ret 0.

(** [n] calls of a probe in a row. *)
Fixpoint repeated (n : nat) (probe : K Other world unit) : K Other world unit :=
  match n with
  | O => ret tt
  | S n' => probe >> repeated n' probe
  end.

End Code.

(** The commands of this file. *)
Definition func_commands : list string :=
  [ftrace_cpudump_cmd; ftrace_dump_cmd; ftrace_stacktrace_cmd;
   ftrace_traceon_cmd; ftrace_traceoff_cmd].

(** A mapper at address 64 with a count of 2 for the function at 4096, a
    trace_array at 1 that is tracing, and one command of another file. *)
Definition sample_world : world :=
  {| counts := {[ (64, 4096) := 2 ]};
     tracer_on := {[ 1 := true ]};
     dumps := [];
     ftrace_commands := ["mod"] |}.

Definition sample_tf_state : kstate unit world :=
  {| ctx_in_task := true; current := 1;
     tasks := {[1 := mk_task tt (mk_last_err None 0 0)]};
     globals := sample_world |}.

End TraceFunctions.

(** ** net/ethtool/channels.c: ethnl_set_channels

    The second of the three files kept in src/net/nfc/nci/lib.c: its
    first line is line 74 there, and __LINE__ counts from it (the
    statement at line 227 of lib.c is line 154 of channels.c). *)

Module EthtoolChannels.

(** struct ethtool_channels (include/uapi/linux/ethtool.h), all members
    __u32; the member cmd, which the function leaves at zero, is left
    out. *)
Record ethtool_channels : Type := mk_ethtool_channels {
  max_rx : Z; max_tx : Z; max_other : Z; max_combined : Z;
  rx_count : Z; tx_count : Z; other_count : Z; combined_count : Z
}.

(** struct ethtool_channels channels = {}; *)
Definition zeroed_channels : ethtool_channels :=
  {| max_rx := 0; max_tx := 0; max_other := 0; max_combined := 0;
     rx_count := 0; tx_count := 0; other_count := 0; combined_count := 0 |}.

Definition set_rx_count (v : Z) (c : ethtool_channels) : ethtool_channels :=
  {| max_rx := max_rx c; max_tx := max_tx c; max_other := max_other c;
     max_combined := max_combined c; rx_count := v; tx_count := tx_count c;
     other_count := other_count c; combined_count := combined_count c |}.

Definition set_tx_count (v : Z) (c : ethtool_channels) : ethtool_channels :=
  {| max_rx := max_rx c; max_tx := max_tx c; max_other := max_other c;
     max_combined := max_combined c; rx_count := rx_count c; tx_count := v;
     other_count := other_count c; combined_count := combined_count c |}.

Definition set_other_count (v : Z) (c : ethtool_channels)
  : ethtool_channels :=
  {| max_rx := max_rx c; max_tx := max_tx c; max_other := max_other c;
     max_combined := max_combined c; rx_count := rx_count c;
     tx_count := tx_count c; other_count := v;
     combined_count := combined_count c |}.

Definition set_combined_count (v : Z) (c : ethtool_channels)
  : ethtool_channels :=
  {| max_rx := max_rx c; max_tx := max_tx c; max_other := max_other c;
     max_combined := max_combined c; rx_count := rx_count c;
     tx_count := tx_count c; other_count := other_count c;
     combined_count := v |}.

(** The attributes of channels_set_policy that carry a value. *)
Inductive channels_attr : Type :=
| ETHTOOL_A_CHANNELS_RX_COUNT | ETHTOOL_A_CHANNELS_TX_COUNT
| ETHTOOL_A_CHANNELS_OTHER_COUNT | ETHTOOL_A_CHANNELS_COMBINED_COUNT.

(** struct nlattr *tb[]: a null pointer, or an attribute and its u32. *)
Definition attr_table : Type := channels_attr -> option Z.

(** What the function reads of the request: the results of the two
    parsers, which are outside the sources. *)
Record genl_info : Type := mk_genl_info {
  nlmsg_parse_ret : Z;          (* what nlmsg_parse returns *)
  attrs : attr_table;           (* and what it leaves in tb *)
  header_ret : Z;               (* what ethnl_parse_header_dev_get returns *)
  header_dev : Z                (* and the device it leaves in req_info *)
}.

(** What the function and its callees use of a struct net_device, of its
    ethtool_ops and of the driver behind them. *)
Record net_device : Type := mk_net_device {
  refcnt : Z;                         (* dev_hold, dev_put *)
  has_get_channels : bool;            (* ops->get_channels is not null *)
  has_set_channels : bool;            (* ops->set_channels is not null *)
  begin_ret : Z;                      (* what ops->begin returns *)
  ops_begun : Z;                      (* begun and not yet completed *)
  reported : ethtool_channels;        (* what ops->get_channels stores *)
  set_channels_ret : ethtool_channels -> Z;
                                      (* what ops->set_channels returns *)
  set_channels_calls : list ethtool_channels;
                                      (* its calls so far, latest first *)
  rxfh_configured : bool;             (* netif_is_rxfh_configured *)
  max_rxfh_channel_ret : Z;           (* what ethtool_get_max_rxfh_channel
                                         returns *)
  max_rxfh_channel : Z;               (* and stores when that is 0 *)
  umem_qids : list Z                  (* the queues with an AF_XDP umem *)
}.

Definition with_refcnt (f : Z -> Z) (d : net_device) : net_device :=
  {| refcnt := f (refcnt d); has_get_channels := has_get_channels d;
     has_set_channels := has_set_channels d; begin_ret := begin_ret d;
     ops_begun := ops_begun d; reported := reported d;
     set_channels_ret := set_channels_ret d;
     set_channels_calls := set_channels_calls d;
     rxfh_configured := rxfh_configured d;
     max_rxfh_channel_ret := max_rxfh_channel_ret d;
     max_rxfh_channel := max_rxfh_channel d; umem_qids := umem_qids d |}.

Definition with_ops_begun (f : Z -> Z) (d : net_device) : net_device :=
  {| refcnt := refcnt d; has_get_channels := has_get_channels d;
     has_set_channels := has_set_channels d; begin_ret := begin_ret d;
     ops_begun := f (ops_begun d); reported := reported d;
     set_channels_ret := set_channels_ret d;
     set_channels_calls := set_channels_calls d;
     rxfh_configured := rxfh_configured d;
     max_rxfh_channel_ret := max_rxfh_channel_ret d;
     max_rxfh_channel := max_rxfh_channel d; umem_qids := umem_qids d |}.

(** A driver that accepts a request takes over its four counts. *)
Definition with_set_channels (c : ethtool_channels) (d : net_device)
  : net_device :=
  {| refcnt := refcnt d; has_get_channels := has_get_channels d;
     has_set_channels := has_set_channels d; begin_ret := begin_ret d;
     ops_begun := ops_begun d;
     reported :=
       if set_channels_ret d c <? 0 then reported d
       else set_combined_count (combined_count c)
              (set_other_count (other_count c)
                 (set_tx_count (tx_count c)
                    (set_rx_count (rx_count c) (reported d))));
     set_channels_ret := set_channels_ret d;
     set_channels_calls := c :: set_channels_calls d;
     rxfh_configured := rxfh_configured d;
     max_rxfh_channel_ret := max_rxfh_channel_ret d;
     max_rxfh_channel := max_rxfh_channel d; umem_qids := umem_qids d |}.

(** The message and the attribute an error leaves in a
    struct netlink_ext_ack. *)
Record netlink_ext_ack : Type := mk_netlink_ext_ack {
  _msg : string;
  bad_attr : option channels_attr
}.

(** The kernel objects the function works on: the devices by address,
    the rtnl mutex, the notifications sent (latest first) and the extack
    of the request. *)
Record world : Type := mk_world {
  devices : gmap Z net_device;
  rtnl_held : bool;
  notified : list Z;
  extack : option netlink_ext_ack
}.

Definition with_devices (f : gmap Z net_device -> gmap Z net_device)
    (w : world) : world :=
  {| devices := f (devices w); rtnl_held := rtnl_held w;
     notified := notified w; extack := extack w |}.

Definition with_rtnl_held (b : bool) (w : world) : world :=
  {| devices := devices w; rtnl_held := b;
     notified := notified w; extack := extack w |}.

Definition with_notified (f : list Z -> list Z) (w : world) : world :=
  {| devices := devices w; rtnl_held := rtnl_held w;
     notified := f (notified w); extack := extack w |}.

Definition with_extack (e : netlink_ext_ack) (w : world) : world :=
  {| devices := devices w; rtnl_held := rtnl_held w;
     notified := notified w; extack := Some e |}.

(** static inline void ethnl_update_u32(u32 *dst,
        const struct nlattr *attr, bool *mod)      (net/ethtool/netlink.h,
    outside the sources): [*dst] takes the value of a present attribute,
    and [*mod] becomes true when that changes it. *)
Definition ethnl_update_u32 (dst : Z) (attr : option Z) (mod_ : bool)
  : Z * bool :=
  match attr with
  | None => (dst, mod_)
  | Some val => if dst =? val then (dst, mod_) else (val, true)
  end.

(** The pointer tb[a], kept as the attribute it points to. *)
Definition tb_ptr (tb : attr_table) (a : channels_attr)
  : option channels_attr :=
  match tb a with
  | Some _ => Some a
  | None => None
  end.

(** Modelled: xdp_get_umem_from_qid(dev, i) (net/xdp/xdp_umem.c, outside
    the sources) is not a null pointer.  The callee takes the queue id
    as a u16: the unsigned int [i] of the caller is narrowed at the
    call, and the queue asked about is [i] modulo 2^16. *)
Definition xdp_get_umem_from_qid (d : net_device) (i : Z) : bool :=
  bool_decide (wrap_unsigned 16 i ∈ umem_qids d).

(** for (i = from_channel; i < old_total; i++)
            if (xdp_get_umem_from_qid(dev, i)) ...

    [n] is the number of values [i] takes when the body is never
    entered, old_total - from_channel or none; the result tells whether
    it was. *)
Fixpoint umem_loop (d : net_device) (n : nat) (i : Z) : bool :=
  match n with
  | O => false
  | S n' =>
      if xdp_get_umem_from_qid d i then true else umem_loop d n' (i + 1)
  end.

Section Code.

Context {Other : Type}.
Variable errno_of : errname -> Z.
Variable errno_ext : errname_ext -> Z.

Definition channels_c : string := "net/ethtool/channels.c".

Definition read_dev (dev : Z) : K Other world net_device :=
  w <- read_globals ;;
  match devices w !! dev with
  | Some d => ret d
  | None => no_result
  end.

Definition update_dev (dev : Z) (f : net_device -> net_device)
  : K Other world unit :=
  w <- read_globals ;;
  match devices w !! dev with
  | Some d => write_globals (with_devices <[dev := f d]> w)
  | None => no_result
  end.

(** Modelled: the callees below belong to net/core, net/netlink,
    net/ethtool/netlink.[ch] and net/ethtool/common.c, outside the
    sources; what they record themselves is left out.

    The rtnl mutex is free or held: taking it while it is held, or
    releasing it while it is free, gives no result.  A reference is
    dropped only from a device that has one, and only a begun operation
    is completed. *)
Definition rtnl_lock : K Other world unit :=
  w <- read_globals ;;
  if rtnl_held w then no_result
  else write_globals (with_rtnl_held true w).

Definition rtnl_unlock : K Other world unit :=
  w <- read_globals ;;
  if rtnl_held w then write_globals (with_rtnl_held false w)
  else no_result.

Definition dev_hold (dev : Z) : K Other world unit :=
  update_dev dev (with_refcnt (fun n => n + 1)).

Definition dev_put (dev : Z) : K Other world unit :=
  d <- read_dev dev ;;
  if refcnt d <=? 0 then no_result
  else update_dev dev (with_refcnt (fun n => n - 1)).

(** nlmsg_parse checks the message against channels_set_policy and fills
    tb. *)
Definition nlmsg_parse (info : genl_info) : K Other world (Z * attr_table) :=
  ret (nlmsg_parse_ret info, attrs info).

(** ethnl_parse_header_dev_get, called with require_dev: an error, or 0
    and a device on which it has taken a reference. *)
Definition ethnl_parse_header_dev_get (info : genl_info)
  : K Other world (Z * Z) :=
  if header_ret info <? 0 then ret (header_ret info, 0)
  else dev_hold (header_dev info) >> ret (0, header_dev info).

(** ethnl_ops_begin gives what the driver's begin gives;
    ethnl_ops_complete ends what a begin that did not fail started. *)
Definition ethnl_ops_begin (dev : Z) : K Other world Z :=
  d <- read_dev dev ;;
  if begin_ret d <? 0 then ret (begin_ret d)
  else update_dev dev (with_ops_begun (fun n => n + 1)) >> ret (begin_ret d).

Definition ethnl_ops_complete (dev : Z) : K Other world unit :=
  d <- read_dev dev ;;
  if ops_begun d <=? 0 then no_result
  else update_dev dev (with_ops_begun (fun n => n - 1)).

(** ops->get_channels(dev, &channels), ops->set_channels(dev, &channels) *)
Definition get_channels (dev : Z) : K Other world ethtool_channels :=
  d <- read_dev dev ;;
  if has_get_channels d then ret (reported d) else no_result.

Definition set_channels (dev : Z) (c : ethtool_channels) : K Other world Z :=
  d <- read_dev dev ;;
  if has_set_channels d then
    update_dev dev (with_set_channels c) >> ret (set_channels_ret d c)
  else no_result.

(** ethtool_get_max_rxfh_channel(dev, &max): the value returned and what
    is in [max] afterwards. *)
Definition ethtool_get_max_rxfh_channel (d : net_device) (max : Z) : Z * Z :=
  if max_rxfh_channel_ret d =? 0 then (0, max_rxfh_channel d)
  else (max_rxfh_channel_ret d, max).

(** Modelled: ethtool_notify(dev, ETHTOOL_MSG_CHANNELS_NTF, NULL)
    (net/ethtool/netlink.c, outside the sources): the notification is
    noted.  The recorder calls the callee may make on its own are not
    modelled: the log holds the calls ethnl_set_channels makes itself. *)
Definition ethtool_notify (dev : Z) : K Other world unit :=
  w <- read_globals ;;
  write_globals (with_notified (cons dev) w).

(** NL_SET_ERR_MSG_ATTR(info->extack, attr, msg) and
    GENL_SET_ERR_MSG(info, msg) *)
Definition NL_SET_ERR_MSG_ATTR (attr : option channels_attr) (msg : string)
  : K Other world unit :=
  w <- read_globals ;;
  write_globals (with_extack {| _msg := msg; bad_attr := attr |} w).

Definition GENL_SET_ERR_MSG (msg : string) : K Other world unit :=
  w <- read_globals ;;
  write_globals
    (with_extack {| _msg := msg;
                    bad_attr := match extack w with
                                | Some e => bad_attr e
                                | None => None
                                end |} w).

(** The labels of ethnl_set_channels, last first; each falls through into
    the one defined before it. *)
Definition out_dev (dev ret_ : Z) : K Other world Z :=
  dev_put dev >> ret ret_.
Definition out_rtnl (dev ret_ : Z) : K Other world Z :=
  rtnl_unlock >> out_dev dev ret_.
Definition out_ops (dev ret_ : Z) : K Other world Z :=
  ethnl_ops_complete dev >> out_rtnl dev ret_.

(** int ethnl_set_channels(struct sk_buff *skb, struct genl_info *info) *)
Definition ethnl_set_channels (info : genl_info) : K Other world Z :=
  r <- nlmsg_parse info ;;
  let '(ret_, tb) := r in
  if ret_ <? 0 then ret ret_ else
  r <- ethnl_parse_header_dev_get info ;;
  let '(ret_, dev) := r in
  if ret_ <? 0 then ret ret_ else
  ops <- read_dev dev ;;
  ret_ <- (v <- ERR channels_c 154 (ret (errno_ext EOPNOTSUPP)) ;;
           ret (- v)) ;;
  if negb (has_get_channels ops) || negb (has_set_channels ops)
  then out_dev dev ret_ else
  rtnl_lock >>
  ret_ <- ethnl_ops_begin dev ;;
  if ret_ <? 0 then out_rtnl dev ret_ else
  channels <- get_channels dev ;;
  let old_total :=
    to_uint (combined_count channels
             + Z.max (rx_count channels) (tx_count channels)) in
  let mod_ := false in
  let mod_combined := false in
  let '(v, mod_) :=
    ethnl_update_u32 (rx_count channels)
      (tb ETHTOOL_A_CHANNELS_RX_COUNT) mod_ in
  let channels := set_rx_count v channels in
  let '(v, mod_) :=
    ethnl_update_u32 (tx_count channels)
      (tb ETHTOOL_A_CHANNELS_TX_COUNT) mod_ in
  let channels := set_tx_count v channels in
  let '(v, mod_) :=
    ethnl_update_u32 (other_count channels)
      (tb ETHTOOL_A_CHANNELS_OTHER_COUNT) mod_ in
  let channels := set_other_count v channels in
  let '(v, mod_combined) :=
    ethnl_update_u32 (combined_count channels)
      (tb ETHTOOL_A_CHANNELS_COMBINED_COUNT) mod_combined in
  let channels := set_combined_count v channels in
  let mod_ := mod_ || mod_combined in
  let ret_ := 0 in
  if negb mod_ then out_ops dev ret_ else
  (* ensure new channel counts are within limits *)
  let err_attr :=
    if rx_count channels >? max_rx channels
    then tb_ptr tb ETHTOOL_A_CHANNELS_RX_COUNT
    else if tx_count channels >? max_tx channels
    then tb_ptr tb ETHTOOL_A_CHANNELS_TX_COUNT
    else if other_count channels >? max_other channels
    then tb_ptr tb ETHTOOL_A_CHANNELS_OTHER_COUNT
    else if combined_count channels >? max_combined channels
    then tb_ptr tb ETHTOOL_A_CHANNELS_COMBINED_COUNT
    else None in
  if bool_decide (is_Some err_attr) then
    ret_ <- (v <- ERR channels_c 191 (ret (errno_of EINVAL)) ;; ret (- v)) ;;
    NL_SET_ERR_MSG_ATTR err_attr "requested channel count exceeds maximum" >>
    out_ops dev ret_
  else
  (* ensure there is at least one RX and one TX channel *)
  let err_attr :=
    if (combined_count channels =? 0) && (rx_count channels =? 0)
    then tb_ptr tb ETHTOOL_A_CHANNELS_RX_COUNT
    else if (combined_count channels =? 0) && (tx_count channels =? 0)
    then tb_ptr tb ETHTOOL_A_CHANNELS_TX_COUNT
    else None in
  if bool_decide (is_Some err_attr) then
    let err_attr :=
      if mod_combined then tb_ptr tb ETHTOOL_A_CHANNELS_COMBINED_COUNT
      else err_attr in
    ret_ <- (v <- ERR channels_c 207 (ret (errno_of EINVAL)) ;; ret (- v)) ;;
    NL_SET_ERR_MSG_ATTR err_attr
      "requested channel counts would result in no RX or TX channel being configured" >>
    out_ops dev ret_
  else
  (* ensure the new Rx count fits within the configured Rx flow
     indirection table settings *)
  d <- read_dev dev ;;
  let max_rx_in_use := 0 in
  let '(rxfh_ret, max_rx_in_use) :=
    if rxfh_configured d then ethtool_get_max_rxfh_channel d max_rx_in_use
    else (0, max_rx_in_use) in
  if rxfh_configured d && (rxfh_ret =? 0)
     && (to_uint (combined_count channels + rx_count channels)
         <=? max_rx_in_use)
  then
    GENL_SET_ERR_MSG
      "requested channel counts are too low for existing indirection table settings" >>
    v <- ERR channels_c 219 (ret (errno_of EINVAL)) ;; ret (- v)
  else
  (* Disabling channels, query zero-copy AF_XDP sockets *)
  let from_channel :=
    to_uint (combined_count channels
             + Z.min (rx_count channels) (tx_count channels)) in
  d <- read_dev dev ;;
  if umem_loop d (Z.to_nat (old_total - from_channel)) from_channel then
    GENL_SET_ERR_MSG
      "requested channel counts are too low for existing zerocopy AF_XDP sockets" >>
    v <- ERR channels_c 228 (ret (errno_of EINVAL)) ;; ret (- v)
  else
  ret_ <- set_channels dev channels ;;
  if ret_ <? 0 then out_ops dev ret_ else
  ethtool_notify dev >>
  out_ops dev ret_.

End Code.

(** A return that takes none of the labels: one of the two
    [return -ERR(EINVAL);] of lines 219 and 228. *)
Definition direct_return (calls : list rec_call) : bool :=
  existsb (fun c => (rc_line c =? 219) || (rc_line c =? 228)) calls.

(** What a call holds of a device and of the rtnl mutex. *)
Definition held (dev : Z) (w : world) : option (bool * Z * Z) :=
  d ← devices w !! dev; Some (rtnl_held w, refcnt d, ops_begun d).

(** What a request asks for: the counts of its attributes, and the
    reported ones where it has none. *)
Definition requested (tb : attr_table) (c : ethtool_channels)
  : ethtool_channels :=
  {| max_rx := max_rx c; max_tx := max_tx c; max_other := max_other c;
     max_combined := max_combined c;
     rx_count := default (rx_count c) (tb ETHTOOL_A_CHANNELS_RX_COUNT);
     tx_count := default (tx_count c) (tb ETHTOOL_A_CHANNELS_TX_COUNT);
     other_count :=
       default (other_count c) (tb ETHTOOL_A_CHANNELS_OTHER_COUNT);
     combined_count :=
       default (combined_count c) (tb ETHTOOL_A_CHANNELS_COMBINED_COUNT) |}.

(** The queues the AF_XDP check asks about: queue [q] is what the
    callee sees of some id between the first channel the request no
    longer uses and the last one in use before.  The least id from
    from_channel on that is narrowed to [q] is
    from_channel + (q - from_channel) mod 2^16. *)
Definition gives_up (old new : ethtool_channels) (q : Z) : bool :=
  let from_channel :=
    to_uint (combined_count new + Z.min (rx_count new) (tx_count new)) in
  let old_total :=
    to_uint (combined_count old + Z.max (rx_count old) (tx_count old)) in
  (0 <=? q) && (q <? 2 ^ 16)
  && (from_channel + (q - from_channel) mod 2 ^ 16 <? old_total).

(** The two reasons to refuse a request that passed the checks of its
    counts: the flow indirection table set by the user needs more RX
    queues, or a queue the check asks about has an AF_XDP umem. *)
Definition rxfh_too_low (d : net_device) (new : ethtool_channels) : bool :=
  rxfh_configured d && (max_rxfh_channel_ret d =? 0)
  && (to_uint (combined_count new + rx_count new) <=? max_rxfh_channel d).

Definition umem_given_up (d : net_device) (new : ethtool_channels) : bool :=
  existsb (gives_up (reported d) new) (umem_qids d).

(** A driver that reports counts within its own maxima. *)
Definition within_limits (c : ethtool_channels) : Prop :=
  rx_count c <= max_rx c /\ tx_count c <= max_tx c
  /\ other_count c <= max_other c /\ combined_count c <= max_combined c.

(** A device at address 4096 with four combined channels of eight and
    an AF_XDP socket on each queue of [umems]; when [configured], the
    user has set a flow indirection table that uses the queues up to
    [in_use]. *)
Definition sample_device (configured : bool) (in_use : Z) (umems : list Z)
  : net_device :=
  {| refcnt := 1; has_get_channels := true; has_set_channels := true;
     begin_ret := 0; ops_begun := 0;
     reported :=
       {| max_rx := 0; max_tx := 0; max_other := 0; max_combined := 8;
          rx_count := 0; tx_count := 0; other_count := 0;
          combined_count := 4 |};
     set_channels_ret := fun _ => 0;
     set_channels_calls := [];
     rxfh_configured := configured;
     max_rxfh_channel_ret := 0;
     max_rxfh_channel := in_use;
     umem_qids := umems |}.

Definition sample_eth_state (configured : bool) (in_use : Z) (umems : list Z)
  : kstate unit world :=
  {| ctx_in_task := true; current := 1;
     tasks := {[1 := mk_task tt (mk_last_err None 0 0)]};
     globals :=
       {| devices := {[ 4096 := sample_device configured in_use umems ]};
          rtnl_held := false; notified := []; extack := None |} |}.

(** A device at the same address with 65540 combined channels, no flow
    indirection table set, and an AF_XDP socket on each queue of
    [umems]. *)
Definition sample_wide_device (umems : list Z) : net_device :=
  {| refcnt := 1; has_get_channels := true; has_set_channels := true;
     begin_ret := 0; ops_begun := 0;
     reported :=
       {| max_rx := 0; max_tx := 0; max_other := 0; max_combined := 65540;
          rx_count := 0; tx_count := 0; other_count := 0;
          combined_count := 65540 |};
     set_channels_ret := fun _ => 0;
     set_channels_calls := [];
     rxfh_configured := false;
     max_rxfh_channel_ret := 0;
     max_rxfh_channel := 0;
     umem_qids := umems |}.

Definition sample_wide_state (umems : list Z) : kstate unit world :=
  {| ctx_in_task := true; current := 1;
     tasks := {[1 := mk_task tt (mk_last_err None 0 0)]};
     globals :=
       {| devices := {[ 4096 := sample_wide_device umems ]};
          rtnl_held := false; notified := []; extack := None |} |}.

(** A request for [n] combined channels on that device. *)
Definition sample_request (n : Z) : genl_info :=
  {| nlmsg_parse_ret := 0;
     attrs := fun a =>
       match a with
       | ETHTOOL_A_CHANNELS_COMBINED_COUNT => Some n
       | _ => None
       end;
     header_ret := 0; header_dev := 4096 |}.

End EthtoolChannels.

(** ** net/nfc/nci/lib.c: nci_to_errno *)

(** The NCI status codes that label the cases of nci_to_errno.  They are
    macros of include/net/nfc/nci.h, outside the sources: their values
    are a parameter [status_val]. *)
Inductive nci_status : Type :=
| NCI_STATUS_OK | NCI_STATUS_REJECTED | NCI_STATUS_RF_FRAME_CORRUPTED
| NCI_STATUS_FAILED | NCI_STATUS_NOT_INITIALIZED | NCI_STATUS_SYNTAX_ERROR
| NCI_STATUS_SEMANTIC_ERROR | NCI_STATUS_UNKNOWN_GID | NCI_STATUS_UNKNOWN_OID
| NCI_STATUS_INVALID_PARAM | NCI_STATUS_MESSAGE_SIZE_EXCEEDED
| NCI_STATUS_DISCOVERY_ALREADY_STARTED
| NCI_STATUS_DISCOVERY_TARGET_ACTIVATION_FAILED
| NCI_STATUS_RF_TRANSMISSION_ERROR | NCI_STATUS_RF_PROTOCOL_ERROR
| NCI_STATUS_RF_TIMEOUT_ERROR | NCI_STATUS_NFCEE_INTERFACE_ACTIVATION_FAILED
| NCI_STATUS_NFCEE_TRANSMISSION_ERROR | NCI_STATUS_NFCEE_PROTOCOL_ERROR
| NCI_STATUS_NFCEE_TIMEOUT_ERROR.

(** The values of the Linux 5.8 header, to instantiate [status_val]. *)
Definition linux_nci_status (s : nci_status) : Z :=
  match s with
  | NCI_STATUS_OK => 0 | NCI_STATUS_REJECTED => 1
  | NCI_STATUS_RF_FRAME_CORRUPTED => 2 | NCI_STATUS_FAILED => 3
  | NCI_STATUS_NOT_INITIALIZED => 4 | NCI_STATUS_SYNTAX_ERROR => 5
  | NCI_STATUS_SEMANTIC_ERROR => 6 | NCI_STATUS_UNKNOWN_GID => 7
  | NCI_STATUS_UNKNOWN_OID => 8 | NCI_STATUS_INVALID_PARAM => 9
  | NCI_STATUS_MESSAGE_SIZE_EXCEEDED => 10
  | NCI_STATUS_DISCOVERY_ALREADY_STARTED => 160
  | NCI_STATUS_DISCOVERY_TARGET_ACTIVATION_FAILED => 161
  | NCI_STATUS_RF_TRANSMISSION_ERROR => 176
  | NCI_STATUS_RF_PROTOCOL_ERROR => 177
  | NCI_STATUS_RF_TIMEOUT_ERROR => 178
  | NCI_STATUS_NFCEE_INTERFACE_ACTIVATION_FAILED => 192
  | NCI_STATUS_NFCEE_TRANSMISSION_ERROR => 193
  | NCI_STATUS_NFCEE_PROTOCOL_ERROR => 194
  | NCI_STATUS_NFCEE_TIMEOUT_ERROR => 195
  end.

Section NciLib.

Context {Other Global : Type}.
Variable errno_of : errname -> Z.
Variable errno_ext : errname_ext -> Z.
Variable status_val : nci_status -> Z.

Definition nci_lib_c : string := "net/nfc/nci/lib.c".

(** The cases of the switch of nci_to_errno after [case NCI_STATUS_OK],
    in source order: the label, the line of its return statement and
    the errno returned.  NCI_STATUS_FAILED shares its statement with
    [default]. *)
Definition nci_error_cases : list (Z * (Z * Z)) :=
  [
    (status_val NCI_STATUS_REJECTED, (31, errno_of EBUSY));
    (status_val NCI_STATUS_RF_FRAME_CORRUPTED, (34, errno_ext EBADMSG));
    (status_val NCI_STATUS_NOT_INITIALIZED, (37, errno_of EHOSTDOWN));
    (status_val NCI_STATUS_SYNTAX_ERROR, (44, errno_of EPROTO));
    (status_val NCI_STATUS_SEMANTIC_ERROR, (44, errno_of EPROTO));
    (status_val NCI_STATUS_INVALID_PARAM, (44, errno_of EPROTO));
    (status_val NCI_STATUS_RF_PROTOCOL_ERROR, (44, errno_of EPROTO));
    (status_val NCI_STATUS_NFCEE_PROTOCOL_ERROR, (44, errno_of EPROTO));
    (status_val NCI_STATUS_UNKNOWN_GID, (48, errno_of EBADRQC));
    (status_val NCI_STATUS_UNKNOWN_OID, (48, errno_of EBADRQC));
    (status_val NCI_STATUS_MESSAGE_SIZE_EXCEEDED, (51, errno_ext EMSGSIZE));
    (status_val NCI_STATUS_DISCOVERY_ALREADY_STARTED,
     (54, errno_ext EALREADY));
    (status_val NCI_STATUS_DISCOVERY_TARGET_ACTIVATION_FAILED,
     (58, errno_of ECONNREFUSED));
    (status_val NCI_STATUS_NFCEE_INTERFACE_ACTIVATION_FAILED,
     (58, errno_of ECONNREFUSED));
    (status_val NCI_STATUS_RF_TRANSMISSION_ERROR, (62, errno_ext ECOMM));
    (status_val NCI_STATUS_NFCEE_TRANSMISSION_ERROR, (62, errno_ext ECOMM));
    (status_val NCI_STATUS_RF_TIMEOUT_ERROR, (66, errno_of ETIMEDOUT));
    (status_val NCI_STATUS_NFCEE_TIMEOUT_ERROR, (66, errno_of ETIMEDOUT));
    (status_val NCI_STATUS_FAILED, (70, errno_ext ENOSYS))
  ].

(** The first case whose label equals [code]: the controlling expression
    is a __u8 promoted to int, and the labels are int constants. *)
Fixpoint switch_int {A} (cases : list (Z * A)) (code : Z) : option A :=
  match cases with
  | [] => None
  | (label, a) :: rest =>
      if code =? label then Some a else switch_int rest code
  end.

(** int nci_to_errno(__u8 code) *)
Definition nci_to_errno (code : Z) : K Other Global Z :=
  if code =? status_val NCI_STATUS_OK then ret 0
  else
    match switch_int nci_error_cases code with
    | Some (l, e) => v <- ERR nci_lib_c l (ret e) ;; ret (- v)
    | None => v <- ERR nci_lib_c 70 (ret (errno_ext ENOSYS)) ;; ret (- v)
    end.

End NciLib.

(** The errno constants nci_to_errno returns are positive. *)
Definition nci_errnos_positive (errno_of : errname -> Z)
    (errno_ext : errname_ext -> Z) : Prop :=
  Forall (fun e => 0 < errno_of e)
    [EBUSY; EHOSTDOWN; EPROTO; EBADRQC; ECONNREFUSED; ETIMEDOUT]
  /\ Forall (fun e => 0 < errno_ext e)
       [EBADMSG; EMSGSIZE; EALREADY; ECOMM; ENOSYS].

(** ** net/wimax/op-state-get.c: wimax_gnl_doit_state_get *)

Module WimaxStateGet.

(** What the function uses of a struct wimax_dev (include/net/wimax.h):
    its network device and its state, an enum wimax_st. *)
Record wimax_dev : Type := mk_wimax_dev {
  net_dev : Z;
  state : Z
}.

(** The kernel objects the function works on: the WiMAX devices by
    address, the interface indices that designate one, and the
    reference count of every network device. *)
Record world : Type := mk_world {
  wimax_devs : gmap Z wimax_dev;
  by_ifindex : gmap Z Z;
  refcnt : gmap Z Z
}.

Definition with_refcnt (f : gmap Z Z -> gmap Z Z) (w : world) : world :=
  {| wimax_devs := wimax_devs w; by_ifindex := by_ifindex w;
     refcnt := f (refcnt w) |}.

Section Code.

Context {Other : Type}.
Variable errno_of : errname -> Z.

Definition op_state_get_c : string := "net/wimax/op-state-get.c".

Definition read_wimax_dev (p : Z) : K Other world wimax_dev :=
  w <- read_globals ;;
  match wimax_devs w !! p with
  | Some d => ret d
  | None => no_result
  end.

(** Modelled: dev_hold and dev_put of <linux/netdevice.h>; a reference is
    dropped only from a device that has one. *)
Definition dev_hold (dev : Z) : K Other world unit :=
  w <- read_globals ;;
  match refcnt w !! dev with
  | Some n => write_globals (with_refcnt <[dev := n + 1]> w)
  | None => no_result
  end.

Definition dev_put (dev : Z) : K Other world unit :=
  w <- read_globals ;;
  match refcnt w !! dev with
  | Some n =>
      if n <=? 0 then no_result
      else write_globals (with_refcnt <[dev := n - 1]> w)
  | None => no_result
  end.

(** Modelled: wimax_dev_get_by_genl_info (net/wimax/stack.c, outside the
    sources) gives the WiMAX device of an interface index, with a
    reference taken on its network device, or a null pointer; what it
    records itself is left out. *)
Definition wimax_dev_get_by_genl_info (ifindex : Z) : K Other world Z :=
  w <- read_globals ;;
  match by_ifindex w !! ifindex with
  | Some p =>
      d <- read_wimax_dev p ;;
      dev_hold (net_dev d) >> ret p
  | None => ret 0
  end.

(** Modelled: wimax_state_get (net/wimax/stack.c) reads the state under
    the mutex of the device. *)
Definition wimax_state_get (p : Z) : K Other world Z :=
  d <- read_wimax_dev p ;;
  ret (state d).

(** int wimax_gnl_doit_state_get(struct sk_buff *skb,
                                 struct genl_info *info)

    [attr] is info->attrs[WIMAX_GNL_STGET_IFIDX], a null pointer or an
    attribute with its u32; d_fnstart, d_fnend and pr_err only print. *)
Definition wimax_gnl_doit_state_get (attr : option Z) : K Other world Z :=
  result <- (v <- ERR op_state_get_c 37 (ret (errno_of ENODEV)) ;;
             ret (- v)) ;;
  match attr with
  | None => ret result
  | Some v =>
      let ifindex := to_int v in
      wimax_dev <- wimax_dev_get_by_genl_info ifindex ;;
      if wimax_dev =? 0 then ret result
      else
        (* Execute the operation and send the result back to user space *)
        result <- wimax_state_get wimax_dev ;;
        d <- read_wimax_dev wimax_dev ;;
        dev_put (net_dev d) >>
        ret result
  end.

End Code.

(** Every interface index of the table designates a WiMAX device at an
    address that is not null, whose network device is counted and not
    about to be freed. *)
Definition table_ok (w : world) : Prop :=
  forall i p, by_ifindex w !! i = Some p ->
    p <> 0
    /\ exists d n, wimax_devs w !! p = Some d
         /\ refcnt w !! net_dev d = Some n /\ 0 <= n.

(** What the function answers when all goes well: the state of the
    device the attribute designates. *)
Definition state_of (w : world) (attr : option Z) : option Z :=
  v ← attr; p ← by_ifindex w !! to_int v; d ← wimax_devs w !! p;
  Some (state d).

(** One WiMAX device in the state WIMAX_ST_READY (4) behind interface
    index 3. *)
Definition sample_world : world :=
  {| wimax_devs := {[ 4096 := {| net_dev := 8192; state := 4 |} ]};
     by_ifindex := {[ 3 := 4096 ]};
     refcnt := {[ 8192 := 1 ]} |}.

Definition sample_wimax_state : kstate unit world :=
  {| ctx_in_task := true; current := 1;
     tasks := {[1 := mk_task tt (mk_last_err None 0 0)]};
     globals := sample_world |}.

End WimaxStateGet.

(** ** net/netfilter/nft_bitwise.c: nft_bitwise_init_shift

    The third file kept in src/net/nfc/nci/lib.c: its first line is
    line 317 there, and __LINE__ counts from it. *)

Module NftBitwiseInit.

Import NftBitwise.

(** What nft_data_init (net/netfilter/nf_tables_api.c, outside the
    sources) makes of a nested attribute: the value it returns, the
    words it stores in the struct nft_data and the type and length it
    leaves in the struct nft_data_desc. *)
Record nft_data_attr : Type := mk_nft_data_attr {
  init_ret : Z;
  init_words : list Z;
  desc_type : Z;
  desc_len : Z
}.

(** The entries of tb[] that the function looks at; [None] is a null
    pointer. *)
Record bitwise_attrs : Type := mk_bitwise_attrs {
  NFTA_BITWISE_MASK : option nft_data_attr;
  NFTA_BITWISE_XOR : option nft_data_attr;
  NFTA_BITWISE_DATA : option nft_data_attr
}.

Definition set_data (v : list Z) (priv : nft_bitwise) : nft_bitwise :=
  {| sreg := sreg priv; dreg := dreg priv; op := op priv; len := len priv;
     mask := mask priv; xor := xor priv; data := v |}.

Section Code.

Context {Other Global : Type}.
Variable errno_of : errname -> Z.
Variable NFT_DATA_VALUE : Z.   (* enum nft_data_types *)

Definition nft_bitwise_c : string := "net/netfilter/nft_bitwise.c".

(** Modelled: nft_data_init gives a negative errno, or stores the value
    in priv->data and fills in the descriptor; what it records itself
    is left out.  nft_data_release has nothing to release for the value
    that this function takes. *)
Definition nft_data_init (a : nft_data_attr) (priv : nft_bitwise)
  : Z * nft_bitwise * (Z * Z) :=
  if init_ret a <? 0 then (init_ret a, priv, (0, 0))
  else (init_ret a, set_data (init_words a) priv, (desc_type a, desc_len a)).

Definition nft_data_release : K Other Global unit := ret tt.

(** static int nft_bitwise_init_shift(struct nft_bitwise *priv,
                                      const struct nlattr *const tb[])

    The result and what is in [*priv] afterwards. *)
Definition nft_bitwise_init_shift (priv : nft_bitwise) (tb : bitwise_attrs)
  : K Other Global (Z * nft_bitwise) :=
  if bool_decide (is_Some (NFTA_BITWISE_MASK tb))
     || bool_decide (is_Some (NFTA_BITWISE_XOR tb))
  then v <- ERR nft_bitwise_c 140 (ret (errno_of EINVAL)) ;; ret (- v, priv)
  else
  match NFTA_BITWISE_DATA tb with
  | None =>
      v <- ERR nft_bitwise_c 143 (ret (errno_of EINVAL)) ;; ret (- v, priv)
  | Some a =>
      let '(err, priv, d) := nft_data_init a priv in
      if err <? 0 then ret (err, priv)
      else
        refuse <-
          (if negb (fst d =? NFT_DATA_VALUE) then ret true
           else if negb (snd d =? 4) then ret true
           else match data priv !! 0%nat with
                | Some w => ret (BITS_PER_U32 <=? to_uint w)
                | None => no_result
                end) ;;
        if (refuse : bool) then
          nft_data_release >>
          v <- ERR nft_bitwise_c 152 (ret (errno_of EINVAL)) ;;
          ret (- v, priv)
        else ret (0, priv)
  end.

End Code.

(** The requests nft_bitwise_init_shift accepts: no mask, no xor, and a
    data attribute that nft_data_init takes as a value of four bytes
    with a first word below 32. *)
Definition accepted (NFT_DATA_VALUE : Z) (tb : bitwise_attrs) : Prop :=
  NFTA_BITWISE_MASK tb = None /\ NFTA_BITWISE_XOR tb = None
  /\ exists a w,
       NFTA_BITWISE_DATA tb = Some a /\ 0 <= init_ret a
       /\ desc_type a = NFT_DATA_VALUE /\ desc_len a = 4
       /\ init_words a !! 0%nat = Some w /\ w < 32.

(** Every struct nft_data has its four words, each a u32. *)
Definition words_ok (tb : bitwise_attrs) : Prop :=
  forall a, NFTA_BITWISE_DATA tb = Some a ->
    length (init_words a) = 4%nat /\ words_u32 (init_words a).

(** A data attribute with the value [shift], and a request that has only
    it. *)
Definition sample_data_attr (shift : Z) : nft_data_attr :=
  {| init_ret := 0; init_words := [shift; 0; 0; 0];
     desc_type := 0; desc_len := 4 |}.

Definition sample_shift_attrs (shift : Z) : bitwise_attrs :=
  {| NFTA_BITWISE_MASK := None; NFTA_BITWISE_XOR := None;
     NFTA_BITWISE_DATA := Some (sample_data_attr shift) |}.

End NftBitwiseInit.

(** * Properties *)

(** ** The recorder *)

Section KernelFacts.

Context {Other Global : Type}.
Implicit Types st : kstate Other Global.

Lemma to_int_id z : int_range z -> to_int z = z.
Proof.
  unfold int_range, to_int, wrap_signed. intros H.
  change (2 ^ (32 - 1)) with 2147483648 in *.
  change (2 ^ 31) with 2147483648 in *.
  rewrite Z.mod_small; lia.
Qed.

Lemma to_uint_id z : uint_range z -> to_uint z = z.
Proof.
  unfold uint_range, to_uint, wrap_unsigned. intros H.
  rewrite Z.mod_small; lia.
Qed.

(** In task context the three stores leave exactly the arguments in the
    record of the current task. *)
Lemma set_last_err_in_task st f l e t :
  ctx_in_task st = true ->
  tasks st !! current st = Some t ->
  set_last_err f l e st =
    Done tt
      (with_tasks st
         (<[current st := mk_task (ts_other t) (mk_last_err f l e)]> (tasks st)))
      [mk_rec_call f l e].
Proof.
  intros Hctx Ht.
  unfold set_last_err, bind, emit, in_task, get_current, store_last_err.
  rewrite Hctx. simpl. rewrite Ht. simpl.
  rewrite lookup_insert_eq. simpl. rewrite lookup_insert_eq. simpl.
  rewrite !insert_insert_eq. reflexivity.
Qed.

(** Outside task context the call returns at once. *)
Lemma set_last_err_no_task st f l e :
  ctx_in_task st = false ->
  set_last_err f l e st = Done tt st [mk_rec_call f l e].
Proof.
  intros Hctx. unfold set_last_err, bind, emit, in_task.
  rewrite Hctx. reflexivity.
Qed.

(** With a valid [current] the recorder always returns. *)
Lemma set_last_err_total st f l e :
  current_valid st ->
  exists st', set_last_err f l e st = Done tt st' [mk_rec_call f l e]
    /\ ctx_in_task st' = ctx_in_task st /\ current st' = current st
    /\ globals st' = globals st
    /\ dom (tasks st') = dom (tasks st).
Proof.
  intros Hv. destruct (ctx_in_task st) eqn:Hctx.
  - destruct (Hv Hctx) as [t Ht].
    eexists. rewrite (set_last_err_in_task _ _ _ _ _ Hctx Ht).
    repeat split; simpl; try done.
    apply dom_insert_lookup_L; eauto.
  - exists st. rewrite set_last_err_no_task by assumption.
    repeat split; done.
Qed.

Lemma ERR_const st F L code st' :
  set_last_err (Some F) (to_uint L) (to_int code) st
    = Done tt st' [mk_rec_call (Some F) (to_uint L) (to_int code)] ->
  ERR F L (ret code) st
    = Done code st' [mk_rec_call (Some F) (to_uint L) (to_int code)].
Proof.
  intros H. unfold ERR, bind, ret. simpl in *.
  unfold bind in H. rewrite H. reflexivity.
Qed.

End KernelFacts.

Section Recorder.

Context {Other Global : Type}.
Implicit Types st : kstate Other Global.

(** C1 (transparency): whatever the file, the line and the code, the
    wrapped expression ERR(code) evaluates to code itself, also when code
    does not fit an int; the recording is a side effect only. *)
Theorem ERR_transparent st (FILE : string) (LINE code : Z) :
  current_valid st ->
  exists st' calls, ERR FILE LINE (ret code) st = Done code st' calls.
Proof.
  intros Hv.
  destruct (set_last_err_total st (Some FILE) (to_uint LINE) (to_int code) Hv)
    as (st' & Hrun & _).
  exists st', [mk_rec_call (Some FILE) (to_uint LINE) (to_int code)].
  by apply ERR_const.
Qed.

(** C2 (last write wins): after any sequence of recordings by a task in
    task context, the record of that task holds exactly the file, line and
    code of the last one. *)
Theorem last_write_wins st (cs : list rec_call) (c : rec_call) :
  ctx_in_task st = true ->
  is_Some (tasks st !! current st) ->
  exists st', record_all (cs ++ [c]) st = Done tt st' (cs ++ [c])
    /\ read_last_err (current st) st' = Some (as_record c).
Proof.
  revert st. induction cs as [|c0 cs IH]; intros st Hctx [t Ht].
  - destruct c as [f l e]. simpl. unfold bind.
    rewrite (set_last_err_in_task _ _ _ _ _ Hctx Ht). simpl.
    eexists. split; [reflexivity|].
    unfold read_last_err. simpl. by rewrite lookup_insert_eq.
  - destruct c0 as [f0 l0 e0]. simpl. unfold bind.
    rewrite (set_last_err_in_task _ _ _ _ _ Hctx Ht).
    set (st1 := with_tasks st _).
    assert (Hs1 : is_Some (tasks st1 !! current st1)).
    { subst st1. simpl. rewrite lookup_insert_eq. eauto. }
    destruct (IH st1 Hctx Hs1) as (st' & Hrun & Hread).
    exists st'. rewrite Hrun. split; [reflexivity|]. exact Hread.
Qed.

(** C3 (no-context safety): with no current-task identity the recorder
    returns without a fault and leaves the whole state as it was, and the
    wrapped expression still evaluates to the code. *)
Theorem no_context_noop st (f : cstr) (l e : Z) (FILE : string) (LINE code : Z) :
  ctx_in_task st = false ->
  set_last_err f l e st = Done tt st [mk_rec_call f l e]
  /\ ERR FILE LINE (ret code) st
     = Done code st [mk_rec_call (Some FILE) (to_uint LINE) (to_int code)].
Proof.
  intros Hctx. split.
  - by apply set_last_err_no_task.
  - apply ERR_const. by apply set_last_err_no_task.
Qed.

(** C4 (task isolation, frame): a call of the recorder by the current task
    changes nothing but the last_err record embedded in that task: every
    other task, the other members of the current task, the set of tasks,
    the context and the global state stay as they were. *)
Theorem set_last_err_frame st (f : cstr) (l e : Z) :
  current_valid st ->
  exists st', set_last_err f l e st = Done tt st' [mk_rec_call f l e]
    /\ (forall B, B <> current st -> tasks st' !! B = tasks st !! B)
    /\ ts_other <$> tasks st' !! current st = ts_other <$> tasks st !! current st
    /\ dom (tasks st') = dom (tasks st)
    /\ globals st' = globals st
    /\ ctx_in_task st' = ctx_in_task st
    /\ current st' = current st.
Proof.
  intros Hv. destruct (ctx_in_task st) eqn:Hctx.
  - destruct (Hv Hctx) as [t Ht].
    eexists. rewrite (set_last_err_in_task _ _ _ _ _ Hctx Ht).
    split; [reflexivity|]. simpl.
    split; [intros B HB; by rewrite lookup_insert_ne|].
    split; [by rewrite lookup_insert_eq, Ht|].
    split; [|done].
    apply dom_insert_lookup_L; eauto.
  - exists st. rewrite set_last_err_no_task by assumption. done.
Qed.

(** C5 (no filtering in the recorder): in task context a call overwrites
    the three members of the current task's record with its arguments,
    whatever the code (an excluded one such as ENOMEM or EFAULT, zero, any
    integer) and whatever the record held before. *)
Theorem set_last_err_overwrites st (f : cstr) (l code : Z) (t : task_struct Other) :
  ctx_in_task st = true ->
  tasks st !! current st = Some t ->
  exists st', set_last_err f l code st = Done tt st' [mk_rec_call f l code]
    /\ read_last_err (current st) st' = Some (mk_last_err f l code).
Proof.
  intros Hctx Ht. eexists.
  rewrite (set_last_err_in_task _ _ _ _ _ Hctx Ht). split; [reflexivity|].
  unfold read_last_err. simpl. by rewrite lookup_insert_eq.
Qed.

(** C10 (no validation): the recorder has no path that rejects or alters
    an argument: in task context it cannot end without the record holding
    the very values passed; and at a call site [return -ERR(X);] the value
    returned is -X while the code stored is the positive X. *)
Theorem set_last_err_stores_arguments st (t : task_struct Other) :
  ctx_in_task st = true ->
  tasks st !! current st = Some t ->
  (forall (f : cstr) (l code : Z),
      exists st', set_last_err f l code st = Done tt st' [mk_rec_call f l code]
        /\ (file <$> read_last_err (current st) st') = Some f
        /\ (line <$> read_last_err (current st) st') = Some l
        /\ (errno <$> read_last_err (current st) st') = Some code)
  /\ (forall (FILE : string) (LINE X : Z),
      uint_range LINE -> int_range X ->
      exists st', return_neg_ERR FILE LINE X st
                  = Done (- X) st' [mk_rec_call (Some FILE) LINE X]
        /\ read_last_err (current st) st' = Some (mk_last_err (Some FILE) LINE X)).
Proof.
  intros Hctx Ht. split.
  - intros f l code. eexists.
    rewrite (set_last_err_in_task _ _ _ _ _ Hctx Ht). split; [reflexivity|].
    unfold read_last_err. simpl. by rewrite lookup_insert_eq.
  - intros FILE LINE X HL HX. eexists.
    unfold return_neg_ERR, bind at 1.
    rewrite (ERR_const st FILE LINE X _
               (set_last_err_in_task _ _ _ _ _ Hctx Ht)).
    rewrite (to_uint_id _ HL), (to_int_id _ HX). simpl.
    split; [reflexivity|].
    unfold read_last_err. simpl. by rewrite lookup_insert_eq.
Qed.

End Recorder.

(** *** Instances on the sample machine *)

Lemma sample_state_valid : current_valid sample_state.
Proof. intros _. eexists. reflexivity. Defined.

Lemma ERR_transparent_witness :
  current_valid sample_state
  /\ exists st' calls,
       ERR "fs/ioctl.c" 745 (ret 9) sample_state = Done 9 st' calls.
Proof.
  split; [exact sample_state_valid|].
  apply (ERR_transparent sample_state "fs/ioctl.c" 745 9).
  exact sample_state_valid.
Defined.

Lemma last_write_wins_witness :
  exists st',
    record_all
      ([mk_rec_call (Some "net/socket.c") 458 88]
         ++ [mk_rec_call (Some "kernel/pid_namespace.c") 273 1]) sample_state
    = Done tt st'
        ([mk_rec_call (Some "net/socket.c") 458 88]
           ++ [mk_rec_call (Some "kernel/pid_namespace.c") 273 1])
    /\ read_last_err (current sample_state) st'
       = Some (as_record (mk_rec_call (Some "kernel/pid_namespace.c") 273 1)).
Proof.
  apply (last_write_wins sample_state
           [mk_rec_call (Some "net/socket.c") 458 88]
           (mk_rec_call (Some "kernel/pid_namespace.c") 273 1)).
  - reflexivity.
  - eexists. reflexivity.
Defined.

Lemma no_context_noop_witness :
  set_last_err (Some "fs/ioctl.c") 50 25 sample_irq_state
  = Done tt sample_irq_state [mk_rec_call (Some "fs/ioctl.c") 50 25]
  /\ ERR "fs/ioctl.c" 50 (ret 25) sample_irq_state
     = Done 25 sample_irq_state
         [mk_rec_call (Some "fs/ioctl.c") (to_uint 50) (to_int 25)].
Proof.
  apply (no_context_noop sample_irq_state (Some "fs/ioctl.c") 50 25
           "fs/ioctl.c" 50 25).
  reflexivity.
Defined.

Lemma set_last_err_frame_witness :
  exists st',
    set_last_err (Some "fs/ioctl.c") 745 9 sample_state
    = Done tt st' [mk_rec_call (Some "fs/ioctl.c") 745 9]
    /\ (forall B, B <> current sample_state ->
         tasks st' !! B = tasks sample_state !! B)
    /\ ts_other <$> tasks st' !! current sample_state
       = ts_other <$> tasks sample_state !! current sample_state
    /\ dom (tasks st') = dom (tasks sample_state)
    /\ globals st' = globals sample_state
    /\ ctx_in_task st' = ctx_in_task sample_state
    /\ current st' = current sample_state.
Proof.
  apply (set_last_err_frame sample_state (Some "fs/ioctl.c") 745 9).
  exact sample_state_valid.
Defined.

Lemma set_last_err_overwrites_witness :
  exists st',
    set_last_err (Some "mm/mmap.c") 100 12 sample_state
    = Done tt st' [mk_rec_call (Some "mm/mmap.c") 100 12]
    /\ read_last_err (current sample_state) st'
       = Some (mk_last_err (Some "mm/mmap.c") 100 12).
Proof.
  apply (set_last_err_overwrites sample_state (Some "mm/mmap.c") 100 12
           (mk_task tt (mk_last_err None 0 0))); reflexivity.
Defined.

Lemma set_last_err_stores_arguments_witness :
  (exists st',
      set_last_err None 0 (-70000) sample_state
      = Done tt st' [mk_rec_call None 0 (-70000)]
      /\ (file <$> read_last_err (current sample_state) st') = Some None
      /\ (line <$> read_last_err (current sample_state) st') = Some 0
      /\ (errno <$> read_last_err (current sample_state) st') = Some (-70000))
  /\ (exists st',
        return_neg_ERR "fs/ioctl.c" 745 9 sample_state
        = Done (- 9) st' [mk_rec_call (Some "fs/ioctl.c") 745 9]
        /\ read_last_err (current sample_state) st'
           = Some (mk_last_err (Some "fs/ioctl.c") 745 9)).
Proof.
  destruct (set_last_err_stores_arguments sample_state
              (mk_task tt (mk_last_err None 0 0)) eq_refl eq_refl)
    as [H1 H2].
  split.
  - exact (H1 None 0 (-70000)).
  - apply (H2 "fs/ioctl.c" 745 9); unfold uint_range, int_range; lia.
Defined.

(** ** Call sites *)

Section CallSites.

Context {Other Global : Type}.
Variable errno_of : errname -> Z.
Implicit Types st : kstate Other Global.

(** ERR applied to a constant is one call of the recorder. *)
Lemma ERR_run st (FILE : string) (LINE X : Z) :
  uint_range LINE ->
  current_valid st ->
  exists st',
    ERR FILE LINE (ret X) st
    = Done X st' [mk_rec_call (Some FILE) LINE (to_int X)].
Proof.
  intros HL Hv.
  destruct (set_last_err_total st (Some FILE) (to_uint LINE) (to_int X) Hv)
    as (st' & Hrun & _).
  exists st'. rewrite (ERR_const _ _ _ _ _ Hrun).
  by rewrite (to_uint_id _ HL).
Qed.

Lemma uint_range_line (n : Z) : 0 <= n < 4294967296 -> uint_range n.
Proof. unfold uint_range. change (2 ^ 32) with 4294967296. lia. Qed.

(** The bare [return -EFAULT;] statements of snd_hwdep_dsp_load_compat. *)
Lemma snd_hwdep_dsp_load_compat_EFAULT (X : hwdep_ext) (hw src : Z) st :
  a_user_copy_fails X src = true ->
  snd_hwdep_dsp_load_compat errno_of X hw src st
  = Done (- errno_of EFAULT) st [].
Proof.
  unfold a_user_copy_fails, snd_hwdep_dsp_load_compat.
  destruct (nonzero (copy_in_user _ _ _ _)); [done|].
  destruct (get_user X src m_image) as [r1 ptr].
  destruct (nonzero r1 || nonzero (put_user _ _ _ m_image)); [done|].
  destruct (get_user X src m_length) as [r2 v2].
  destruct (nonzero r2 || nonzero (put_user _ _ _ m_length)); [done|].
  destruct (get_user X src m_driver_data) as [r3 v3].
  destruct (nonzero r3 || nonzero (put_user _ _ _ m_driver_data)); done.
Qed.

(** When every copy succeeds the function is its tail call. *)
Lemma snd_hwdep_dsp_load_compat_tail (X : hwdep_ext) (hw src : Z) st :
  a_user_copy_fails X src = false ->
  snd_hwdep_dsp_load_compat errno_of X hw src st
  = snd_hwdep_dsp_load X hw
      (compat_alloc_user_space X (sizeof_dsp_image X)) st.
Proof.
  unfold a_user_copy_fails, snd_hwdep_dsp_load_compat.
  destruct (nonzero (copy_in_user _ _ _ _)); [done|].
  destruct (get_user X src m_image) as [r1 ptr].
  destruct (nonzero r1 || nonzero (put_user _ _ _ m_image)); [done|].
  destruct (get_user X src m_length) as [r2 v2].
  destruct (nonzero r2 || nonzero (put_user _ _ _ m_length)); [done|].
  destruct (get_user X src m_driver_data) as [r3 v3].
  destruct (nonzero r3 || nonzero (put_user _ _ _ m_driver_data)); done.
Qed.

(** The wrapped [return -ERR(ENOIOCTLCMD);] of snd_hwdep_ioctl_compat. *)
Lemma snd_hwdep_ioctl_compat_ENOIOCTLCMD (X : hwdep_ext) (file cmd arg : Z) st :
  hwdep_known_cmd X cmd = false ->
  ioctl_compat X (private_data X file) = None ->
  current_valid st ->
  exists st',
    snd_hwdep_ioctl_compat errno_of X file cmd arg st
    = Done (- errno_of ENOIOCTLCMD) st'
        [mk_rec_call (Some hwdep_compat_c) 63 (to_int (errno_of ENOIOCTLCMD))].
Proof.
  unfold hwdep_known_cmd, snd_hwdep_ioctl_compat. intros Hcmd Hops Hv.
  apply orb_false_elim in Hcmd as [Hcmd ->]. rewrite Hcmd, Hops.
  destruct (ERR_run st hwdep_compat_c 63 (errno_of ENOIOCTLCMD)) as (st' & Hrun);
    [by apply uint_range_line | done |].
  exists st'. unfold bind. by rewrite Hrun.
Qed.

(** The bare [return -ENOMEM;] of sst_acpi_probe. *)
Lemma sst_acpi_probe_ENOMEM (X : sst_ext) (pdev : Z) st :
  devm_kzalloc X (dev_of X pdev) = None ->
  sst_acpi_probe errno_of X pdev st = Done (- errno_of ENOMEM, None) st [].
Proof. unfold sst_acpi_probe. by intros ->. Qed.

(** The first wrapped [return -ERR(ENODEV);] of sst_acpi_probe. *)
Lemma sst_acpi_probe_ENODEV (X : sst_ext) (pdev p : Z) st :
  devm_kzalloc X (dev_of X pdev) = Some p ->
  acpi_match_device X (dev_of X pdev) = None ->
  current_valid st ->
  exists st',
    sst_acpi_probe errno_of X pdev st
    = Done (- errno_of ENODEV, Some zeroed_priv) st'
        [mk_rec_call (Some sst_acpi_c) 91 (to_int (errno_of ENODEV))].
Proof.
  unfold sst_acpi_probe. intros -> -> Hv.
  destruct (ERR_run st sst_acpi_c 91 (errno_of ENODEV)) as (st' & Hrun);
    [by apply uint_range_line | done |].
  exists st'. unfold bind. by rewrite Hrun.
Qed.

(** The second one, after the machine lookup found nothing: the call of
    the recorder follows whatever the lookup and dev_err recorded. *)
Lemma sst_acpi_probe_ENODEV_machine (X : sst_ext) (pdev p : Z)
    (desc : sst_acpi_desc) st st1 st2 c1 c2 :
  devm_kzalloc X (dev_of X pdev) = Some p ->
  acpi_match_device X (dev_of X pdev) = Some desc ->
  snd_soc_acpi_find_machine X (machines desc) st = Done None st1 c1 ->
  dev_err X (dev_of X pdev) "No matching ASoC machine driver found" st1
  = Done tt st2 c2 ->
  current_valid st2 ->
  exists st',
    sst_acpi_probe errno_of X pdev st
    = Done (- errno_of ENODEV, Some zeroed_priv) st'
        (c1 ++ c2
         ++ [mk_rec_call (Some sst_acpi_c) 97 (to_int (errno_of ENODEV))]).
Proof.
  unfold sst_acpi_probe. intros -> -> Hm He Hv.
  destruct (ERR_run st2 sst_acpi_c 97 (errno_of ENODEV)) as (st' & Hrun);
    [by apply uint_range_line | done |].
  exists st'. unfold bind. rewrite Hm, He, Hrun. simpl.
  by rewrite ?app_nil_r.
Qed.

(** The two [return ERR_PTR(-EFSCORRUPTED);] statements of
    xfs_acl_from_disk add no call to those of the corruption report. *)
Lemma xfs_acl_from_disk_EFSCORRUPTED (X : xfs_ext) (mp : Z) (aclp : xfs_acl)
    (len max_entries : Z) st st1 c1 :
  let count := to_uint (be32_to_cpu X (acl_cnt aclp)) in
  (wrap_unsigned (size_t_bits X) len <? sizeof_xfs_acl X)
  || (to_uint max_entries <? count)
  || negb (XFS_ACL_SIZE X count =? wrap_unsigned (size_t_bits X) len) = true ->
  XFS_CORRUPTION_ERROR X mp aclp len st = Done tt st1 c1 ->
  xfs_acl_from_disk errno_of X mp aclp len max_entries st
  = Done (ERR_PTR (- errno_of EFSCORRUPTED)) st1 c1.
Proof.
  intros count Hbad Hrep. unfold xfs_acl_from_disk. fold count.
  destruct (wrap_unsigned _ len <? sizeof_xfs_acl X).
  - unfold bind. rewrite Hrep. simpl. by rewrite app_nil_r.
  - simpl in Hbad. rewrite Hbad.
    unfold bind. rewrite Hrep. simpl. by rewrite app_nil_r.
Qed.

(** The wrapped [return ERR_PTR(-ERR(EINVAL));] of the same function. *)
Lemma xfs_acl_from_disk_EINVAL (X : xfs_ext) (mp : Z) (aclp : xfs_acl)
    (len max_entries : Z) st st1 st2 c1 c2 :
  let count := to_uint (be32_to_cpu X (acl_cnt aclp)) in
  (wrap_unsigned (size_t_bits X) len <? sizeof_xfs_acl X)
  || (to_uint max_entries <? count)
  || negb (XFS_ACL_SIZE X count =? wrap_unsigned (size_t_bits X) len) = false ->
  posix_acl_alloc X (to_int count) st = Done true st1 c1 ->
  from_disk_loop X aclp 0 (Z.to_nat count) [] = loop_fail ->
  posix_acl_release X st1 = Done tt st2 c2 ->
  current_valid st2 ->
  exists st',
    xfs_acl_from_disk errno_of X mp aclp len max_entries st
    = Done (ERR_PTR (- errno_of EINVAL)) st'
        (c1 ++ c2 ++ [mk_rec_call (Some xfs_acl_c) 92 (to_int (errno_of EINVAL))]).
Proof.
  intros count Hok Halloc Hloop Hrel Hv. unfold xfs_acl_from_disk. fold count.
  apply orb_false_elim in Hok as [Hok H3].
  apply orb_false_elim in Hok as [H1 H2].
  rewrite H1, H2, H3. simpl.
  destruct (ERR_run st2 xfs_acl_c 92 (errno_of EINVAL)) as (st' & Hrun);
    [by apply uint_range_line | done |].
  exists st'. unfold bind. rewrite Halloc. simpl.
  rewrite Hloop, Hrel, Hrun. simpl. by rewrite ?app_nil_r.
Qed.

End CallSites.

(** ** The semantic patch *)

Section PatchFacts.

Variable errors : list string.

(** Induction on expressions that reaches the arguments of calls. *)
Lemma expr_nested_ind (P : expr -> Prop) :
  (forall x, P (EId x)) ->
  (forall n, P (ENum n)) ->
  (forall op a, P a -> P (EUnop op a)) ->
  (forall op a b, P a -> P b -> P (EBinop op a b)) ->
  (forall c a b, P c -> P a -> P b -> P (ECond c a b)) ->
  (forall a m, P a -> P (EMember a m)) ->
  (forall f args, Forall P args -> P (ECall f args)) ->
  forall e, P e.
Proof.
  intros HId HNum HUn HBin HCond HMem HCall.
  fix IH 1. intros [x|n|op a|op a b|c a b|a m|f args].
  - apply HId.
  - apply HNum.
  - apply HUn, IH.
  - apply HBin; apply IH.
  - apply HCond; apply IH.
  - apply HMem, IH.
  - apply HCall. induction args as [|a args IHargs]; constructor.
    + apply IH.
    + exact IHargs.
Qed.

Lemma list_sum_map_ext {A} (f g : A -> nat) (l : list A) :
  Forall (fun a => f a = g a) l -> list_sum (map f l) = list_sum (map g l).
Proof. induction 1; simpl; congruence. Qed.

Lemma list_sum_map_plus {A} (f g : A -> nat) (l : list A) :
  list_sum (map (fun a => f a + g a)%nat l)
  = (list_sum (map f l) + list_sum (map g l))%nat.
Proof. induction l; simpl; lia. Qed.

(** Wrapping keeps every occurrence of a listed name. *)
Lemma occurrences_wrap (e : expr) :
  occurrences errors (wrap_errors errors e) = occurrences errors e.
Proof.
  induction e as [x|n|op a IHa|op a b IHa IHb|c a b IHc IHa IHb|a m IHa|f args IH]
    using expr_nested_ind; simpl; try congruence.
  - case_bool_decide as Hx; simpl; [|by rewrite bool_decide_eq_false_2].
    by rewrite bool_decide_eq_true_2.
  - rewrite map_map. by apply list_sum_map_ext.
Qed.

(** Each occurrence of a listed name gains one call of ERR. *)
Lemma wrappers_wrap (e : expr) :
  wrappers (wrap_errors errors e) = (wrappers e + occurrences errors e)%nat.
Proof.
  induction e as [x|n|op a IHa|op a b IHa IHb|c a b IHc IHa IHb|a m IHa|f args IH]
    using expr_nested_ind; simpl; try lia.
  - by case_bool_decide.
  - rewrite map_map.
    rewrite (list_sum_map_ext _ (fun a => wrappers a + occurrences errors a)%nat)
      by done.
    rewrite list_sum_map_plus. lia.
Qed.

Lemma list_sum_map_zero {A} (f : A -> nat) (l : list A) :
  list_sum (map f l) = 0%nat -> Forall (fun a => f a = 0%nat) l.
Proof.
  induction l as [|a l IH]; simpl; intros H; constructor; [lia|].
  apply IH. lia.
Qed.

(** An expression is left as it is exactly when no listed name occurs. *)
Lemma wrap_errors_fixed (e : expr) :
  wrap_errors errors e = e <-> occurrences errors e = 0%nat.
Proof.
  split.
  - intros H. pose proof (wrappers_wrap e) as Hw. rewrite H in Hw. lia.
  - induction e as [x|n|op a IHa|op a b IHa IHb|c a b IHc IHa IHb|a m IHa|f args IH]
      using expr_nested_ind; simpl; intros H.
    + by case_bool_decide.
    + done.
    + by rewrite IHa.
    + rewrite IHa, IHb by lia. done.
    + rewrite IHc, IHa, IHb by lia. done.
    + by rewrite IHa.
    + f_equal. apply list_sum_map_zero in H.
      induction IH as [|a args Ha _ IHargs]; [done|].
      inversion H; subst. simpl. rewrite Ha by done. f_equal. by apply IHargs.
Qed.

(** A second pass over an expression changes it again unless the first
    had nothing to wrap. *)
Lemma wrap_errors_twice (e : expr) :
  wrap_errors errors (wrap_errors errors e) = wrap_errors errors e
  <-> wrap_errors errors e = e.
Proof.
  split.
  - intros H. apply wrap_errors_fixed in H.
    rewrite occurrences_wrap in H. by apply wrap_errors_fixed.
  - intros H. by rewrite !H.
Qed.

Lemma spatch_twice_iff (s : stmt) :
  spatch errors (spatch errors s) = spatch errors s <-> spatch errors s = s.
Proof.
  induction s as [|s1 IH1 s2 IH2|e|v r|T v i|e| |c s1 IH1 s2 IH2|c s IH
                  |c s IH|l s IH|s IH]; simpl;
    try done;
    try (split; intros H; injection H as H; f_equal;
         first [by apply wrap_errors_twice | by apply IH]).
  - split; intros H; injection H as H1 H2; f_equal;
      first [by apply IH1 | by apply IH2].
  - split; intros H; injection H as H1 H2; f_equal;
      first [by apply IH1 | by apply IH2].
Qed.

(** The patch rewrites no condition, controlling expression or case
    label. *)
Lemma guards_spatch (s : stmt) : guards (spatch errors s) = guards s.
Proof.
  induction s; simpl; congruence.
Qed.

End PatchFacts.

Section PatchCoverage.

Variable errors : list string.

(** After the patch no listed name is left bare in an expression. *)
Lemma bare_wrap (e : expr) : bare errors (wrap_errors errors e) = 0%nat.
Proof.
  induction e as [x|n|op a IHa|op a b IHa IHb|c a b IHc IHa IHb|a m IHa|f args IH]
    using expr_nested_ind; simpl; try lia.
  - case_bool_decide; simpl; [done|]. by rewrite bool_decide_eq_false_2.
  - assert (Hsum : list_sum (map (bare errors) (map (wrap_errors errors) args))
                   = 0%nat).
    { induction IH as [|a args Ha _ IHargs]; simpl; [done|]. lia. }
    destruct (String.eqb f "ERR"); [|done].
    destruct (map (wrap_errors errors) args) as [|a [|b l]]; try done;
      by destruct a.
Qed.

(** After the patch no listed name is left bare in the right-hand side of
    an assignment, in an initialiser or in the operand of a return. *)
Lemma bare_rvalues_spatch (s : stmt) :
  bare_rvalues errors (spatch errors s) = 0%nat.
Proof.
  induction s; simpl; rewrite ?bare_wrap; lia.
Qed.

(** A return of a single negated name, as the call sites are written. *)
Lemma spatch_return_neg (x : string) :
  spatch errors (SReturn (EUnop "-" (EId x)))
  = if bool_decide (x ∈ errors)
    then SReturn (EUnop "-" (ECall "ERR" [EId x]))
    else SReturn (EUnop "-" (EId x)).
Proof. simpl. by case_bool_decide. Qed.

End PatchCoverage.

(** Whatever the headers hold, the two ignored names are not listed. *)
Lemma ERRORS_not_ignored (headers : list string) (n : string) :
  n ∈ ERRORS headers -> not_ignored n = true.
Proof. unfold ERRORS. rewrite list_elem_of_filter. tauto. Qed.

(** From the sample headers: the two ignored names, the alias with no
    number and the alias of xfs are left out. *)
Example sample_ERRORS :
  ERRORS sample_headers = ["EPERM"; "ENODEV"; "EINVAL"; "EUCLEAN"; "ENOIOCTLCMD"].
Proof. vm_compute. reflexivity. Qed.

Lemma ERRORS_excluded (headers : list string) :
  ("ENOMEM" ∉ ERRORS headers) /\ ("EFAULT" ∉ ERRORS headers).
Proof.
  split; intros H; apply ERRORS_not_ignored in H; vm_compute in H; discriminate.
Qed.

(** ** fs/afs/misc.c *)

Section AfsFacts.

Context {Other Global : Type}.
Variable errno_of : errname -> Z.
Variable abort_val : abort_name -> Z.
Variable to_error_member : Z -> Z.
Implicit Types st : kstate Other Global.

(** Every path through afs_abort_to_error is a wrapped return: one call of
    the recorder, from fs/afs/misc.c, with the constant returned. *)
Lemma afs_abort_to_error_run (abort_code : Z) st :
  current_valid st ->
  exists (l : Z) (en : errname) st',
    afs_abort_to_error errno_of abort_val abort_code st
    = Done (- errno_of en) st'
        [mk_rec_call (Some afs_misc_c) (to_uint l) (to_int (errno_of en))].
Proof.
  intros Hv. unfold afs_abort_to_error.
  destruct (switch_u32 _ abort_code) as [[l en]|].
  - destruct (set_last_err_total st (Some afs_misc_c) (to_uint l)
                (to_int (errno_of en)) Hv) as (st' & Hrun & _).
    exists l, en, st'. unfold bind at 1.
    by rewrite (ERR_const _ _ _ _ _ Hrun).
  - destruct (set_last_err_total st (Some afs_misc_c) (to_uint 107)
                (to_int (errno_of EREMOTEIO)) Hv) as (st' & Hrun & _).
    exists 107, EREMOTEIO, st'. unfold bind at 1.
    by rewrite (ERR_const _ _ _ _ _ Hrun).
Qed.

(** Unless the error is -ECONNABORTED, afs_prioritise_error compares and
    assigns only: no call of the recorder, the kernel state as it was. *)
Lemma afs_prioritise_error_quiet (e : afs_error) (error abort_code : Z) st :
  error <> - errno_of ECONNABORTED ->
  exists e',
    afs_prioritise_error errno_of abort_val to_error_member e error abort_code st
    = Done e' st [].
Proof.
  intros Hne. unfold afs_prioritise_error.
  repeat match goal with
         | |- context [if ?b then _ else _] => destruct b eqn:?
         end;
    try (eexists; reflexivity).
  unfold is_code in *.
  match goal with H : (error =? - errno_of ECONNABORTED) = true |- _ =>
    apply Z.eqb_eq in H; contradiction end.
Qed.

Lemma is_code_other (n m : errname) :
  errno_of n <> errno_of m -> is_code errno_of (- errno_of n) m = false.
Proof. intros H. unfold is_code. apply Z.eqb_neq. lia. Qed.

(** On -ECONNABORTED it calls afs_abort_to_error, whose return records. *)
Lemma afs_prioritise_error_aborted (e : afs_error) (abort_code : Z) st :
  ECONNABORTED_label_differs errno_of ->
  current_valid st ->
  exists (l : Z) (en : errname) st',
    afs_prioritise_error errno_of abort_val to_error_member e
      (- errno_of ECONNABORTED) abort_code st
    = Done {| error := to_error_member (- errno_of en); responded := true |} st'
        [mk_rec_call (Some afs_misc_c) (to_uint l) (to_int (errno_of en))].
Proof.
  intros [H0 Hd] Hv. unfold afs_prioritise_error.
  repeat match goal with
         | H : Forall _ (_ :: _) |- _ => inversion H; clear H; subst
         end.
  assert (H0' : (- errno_of ECONNABORTED =? 0) = false)
    by (apply Z.eqb_neq; lia).
  rewrite H0', !is_code_other by done. simpl.
  unfold is_code at 1. rewrite Z.eqb_refl.
  destruct (afs_abort_to_error_run abort_code st Hv) as (l & en & st' & Hrun).
  exists l, en, st'. unfold bind. rewrite Hrun. reflexivity.
Qed.

End AfsFacts.

(** ** Exclusion at the call sites *)

(** The call sites as the sources have them.  An excluded code is
    returned bare and records nothing: the -EFAULT returns of
    snd_hwdep_dsp_load_compat and the -ENOMEM return of sst_acpi_probe
    leave the state as it was, and the script lists neither name.  A
    constant the script lists is wrapped wherever it stands in one of the
    three positions, and the wrapped returns -ERR(ENODEV) and
    -ERR(ENOIOCTLCMD) call the recorder once.  A constant outside the list
    of the script is returned bare like an excluded one: the
    ERR_PTR(-EFSCORRUPTED) returns of xfs_acl_from_disk add no call, while
    the ERR_PTR(-ERR(EINVAL)) return of the same function does. *)
Theorem exclusion_at_call_sites {Other Global : Type}
    (errno_of : errname -> Z)
    (Xh : @hwdep_ext Other Global) (Xs : @sst_ext Other Global)
    (Xx : @xfs_ext Other Global) (st : kstate Other Global) :
  current_valid st ->
  (* excluded codes *)
  (forall hw src,
      a_user_copy_fails Xh src = true ->
      snd_hwdep_dsp_load_compat errno_of Xh hw src st
      = Done (- errno_of EFAULT) st [])
  /\ (forall pdev,
        devm_kzalloc Xs (dev_of Xs pdev) = None ->
        sst_acpi_probe errno_of Xs pdev st
        = Done (- errno_of ENOMEM, None) st [])
  /\ (forall headers,
        ("ENOMEM" ∉ ERRORS headers) /\ ("EFAULT" ∉ ERRORS headers))
  (* listed constants *)
  /\ (forall errors s, bare_rvalues errors (spatch errors s) = 0%nat)
  /\ (forall pdev p,
        devm_kzalloc Xs (dev_of Xs pdev) = Some p ->
        acpi_match_device Xs (dev_of Xs pdev) = None ->
        exists st',
          sst_acpi_probe errno_of Xs pdev st
          = Done (- errno_of ENODEV, Some zeroed_priv) st'
              [mk_rec_call (Some sst_acpi_c) 91 (to_int (errno_of ENODEV))])
  /\ (forall pdev p desc st1 st2 c1 c2,
        devm_kzalloc Xs (dev_of Xs pdev) = Some p ->
        acpi_match_device Xs (dev_of Xs pdev) = Some desc ->
        snd_soc_acpi_find_machine Xs (machines desc) st = Done None st1 c1 ->
        dev_err Xs (dev_of Xs pdev) "No matching ASoC machine driver found" st1
        = Done tt st2 c2 ->
        current_valid st2 ->
        exists st',
          sst_acpi_probe errno_of Xs pdev st
          = Done (- errno_of ENODEV, Some zeroed_priv) st'
              (c1 ++ c2
               ++ [mk_rec_call (Some sst_acpi_c) 97
                     (to_int (errno_of ENODEV))]))
  /\ (forall file cmd arg,
        hwdep_known_cmd Xh cmd = false ->
        ioctl_compat Xh (private_data Xh file) = None ->
        exists st',
          snd_hwdep_ioctl_compat errno_of Xh file cmd arg st
          = Done (- errno_of ENOIOCTLCMD) st'
              [mk_rec_call (Some hwdep_compat_c) 63
                 (to_int (errno_of ENOIOCTLCMD))])
  (* constants outside the list *)
  /\ (forall errors x,
        x ∉ errors ->
        spatch errors (SReturn (EUnop "-" (EId x)))
        = SReturn (EUnop "-" (EId x)))
  /\ (forall mp aclp len max_entries st1 c1,
        let count := to_uint (be32_to_cpu Xx (acl_cnt aclp)) in
        (wrap_unsigned (size_t_bits Xx) len <? sizeof_xfs_acl Xx)
        || (to_uint max_entries <? count)
        || negb (XFS_ACL_SIZE Xx count =? wrap_unsigned (size_t_bits Xx) len)
        = true ->
        XFS_CORRUPTION_ERROR Xx mp aclp len st = Done tt st1 c1 ->
        xfs_acl_from_disk errno_of Xx mp aclp len max_entries st
        = Done (ERR_PTR (- errno_of EFSCORRUPTED)) st1 c1)
  /\ (forall mp aclp len max_entries st1 st2 c1 c2,
        let count := to_uint (be32_to_cpu Xx (acl_cnt aclp)) in
        (wrap_unsigned (size_t_bits Xx) len <? sizeof_xfs_acl Xx)
        || (to_uint max_entries <? count)
        || negb (XFS_ACL_SIZE Xx count =? wrap_unsigned (size_t_bits Xx) len)
        = false ->
        posix_acl_alloc Xx (to_int count) st = Done true st1 c1 ->
        from_disk_loop Xx aclp 0 (Z.to_nat count) [] = loop_fail ->
        posix_acl_release Xx st1 = Done tt st2 c2 ->
        current_valid st2 ->
        exists st',
          xfs_acl_from_disk errno_of Xx mp aclp len max_entries st
          = Done (ERR_PTR (- errno_of EINVAL)) st'
              (c1 ++ c2
               ++ [mk_rec_call (Some xfs_acl_c) 92
                     (to_int (errno_of EINVAL))])).
Proof.
  intros Hv.
  split; [intros hw src H; by apply snd_hwdep_dsp_load_compat_EFAULT|].
  split; [intros pdev H; by apply sst_acpi_probe_ENOMEM|].
  split; [apply ERRORS_excluded|].
  split; [intros errors s; apply bare_rvalues_spatch|].
  split; [intros pdev p Ha Hm;
          by apply (sst_acpi_probe_ENODEV errno_of Xs pdev p)|].
  split; [intros pdev p desc st1 st2 c1 c2 Ha Hm Hf He Hv2;
          by apply (sst_acpi_probe_ENODEV_machine errno_of Xs pdev p desc
                      st st1 st2)|].
  split; [intros file cmd arg Hc Ho;
          by apply snd_hwdep_ioctl_compat_ENOIOCTLCMD|].
  split; [intros errors x Hx; rewrite spatch_return_neg;
          by rewrite bool_decide_eq_false_2|].
  split.
  - intros mp aclp len max_entries st1 c1 count Hbad Hrep.
    by apply xfs_acl_from_disk_EFSCORRUPTED.
  - intros mp aclp len max_entries st1 st2 c1 c2 count Hok Ha Hl Hr Hv2.
    by apply (xfs_acl_from_disk_EINVAL errno_of Xx mp aclp len max_entries
                st st1 st2).
Qed.

(** C6 (exclusion at call sites) fails on the code, at this input: on
    the sample machine xfs_acl_from_disk, given a buffer shorter than
    the header of an ACL, returns the error constant EFSCORRUPTED from
    [return ERR_PTR(-EFSCORRUPTED);] without any call of the recorder,
    although the exclusion pattern does not match that name.  The
    sibling return of the same function is wrapped: an entry with an
    unknown tag makes it return ERR_PTR(-ERR(EINVAL)), with one call at
    line 92.  Both bare returns of the sources come from the list of
    the script: its grep takes a name of capitals and digits followed
    by a number, so it lists EINVAL and ENOTSUPP but neither the alias
    EFSCORRUPTED nor EPROBE_DEFER, whose [return -EPROBE_DEFER;] the
    patch then leaves as it is. *)
Lemma EFSCORRUPTED_returned_unrecorded :
  xfs_acl_from_disk linux_errno sample_xfs 0 sample_aclp 0 25 sample_state
  = Done (ERR_PTR (- 117)) sample_state []
  /\ not_ignored "EFSCORRUPTED" = true
  /\ xfs_acl_from_disk linux_errno sample_xfs 0
       {| acl_cnt := 1; acl_entry := [mk_xfs_acl_entry 0x40 0 0] |} 16 25
       sample_state
     = Done (ERR_PTR (- 22))
         (with_tasks sample_state
            (<[1 := mk_task tt (mk_last_err (Some "fs/xfs/xfs_acl.c") 92 22)]>
               (tasks sample_state)))
         [mk_rec_call (Some "fs/xfs/xfs_acl.c") 92 22]
  /\ ERRORS sample_headers
     = ["EPERM"; "ENODEV"; "EINVAL"; "EUCLEAN"; "ENOIOCTLCMD"]
  /\ not_ignored "EPROBE_DEFER" = true
  /\ (let errors :=
        ERRORS ["#define EPROBE_DEFER	517	/* Driver requests probe retry */";
                "#define ENOTSUPP	524	/* Operation is not supported */"] in
      errors = ["ENOTSUPP"]
      /\ spatch errors (SReturn (EUnop "-" (EId "EPROBE_DEFER")))
         = SReturn (EUnop "-" (EId "EPROBE_DEFER"))
      /\ spatch errors (SReturn (EUnop "-" (EId "ENOTSUPP")))
         = SReturn (EUnop "-" (ECall "ERR" [EId "ENOTSUPP"]))).
Proof. repeat split; reflexivity. Qed.

Lemma exclusion_at_call_sites_witness :
  snd_hwdep_dsp_load_compat linux_errno (sample_hwdep 68) 0 0 sample_state
  = Done (- 14) sample_state []
  /\ sst_acpi_probe linux_errno (sample_sst None None None) 0 sample_state
     = Done (- 12, None) sample_state []
  /\ (exists st',
        sst_acpi_probe linux_errno (sample_sst (Some 512) None None) 0
          sample_state
        = Done (- 19, Some zeroed_priv) st'
            [mk_rec_call (Some sst_acpi_c) 91 (to_int 19)])
  /\ (exists st',
        snd_hwdep_ioctl_compat linux_errno (sample_hwdep 0) 3 0 0 sample_state
        = Done (- 515) st'
            [mk_rec_call (Some hwdep_compat_c) 63 (to_int 515)])
  /\ xfs_acl_from_disk linux_errno sample_xfs 0 sample_aclp 0 25 sample_state
     = Done (ERR_PTR (- 117)) sample_state [].
Proof.
  destruct (exclusion_at_call_sites linux_errno (sample_hwdep 68)
              (sample_sst None None None) sample_xfs sample_state
              sample_state_valid)
    as (H1 & H2 & _ & _ & _ & _ & _ & _ & H8 & _).
  destruct (exclusion_at_call_sites linux_errno (sample_hwdep 0)
              (sample_sst (Some 512) None None) sample_xfs sample_state
              sample_state_valid)
    as (_ & _ & _ & _ & H5 & _ & H6 & _ & _ & _).
  split; [exact (H1 0 0 eq_refl)|].
  split; [exact (H2 0 eq_refl)|].
  split; [exact (H5 0 512 eq_refl eq_refl)|].
  split; [exact (H6 3 0 0 eq_refl eq_refl)|].
  exact (H8 0 sample_aclp 0 25 sample_state [] eq_refl eq_refl).
Defined.

(** ** Positions that need a constant *)

(** C7 (compile-time-constant safety), as the sources have it.  The patch
    rewrites no condition of an if or a while, no controlling expression
    of a switch and no case label, so the constants afs_prioritise_error
    compares with and switches on are bare and evaluating them records
    nothing: for every error but -ECONNABORTED the function makes no call
    of the recorder and leaves the kernel state as it was.  On
    -ECONNABORTED it calls afs_abort_to_error, whose wrapped return
    statement calls the recorder once. *)
Theorem constant_positions_not_wrapped {Other Global : Type}
    (errno_of : errname -> Z) (abort_val : abort_name -> Z)
    (to_error_member : Z -> Z)
    (e : afs_error) (abort_code : Z) (st : kstate Other Global) :
  ECONNABORTED_label_differs errno_of ->
  current_valid st ->
  (forall errors s, guards (spatch errors s) = guards s)
  /\ (forall error,
        error <> - errno_of ECONNABORTED ->
        exists e',
          afs_prioritise_error errno_of abort_val to_error_member
            e error abort_code st
          = Done e' st [])
  /\ (exists (l : Z) (en : errname) st',
        afs_prioritise_error errno_of abort_val to_error_member
          e (- errno_of ECONNABORTED) abort_code st
        = Done {| error := to_error_member (- errno_of en);
                  responded := true |} st'
            [mk_rec_call (Some afs_misc_c) (to_uint l)
               (to_int (errno_of en))]).
Proof.
  intros Hd Hv. split; [|split].
  - intros errors s. apply guards_spatch.
  - intros error Hne. by apply afs_prioritise_error_quiet.
  - by apply afs_prioritise_error_aborted.
Qed.

(** On the sample machine afs_prioritise_error, called by task 1 with
    -ECONNABORTED and the abort code 13, invokes the recorder and changes
    the record of task 1. *)
Lemma afs_prioritise_error_records :
  afs_prioritise_error linux_errno sample_abort_val (wrap_signed 16)
    {| error := 0; responded := false |} (- 103) 13 sample_state
  = Done {| error := - 13; responded := true |}
      (with_tasks sample_state
         (<[1 := mk_task tt (mk_last_err (Some "fs/afs/misc.c") 22 13)]>
            (tasks sample_state)))
      [mk_rec_call (Some "fs/afs/misc.c") 22 13]
  /\ read_last_err 1 sample_state = Some (mk_last_err None 0 0).
Proof. split; reflexivity. Qed.

Lemma linux_ECONNABORTED_label_differs : ECONNABORTED_label_differs linux_errno.
Proof. split; [done|]. repeat constructor; done. Defined.

Lemma constant_positions_not_wrapped_witness :
  (exists e',
      afs_prioritise_error linux_errno sample_abort_val (wrap_signed 16)
        {| error := 0; responded := false |} (- 110) 13 sample_state
      = Done e' sample_state [])
  /\ (exists (l : Z) (en : errname) st',
        afs_prioritise_error linux_errno sample_abort_val (wrap_signed 16)
          {| error := 0; responded := false |} (- linux_errno ECONNABORTED) 13
          sample_state
        = Done {| error := wrap_signed 16 (- linux_errno en);
                  responded := true |} st'
            [mk_rec_call (Some afs_misc_c) (to_uint l)
               (to_int (linux_errno en))]).
Proof.
  destruct (constant_positions_not_wrapped linux_errno sample_abort_val
              (wrap_signed 16) {| error := 0; responded := false |} 13
              sample_state linux_ECONNABORTED_label_differs
              sample_state_valid)
    as (_ & H2 & H3).
  split; [|exact H3].
  apply (H2 (- 110)). simpl. lia.
Defined.

(** ** Running the patch again *)

Section SecondPass.

Context {Other Global : Type}.
Implicit Types st : kstate Other Global.

(** ERR applied to a constant, in task context: the state it leaves, and
    the same call once more leaves that state as it is. *)
Lemma ERR_in_task st (t : task_struct Other) (FILE : string) (LINE c : Z) :
  uint_range LINE -> int_range c ->
  ctx_in_task st = true ->
  tasks st !! current st = Some t ->
  let st' := with_tasks st
               (<[current st := mk_task (ts_other t)
                                  (mk_last_err (Some FILE) LINE c)]> (tasks st)) in
  ERR FILE LINE (ret c) st = Done c st' [mk_rec_call (Some FILE) LINE c]
  /\ ERR FILE LINE (ret c) st' = Done c st' [mk_rec_call (Some FILE) LINE c]
  /\ set_last_err (Some FILE) LINE c st'
     = Done tt st' [mk_rec_call (Some FILE) LINE c].
Proof.
  intros HL Hc Hctx Ht st'.
  assert (Hagain : set_last_err (Some FILE) LINE c st'
                   = Done tt st' [mk_rec_call (Some FILE) LINE c]).
  { rewrite (set_last_err_in_task st' _ _ _
               (mk_task (ts_other t) (mk_last_err (Some FILE) LINE c)));
      [|done|subst st'; simpl; by rewrite lookup_insert_eq].
    subst st'. unfold with_tasks. simpl. by rewrite insert_insert_eq. }
  pose proof (ERR_const st FILE LINE c st') as E1.
  pose proof (ERR_const st' FILE LINE c st') as E2.
  rewrite (to_uint_id _ HL), (to_int_id _ Hc) in E1, E2.
  split; [|split; [|done]].
  - apply E1. by rewrite (set_last_err_in_task _ _ _ _ _ Hctx Ht).
  - by apply E2.
Qed.

End SecondPass.

(** C9 (running the patch again), as the script has it.  The patch does
    not tell a wrapped constant from a bare one: a second pass wraps the
    constant inside ERR(E) again, so applying the patch twice equals
    applying it once exactly on the sources where the first pass found
    nothing to wrap.  What a doubly wrapped return evaluates to and the
    record it leaves are those of the singly wrapped one, but the recorder
    is called three times instead of once. *)
Theorem second_pass_wraps_again {Other Global : Type}
    (errors : list string) (x : string) (value_of : string -> option Z)
    (FILE : string) (LINE c : Z)
    (st : kstate Other Global) (t : task_struct Other) :
  x ∈ errors ->
  value_of x = Some c ->
  uint_range LINE -> int_range c ->
  ctx_in_task st = true ->
  tasks st !! current st = Some t ->
  let once := SReturn (EUnop "-" (ECall "ERR" [EId x])) in
  let twice := SReturn (EUnop "-" (ECall "ERR" [ECall "ERR" [EId x]])) in
  let call := mk_rec_call (Some FILE) LINE c in
  (forall s, spatch errors (spatch errors s) = spatch errors s
             <-> spatch errors s = s)
  /\ spatch errors (SReturn (EUnop "-" (EId x))) = once
  /\ spatch errors once = twice
  /\ exists (m1 m2 : K Other Global Z) st',
       denote value_of FILE LINE (EUnop "-" (ECall "ERR" [EId x])) = Some m1
       /\ denote value_of FILE LINE
            (EUnop "-" (ECall "ERR" [ECall "ERR" [EId x]])) = Some m2
       /\ m1 st = Done (- c) st' [call]
       /\ m2 st = Done (- c) st' [call; call; call]
       /\ read_last_err (current st) st'
          = Some (mk_last_err (Some FILE) LINE c).
Proof.
  intros Hx Hval HL Hc Hctx Ht once twice call.
  split; [apply spatch_twice_iff|].
  split; [subst once; simpl; by rewrite bool_decide_eq_true_2|].
  split; [subst once twice; simpl; by rewrite bool_decide_eq_true_2|].
  destruct (ERR_in_task st t FILE LINE c HL Hc Hctx Ht) as (H1 & H2 & H3).
  eexists _, _, _. simpl. rewrite Hval. simpl.
  split; [reflexivity|]. split; [reflexivity|].
  split; [|split].
  - unfold bind at 1. by rewrite H1.
  - unfold bind at 1. unfold ERR at 1. unfold bind at 1. rewrite H1.
    unfold bind at 1. rewrite (to_uint_id _ HL), (to_int_id _ Hc), H3, H2.
    reflexivity.
  - unfold read_last_err. simpl. by rewrite lookup_insert_eq.
Qed.

(** With the list the script draws from the sample headers, a second pass
    over [return -ERR(EPERM);] yields [return -ERR(ERR(EPERM));], which is
    not what one pass yields. *)
Lemma second_pass_double_wraps :
  let errors := ERRORS sample_headers in
  let s := SReturn (EUnop "-" (EId "EPERM")) in
  spatch errors s = SReturn (EUnop "-" (ECall "ERR" [EId "EPERM"]))
  /\ spatch errors (spatch errors s)
     = SReturn (EUnop "-" (ECall "ERR" [ECall "ERR" [EId "EPERM"]]))
  /\ spatch errors (spatch errors s) <> spatch errors s.
Proof.
  vm_compute. split; [reflexivity|]. split; [reflexivity|]. discriminate.
Qed.

Lemma second_pass_wraps_again_witness :
  spatch ["EPERM"; "ENODEV"]
    (SReturn (EUnop "-" (ECall "ERR" [EId "ENODEV"])))
  = SReturn (EUnop "-" (ECall "ERR" [ECall "ERR" [EId "ENODEV"]]))
  /\ exists (m1 m2 : K unit unit Z) st',
       denote sample_value_of "sound/soc/intel/common/sst-acpi.c" 91
         (EUnop "-" (ECall "ERR" [EId "ENODEV"])) = Some m1
       /\ denote sample_value_of "sound/soc/intel/common/sst-acpi.c" 91
            (EUnop "-" (ECall "ERR" [ECall "ERR" [EId "ENODEV"]])) = Some m2
       /\ m1 sample_state
          = Done (- 19) st'
              [mk_rec_call (Some "sound/soc/intel/common/sst-acpi.c") 91 19]
       /\ m2 sample_state
          = Done (- 19) st'
              [mk_rec_call (Some "sound/soc/intel/common/sst-acpi.c") 91 19;
               mk_rec_call (Some "sound/soc/intel/common/sst-acpi.c") 91 19;
               mk_rec_call (Some "sound/soc/intel/common/sst-acpi.c") 91 19]
       /\ read_last_err (current sample_state) st'
          = Some (mk_last_err (Some "sound/soc/intel/common/sst-acpi.c") 91 19).
Proof.
  assert (Hin : "ENODEV" ∈ ["EPERM"; "ENODEV"]) by (repeat constructor).
  destruct (second_pass_wraps_again ["EPERM"; "ENODEV"] "ENODEV"
              sample_value_of "sound/soc/intel/common/sst-acpi.c" 91 19
              sample_state (mk_task tt (mk_last_err None 0 0))
              Hin eq_refl (uint_range_line 91 ltac:(lia))
              ltac:(unfold int_range; lia) eq_refl eq_refl)
    as (_ & _ & H3 & H4).
  split; [exact H3 | exact H4].
Defined.

(** * Further properties *)

Section GlobalsFacts.

Context {Other Global : Type}.
Implicit Types st : kstate Other Global.

Lemma bind_step {A B : Type} (m : K Other Global A)
    (k : A -> K Other Global B) st (a : A) st' :
  m st = Done a st' [] -> bind m k st = k a st'.
Proof. intros H. unfold bind. rewrite H. by destruct (k a st'). Qed.

Lemma bind_bind {A B D : Type} (m : K Other Global A)
    (f : A -> K Other Global B) (g : B -> K Other Global D) st :
  bind (bind m f) g st = bind m (fun x => bind (f x) g) st.
Proof.
  unfold bind. destruct (m st) as [|a st1 c1]; [done|].
  destruct (f a st1) as [|b st2 c2]; [done|].
  destruct (g b st2) as [|d st3 c3]; [done|].
  by rewrite app_assoc.
Qed.

Lemma replace_globals_twice st (g1 g2 : Global) :
  replace_globals (replace_globals st g1) g2 = replace_globals st g2.
Proof. reflexivity. Qed.

Lemma globals_replace_globals st (g : Global) :
  globals (replace_globals st g) = g.
Proof. reflexivity. Qed.

End GlobalsFacts.

Ltac gstep tac :=
  rewrite ?bind_bind; erewrite bind_step; [|tac];
  rewrite ?replace_globals_twice, ?globals_replace_globals; cbn beta iota.

Section RecorderSteps.

Context {Other Global : Type}.
Implicit Types st : kstate Other Global.

Lemma bind_emits {A B : Type} (m : K Other Global A)
    (k : A -> K Other Global B) st (a : A) st' (c : list rec_call) :
  m st = Done a st' c ->
  bind m k st
  = match k a st' with
    | Fault => Fault
    | Done b st2 c2 => Done b st2 (c ++ c2)
    end.
Proof. intros H. unfold bind. by rewrite H. Qed.

(** [-ERR(X)] with a valid [current]: one call of the recorder, which
    leaves [X] in the record of the current task and nothing else
    changed. *)
Lemma neg_ERR_ret st (FILE : string) (LINE X : Z) :
  0 <= LINE < 4294967296 ->
  current_valid st ->
  exists st',
    (v <- ERR FILE LINE (ret X) ;; ret (- v)) st
    = Done (- X) st' [mk_rec_call (Some FILE) LINE (to_int X)]
    /\ globals st' = globals st
    /\ current_valid st'
    /\ ctx_in_task st' = ctx_in_task st
    /\ current st' = current st
    /\ (ctx_in_task st = true ->
        read_last_err (current st) st'
        = Some (mk_last_err (Some FILE) LINE (to_int X))).
Proof.
  intros HL Hv.
  assert (HL' : to_uint LINE = LINE) by (by apply to_uint_id, uint_range_line).
  destruct (ctx_in_task st) eqn:Hctx.
  - destruct (Hv Hctx) as [t Ht].
    pose proof (set_last_err_in_task st (Some FILE) (to_uint LINE) (to_int X)
                  t Hctx Ht) as Hrun.
    eexists. split.
    { unfold bind at 1. rewrite (ERR_const _ _ _ _ _ Hrun), HL'.
      reflexivity. }
    split; [done|]. split.
    { intros _. simpl. rewrite lookup_insert_eq. by eexists. }
    split; [done|]. split; [done|]. intros _.
    unfold read_last_err. cbn [tasks with_tasks current].
    rewrite lookup_insert_eq. reflexivity.
  - pose proof (set_last_err_no_task st (Some FILE) (to_uint LINE) (to_int X)
                  Hctx) as Hrun.
    exists st. split.
    { unfold bind at 1. rewrite (ERR_const _ _ _ _ _ Hrun), HL'.
      reflexivity. }
    by repeat split.
Qed.

End RecorderSteps.

(** ** net/netfilter/nft_bitwise.c *)

Section NftBitwiseFacts.

Import NftBitwise.

Lemma store_Some (regs : list Z) (k : nat) (v : Z) :
  (k < length regs)%nat -> store regs k v = Some (<[k := v]> regs).
Proof. intros H. unfold store. by rewrite decide_True. Qed.

Lemma be_value_ext (r1 r2 : list Z) (base n : nat) :
  (forall k, (base <= k < base + n)%nat -> r1 !! k = r2 !! k) ->
  be_value r1 base n = be_value r2 base n.
Proof.
  induction n as [|n IH]; intros H; simpl; [done|].
  rewrite IH by (intros k Hk; apply H; lia).
  rewrite (H (base + n)%nat) by lia. done.
Qed.

Lemma be_value_bound (regs : list Z) (base n : nat) :
  (forall k w, (base <= k < base + n)%nat -> regs !! k = Some w ->
               0 <= w < 2 ^ 32) ->
  0 <= be_value regs base n < 2 ^ (32 * Z.of_nat n).
Proof.
  induction n as [|n IH]; intros H; simpl be_value.
  - change (32 * Z.of_nat 0) with 0. lia.
  - assert (IH' := IH ltac:(intros k w Hk; apply H; lia)).
    assert (Hw : 0 <= default 0 (regs !! (base + n)%nat) < 2 ^ 32).
    { destruct (regs !! (base + n)%nat) as [w|] eqn:E; simpl; [|lia].
      apply (H (base + n)%nat); [lia|done]. }
    replace (32 * Z.of_nat (S n)) with (32 * Z.of_nat n + 32) by lia.
    rewrite Z.pow_add_r by lia. nia.
Qed.

Lemma words_u32_lookup (regs : list Z) (k : nat) (w : Z) :
  words_u32 regs -> regs !! k = Some w -> 0 <= w < 2 ^ 32.
Proof.
  intros H Hk. unfold words_u32 in H. rewrite Forall_lookup in H. eauto.
Qed.

(** A value shifted left inside a u32 and a carry below the shift count
    have no bit in common. *)
Lemma lor_shifted_carry (x s c : Z) :
  0 <= s -> 0 <= c < 2 ^ s ->
  Z.lor (Z.shiftl x s mod 2 ^ 32) c = Z.shiftl x s mod 2 ^ 32 + c.
Proof.
  intros Hs Hc. symmetry. apply Z.add_nocarry_lor.
  apply Z.bits_inj'. intros n Hn.
  rewrite Z.land_spec, Z.bits_0.
  destruct (Z.lt_ge_cases n s) as [Hlt|Hge].
  - destruct (Z.lt_ge_cases n 32) as [H32|H32].
    + rewrite Z.mod_pow2_bits_low by lia.
      rewrite Z.shiftl_spec_low by lia. done.
    + rewrite Z.mod_pow2_bits_high by lia. done.
  - replace c with (c mod 2 ^ s) by (apply Z.mod_small; lia).
    rewrite (Z.mod_pow2_bits_high c) by lia. apply andb_false_r.
Qed.

Lemma eval_bool_loop_spec (priv : nft_bitwise) (dst src : nat) (n i : nat)
    (regs : list Z) :
  (src + i + n <= length regs)%nat ->
  (dst + i + n <= length regs)%nat ->
  (i + n <= length (mask priv))%nat ->
  (i + n <= length (xor priv))%nat ->
  (dst <= src \/ src + i + n <= dst)%nat ->
  exists regs',
    eval_bool_loop priv dst src i n regs = Some regs'
    /\ length regs' = length regs
    /\ (forall k, (i <= k < i + n)%nat ->
          exists s m x,
            regs !! (src + k)%nat = Some s /\ mask priv !! k = Some m
            /\ xor priv !! k = Some x
            /\ regs' !! (dst + k)%nat = Some (Z.lxor (Z.land s m) x))
    /\ (forall p, ~ (dst + i <= p < dst + i + n)%nat -> regs' !! p = regs !! p).
Proof.
  revert i regs. induction n as [|n IH]; intros i regs Hs Hd Hm Hx Hov.
  - exists regs. simpl. repeat split; try done. intros k Hk. lia.
  - destruct (regs !! (src + i)%nat) as [s|] eqn:Es;
      [|apply lookup_ge_None_1 in Es; lia].
    destruct (mask priv !! i) as [m|] eqn:Em;
      [|apply lookup_ge_None_1 in Em; lia].
    destruct (xor priv !! i) as [x|] eqn:Ex;
      [|apply lookup_ge_None_1 in Ex; lia].
    simpl. unfold load. rewrite Es. simpl. rewrite Em, Ex. simpl.
    rewrite store_Some by lia. simpl.
    set (regs1 := <[(dst + i)%nat := Z.lxor (Z.land s m) x]> regs).
    assert (Hlen1 : length regs1 = length regs) by apply length_insert.
    destruct (IH (S i) regs1) as (regs' & Hrun & Hlen & Hval & Hframe);
      try (rewrite ?Hlen1; lia).
    exists regs'. rewrite Hrun. split; [done|]. split; [congruence|]. split.
    + intros k Hk. destruct (decide (k = i)) as [->|Hne].
      * exists s, m, x. repeat split; try done.
        rewrite Hframe by lia. subst regs1.
        apply list_lookup_insert_eq. lia.
      * destruct (Hval k) as (s' & m' & x' & E1 & E2 & E3 & E4); [lia|].
        exists s', m', x'. repeat split; try done.
        subst regs1. rewrite list_lookup_insert_ne in E1 by lia. done.
    + intros p Hp. rewrite Hframe by lia. subst regs1.
      apply list_lookup_insert_ne. lia.
Qed.

(** X1: nft_bitwise_eval_bool writes (src[i] & mask[i]) ^ xor[i] into each
    word of the destination and touches no other register, provided the
    destination does not begin inside the source after its first word; in
    particular it is right in place. *)
Theorem nft_bitwise_eval_bool_words (dst src : nat) (priv : nft_bitwise)
    (regs : list Z) :
  let n := Z.to_nat (DIV_ROUND_UP (len priv) 4) in
  (src + n <= length regs)%nat ->
  (dst + n <= length regs)%nat ->
  (n <= length (mask priv))%nat ->
  (n <= length (xor priv))%nat ->
  (dst <= src \/ src + n <= dst)%nat ->
  exists regs',
    nft_bitwise_eval_bool dst src priv regs = Some regs'
    /\ length regs' = length regs
    /\ (forall k, (k < n)%nat ->
          exists s m x,
            regs !! (src + k)%nat = Some s /\ mask priv !! k = Some m
            /\ xor priv !! k = Some x
            /\ regs' !! (dst + k)%nat = Some (Z.lxor (Z.land s m) x))
    /\ (forall p, ~ (dst <= p < dst + n)%nat -> regs' !! p = regs !! p).
Proof.
  intros n Hs Hd Hm Hx Hov. unfold nft_bitwise_eval_bool. fold n.
  destruct (eval_bool_loop_spec priv dst src n 0 regs)
    as (regs' & Hrun & Hlen & Hval & Hframe); try lia.
  exists regs'. repeat split; try done.
  - intros k Hk. apply Hval. lia.
  - intros p Hp. apply Hframe. lia.
Qed.

Lemma nft_bitwise_eval_bool_words_witness :
  exists regs',
    nft_bitwise_eval_bool 0 0 sample_bitwise sample_regs = Some regs'
    /\ length regs' = length sample_regs
    /\ (forall k, (k < Z.to_nat (DIV_ROUND_UP (len sample_bitwise) 4))%nat ->
          exists s m x,
            sample_regs !! (0 + k)%nat = Some s
            /\ mask sample_bitwise !! k = Some m
            /\ xor sample_bitwise !! k = Some x
            /\ regs' !! (0 + k)%nat = Some (Z.lxor (Z.land s m) x))
    /\ (forall p, ~ (0 <= p < 0 + Z.to_nat (DIV_ROUND_UP (len sample_bitwise) 4))%nat -> regs' !! p = sample_regs !! p).
Proof.
  apply (nft_bitwise_eval_bool_words 0 0 sample_bitwise sample_regs);
    vm_compute; lia.
Defined.

Lemma shl_u32_Some (x s : Z) :
  0 <= s < 32 -> shl_u32 x s = Some (Z.shiftl x s mod 2 ^ 32).
Proof.
  intros Hs. unfold shl_u32, BITS_PER_U32.
  rewrite (to_uint_id s) by (unfold uint_range; lia).
  destruct (Z.ltb_spec s 32); [|lia]. done.
Qed.

Lemma shr_u32_Some (x s : Z) :
  0 <= s < 32 -> shr_u32 x s = Some (Z.shiftr x s).
Proof.
  intros Hs. unfold shr_u32, BITS_PER_U32.
  rewrite (to_uint_id s) by (unfold uint_range; lia).
  destruct (Z.ltb_spec s 32); [|lia]. done.
Qed.

Lemma eval_lshift_loop_spec (shift : Z) (dst src n : nat) (i : nat)
    (carry : Z) (regs : list Z) :
  0 < shift < 32 ->
  (i <= n)%nat ->
  (src + n <= length regs)%nat ->
  (dst + n <= length regs)%nat ->
  (dst + n <= src \/ src + n <= dst)%nat ->
  (forall k w, (src <= k < src + i)%nat -> regs !! k = Some w ->
               0 <= w < 2 ^ 32) ->
  0 <= carry < 2 ^ shift ->
  exists regs' cout,
    eval_lshift_loop shift dst src i carry regs = Some regs'
    /\ length regs' = length regs
    /\ (forall p, ~ (dst <= p < dst + i)%nat -> regs' !! p = regs !! p)
    /\ 0 <= cout
    /\ 0 <= be_value regs' dst i < 2 ^ (32 * Z.of_nat i)
    /\ be_value regs' dst i + cout * 2 ^ (32 * Z.of_nat i)
       = be_value regs src i * 2 ^ shift + carry.
Proof.
  intros Hsh. revert carry regs.
  induction i as [|i IH]; intros carry regs Hi Hs Hd Hdis Hw Hc.
  - exists regs, carry. simpl. change (32 * Z.of_nat 0) with 0.
    repeat split; try done; lia.
  - destruct (regs !! (src + i)%nat) as [s|] eqn:Es;
      [|apply lookup_ge_None_1 in Es; lia].
    assert (Hsr : 0 <= s < 2 ^ 32) by (apply (Hw (src + i)%nat); [lia|done]).
    simpl eval_lshift_loop. unfold load. rewrite Es. simpl.
    rewrite shl_u32_Some by lia. simpl.
    rewrite store_Some by lia. simpl.
    set (d := Z.lor (Z.shiftl s shift mod 2 ^ 32) carry).
    set (regs1 := <[(dst + i)%nat := d]> regs).
    assert (Hlen1 : length regs1 = length regs) by apply length_insert.
    assert (Es1 : regs1 !! (src + i)%nat = Some s).
    { subst regs1. rewrite list_lookup_insert_ne by lia. done. }
    rewrite Es1. simpl. unfold BITS_PER_U32.
    rewrite shr_u32_Some by lia. simpl.
    set (c' := Z.shiftr s (32 - shift)).
    assert (Hc' : 0 <= c' < 2 ^ shift).
    { subst c'. rewrite Z.shiftr_div_pow2 by lia. split.
      - apply Z.div_pos; lia.
      - apply Z.div_lt_upper_bound; [lia|].
        rewrite <- Z.pow_add_r by lia.
        replace (32 - shift + shift) with 32 by lia. lia. }
    destruct (IH c' regs1) as (regs' & cout & Hrun & Hlen & Hframe & Hco & Hb & Heq);
      try (rewrite ?Hlen1; lia); try done.
    { intros k w Hk Ek. apply (Hw k); [lia|].
      subst regs1. rewrite list_lookup_insert_ne in Ek by lia. done. }
    exists regs', cout. rewrite Hrun.
    assert (Ed : regs' !! (dst + i)%nat = Some d).
    { rewrite Hframe by lia. subst regs1.
      apply list_lookup_insert_eq. lia. }
    assert (Hd32 : d = Z.shiftl s shift mod 2 ^ 32 + carry)
      by (subst d; apply lor_shifted_carry; lia).
    assert (Hlow : 0 <= Z.shiftl s shift mod 2 ^ 32 + carry < 2 ^ 32).
    { assert (Hm := Z.mod_pos_bound (Z.shiftl s shift) (2 ^ 32) ltac:(lia)).
      split; [lia|].
      (* the low [shift] bits of the shifted value are zero *)
      rewrite Z.shiftl_mul_pow2 by lia.
      assert (Hdiv : (s * 2 ^ shift) mod 2 ^ 32
                     = 2 ^ shift * (s mod 2 ^ (32 - shift))).
      { replace (2 ^ 32) with (2 ^ shift * 2 ^ (32 - shift))
          by (rewrite <- Z.pow_add_r by lia; f_equal; lia).
        rewrite (Z.mul_comm s). rewrite Z.mul_mod_distr_l by lia. done. }
      rewrite Hdiv.
      assert (Hr := Z.mod_pos_bound s (2 ^ (32 - shift)) ltac:(lia)).
      assert (H32 : 2 ^ 32 = 2 ^ shift * 2 ^ (32 - shift))
        by (rewrite <- Z.pow_add_r by lia; f_equal; lia).
      nia. }
    assert (Hsrc : be_value regs1 src i = be_value regs src i).
    { apply be_value_ext. intros k Hk. subst regs1.
      apply list_lookup_insert_ne. lia. }
    split; [done|]. split; [congruence|]. split.
    { intros p Hp. rewrite Hframe by lia. subst regs1.
      apply list_lookup_insert_ne. lia. }
    split; [done|].
    simpl be_value. rewrite Ed, Es. simpl.
    replace (32 * Z.of_nat (S i)) with (32 * Z.of_nat i + 32) by lia.
    rewrite Z.pow_add_r by lia.
    rewrite Hsrc in Heq.
    split.
    + rewrite Hd32. nia.
    + rewrite Hd32.
      assert (Hsplit : s * 2 ^ shift
                       = c' * 2 ^ 32 + Z.shiftl s shift mod 2 ^ 32).
      { subst c'. rewrite Z.shiftr_div_pow2, Z.shiftl_mul_pow2 by lia.
        rewrite (Z.div_mod (s * 2 ^ shift) (2 ^ 32)) at 1 by lia.
        f_equal. rewrite Z.mul_comm. f_equal.
        replace (2 ^ 32) with (2 ^ (32 - shift) * 2 ^ shift)
          by (rewrite <- Z.pow_add_r by lia; f_equal; lia).
        rewrite Z.div_mul_cancel_r by lia. done. }
      nia.
Qed.

(** X2: between registers that do not overlap, nft_bitwise_eval_lshift
    shifts the big-endian number held in the source words left by
    [shift] bits, dropping what leaves the top word, for 0 < shift < 32;
    no register outside the destination changes. *)
Theorem nft_bitwise_eval_lshift_value (dst src : nat) (priv : nft_bitwise)
    (regs : list Z) (shift : Z) :
  let n := Z.to_nat (DIV_ROUND_UP (len priv) 4) in
  data priv !! 0%nat = Some shift ->
  0 < shift < 32 ->
  words_u32 regs ->
  (src + n <= length regs)%nat ->
  (dst + n <= length regs)%nat ->
  (dst + n <= src \/ src + n <= dst)%nat ->
  exists regs',
    nft_bitwise_eval_lshift dst src priv regs = Some regs'
    /\ length regs' = length regs
    /\ (forall p, ~ (dst <= p < dst + n)%nat -> regs' !! p = regs !! p)
    /\ be_value regs' dst n
       = (be_value regs src n * 2 ^ shift) mod 2 ^ (32 * Z.of_nat n).
Proof.
  intros n Hdata Hsh Hw Hs Hd Hdis. unfold nft_bitwise_eval_lshift. fold n.
  rewrite Hdata. simpl.
  assert (Hc0 : 0 <= 0 < 2 ^ shift)
    by (split; [lia|apply Z.pow_pos_nonneg; lia]).
  assert (Hwk : forall k w, (src <= k < src + n)%nat -> regs !! k = Some w ->
                            0 <= w < 2 ^ 32)
    by (intros k w _ Ek; by apply (words_u32_lookup regs k)).
  destruct (eval_lshift_loop_spec shift dst src n n 0 regs
              Hsh (le_n n) Hs Hd Hdis Hwk Hc0)
    as (regs' & cout & Hrun & Hlen & Hframe & Hco & Hb & Heq).
  exists regs'. repeat split; try done.
  rewrite Z.add_0_r in Heq. rewrite <- Heq.
  rewrite Z.mod_add by lia. symmetry. apply Z.mod_small. done.
Qed.

Lemma nft_bitwise_eval_lshift_value_witness :
  exists regs',
    nft_bitwise_eval_lshift 2 0 sample_bitwise sample_regs = Some regs'
    /\ length regs' = length sample_regs
    /\ (forall p, ~ (2 <= p < 2 + Z.to_nat (DIV_ROUND_UP (len sample_bitwise) 4))%nat -> regs' !! p = sample_regs !! p)
    /\ be_value regs' 2 (Z.to_nat (DIV_ROUND_UP (len sample_bitwise) 4))
       = (be_value sample_regs 0 (Z.to_nat (DIV_ROUND_UP (len sample_bitwise) 4)) * 2 ^ 4) mod 2 ^ (32 * Z.of_nat (Z.to_nat (DIV_ROUND_UP (len sample_bitwise) 4))).
Proof.
  apply (nft_bitwise_eval_lshift_value 2 0 sample_bitwise sample_regs 4);
    [reflexivity | lia | repeat constructor; lia | vm_compute; lia ..].
Defined.

Lemma be_value_front (regs : list Z) (base n : nat) :
  be_value regs base (S n)
  = default 0 (regs !! base) * 2 ^ (32 * Z.of_nat n)
    + be_value regs (S base) n.
Proof.
  induction n as [|n IH].
  - simpl. change (32 * Z.of_nat 0) with 0.
    rewrite Nat.add_0_r. lia.
  - change (be_value regs base (S (S n)))
      with (be_value regs base (S n) * 2 ^ 32
            + default 0 (regs !! (base + S n)%nat)).
    rewrite IH.
    change (be_value regs (S base) (S n))
      with (be_value regs (S base) n * 2 ^ 32
            + default 0 (regs !! (S base + n)%nat)).
    replace (S base + n)%nat with (base + S n)%nat by lia.
    replace (32 * Z.of_nat (S n)) with (32 * Z.of_nat n + 32) by lia.
    rewrite Z.pow_add_r by lia. ring.
Qed.

(** A carry shifted to the top of a u32 and a value shifted right by the
    same count have no bit in common. *)
Lemma lor_carry_shifted (pl lo s : Z) :
  0 < s < 32 -> 0 <= lo < 2 ^ (32 - s) ->
  Z.lor (pl * 2 ^ (32 - s)) lo = pl * 2 ^ (32 - s) + lo.
Proof.
  intros Hs Hlo. symmetry. apply Z.add_nocarry_lor.
  apply Z.bits_inj'. intros n Hn.
  rewrite Z.land_spec, Z.bits_0.
  destruct (Z.lt_ge_cases n (32 - s)) as [Hlt|Hge].
  - rewrite Z.mul_pow2_bits_low by lia. done.
  - replace lo with (lo mod 2 ^ (32 - s)) by (apply Z.mod_small; lia).
    rewrite (Z.mod_pow2_bits_high lo) by lia. apply andb_false_r.
Qed.

Local Arguments be_value : simpl never.

Lemma eval_rshift_loop_spec (shift : Z) (dst src N : nat) (n i : nat)
    (pl : Z) (regs : list Z) :
  0 < shift < 32 ->
  (i + n <= N)%nat ->
  (src + N <= length regs)%nat ->
  (dst + N <= length regs)%nat ->
  (dst + N <= src \/ src + N <= dst)%nat ->
  (forall k w, (src <= k < src + N)%nat -> regs !! k = Some w ->
               0 <= w < 2 ^ 32) ->
  0 <= pl < 2 ^ shift ->
  exists regs',
    eval_rshift_loop shift dst src i n (pl * 2 ^ (32 - shift)) regs
    = Some regs'
    /\ length regs' = length regs
    /\ (forall p, ~ (dst + i <= p < dst + i + n)%nat -> regs' !! p = regs !! p)
    /\ be_value regs' (dst + i) n
       = (pl * 2 ^ (32 * Z.of_nat n) + be_value regs (src + i) n) / 2 ^ shift.
Proof.
  intros Hsh. revert i pl regs.
  induction n as [|n IH]; intros i pl regs Hi Hs Hd Hdis Hw Hpl.
  - exists regs. simpl. change (32 * Z.of_nat 0) with 0.
    repeat split; try done.
    change (be_value regs (src + i) 0) with 0.
    change (be_value regs (dst + i) 0) with 0.
    rewrite Z.add_0_r, Z.mul_1_r. symmetry. apply Z.div_small. lia.
  - destruct (regs !! (src + i)%nat) as [s|] eqn:Es;
      [|apply lookup_ge_None_1 in Es; lia].
    assert (Hsr : 0 <= s < 2 ^ 32) by (apply (Hw (src + i)%nat); [lia|done]).
    simpl eval_rshift_loop. unfold load. rewrite Es. simpl.
    rewrite shr_u32_Some by lia. simpl.
    rewrite store_Some by lia. simpl.
    set (lo := Z.shiftr s shift).
    set (d := Z.lor (pl * 2 ^ (32 - shift)) lo).
    set (regs1 := <[(dst + i)%nat := d]> regs).
    assert (Hlen1 : length regs1 = length regs) by apply length_insert.
    assert (Es1 : regs1 !! (src + i)%nat = Some s).
    { subst regs1. rewrite list_lookup_insert_ne by lia. done. }
    rewrite Es1. simpl. unfold BITS_PER_U32.
    rewrite shl_u32_Some by lia. simpl.
    assert (H32 : 2 ^ 32 = 2 ^ shift * 2 ^ (32 - shift))
      by (rewrite <- Z.pow_add_r by lia; f_equal; lia).
    assert (Hc' : Z.shiftl s (32 - shift) mod 2 ^ 32
                  = (s mod 2 ^ shift) * 2 ^ (32 - shift)).
    { rewrite Z.shiftl_mul_pow2 by lia. rewrite H32.
      rewrite Z.mul_mod_distr_r by lia. done. }
    rewrite Hc'.
    assert (Hpl' := Z.mod_pos_bound s (2 ^ shift) ltac:(lia)).
    destruct (IH (S i) (s mod 2 ^ shift) regs1)
      as (regs' & Hrun & Hlen & Hframe & Heq);
      try (rewrite ?Hlen1; lia); try done.
    { intros k w Hk Ek. apply (Hw k); [lia|].
      subst regs1. rewrite list_lookup_insert_ne in Ek by lia. done. }
    exists regs'. rewrite Hrun.
    assert (Ed : regs' !! (dst + i)%nat = Some d).
    { rewrite Hframe by lia. subst regs1.
      apply list_lookup_insert_eq. lia. }
    assert (Hlo : 0 <= lo < 2 ^ (32 - shift)).
    { subst lo. rewrite Z.shiftr_div_pow2 by lia. split.
      - apply Z.div_pos; lia.
      - apply Z.div_lt_upper_bound; [lia|]. lia. }
    assert (Hd32 : d = pl * 2 ^ (32 - shift) + lo)
      by (subst d; apply lor_carry_shifted; lia).
    assert (Hsrc : be_value regs1 (src + S i) n = be_value regs (src + S i) n).
    { apply be_value_ext. intros k Hk. subst regs1.
      apply list_lookup_insert_ne. lia. }
    split; [done|]. split; [congruence|]. split.
    { intros p Hp. rewrite Hframe by lia. subst regs1.
      apply list_lookup_insert_ne. lia. }
    rewrite !be_value_front. rewrite Ed, Es. simpl default.
    replace (S (dst + i)) with (dst + S i)%nat by lia.
    replace (S (src + i)) with (src + S i)%nat by lia.
    rewrite Heq, Hsrc.
    set (M := 2 ^ (32 * Z.of_nat n)).
    set (S' := be_value regs (src + S i) n).
    replace (32 * Z.of_nat (S n)) with (32 + 32 * Z.of_nat n) by lia.
    rewrite Z.pow_add_r by lia. fold M.
    assert (Hs_split : s = 2 ^ shift * lo + s mod 2 ^ shift).
    { subst lo. rewrite Z.shiftr_div_pow2 by lia. apply Z.div_mod. lia. }
    replace (pl * (2 ^ 32 * M) + (s * M + S'))
      with ((pl * 2 ^ (32 - shift) + lo) * M * 2 ^ shift
            + (s mod 2 ^ shift * M + S')).
    2:{ rewrite H32. rewrite Hs_split at 2. ring. }
    rewrite Z.div_add_l by lia. rewrite Hd32. done.
Qed.

(** X3: between registers that do not overlap, nft_bitwise_eval_rshift
    shifts the big-endian number held in the source words right by
    [shift] bits, for 0 < shift < 32; no register outside the destination
    changes. *)
Theorem nft_bitwise_eval_rshift_value (dst src : nat) (priv : nft_bitwise)
    (regs : list Z) (shift : Z) :
  let n := Z.to_nat (DIV_ROUND_UP (len priv) 4) in
  data priv !! 0%nat = Some shift ->
  0 < shift < 32 ->
  words_u32 regs ->
  (src + n <= length regs)%nat ->
  (dst + n <= length regs)%nat ->
  (dst + n <= src \/ src + n <= dst)%nat ->
  exists regs',
    nft_bitwise_eval_rshift dst src priv regs = Some regs'
    /\ length regs' = length regs
    /\ (forall p, ~ (dst <= p < dst + n)%nat -> regs' !! p = regs !! p)
    /\ be_value regs' dst n = be_value regs src n / 2 ^ shift.
Proof.
  intros n Hdata Hsh Hw Hs Hd Hdis. unfold nft_bitwise_eval_rshift. fold n.
  rewrite Hdata. simpl.
  assert (Hc0 : 0 <= 0 < 2 ^ shift)
    by (split; [lia|apply Z.pow_pos_nonneg; lia]).
  assert (Hwk : forall k w, (src <= k < src + n)%nat -> regs !! k = Some w ->
                            0 <= w < 2 ^ 32)
    by (intros k w _ Ek; by apply (words_u32_lookup regs k)).
  destruct (eval_rshift_loop_spec shift dst src n n 0 0 regs
              Hsh (le_n n) Hs Hd Hdis Hwk Hc0)
    as (regs' & Hrun & Hlen & Hframe & Heq).
  exists regs'. rewrite Z.mul_0_l in Hrun. rewrite Hrun.
  repeat split; try done.
  - intros p Hp. apply Hframe. lia.
  - rewrite !Nat.add_0_r in Heq. rewrite Heq. by rewrite Z.mul_0_l, Z.add_0_l.
Qed.

Lemma nft_bitwise_eval_rshift_value_witness :
  exists regs',
    nft_bitwise_eval_rshift 2 0 sample_bitwise sample_regs = Some regs'
    /\ length regs' = length sample_regs
    /\ (forall p, ~ (2 <= p < 2 + Z.to_nat (DIV_ROUND_UP (len sample_bitwise) 4))%nat -> regs' !! p = sample_regs !! p)
    /\ be_value regs' 2 (Z.to_nat (DIV_ROUND_UP (len sample_bitwise) 4)) = be_value sample_regs 0 (Z.to_nat (DIV_ROUND_UP (len sample_bitwise) 4)) / 2 ^ 4.
Proof.
  apply (nft_bitwise_eval_rshift_value 2 0 sample_bitwise sample_regs 4);
    [reflexivity | lia | repeat constructor; lia | vm_compute; lia ..].
Defined.

Lemma eval_lshift_loop_defined (shift : Z) (dst src i : nat) (carry : Z)
    (regs : list Z) :
  0 < shift < 32 ->
  (src + i <= length regs)%nat ->
  (dst + i <= length regs)%nat ->
  is_Some (eval_lshift_loop shift dst src i carry regs).
Proof.
  intros Hsh. revert carry regs.
  induction i as [|i IH]; intros carry regs Hs Hd; [by eexists|].
  destruct (regs !! (src + i)%nat) as [s|] eqn:Es;
    [|apply lookup_ge_None_1 in Es; lia].
  simpl eval_lshift_loop. unfold load. rewrite Es. simpl.
  rewrite shl_u32_Some by lia. simpl. rewrite store_Some by lia. simpl.
  set (regs1 := <[(dst + i)%nat := _]> regs).
  assert (Hlen1 : length regs1 = length regs) by apply length_insert.
  destruct (regs1 !! (src + i)%nat) as [s'|] eqn:Es';
    [|apply lookup_ge_None_1 in Es'; lia].
  simpl. unfold BITS_PER_U32. rewrite shr_u32_Some by lia. simpl.
  apply IH; lia.
Qed.

Lemma eval_rshift_loop_defined (shift : Z) (dst src i n : nat) (carry : Z)
    (regs : list Z) :
  0 < shift < 32 ->
  (src + i + n <= length regs)%nat ->
  (dst + i + n <= length regs)%nat ->
  is_Some (eval_rshift_loop shift dst src i n carry regs).
Proof.
  intros Hsh. revert i carry regs.
  induction n as [|n IH]; intros i carry regs Hs Hd; [by eexists|].
  destruct (regs !! (src + i)%nat) as [s|] eqn:Es;
    [|apply lookup_ge_None_1 in Es; lia].
  simpl eval_rshift_loop. unfold load. rewrite Es. simpl.
  rewrite shr_u32_Some by lia. simpl. rewrite store_Some by lia. simpl.
  set (regs1 := <[(dst + i)%nat := _]> regs).
  assert (Hlen1 : length regs1 = length regs) by apply length_insert.
  destruct (regs1 !! (src + i)%nat) as [s'|] eqn:Es';
    [|apply lookup_ge_None_1 in Es'; lia].
  simpl. unfold BITS_PER_U32. rewrite shl_u32_Some by lia. simpl.
  apply IH; lia.
Qed.

Lemma shl_u32_None (x s : Z) : 32 <= s < 2 ^ 32 -> shl_u32 x s = None.
Proof.
  intros Hs. unfold shl_u32, BITS_PER_U32.
  rewrite (to_uint_id s) by (unfold uint_range; lia).
  destruct (Z.ltb_spec s 32); [lia|done].
Qed.

Lemma shr_u32_None (x s : Z) : 32 <= s < 2 ^ 32 -> shr_u32 x s = None.
Proof.
  intros Hs. unfold shr_u32, BITS_PER_U32.
  rewrite (to_uint_id s) by (unfold uint_range; lia).
  destruct (Z.ltb_spec s 32); [lia|done].
Qed.

(** X4: the two shift evaluators are defined exactly for shift counts
    from 1 to 31: a count of 0 makes them shift a u32 by 32 bits (the
    carry), a count of 32 or more shifts the word itself too far, and C
    leaves both undefined. *)
Theorem nft_bitwise_eval_shift_defined (dst src : nat) (priv : nft_bitwise)
    (regs : list Z) (shift : Z) :
  let n := Z.to_nat (DIV_ROUND_UP (len priv) 4) in
  data priv !! 0%nat = Some shift ->
  uint_range shift ->
  (0 < n)%nat ->
  (src + n <= length regs)%nat ->
  (dst + n <= length regs)%nat ->
  (is_Some (nft_bitwise_eval_lshift dst src priv regs) <-> 0 < shift < 32)
  /\ (is_Some (nft_bitwise_eval_rshift dst src priv regs) <-> 0 < shift < 32).
Proof.
  intros n Hdata Hu Hn Hs Hd.
  unfold nft_bitwise_eval_lshift, nft_bitwise_eval_rshift. fold n.
  rewrite Hdata. simpl. unfold uint_range in Hu.
  split; (split; [|intros Hsh]).
  - destruct n as [|i]; [lia|].
    destruct (regs !! (src + i)%nat) as [s|] eqn:Es;
      [|apply lookup_ge_None_1 in Es; lia].
    simpl eval_lshift_loop. unfold load. rewrite Es. simpl.
    destruct (Z.lt_ge_cases shift 32) as [Hlt|Hge].
    + destruct (Z.eq_dec shift 0) as [->|Hne]; [|intros _; lia].
      rewrite shl_u32_Some by lia. simpl. rewrite store_Some by lia. simpl.
      set (regs1 := <[(dst + i)%nat := _]> regs).
      assert (Hlen1 : length regs1 = length regs) by apply length_insert.
      destruct (regs1 !! (src + i)%nat) as [s'|] eqn:Es';
        [|apply lookup_ge_None_1 in Es'; lia].
      simpl. by intros [? ?].
    + rewrite shl_u32_None by lia. simpl. by intros [? ?].
  - apply eval_lshift_loop_defined; lia.
  - destruct n as [|n']; [lia|].
    destruct (regs !! (src + 0)%nat) as [s|] eqn:Es;
      [|apply lookup_ge_None_1 in Es; lia].
    simpl eval_rshift_loop. unfold load. rewrite Es. simpl.
    destruct (Z.lt_ge_cases shift 32) as [Hlt|Hge].
    + destruct (Z.eq_dec shift 0) as [->|Hne]; [|intros _; lia].
      rewrite shr_u32_Some by lia. simpl. rewrite store_Some by lia. simpl.
      set (regs1 := <[(dst + 0)%nat := _]> regs).
      assert (Hlen1 : length regs1 = length regs) by apply length_insert.
      destruct (regs1 !! (src + 0)%nat) as [s'|] eqn:Es';
        [|apply lookup_ge_None_1 in Es'; lia].
      simpl. by intros [? ?].
    + rewrite shr_u32_None by lia. simpl. by intros [? ?].
  - apply eval_rshift_loop_defined; lia.
Qed.

Lemma nft_bitwise_eval_shift_defined_witness :
  (is_Some (nft_bitwise_eval_lshift 2 0 sample_bitwise sample_regs)
   <-> 0 < 4 < 32)
  /\ (is_Some (nft_bitwise_eval_rshift 2 0 sample_bitwise sample_regs)
      <-> 0 < 4 < 32).
Proof.
  apply (nft_bitwise_eval_shift_defined 2 0 sample_bitwise sample_regs 4);
    [reflexivity | unfold uint_range; lia | vm_compute; lia ..].
Defined.

(** X5: on a single word the shift evaluators are right also in place,
    whatever the registers named: the destination receives the source
    word shifted inside a u32. *)
Theorem nft_bitwise_eval_shift_single_word (dst src : nat)
    (priv : nft_bitwise) (regs : list Z) (shift s : Z) :
  Z.to_nat (DIV_ROUND_UP (len priv) 4) = 1%nat ->
  data priv !! 0%nat = Some shift ->
  0 < shift < 32 ->
  regs !! src = Some s ->
  (dst < length regs)%nat ->
  nft_bitwise_eval_lshift dst src priv regs
  = Some (<[dst := Z.shiftl s shift mod 2 ^ 32]> regs)
  /\ nft_bitwise_eval_rshift dst src priv regs
     = Some (<[dst := Z.shiftr s shift]> regs).
Proof.
  intros Hn Hdata Hsh Es Hd.
  unfold nft_bitwise_eval_lshift, nft_bitwise_eval_rshift.
  rewrite Hn, Hdata. simpl. unfold load.
  rewrite !Nat.add_0_r, Es. simpl.
  rewrite shl_u32_Some, shr_u32_Some by lia. simpl.
  rewrite !store_Some by lia. simpl.
  rewrite Z.lor_0_r, Z.lor_0_l.
  assert (Hsrc : (src < length regs)%nat).
  { by apply lookup_lt_Some in Es. }
  split.
  - destruct (<[dst:=Z.shiftl s shift mod 2 ^ 32]> regs !! src) as [s'|] eqn:E;
      [|apply lookup_ge_None_1 in E; rewrite length_insert in E; lia].
    simpl. unfold BITS_PER_U32. rewrite shr_u32_Some by lia. done.
  - destruct (<[dst:=Z.shiftr s shift]> regs !! src) as [s'|] eqn:E;
      [|apply lookup_ge_None_1 in E; rewrite length_insert in E; lia].
    simpl. unfold BITS_PER_U32. rewrite shl_u32_Some by lia. done.
Qed.

Lemma nft_bitwise_eval_shift_single_word_witness :
  nft_bitwise_eval_lshift 1 1 sample_bitwise_word sample_regs
  = Some (<[1%nat := Z.shiftl 0x9abcdef0 4 mod 2 ^ 32]> sample_regs)
  /\ nft_bitwise_eval_rshift 1 1 sample_bitwise_word sample_regs
     = Some (<[1%nat := Z.shiftr 0x9abcdef0 4]> sample_regs).
Proof.
  apply (nft_bitwise_eval_shift_single_word 1 1 sample_bitwise_word
           sample_regs 4 0x9abcdef0);
    [reflexivity | reflexivity | lia | reflexivity | vm_compute; lia].
Defined.

End NftBitwiseFacts.

(** * The order of afs_prioritise_error *)

Section AfsOrder.

Context {Other Global : Type}.
Variable errno_of : errname -> Z.
Variable abort_val : abort_name -> Z.
Variable to_error_member : Z -> Z.
Implicit Types st : kstate Other Global.

Lemma NoDup_map_inj_on {A B : Type} (f : A -> B) (l : list A) :
  NoDup (map f l) ->
  forall x y, In x l -> In y l -> f x = f y -> x = y.
Proof.
  induction l as [|a l IH]; simpl; intros Hnd x y Hx Hy Hf; [done|].
  inversion Hnd as [|? ? Hnin Hnd']; subst.
  destruct Hx as [->|Hx], Hy as [->|Hy]; try done.
  - exfalso. apply Hnin. rewrite Hf. apply list_elem_of_In. by apply in_map.
  - exfalso. apply Hnin. rewrite <- Hf. apply list_elem_of_In.
    by apply in_map.
  - by apply IH.
Qed.

Lemma afs_label_values (n m : errname) :
  afs_labels_distinct errno_of ->
  In n afs_labels -> In m afs_labels -> n <> m ->
  (- errno_of n =? - errno_of m) = false.
Proof.
  intros Hd Hn Hm Hne. apply Z.eqb_neq. intros Heq. apply Hne.
  apply (NoDup_map_inj_on errno_of afs_labels Hd); [done|done|lia].
Qed.

Lemma afs_label_or_other (x : Z) :
  (exists n, In n afs_labels /\ x = - errno_of n)
  \/ (forall n, In n afs_labels -> (x =? - errno_of n) = false).
Proof.
  induction afs_labels as [|a l IH].
  - right. intros n [].
  - destruct (Z.eqb_spec x (- errno_of a)) as [->|Hne].
    + left. exists a. split; [by left|done].
    + destruct IH as [(n & Hn & ->)|Hnone].
      * left. exists n. split; [by right|done].
      * right. intros n [<-|Hn]; [by apply Z.eqb_neq|by apply Hnone].
Qed.

Ltac afs_label_tests Hd :=
  repeat match goal with
         | |- context [(- errno_of ?n =? - errno_of ?n)] =>
             rewrite (Z.eqb_refl (- errno_of n))
         | |- context [(- errno_of ?n =? - errno_of ?m)] =>
             rewrite (afs_label_values n m Hd)
               by (try discriminate; simpl; tauto)
         | H : forall n, In n afs_labels -> (?x =? - errno_of n) = false
           |- context [(?x =? - errno_of ?m)] =>
             rewrite (H m) by (simpl; tauto)
         end.

(** The result of afs_prioritise_error for an error that is neither 0 nor
    -ECONNABORTED. *)
Lemma afs_prioritise_error_ranked (e : afs_error) (err abort_code : Z) st :
  afs_labels_distinct errno_of ->
  err <> 0 ->
  err <> - errno_of ECONNABORTED ->
  afs_prioritise_error errno_of abort_val to_error_member e err abort_code st
  = Done (if responded e || (afs_rank errno_of err <? afs_rank errno_of (error e))
          then e else set_error to_error_member err e) st [].
Proof.
  intros Hd H0 Hab.
  unfold afs_prioritise_error.
  destruct (Z.eqb_spec err 0) as [|_]; [done|].
  destruct e as [ee r].
  unfold afs_rank, at_default, at_ETIMEDOUT, at_ENOMEM, at_ERFKILL,
    at_EADDRNOTAVAIL, at_ENETUNREACH, at_EHOSTUNREACH, at_EHOSTDOWN,
    at_ECONNREFUSED, at_ECONNRESET, is_err, is_code.
  cbn [error responded].
  destruct (afs_label_or_other err) as [(n & Hn & ->)|Hn];
    destruct (afs_label_or_other ee) as [(m & Hm & ->)|Hm].
  - simpl in Hn, Hm.
    repeat (destruct Hn as [<-|Hn]; [|]); try done;
      repeat (destruct Hm as [<-|Hm]; [|]); try done;
      afs_label_tests Hd; by destruct r.
  - simpl in Hn.
    repeat (destruct Hn as [<-|Hn]; [|]); try done;
      afs_label_tests Hd; by destruct r.
  - simpl in Hm.
    repeat (destruct Hm as [<-|Hm]; [|]); try done;
      afs_label_tests Hd; by destruct r.
  - afs_label_tests Hd. by destruct r.
Qed.

(** X6: for an error that is neither 0 nor -ECONNABORTED,
    afs_prioritise_error records nothing and replaces the kept error
    exactly when no server has responded and the kept error does not
    outrank the new one; otherwise *e is left as it was. *)
Theorem afs_prioritise_error_order (e : afs_error) (err abort_code : Z) st :
  afs_labels_distinct errno_of ->
  err <> 0 ->
  err <> - errno_of ECONNABORTED ->
  exists e',
    afs_prioritise_error errno_of abort_val to_error_member e err abort_code st
    = Done e' st []
    /\ responded e' = responded e
    /\ (responded e = false
        /\ afs_rank errno_of (error e) <= afs_rank errno_of err ->
        error e' = to_error_member err)
    /\ (responded e = true
        \/ afs_rank errno_of err < afs_rank errno_of (error e) ->
        e' = e).
Proof.
  intros Hd H0 Hab. eexists. split.
  { by apply afs_prioritise_error_ranked. }
  destruct (responded e) eqn:Hr; simpl.
  - split; [done|]. split; [by intros [? _]|done].
  - destruct (Z.ltb_spec (afs_rank errno_of err) (afs_rank errno_of (error e))).
    + split; [done|]. split; [intros [_ ?]; lia|done].
    + split; [done|]. split; [done|]. intros [?|?]; [done|lia].
Qed.

(** X7: two errors of different rank, neither 0 nor -ECONNABORTED and
    both fitting the member, may be reported in either order: *e ends up
    the same. *)
Theorem afs_prioritise_error_commutes (e : afs_error) (a b ca cb : Z) st :
  afs_labels_distinct errno_of ->
  a <> 0 -> a <> - errno_of ECONNABORTED ->
  b <> 0 -> b <> - errno_of ECONNABORTED ->
  to_error_member a = a ->
  to_error_member b = b ->
  afs_rank errno_of a <> afs_rank errno_of b ->
  (e1 <- afs_prioritise_error errno_of abort_val to_error_member e a ca ;;
   afs_prioritise_error errno_of abort_val to_error_member e1 b cb) st
  = (e1 <- afs_prioritise_error errno_of abort_val to_error_member e b cb ;;
     afs_prioritise_error errno_of abort_val to_error_member e1 a ca) st.
Proof.
  intros Hd Ha0 Ha Hb0 Hb Hma Hmb Hne.
  unfold bind.
  rewrite !afs_prioritise_error_ranked by done.
  cbn beta iota. f_equal.
  destruct e as [ee r]. unfold set_error. cbn [error responded].
  destruct r; simpl; [done|].
  rewrite Hma, Hmb.
  destruct (Z.ltb_spec (afs_rank errno_of a) (afs_rank errno_of ee));
    destruct (Z.ltb_spec (afs_rank errno_of b) (afs_rank errno_of ee));
    cbn [error responded]; simpl;
    rewrite ?Hma, ?Hmb;
    repeat match goal with
           | |- context [?x <? ?y] => destruct (Z.ltb_spec x y)
           end; try done; try lia.
Qed.

End AfsOrder.

Lemma linux_afs_labels_distinct : afs_labels_distinct linux_errno.
Proof.
  unfold afs_labels_distinct. simpl.
  repeat (apply NoDup_cons_2;
          [intros H;
           repeat (apply elem_of_cons in H as [H|H]; [discriminate|]);
           by apply elem_of_nil in H|]).
  apply NoDup_nil_2.
Defined.

Lemma afs_prioritise_error_order_witness :
  exists e',
    afs_prioritise_error linux_errno sample_abort_val (wrap_signed 16)
      {| error := - 110; responded := false |} (- 104) 0 sample_state
    = Done e' sample_state []
    /\ responded e' = responded {| error := - 110; responded := false |}
    /\ (responded {| error := - 110; responded := false |} = false
        /\ afs_rank linux_errno (error {| error := - 110; responded := false |})
           <= afs_rank linux_errno (- 104) ->
        error e' = wrap_signed 16 (- 104))
    /\ (responded {| error := - 110; responded := false |} = true
        \/ afs_rank linux_errno (- 104)
           < afs_rank linux_errno
               (error {| error := - 110; responded := false |}) ->
        e' = {| error := - 110; responded := false |}).
Proof.
  apply (afs_prioritise_error_order linux_errno sample_abort_val
           (wrap_signed 16) {| error := - 110; responded := false |}
           (- 104) 0 sample_state);
    [apply linux_afs_labels_distinct | lia | simpl; lia].
Defined.

Lemma afs_prioritise_error_commutes_witness :
  (e1 <- afs_prioritise_error linux_errno sample_abort_val (wrap_signed 16)
           {| error := 0; responded := false |} (- 110) 0 ;;
   afs_prioritise_error linux_errno sample_abort_val (wrap_signed 16)
     e1 (- 104) 0) sample_state
  = (e1 <- afs_prioritise_error linux_errno sample_abort_val (wrap_signed 16)
             {| error := 0; responded := false |} (- 104) 0 ;;
     afs_prioritise_error linux_errno sample_abort_val (wrap_signed 16)
       e1 (- 110) 0) sample_state.
Proof.
  apply (afs_prioritise_error_commutes linux_errno sample_abort_val
           (wrap_signed 16) {| error := 0; responded := false |}
           (- 110) (- 104) 0 0 sample_state);
    [apply linux_afs_labels_distinct | lia | simpl; lia | lia | simpl; lia
    | reflexivity | reflexivity | vm_compute; discriminate].
Defined.

(** ** kernel/bpf/reuseport_array.c *)

Section ReuseportArrayFacts.

Import ReuseportArray.

Context {Other : Type}.
Variable errno_of : errname -> Z.
Variable errno_ext : errname_ext -> Z.
Variable C : ra_consts.
Implicit Types st : kstate Other world.

(** A wrapped constant records once and leaves the objects of the file
    alone. *)
Lemma ERR_keeps_world st (FILE : string) (LINE X : Z) :
  uint_range LINE ->
  current_valid st ->
  exists st',
    ERR FILE LINE (ret X) st
    = Done X st' [mk_rec_call (Some FILE) LINE (to_int X)]
    /\ globals st' = globals st
    /\ current_valid st'.
Proof.
  intros HL Hv.
  destruct (set_last_err_total st (Some FILE) (to_uint LINE) (to_int X) Hv)
    as (st' & Hrun & Hctx & Hcur & Hg & Hdom).
  exists st'. rewrite (ERR_const _ _ _ _ _ Hrun).
  rewrite (to_uint_id _ HL). split; [done|]. split; [done|].
  intros Hin. rewrite Hctx in Hin. specialize (Hv Hin).
  rewrite Hcur. apply (elem_of_dom (tasks st')). rewrite Hdom.
  by apply elem_of_dom.
Qed.

Lemma get_next_key_null (m : bpf_map) (map : Z) st :
  bpf_maps (globals st) !! map = Some m ->
  max_entries m < 2 ^ 32 ->
  reuseport_array_get_next_key errno_of map None st = Done (0, Some 0) st [].
Proof.
  intros Hm Hmax.
  unfold reuseport_array_get_next_key, read_map, get_world, bind.
  simpl. rewrite Hm. simpl.
  destruct (Z.leb_spec (max_entries m) (2 ^ 32 - 1)); [done|lia].
Qed.

Lemma get_next_key_next (m : bpf_map) (map k : Z) st :
  bpf_maps (globals st) !! map = Some m ->
  max_entries m < 2 ^ 32 ->
  0 <= k < max_entries m - 1 ->
  reuseport_array_get_next_key errno_of map (Some k) st
  = Done (0, Some (k + 1)) st [].
Proof.
  intros Hm Hmax Hk.
  unfold reuseport_array_get_next_key, read_map, get_world, bind.
  simpl. rewrite Hm. simpl.
  destruct (Z.leb_spec (max_entries m) k); [lia|].
  rewrite (to_uint_id (max_entries m - 1)) by (unfold uint_range; lia).
  destruct (Z.eqb_spec k (max_entries m - 1)); [lia|].
  by rewrite (to_uint_id (k + 1)) by (unfold uint_range; lia).
Qed.

Lemma get_next_key_last (m : bpf_map) (map k : Z) st :
  bpf_maps (globals st) !! map = Some m ->
  max_entries m < 2 ^ 32 ->
  0 <= k ->
  k = max_entries m - 1 ->
  current_valid st ->
  exists st',
    reuseport_array_get_next_key errno_of map (Some k) st
    = Done (- errno_of ENOENT, None) st'
        [mk_rec_call (Some reuseport_array_c) 348 (to_int (errno_of ENOENT))]
    /\ globals st' = globals st.
Proof.
  intros Hm Hmax Hk0 Hk Hv.
  destruct (ERR_keeps_world st reuseport_array_c 348 (errno_of ENOENT))
    as (st' & Hrun & Hg & _); [by apply uint_range_line|done|].
  exists st'. split; [|done].
  unfold reuseport_array_get_next_key, read_map, get_world, bind.
  simpl. rewrite Hm. simpl.
  destruct (Z.leb_spec (max_entries m) k); [lia|].
  rewrite (to_uint_id (max_entries m - 1)) by (unfold uint_range; lia).
  destruct (Z.eqb_spec k (max_entries m - 1)); [|lia].
  by rewrite Hrun.
Qed.

Lemma next_keys_step (fuel : nat) (map : Z) (key : option Z) st :
  next_keys errno_of (S fuel) map key st
  = match reuseport_array_get_next_key errno_of map key st with
    | Fault => Fault
    | Done (err, next) st1 c1 =>
        if err =? 0 then
          match next with
          | Some k =>
              match next_keys errno_of fuel map (Some k) st1 with
              | Fault => Fault
              | Done ks st2 c2 => Done (k :: ks) st2 (c1 ++ c2)
              end
          | None => Fault
          end
        else Done [] st1 c1
    end.
Proof.
  change (next_keys errno_of (S fuel) map key st)
    with ((r <- reuseport_array_get_next_key errno_of map key ;;
           let '(err, next) := r in
           if err =? 0 then
             match next with
             | Some k0 =>
                 ks <- next_keys errno_of fuel map (Some k0) ;;
                 ret (k0 :: ks)
             | None => fault
             end
           else ret []) st).
  unfold bind at 1.
  destruct (reuseport_array_get_next_key errno_of map key st)
    as [|[err next] st1 c1]; [done|].
  destruct (err =? 0); [|unfold ret; by rewrite app_nil_r].
  destruct next as [k|]; [|done].
  unfold bind, ret.
  destruct (next_keys errno_of fuel map (Some k) st1) as [|ks st2 c2];
    [done|].
  by rewrite app_nil_r.
Qed.

Lemma next_keys_from (m : bpf_map) (map : Z) (j : nat) (k : Z) st :
  bpf_maps (globals st) !! map = Some m ->
  max_entries m < 2 ^ 32 ->
  0 <= k ->
  k + Z.of_nat j = max_entries m - 1 ->
  errno_of ENOENT <> 0 ->
  current_valid st ->
  exists st',
    next_keys errno_of (S j) map (Some k) st
    = Done (seqZ (k + 1) (Z.of_nat j)) st'
        [mk_rec_call (Some reuseport_array_c) 348 (to_int (errno_of ENOENT))]
    /\ globals st' = globals st.
Proof.
  intros Hm Hmax. revert k.
  induction j as [|j IH]; intros k Hk Hj Hne Hv.
  - destruct (get_next_key_last m map k st) as (st' & Hrun & Hg);
      [done|done|done|lia|done|].
    exists st'. split; [|done].
    rewrite next_keys_step, Hrun.
    by destruct (Z.eqb_spec (- errno_of ENOENT) 0); [lia|].
  - destruct (IH (k + 1)) as (st' & Hrun & Hg); [lia|lia|done|done|].
    exists st'. split; [|done].
    rewrite next_keys_step, (get_next_key_next m) by (done || lia).
    change (0 =? 0) with true. cbn beta iota.
    rewrite Hrun. rewrite (seqZ_cons (k + 1)) by lia.
    simpl. do 3 f_equal. lia.
Qed.

(** X8: starting from a null key, reuseport_array_get_next_key hands out
    the indexes 0, 1, ..., max_entries - 1 in order and then fails with
    -ENOENT, recorded once at line 348; the walk changes no object. *)
Theorem reuseport_array_get_next_key_walk (m : bpf_map) (map : Z) st :
  bpf_maps (globals st) !! map = Some m ->
  0 < max_entries m < 2 ^ 32 ->
  errno_of ENOENT <> 0 ->
  current_valid st ->
  exists st',
    next_keys errno_of (S (Z.to_nat (max_entries m))) map None st
    = Done (seqZ 0 (max_entries m)) st'
        [mk_rec_call (Some reuseport_array_c) 348 (to_int (errno_of ENOENT))]
    /\ globals st' = globals st.
Proof.
  intros Hm Hmax Hne Hv.
  destruct (Z.to_nat (max_entries m)) as [|j] eqn:Hj; [lia|].
  destruct (next_keys_from m map j 0 st) as (st' & Hrun & Hg);
    [done|lia|lia|lia|done|done|].
  exists st'. split; [|done].
  rewrite next_keys_step, (get_next_key_null m) by (done || lia).
  change (0 =? 0) with true. cbn beta iota.
  rewrite Hrun. rewrite (seqZ_cons 0) by lia.
  simpl. do 3 f_equal. lia.
Qed.

Lemma bind_quiet {A B : Type} (m : K Other world A)
    (k : A -> K Other world B) st (a : A) st' :
  m st = Done a st' [] -> bind m k st = k a st'.
Proof. intros H. unfold bind. rewrite H. by destruct (k a st'). Qed.

Lemma bind_assoc {A B D : Type} (m : K Other world A)
    (f : A -> K Other world B) (g : B -> K Other world D) st :
  bind (bind m f) g st = bind m (fun x => bind (f x) g) st.
Proof.
  unfold bind. destruct (m st) as [|a st1 c1]; [done|].
  destruct (f a st1) as [|b st2 c2]; [done|].
  destruct (g b st2) as [|d st3 c3]; [done|].
  by rewrite app_assoc.
Qed.

Lemma with_globals_twice st (w1 w2 : world) :
  with_globals (with_globals st w1) w2 = with_globals st w2.
Proof. reflexivity. Qed.

Lemma globals_with_globals st (w : world) : globals (with_globals st w) = w.
Proof. reflexivity. Qed.

Ltac kstep tac :=
  rewrite ?bind_assoc; erewrite bind_quiet; [|tac];
  rewrite ?with_globals_twice, ?globals_with_globals; cbn beta iota.

Lemma world_ext (w1 w2 : world) :
  bpf_maps w1 = bpf_maps w2 -> slots w1 = slots w2 -> socks w1 = socks w2 ->
  sockets w1 = sockets w2 -> fdtable w1 = fdtable w2 ->
  f_count w1 = f_count w2 -> reuseport_lock w1 = reuseport_lock w2 ->
  rcu_nesting w1 = rcu_nesting w2 ->
  w1 = w2.
Proof. destruct w1, w2. simpl. by intros -> -> -> -> -> -> -> ->. Qed.

Ltac world_fields :=
  apply world_ext;
  cbn [bpf_maps slots socks sockets fdtable f_count reuseport_lock
       rcu_nesting with_slots with_socks with_f_count with_reuseport_lock
       with_rcu_nesting with_bpf_maps installed];
  try reflexivity.

Lemma read_map_run (map : Z) (m : bpf_map) st :
  bpf_maps (globals st) !! map = Some m -> read_map map st = Done m st [].
Proof. intros H. unfold read_map, bind, get_world. simpl. by rewrite H. Qed.

Lemma read_slot_run (a p : Z) st :
  slots (globals st) !! a = Some p -> read_slot a st = Done p st [].
Proof. intros H. unfold read_slot, bind, get_world. simpl. by rewrite H. Qed.

Lemma write_slot_run (a v p : Z) st :
  slots (globals st) !! a = Some p ->
  write_slot a v st
  = Done tt (with_globals st (with_slots <[a := v]> (globals st))) [].
Proof. intros H. unfold write_slot, bind, get_world. simpl. by rewrite H. Qed.

Lemma read_sock_run (sk : Z) (s : sock) st :
  socks (globals st) !! sk = Some s -> read_sock sk st = Done s st [].
Proof. intros H. unfold read_sock, bind, get_world. simpl. by rewrite H. Qed.

Lemma update_sock_run (sk : Z) (f : sock -> sock) (s : sock) st :
  socks (globals st) !! sk = Some s ->
  update_sock sk f st
  = Done tt (with_globals st (with_socks <[sk := f s]> (globals st))) [].
Proof. intros H. unfold update_sock, bind, get_world. simpl. by rewrite H. Qed.

Lemma write_lock_bh_run (sk : Z) (s : sock) st :
  socks (globals st) !! sk = Some s ->
  sk_callback_lock s = false ->
  write_lock_bh sk st
  = Done tt (with_globals st
               (with_socks <[sk := set_sk_callback_lock true s]> (globals st)))
      [].
Proof.
  intros H Hl. unfold write_lock_bh.
  rewrite (bind_quiet _ _ _ _ _ (read_sock_run _ _ _ H)), Hl.
  by apply update_sock_run.
Qed.

Lemma write_unlock_bh_run (sk : Z) (s : sock) st :
  socks (globals st) !! sk = Some s ->
  sk_callback_lock s = true ->
  write_unlock_bh sk st
  = Done tt (with_globals st
               (with_socks <[sk := set_sk_callback_lock false s]> (globals st)))
      [].
Proof.
  intros H Hl. unfold write_unlock_bh.
  rewrite (bind_quiet _ _ _ _ _ (read_sock_run _ _ _ H)), Hl.
  by apply update_sock_run.
Qed.

Lemma spin_lock_bh_run st :
  reuseport_lock (globals st) = false ->
  spin_lock_bh st
  = Done tt (with_globals st (with_reuseport_lock true (globals st))) [].
Proof. intros H. unfold spin_lock_bh, bind, get_world. simpl. by rewrite H. Qed.

Lemma spin_unlock_bh_run st :
  reuseport_lock (globals st) = true ->
  spin_unlock_bh st
  = Done tt (with_globals st (with_reuseport_lock false (globals st))) [].
Proof.
  intros H. unfold spin_unlock_bh, bind, get_world. simpl. by rewrite H.
Qed.

Lemma reuseport_array_delete_elem_clears_run (map index sk : Z) (m : bpf_map)
    (s : sock) st :
  let w := globals st in
  let w' := with_socks <[sk := set_sk_user_data 0 s]>
              (with_slots <[ptrs_at C map index := 0]> w) in
  bpf_maps w !! map = Some m ->
  0 <= index < max_entries m ->
  slots w !! ptrs_at C map index = Some sk ->
  sk <> 0 ->
  socks w !! sk = Some s ->
  sk_callback_lock s = false ->
  reuseport_lock w = false ->
  reuseport_array_delete_elem errno_of errno_ext C map index st
  = Done 0 (with_globals st w') []
  /\ reuseport_array_lookup_elem C map index (with_globals st w')
     = Done 0 (with_globals st w') [].
Proof.
  intros w w' Hm Hi Hslot Hsk Hs Hl Hrl. split.
  - unfold reuseport_array_delete_elem.
    rewrite (bind_quiet _ _ _ _ _ (read_map_run _ _ _ Hm)).
    destruct (Z.leb_spec (max_entries m) index); [lia|].
    rewrite (bind_quiet _ _ _ _ _ (read_slot_run _ _ _ Hslot)).
    destruct (Z.eqb_spec sk 0); [done|].
    rewrite (bind_quiet _ _ _ _ _ (spin_lock_bh_run _ Hrl)).
    erewrite bind_quiet; [|by apply read_slot_run].
    destruct (Z.eqb_spec sk 0); [done|]. cbn [negb].
    kstep ltac:(apply write_lock_bh_run; [exact Hs|exact Hl]).
    kstep ltac:(apply update_sock_run; apply lookup_insert_eq).
    kstep ltac:(eapply write_slot_run; exact Hslot).
    kstep ltac:(eapply write_unlock_bh_run; [apply lookup_insert_eq|done]).
    kstep ltac:(reflexivity).
    kstep ltac:(by apply spin_unlock_bh_run).
    unfold ret. do 2 f_equal. subst w w'. world_fields; [|done].
    rewrite !insert_insert_eq. f_equal.
    destruct s; simpl in *; by subst.
  - unfold reuseport_array_lookup_elem.
    kstep ltac:(apply read_map_run; exact Hm).
    destruct (Z.leb_spec (max_entries m) index); [lia|].
    apply read_slot_run. apply lookup_insert_eq.
Qed.

(** *** The links between the elements and the sockets *)

Lemma tagged_inj (w : world) (a b : Z) :
  slots_taggable C w ->
  is_Some (slots w !! a) -> is_Some (slots w !! b) ->
  tagged C a = tagged C b -> a = b.
Proof.
  intros Ht Ha Hb Heq.
  destruct (Ht a Ha) as [Hda _]. destruct (Ht b Hb) as [Hdb _].
  rewrite <- Hda, <- Hdb. by rewrite Heq.
Qed.

(** Changes that touch neither an element nor a sk_user_data keep the
    links. *)
Lemma linked_same_data (w w' : world) :
  slots w' = slots w ->
  (forall sk, sk_user_data <$> socks w' !! sk = sk_user_data <$> socks w !! sk) ->
  linked C w -> linked C w'.
Proof.
  intros Hsl Hud [H1 H2]. split.
  - intros a sk Ha Hsk. rewrite Hsl in Ha.
    destruct (H1 a sk Ha Hsk) as (s & Hs & Hu).
    specialize (Hud sk). rewrite Hs in Hud. simpl in Hud.
    destruct (socks w' !! sk) as [s'|]; [|done].
    exists s'. split; [done|]. simpl in Hud. congruence.
  - intros sk s' Hs' Hf. rewrite Hsl.
    specialize (Hud sk). rewrite Hs' in Hud. simpl in Hud.
    destruct (socks w !! sk) as [s|] eqn:Hs; [|done].
    simpl in Hud. assert (Hu : sk_user_data s' = sk_user_data s) by congruence.
    rewrite Hu in *. by apply (H2 sk s).
Qed.

(** Emptying an element and clearing the sk_user_data of its socket
    keeps the links. *)
Lemma linked_clear (w w' : world) (a sk : Z) (s s' : sock) :
  linked C w ->
  slots_taggable C w ->
  slots w !! a = Some sk ->
  sk <> 0 ->
  socks w !! sk = Some s ->
  sk_user_data s' = 0 ->
  slots w' = <[a := 0]> (slots w) ->
  socks w' = <[sk := s']> (socks w) ->
  linked C w'.
Proof.
  intros [H1 H2] Ht Ha Hsk Hs Hu' Hsl Hso. split.
  - intros b p Hb Hp. rewrite Hsl in Hb.
    destruct (decide (b = a)) as [->|Hne].
    { rewrite lookup_insert_eq in Hb. congruence. }
    rewrite lookup_insert_ne in Hb by done.
    destruct (H1 b p Hb Hp) as (sp & Hsp & Hup).
    assert (p <> sk).
    { intros ->. destruct (H1 a sk Ha Hsk) as (s0 & Hs0 & Hu0).
      apply Hne. apply (tagged_inj w); [done|by eexists|by eexists|].
      congruence. }
    exists sp. rewrite Hso, lookup_insert_ne by done. done.
  - intros p sp Hsp Hf. rewrite Hso in Hsp. rewrite Hsl.
    destruct (decide (p = sk)) as [->|Hne].
    { rewrite lookup_insert_eq in Hsp. injection Hsp as <-.
      rewrite Hu', Z.land_0_l in Hf. done. }
    rewrite lookup_insert_ne in Hsp by done.
    specialize (H2 p sp Hsp Hf).
    rewrite lookup_insert_ne; [done|].
    intros Heq. rewrite <- Heq in H2. congruence.
Qed.

(** Putting a socket that is in no element into an element, tagging its
    sk_user_data, and clearing the sk_user_data of the socket that was
    there, keeps the links. *)
Lemma linked_install (w w' : world) (a nsk osk : Z) (sn sn' : sock) :
  linked C w ->
  slots_taggable C w ->
  socks w !! 0 = None ->
  slots w !! a = Some osk ->
  socks w !! nsk = Some sn ->
  sk_user_data sn = 0 ->
  sk_user_data sn' = tagged C a ->
  slots w' = <[a := nsk]> (slots w) ->
  (osk = 0 /\ socks w' = <[nsk := sn']> (socks w)
   \/ osk <> 0
      /\ exists so', sk_user_data so' = 0
           /\ socks w' = <[osk := so']> (<[nsk := sn']> (socks w))) ->
  linked C w'.
Proof.
  intros [H1 H2] Ht Hnull Ha Hsn Hun Hun' Hsl Hso.
  assert (Hflag : Z.land (tagged C a) (SK_USER_DATA_BPF C) <> 0)
    by (apply (Ht a); by eexists).
  assert (Hno : forall b, slots w !! b = Some nsk -> nsk <> 0 -> False).
  { intros b Hb Hn0. destruct (H1 b nsk Hb Hn0) as (s0 & Hs0 & Hu0).
    assert (s0 = sn) by congruence. subst s0.
    rewrite Hun in Hu0.
    destruct (Ht b) as [_ Hfb]; [by eexists|].
    rewrite <- Hu0, Z.land_0_l in Hfb. done. }
  assert (Hne : osk <> 0 -> osk <> nsk).
  { intros H0 ->. by apply (Hno a). }
  assert (Hlook : forall p, p <> nsk -> p <> osk \/ osk = 0 ->
            forall sp, socks w' !! p = Some sp -> socks w !! p = Some sp).
  { intros p Hpn Hpo sp Hsp.
    destruct Hso as [[-> Hso]|[H0 (so' & _ & Hso)]]; rewrite Hso in Hsp.
    - by rewrite lookup_insert_ne in Hsp.
    - destruct Hpo as [Hpo|Hpo]; [|done].
      by rewrite !lookup_insert_ne in Hsp. }
  split.
  - intros b p Hb Hp. rewrite Hsl in Hb.
    destruct (decide (b = a)) as [->|Hba].
    + rewrite lookup_insert_eq in Hb. injection Hb as <-.
      exists sn'. split; [|done].
      destruct Hso as [[-> Hso]|[H0 (so' & _ & Hso)]]; rewrite Hso.
      * apply lookup_insert_eq.
      * rewrite lookup_insert_ne by (by apply Hne).
        apply lookup_insert_eq.
    + rewrite lookup_insert_ne in Hb by done.
      destruct (H1 b p Hb Hp) as (sp & Hsp & Hup).
      assert (Hpn : p <> nsk) by (intros ->; by apply (Hno b)).
      assert (Hpo : p <> osk \/ osk = 0).
      { destruct (decide (osk = 0)) as [|H0]; [by right|left].
        intros ->. destruct (H1 a osk Ha H0) as (s0 & Hs0 & Hu0).
        apply Hba. apply (tagged_inj w); [done|by eexists|by eexists|].
        congruence. }
      exists sp. split; [|done].
      destruct Hso as [[-> Hso]|[H0 (so' & _ & Hso)]]; rewrite Hso.
      * by rewrite lookup_insert_ne.
      * destruct Hpo as [Hpo|Hpo]; [|done].
        by rewrite !lookup_insert_ne.
  - intros p sp Hsp Hf. rewrite Hsl.
    destruct (decide (p = nsk)) as [->|Hpn].
    + assert (sp = sn').
      { destruct Hso as [[-> Hso]|[H0 (so' & _ & Hso)]]; rewrite Hso in Hsp.
        - rewrite lookup_insert_eq in Hsp. congruence.
        - rewrite lookup_insert_ne in Hsp by (by apply Hne).
          rewrite lookup_insert_eq in Hsp. congruence. }
      subst sp. rewrite Hun'.
      destruct (Ht a) as [-> _]; [by eexists|].
      apply lookup_insert_eq.
    + destruct (decide (osk <> 0 /\ p = osk)) as [[H0 ->]|Hpo].
      * destruct Hso as [[-> Hso]|[_ (so' & Hu0 & Hso)]]; [done|].
        rewrite Hso, lookup_insert_eq in Hsp. injection Hsp as <-.
        rewrite Hu0, Z.land_0_l in Hf. done.
      * assert (Hpo' : p <> osk \/ osk = 0).
        { destruct (decide (osk = 0)); [by right|left].
          intros ->. by apply Hpo. }
        specialize (Hlook p Hpn Hpo' sp Hsp).
        specialize (H2 p sp Hlook Hf).
        rewrite lookup_insert_ne; [done|].
        intros Heq. rewrite <- Heq in H2.
        assert (p = osk) by congruence. subst p.
        destruct Hpo' as [?|H0]; [done|]. subst osk. congruence.
Qed.

Lemma neg_ERR_run st (LINE X : Z) :
  0 <= LINE < 4294967296 ->
  current_valid st ->
  exists st',
    (v <- ERR reuseport_array_c LINE (ret X) ;; ret (- v)) st
    = Done (- X) st' [mk_rec_call (Some reuseport_array_c) LINE (to_int X)]
    /\ globals st' = globals st
    /\ current_valid st'.
Proof.
  intros HL Hv.
  destruct (ERR_keeps_world st reuseport_array_c LINE X) as (st' & Hrun & Hg);
    [by apply uint_range_line|done|].
  exists st'. split; [|done].
  unfold bind. by rewrite Hrun.
Qed.

Lemma unlocked_sock (w : world) (sk : Z) (s : sock) :
  unlocked w -> socks w !! sk = Some s -> sk_callback_lock s = false.
Proof. intros [_ H]. apply H. Qed.

(** X9: whatever the index, reuseport_array_delete_elem returns with the
    links between elements and sockets intact and no lock held.  When it
    returns 0 it has recorded nothing and a lookup of the index then
    gives a null pointer; when it fails, with -E2BIG or -ENOENT, it has
    changed no object and recorded the error once. *)
Theorem reuseport_array_delete_elem_keeps_links (map index : Z) (m : bpf_map)
    st :
  let w := globals st in
  array_mapped C w map m ->
  0 <= index ->
  linked C w ->
  slots_taggable C w ->
  unlocked w ->
  current_valid st ->
  exists r st' calls,
    reuseport_array_delete_elem errno_of errno_ext C map index st
    = Done r st' calls
    /\ linked C (globals st')
    /\ unlocked (globals st')
    /\ (r = 0 /\ calls = []
        /\ reuseport_array_lookup_elem C map index st' = Done 0 st' []
        \/ globals st' = w /\ length calls = 1%nat
           /\ (r = - errno_ext E2BIG \/ r = - errno_of ENOENT)).
Proof.
  intros w [Hm Hmap] Hi Hlink Htag Hun Hv.
  unfold reuseport_array_delete_elem.
  kstep ltac:(apply read_map_run; exact Hm).
  destruct (Z.leb_spec (max_entries m) index).
  { destruct (neg_ERR_run st 72 (errno_ext E2BIG)) as (st' & -> & Hg & _);
      [lia|done|].
    eexists _, st', _. split; [done|]. rewrite Hg.
    split; [done|]. split; [done|]. right. split; [done|]. split; [done|].
    by left. }
  destruct (Hmap index) as [sk Hslot]; [lia|].
  kstep ltac:(apply read_slot_run; exact Hslot).
  destruct (Z.eqb_spec sk 0) as [->|Hsk].
  { destruct (neg_ERR_run st 75 (errno_of ENOENT)) as (st' & -> & Hg & _);
      [lia|done|].
    eexists _, st', _. split; [done|]. rewrite Hg.
    split; [done|]. split; [done|]. right. split; [done|]. split; [done|].
    by right. }
  destruct Hlink as [H1 H2].
  destruct (H1 _ _ Hslot Hsk) as (s & Hs & Hu).
  assert (Hl : sk_callback_lock s = false) by (by apply (unlocked_sock w sk)).
  destruct (reuseport_array_delete_elem_clears_run map index sk m s st
              Hm (conj Hi H) Hslot Hsk Hs Hl (proj1 Hun)) as [Hrun Hlook].
  unfold reuseport_array_delete_elem in Hrun.
  rewrite (bind_quiet _ _ _ _ _ (read_map_run _ _ _ Hm)) in Hrun.
  destruct (Z.leb_spec (max_entries m) index) in Hrun; [lia|].
  rewrite (bind_quiet _ _ _ _ _ (read_slot_run _ _ _ Hslot)) in Hrun.
  destruct (Z.eqb_spec sk 0) in Hrun; [done|].
  rewrite Hrun.
  eexists _, _, _. split; [done|]. rewrite globals_with_globals.
  split; [|split; [|by left]].
  - eapply (linked_clear w _ (ptrs_at C map index) sk s); try done.
    by split.
  - destruct Hun as [Hrl Hso]. split; [done|].
    intros p sp. cbn [socks with_socks with_slots].
    destruct (decide (p = sk)) as [->|Hne].
    + rewrite lookup_insert_eq. intros [= <-]. apply Hl.
    + rewrite lookup_insert_ne by done. apply Hso.
Qed.

(** *** bpf_fd_reuseport_array_update_elem *)

Lemma update_check_pass (nsk osk map_flags : Z) (s : sock) st :
  socks (globals st) !! nsk = Some s ->
  flags_agree C osk map_flags ->
  acceptable C s ->
  reuseport_array_update_check errno_of C nsk osk (sk_reuseport_cb s)
    map_flags st
  = Done 0 st [].
Proof.
  intros Hs [Hf1 Hf2] (Hp & Hfa & Hty & Hrcu & Hh & Hcb & Hud).
  unfold reuseport_array_update_check.
  destruct (Z.eqb_spec osk 0) as [H0|H0]; cbn [negb andb].
  - destruct (Z.eqb_spec map_flags (BPF_EXIST C)) as [He|He];
      [by destruct (Hf2 H0)|].
    kstep ltac:(apply read_sock_run; exact Hs).
    rewrite Hrcu, Hh, Hud. cbn [negb orb].
    destruct (Z.eqb_spec (sk_reuseport_cb s) 0); [done|].
    destruct Hp as [-> | ->], Hfa as [-> | ->], Hty as [-> | ->];
      rewrite ?Z.eqb_refl, ?andb_false_r; cbn [negb andb]; done.
  - destruct (Z.eqb_spec map_flags (BPF_NOEXIST C)) as [He|He];
      [by destruct (Hf1 H0)|].
    kstep ltac:(apply read_sock_run; exact Hs).
    rewrite Hrcu, Hh, Hud. cbn [negb orb].
    destruct (Z.eqb_spec (sk_reuseport_cb s) 0); [done|].
    destruct Hp as [-> | ->], Hfa as [-> | ->], Hty as [-> | ->];
      rewrite ?Z.eqb_refl, ?andb_false_r; cbn [negb andb]; done.
Qed.

Lemma update_check_outcome (nsk osk reuse map_flags : Z) (s : sock) st :
  (forall e, errno_of e <> 0) ->
  socks (globals st) !! nsk = Some s ->
  current_valid st ->
  reuseport_array_update_check errno_of C nsk osk reuse map_flags st
  = Done 0 st [] /\ sk_user_data s = 0
  \/ exists r st' c,
       reuseport_array_update_check errno_of C nsk osk reuse map_flags st
       = Done r st' [c]
       /\ r <> 0 /\ globals st' = globals st.
Proof.
  intros Hne Hs Hv.
  unfold reuseport_array_update_check.
  destruct (negb (osk =? 0) && (map_flags =? BPF_NOEXIST C)).
  { right. destruct (neg_ERR_run st 214 (errno_of EEXIST))
      as (st' & -> & Hg & _); [lia|done|].
    eexists _, _, _. split; [done|]. split; [|done].
    specialize (Hne EEXIST). lia. }
  destruct ((osk =? 0) && (map_flags =? BPF_EXIST C)).
  { right. destruct (neg_ERR_run st 217 (errno_of ENOENT))
      as (st' & -> & Hg & _); [lia|done|].
    eexists _, _, _. split; [done|]. split; [|done].
    specialize (Hne ENOENT). lia. }
  kstep ltac:(apply read_sock_run; exact Hs).
  destruct (negb (sk_protocol s =? IPPROTO_UDP C)
            && negb (sk_protocol s =? IPPROTO_TCP C)).
  { right. destruct (neg_ERR_run st 220 (errno_of ENOTSUPP))
      as (st' & -> & Hg & _); [lia|done|].
    eexists _, _, _. split; [done|]. split; [|done].
    specialize (Hne ENOTSUPP). lia. }
  destruct (negb (sk_family s =? AF_INET C)
            && negb (sk_family s =? AF_INET6 C)).
  { right. destruct (neg_ERR_run st 223 (errno_of ENOTSUPP))
      as (st' & -> & Hg & _); [lia|done|].
    eexists _, _, _. split; [done|]. split; [|done].
    specialize (Hne ENOTSUPP). lia. }
  destruct (negb (sk_type s =? SOCK_STREAM C)
            && negb (sk_type s =? SOCK_DGRAM C)).
  { right. destruct (neg_ERR_run st 226 (errno_of ENOTSUPP))
      as (st' & -> & Hg & _); [lia|done|].
    eexists _, _, _. split; [done|]. split; [|done].
    specialize (Hne ENOTSUPP). lia. }
  destruct (negb (sk_rcu_free s) || negb (sk_is_hashed s) || (reuse =? 0)).
  { right. destruct (neg_ERR_run st 237 (errno_of EINVAL))
      as (st' & -> & Hg & _); [lia|done|].
    eexists _, _, _. split; [done|]. split; [|done].
    specialize (Hne EINVAL). lia. }
  destruct (Z.eqb_spec (sk_user_data s) 0) as [Hud|Hud]; cbn [negb].
  { by left. }
  right. destruct (neg_ERR_run st 241 (errno_of EBUSY))
    as (st' & -> & Hg & _); [lia|done|].
  eexists _, _, _. split; [done|]. split; [|done].
  specialize (Hne EBUSY). lia.
Qed.

Lemma fput_run (file n : Z) st :
  f_count (globals st) !! file = Some n ->
  fput file st
  = Done tt (with_globals st (with_f_count <[file := n - 1]> (globals st))) [].
Proof. intros H. unfold fput, bind, get_world. simpl. by rewrite H. Qed.

Lemma set_lock_twice (s : sock) :
  sk_callback_lock s = false ->
  set_sk_callback_lock false (set_sk_callback_lock true s) = s.
Proof. intros <-. by destruct s. Qed.

Lemma install_tail (map index nsk osk file n : Z) (sn : sock) st :
  let w := globals st in
  let a := ptrs_at C map index in
  let w2 := with_socks <[nsk := set_sk_callback_lock true sn]>
              (with_reuseport_lock true
                 (with_f_count <[file := n + 1]> w)) in
  slots w !! a = Some osk ->
  socks w !! nsk = Some sn ->
  sk_callback_lock sn = false ->
  reuseport_lock w = false ->
  f_count w !! file = Some n ->
  socks w !! 0 = None ->
  (osk = 0
   \/ osk <> nsk /\ exists so, socks w !! osk = Some so
                      /\ sk_callback_lock so = false) ->
  (update_sock nsk
     (set_sk_user_data
        (Z.lor (Z.lor a (SK_USER_DATA_NOCOPY C)) (SK_USER_DATA_BPF C))) >>
   write_slot a nsk >>
   put_file_unlock nsk osk file 0) (with_globals st w2)
  = Done 0 (with_globals st (installed C w a nsk osk sn)) [].
Proof.
  intros w a w2 Hslot Hsn Hl Hrl Hfc Hnull Hosk.
  kstep ltac:(apply update_sock_run; apply lookup_insert_eq).
  kstep ltac:(eapply write_slot_run; exact Hslot).
  unfold put_file_unlock.
  kstep ltac:(eapply write_unlock_bh_run; [apply lookup_insert_eq|done]).
  destruct Hosk as [->|(Hne & so & Hso & Hlo)].
  - change (negb (0 =? 0)) with false. cbn iota.
    kstep ltac:(reflexivity).
    kstep ltac:(by apply spin_unlock_bh_run).
    kstep ltac:(eapply fput_run; apply lookup_insert_eq).
    unfold ret. do 2 f_equal. unfold w2. world_fields; [| |done].
    + unfold clear_user_data.
      rewrite !insert_insert_eq, lookup_insert_ne, Hnull
        by (intros ->; congruence).
      f_equal. destruct sn; simpl in *; by subst.
    + rewrite insert_insert_eq. replace (n + 1 - 1) with n by lia.
      apply (insert_id _ _ _ Hfc).
  - destruct (Z.eqb_spec osk 0) as [->|H0]; [congruence|]. cbn [negb].
    kstep ltac:(eapply write_lock_bh_run;
                [simpl; rewrite !lookup_insert_ne by done; exact Hso|done]).
    kstep ltac:(eapply update_sock_run; apply lookup_insert_eq).
    kstep ltac:(eapply write_unlock_bh_run; [apply lookup_insert_eq|done]).
    kstep ltac:(by apply spin_unlock_bh_run).
    kstep ltac:(eapply fput_run; apply lookup_insert_eq).
    unfold ret. do 2 f_equal. unfold w2. world_fields; [| |done].
    + unfold clear_user_data.
      rewrite !insert_insert_eq.
      rewrite (insert_insert_ne _ osk nsk) by done.
      rewrite lookup_insert_ne, Hso by done.
      rewrite (insert_insert_ne _ nsk osk) by congruence.
      f_equal; [destruct so; simpl in *; by subst|].
      f_equal. destruct sn; simpl in *; by subst.
    + rewrite insert_insert_eq. replace (n + 1 - 1) with n by lia.
      apply (insert_id _ _ _ Hfc).
Qed.

Lemma bind_run {A B : Type} (m : K Other world A)
    (k : A -> K Other world B) st (a : A) st' (c : list rec_call) :
  m st = Done a st' c ->
  bind m k st
  = match k a st' with
    | Fault => Fault
    | Done b st2 c2 => Done b st2 (c ++ c2)
    end.
Proof. intros H. unfold bind. by rewrite H. Qed.

Lemma sockfd_lookup_run (fd sock n : Z) (so : socket) st :
  fdtable (globals st) !! fd = Some sock ->
  sockets (globals st) !! sock = Some so ->
  f_count (globals st) !! socket_file so = Some n ->
  sockfd_lookup C fd st
  = Done (sock, None)
      (with_globals st
         (with_f_count <[socket_file so := n + 1]> (globals st))) [].
Proof.
  intros Hfd Hso Hn. unfold sockfd_lookup, bind, get_world, set_world, ret.
  simpl. by rewrite Hfd, Hso, Hn.
Qed.

Lemma sockfd_lookup_none (fd : Z) st :
  fdtable (globals st) !! fd = None ->
  sockfd_lookup C fd st = Done (0, Some (sockfd_lookup_err C fd)) st [].
Proof.
  intros Hfd. unfold sockfd_lookup, bind, get_world, ret.
  simpl. by rewrite Hfd.
Qed.

Lemma read_socket_run (sock : Z) (so : socket) st :
  sockets (globals st) !! sock = Some so -> read_socket sock st = Done so st [].
Proof. intros H. unfold read_socket, bind, get_world. simpl. by rewrite H. Qed.

(** Dropping the reference that sockfd_lookup took gives the objects
    back as they were. *)
Lemma f_count_restored (w : world) (file n : Z) :
  f_count w !! file = Some n ->
  with_f_count <[file := n + 1 - 1]> (with_f_count <[file := n + 1]> w) = w.
Proof.
  intros H. world_fields.
  rewrite insert_insert_eq. replace (n + 1 - 1) with n by lia.
  apply (insert_id _ _ _ H).
Qed.

Lemma restore_tail (nsk file n err : Z) (sn : sock) (w : world) st :
  let w2 := with_socks <[nsk := set_sk_callback_lock true sn]>
              (with_reuseport_lock true
                 (with_f_count <[file := n + 1]> w)) in
  globals st = w2 ->
  socks w !! nsk = Some sn ->
  sk_callback_lock sn = false ->
  reuseport_lock w = false ->
  f_count w !! file = Some n ->
  put_file_unlock nsk 0 file err st = Done err (with_globals st w) [].
Proof.
  intros w2 Hg Hsn Hl Hrl Hfc. unfold put_file_unlock.
  kstep ltac:(eapply write_unlock_bh_run;
              [rewrite Hg; apply lookup_insert_eq|done]).
  change (negb (0 =? 0)) with false. cbn iota.
  kstep ltac:(reflexivity).
  kstep ltac:(apply spin_unlock_bh_run; by rewrite Hg).
  kstep ltac:(eapply fput_run; rewrite Hg; apply lookup_insert_eq).
  unfold ret. do 2 f_equal. rewrite Hg. unfold w2.
  world_fields; [| |done].
  - rewrite insert_insert_eq, (set_lock_twice sn Hl).
    apply (insert_id _ _ _ Hsn).
  - rewrite insert_insert_eq. replace (n + 1 - 1) with n by lia.
    apply (insert_id _ _ _ Hfc).
Qed.

(** Every way bpf_fd_reuseport_array_update_elem can end: with the
    objects as they were, or with the socket of the descriptor put into
    the element. *)
Lemma update_elem_outcome (map index value_u64 value_int map_flags : Z)
    (m : bpf_map) st :
  let w := globals st in
  let a := ptrs_at C map index in
  let fd := if value_size m =? 8 then to_int value_u64 else value_int in
  (forall e, errno_of e <> 0) ->
  array_mapped C w map m ->
  0 <= index ->
  files_ok w ->
  linked C w ->
  slots_taggable C w ->
  unlocked w ->
  current_valid st ->
  exists r st' calls,
    bpf_fd_reuseport_array_update_elem errno_of errno_ext C map index
      value_u64 value_int map_flags st
    = Done r st' calls
    /\ (globals st' = w
        \/ r = 0 /\ calls = []
           /\ exists sock so sn osk,
                fdtable w !! fd = Some sock
                /\ sockets w !! sock = Some so
                /\ socket_sk so <> 0
                /\ socks w !! socket_sk so = Some sn
                /\ sk_user_data sn = 0
                /\ slots w !! a = Some osk
                /\ st' = with_globals st
                           (installed C w a (socket_sk so) osk sn)).
Proof.
  intros w a fd Hne [Hm Hmap] Hi [Hnull Hfiles] Hlink Htag Hun Hv.
  unfold bpf_fd_reuseport_array_update_elem.
  destruct (BPF_EXIST C <? map_flags).
  { destruct (neg_ERR_run st 263 (errno_of EINVAL)) as (st' & -> & Hg & _);
      [lia|done|].
    eexists _, _, _. split; [done|]. by left. }
  kstep ltac:(apply read_map_run; exact Hm).
  destruct (Z.leb_spec (max_entries m) index).
  { destruct (neg_ERR_run st 266 (errno_ext E2BIG)) as (st' & -> & Hg & _);
      [lia|done|].
    eexists _, _, _. split; [done|]. by left. }
  destruct ((value_size m =? 8) && (2 ^ 31 - 1 <? value_u64)).
  { destruct (neg_ERR_run st 272 (errno_of EINVAL)) as (st' & -> & Hg & _);
      [lia|done|].
    eexists _, _, _. split; [done|]. by left. }
  fold fd.
  destruct (fdtable w !! fd) as [sock|] eqn:Hfd.
  2:{ kstep ltac:(apply sockfd_lookup_none; exact Hfd).
      change (0 =? 0) with true. cbn iota.
      eexists _, _, _. split; [done|]. by left. }
  destruct (Hfiles fd sock Hfd) as (Hsock0 & so & n & Hso & Hfc & Hsk).
  kstep ltac:(eapply sockfd_lookup_run; [exact Hfd|exact Hso|exact Hfc]).
  destruct (Z.eqb_spec sock 0) as [|_]; [done|].
  kstep ltac:(apply read_socket_run; exact Hso).
  set (w1 := with_f_count <[socket_file so := n + 1]> w).
  assert (Hv1 : current_valid (with_globals st w1)) by exact Hv.
  destruct (Z.eqb_spec (socket_sk so) 0) as [Hn0|Hn0].
  { destruct (ERR_keeps_world (with_globals st w1) reuseport_array_c 284
                (errno_of EINVAL)) as (st' & Hrun & Hg & _);
      [by apply uint_range_line|done|].
    rewrite (bind_run _ _ _ _ _ _ Hrun).
    kstep ltac:(eapply fput_run; rewrite Hg; apply lookup_insert_eq).
    unfold ret. eexists _, _, _. split; [done|]. left.
    rewrite globals_with_globals, Hg. by apply f_count_restored. }
  destruct Hsk as [|[sn Hsn]]; [done|].
  destruct (Hmap index) as [osk Hslot]; [lia|]. fold a in Hslot.
  kstep ltac:(apply read_slot_run; exact Hslot).
  kstep ltac:(apply read_sock_run; exact Hsn).
  assert (Hl : sk_callback_lock sn = false)
    by (by apply (unlocked_sock w (socket_sk so))).
  destruct (update_check_outcome (socket_sk so) osk (sk_reuseport_cb sn)
              map_flags sn (with_globals st w1) Hne Hsn Hv1)
    as [[Hrun Hud]|(r & st' & c & Hrun & Hr & Hg)].
  2:{ rewrite (bind_run _ _ _ _ _ _ Hrun).
      destruct (Z.eqb_spec r 0) as [|_]; [done|]. cbn [negb].
      kstep ltac:(eapply fput_run; rewrite Hg; apply lookup_insert_eq).
      unfold ret. eexists _, _, _. split; [done|]. left.
      rewrite globals_with_globals, Hg. by apply f_count_restored. }
  kstep ltac:(exact Hrun).
  change (negb (0 =? 0)) with false. cbn iota.
  kstep ltac:(apply spin_lock_bh_run; apply Hun).
  kstep ltac:(eapply write_lock_bh_run; [exact Hsn|exact Hl]).
  kstep ltac:(apply read_slot_run; exact Hslot).
  kstep ltac:(apply read_sock_run; apply lookup_insert_eq).
  set (w2 := with_socks <[socket_sk so := set_sk_callback_lock true sn]>
               (with_reuseport_lock true w1)).
  assert (Hv2 : current_valid (with_globals st w2)) by exact Hv.
  destruct (update_check_outcome (socket_sk so) osk
              (sk_reuseport_cb (set_sk_callback_lock true sn))
              map_flags (set_sk_callback_lock true sn)
              (with_globals st w2) Hne (lookup_insert_eq _ _ _) Hv2)
    as [[Hrun2 _]|(r & st' & c & Hrun2 & Hr & Hg)].
  2:{ rewrite (bind_run _ _ _ _ _ _ Hrun2).
      destruct (Z.eqb_spec r 0) as [|_]; [done|]. cbn [negb].
      rewrite (restore_tail (socket_sk so) (socket_file so) n r sn w st')
        by (done || apply Hun).
      eexists _, _, _. split; [done|]. by left. }
  kstep ltac:(exact Hrun2).
  change (negb (0 =? 0)) with false. cbn iota.
  assert (Hosk : osk = 0
            \/ osk <> socket_sk so
               /\ exists so0, socks w !! osk = Some so0
                    /\ sk_callback_lock so0 = false).
  { destruct (decide (osk = 0)) as [|H0]; [by left|right].
    destruct Hlink as [H1 _].
    destruct (H1 a osk Hslot H0) as (so0 & Hso0 & Hu0).
    split.
    - intros ->. assert (so0 = sn) by congruence. subst so0.
      destruct (Htag a) as [_ Hflag]; [by eexists|].
      rewrite <- Hu0, Hud, Z.land_0_l in Hflag. done.
    - exists so0. split; [done|]. by apply (unlocked_sock w osk). }
  pose proof (install_tail map index (socket_sk so) osk (socket_file so) n
                sn st Hslot Hsn Hl (proj1 Hun) Hfc Hnull Hosk) as Htail.
  cbv zeta in Htail. subst w1 w2. unfold a, w in *. rewrite Htail.
  eexists _, _, _. split; [done|]. right.
  split; [done|]. split; [done|].
  by exists sock, so, sn, osk.
Qed.

Lemma old_socket_apart (w : world) (a nsk osk : Z) (sn : sock) :
  linked C w ->
  slots_taggable C w ->
  unlocked w ->
  slots w !! a = Some osk ->
  socks w !! nsk = Some sn ->
  sk_user_data sn = 0 ->
  osk = 0
  \/ osk <> nsk
     /\ exists so0, socks w !! osk = Some so0 /\ sk_callback_lock so0 = false.
Proof.
  intros [H1 _] Htag Hun Hslot Hsn Hud.
  destruct (decide (osk = 0)) as [|H0]; [by left|right].
  destruct (H1 a osk Hslot H0) as (so0 & Hso0 & Hu0).
  split.
  - intros ->. assert (so0 = sn) by congruence. subst so0.
    destruct (Htag a) as [_ Hflag]; [by eexists|].
    rewrite <- Hu0, Hud, Z.land_0_l in Hflag. done.
  - exists so0. split; [done|]. by apply (unlocked_sock w osk).
Qed.

Lemma installed_linked (w : world) (a nsk osk : Z) (sn : sock) :
  linked C w ->
  slots_taggable C w ->
  unlocked w ->
  socks w !! 0 = None ->
  nsk <> 0 ->
  slots w !! a = Some osk ->
  socks w !! nsk = Some sn ->
  sk_user_data sn = 0 ->
  linked C (installed C w a nsk osk sn)
  /\ unlocked (installed C w a nsk osk sn).
Proof.
  intros Hlink Htag Hun Hnull Hn0 Hslot Hsn Hud.
  destruct (old_socket_apart w a nsk osk sn Hlink Htag Hun Hslot Hsn Hud)
    as [->|(Hne & so0 & Hso0 & Hl0)].
  - assert (Hsocks : socks (installed C w a nsk 0 sn)
                     = <[nsk := set_sk_user_data (tagged C a) sn]> (socks w)).
    { cbn [installed socks with_socks with_slots]. unfold clear_user_data.
      by rewrite lookup_insert_ne, Hnull by done. }
    split.
    + apply (linked_install w _ a nsk 0 sn
               (set_sk_user_data (tagged C a) sn)); try done.
      by left.
    + destruct Hun as [Hrl Hlk]. split; [done|].
      intros p sp. rewrite Hsocks.
      destruct (decide (p = nsk)) as [->|Hp].
      * rewrite lookup_insert_eq. intros [= <-]. exact (Hlk nsk sn Hsn).
      * rewrite lookup_insert_ne by done. apply Hlk.
  - assert (Hsocks : socks (installed C w a nsk osk sn)
                     = <[osk := set_sk_user_data 0 so0]>
                         (<[nsk := set_sk_user_data (tagged C a) sn]>
                            (socks w))).
    { cbn [installed socks with_socks with_slots]. unfold clear_user_data.
      by rewrite lookup_insert_ne, Hso0 by done. }
    split.
    + apply (linked_install w _ a nsk osk sn
               (set_sk_user_data (tagged C a) sn)); try done.
      right. split; [intros ->; by rewrite Hnull in Hso0|].
      by exists (set_sk_user_data 0 so0).
    + destruct Hun as [Hrl Hlk]. split; [done|].
      intros p sp. rewrite Hsocks.
      destruct (decide (p = osk)) as [->|Hpo].
      { rewrite lookup_insert_eq. intros [= <-]. exact (Hlk osk so0 Hso0). }
      rewrite lookup_insert_ne by done.
      destruct (decide (p = nsk)) as [->|Hp].
      * rewrite lookup_insert_eq. intros [= <-]. exact (Hlk nsk sn Hsn).
      * rewrite lookup_insert_ne by done. apply Hlk.
Qed.

(** X10: however bpf_fd_reuseport_array_update_elem ends, it returns with
    the links between elements and sockets intact, no lock held and the
    reference on the file of the descriptor dropped again. *)
Theorem bpf_fd_reuseport_array_update_elem_keeps_links
    (map index value_u64 value_int map_flags : Z) (m : bpf_map) st :
  let w := globals st in
  (forall e, errno_of e <> 0) ->
  array_mapped C w map m ->
  0 <= index ->
  files_ok w ->
  linked C w ->
  slots_taggable C w ->
  unlocked w ->
  current_valid st ->
  exists r st' calls,
    bpf_fd_reuseport_array_update_elem errno_of errno_ext C map index
      value_u64 value_int map_flags st
    = Done r st' calls
    /\ linked C (globals st')
    /\ unlocked (globals st')
    /\ f_count (globals st') = f_count w.
Proof.
  intros w Hne Hmap Hi Hfiles Hlink Htag Hun Hv.
  destruct (update_elem_outcome map index value_u64 value_int map_flags m st
              Hne Hmap Hi Hfiles Hlink Htag Hun Hv)
    as (r & st' & calls & Hrun & [Hg|(_ & _ & Hinst)]).
  - exists r, st', calls. rewrite Hg.
    split; [done|]. split; [done|]. split; done.
  - destruct Hinst as (sock & so & sn & osk & _ & _ & Hn0 & Hsn & Hud & Hslot
                       & ->).
    eexists r, _, calls. split; [exact Hrun|]. rewrite globals_with_globals.
    destruct (installed_linked w _ (socket_sk so) osk sn Hlink Htag Hun
                (proj1 Hfiles) Hn0 Hslot Hsn Hud) as [? ?].
    split; [done|]. split; done.
Qed.

(** X11: given a descriptor of a socket that reuseport_array_update_check
    accepts, and flags that agree with the state of the element,
    bpf_fd_reuseport_array_update_elem returns 0 and records nothing;
    afterwards a lookup of the index gives that socket, whose
    sk_user_data is the tagged address of the element, and the socket
    that was in the element has no sk_user_data any more. *)
Theorem bpf_fd_reuseport_array_update_elem_installs
    (map index value_u64 value_int map_flags fd skt nsk osk : Z)
    (m : bpf_map) (so : socket) (sn : sock) st :
  let w := globals st in
  let a := ptrs_at C map index in
  array_mapped C w map m ->
  files_ok w -> linked C w -> slots_taggable C w -> unlocked w ->
  0 <= index < max_entries m ->
  map_flags <= BPF_EXIST C ->
  fd = (if value_size m =? 8 then to_int value_u64 else value_int) ->
  (value_size m = 8 -> value_u64 <= 2 ^ 31 - 1) ->
  fdtable w !! fd = Some skt ->
  sockets w !! skt = Some so ->
  socket_sk so = nsk ->
  nsk <> 0 ->
  socks w !! nsk = Some sn ->
  acceptable C sn ->
  slots w !! a = Some osk ->
  flags_agree C osk map_flags ->
  exists st',
    bpf_fd_reuseport_array_update_elem errno_of errno_ext C map index
      value_u64 value_int map_flags st
    = Done 0 st' []
    /\ reuseport_array_lookup_elem C map index st' = Done nsk st' []
    /\ sk_user_data <$> socks (globals st') !! nsk = Some (tagged C a)
    /\ (osk <> 0 -> sk_user_data <$> socks (globals st') !! osk = Some 0).
Proof.
  intros w a [Hm Hmap] Hfiles Hlink Htag Hun Hi Hflags Hfd Hval Hfdt Hso
    Hnsk Hn0 Hsn Hacc Hslot Hagree.
  destruct Hfiles as [Hnull Hfiles].
  destruct (Hfiles fd skt Hfdt) as (Hsock0 & so' & n & Hso' & Hfc & _).
  assert (so' = so) by congruence. subst so'.
  assert (Hl : sk_callback_lock sn = false)
    by (by apply (unlocked_sock w nsk)).
  assert (Hud : sk_user_data sn = 0) by apply Hacc.
  exists (with_globals st (installed C w a nsk osk sn)).
  split; [|split; [|split]].
  - unfold bpf_fd_reuseport_array_update_elem.
    destruct (Z.ltb_spec (BPF_EXIST C) map_flags); [lia|].
    kstep ltac:(apply read_map_run; exact Hm).
    destruct (Z.leb_spec (max_entries m) index); [lia|].
    assert (Hv8 : (value_size m =? 8) && (2 ^ 31 - 1 <? value_u64) = false).
    { destruct (Z.eqb_spec (value_size m) 8) as [H8|]; [|done].
      specialize (Hval H8). simpl.
      destruct (Z.ltb_spec (2 ^ 31 - 1) value_u64); [lia|done]. }
    rewrite Hv8. rewrite <- Hfd.
    kstep ltac:(eapply sockfd_lookup_run; [exact Hfdt|exact Hso|exact Hfc]).
    destruct (Z.eqb_spec skt 0) as [|_]; [done|].
    kstep ltac:(apply read_socket_run; exact Hso).
    rewrite Hnsk.
    destruct (Z.eqb_spec nsk 0) as [|_]; [done|].
    kstep ltac:(apply read_slot_run; exact Hslot).
    kstep ltac:(apply read_sock_run; exact Hsn).
    kstep ltac:(apply update_check_pass; [exact Hsn|exact Hagree|exact Hacc]).
    change (negb (0 =? 0)) with false. cbn iota.
    kstep ltac:(apply spin_lock_bh_run; apply Hun).
    kstep ltac:(eapply write_lock_bh_run; [exact Hsn|exact Hl]).
    kstep ltac:(apply read_slot_run; exact Hslot).
    kstep ltac:(apply read_sock_run; apply lookup_insert_eq).
    kstep ltac:(apply (update_check_pass nsk osk map_flags
                         (set_sk_callback_lock true sn));
                [apply lookup_insert_eq|exact Hagree|exact Hacc]).
    change (negb (0 =? 0)) with false. cbn iota.
    apply (install_tail map index nsk osk (socket_file so) n sn st);
      try done; [apply Hun|].
    by apply (old_socket_apart w a nsk osk sn).
  - unfold reuseport_array_lookup_elem.
    kstep ltac:(apply read_map_run; exact Hm).
    destruct (Z.leb_spec (max_entries m) index); [lia|].
    apply read_slot_run. apply lookup_insert_eq.
  - rewrite globals_with_globals.
    cbn [installed socks with_socks with_slots]. unfold clear_user_data.
    destruct (old_socket_apart w a nsk osk sn Hlink Htag Hun Hslot Hsn Hud)
      as [->|(Hne & so0 & Hso0 & Hl0)].
    + rewrite (lookup_insert_ne _ nsk 0), Hnull by done.
      by rewrite lookup_insert_eq.
    + rewrite (lookup_insert_ne _ nsk osk), Hso0 by done.
      rewrite lookup_insert_ne by done. by rewrite lookup_insert_eq.
  - intros H0. rewrite globals_with_globals.
    cbn [installed socks with_socks with_slots]. unfold clear_user_data.
    destruct (old_socket_apart w a nsk osk sn Hlink Htag Hun Hslot Hsn Hud)
      as [->|(Hne & so0 & Hso0 & Hl0)]; [done|].
    rewrite (lookup_insert_ne _ nsk osk), Hso0 by done.
    by rewrite lookup_insert_eq.
Qed.

(** *** bpf_sk_reuseport_detach *)

(** X12: bpf_sk_reuseport_detach leaves the socket in no element of any
    array, whether or not the caller holds the reuseport_lock, which it
    does not touch: if the sk_user_data of the socket carries the BPF
    flag, the element it designates is emptied and the sk_user_data
    cleared, and nothing else changes; otherwise nothing changes at
    all.  The links stay intact and every sk_callback_lock is as
    before. *)
Theorem bpf_sk_reuseport_detach_unlinks (sk : Z) (s : sock) st :
  let w := globals st in
  socks w !! sk = Some s ->
  sk <> 0 ->
  linked C w ->
  slots_taggable C w ->
  sk_callback_lock s = false ->
  exists st',
    bpf_sk_reuseport_detach C sk st = Done tt st' []
    /\ globals st'
       = (if Z.land (sk_user_data s) (SK_USER_DATA_BPF C) =? 0 then w
          else with_socks <[sk := set_sk_user_data 0 s]>
                 (with_slots
                    <[Z.land (sk_user_data s) (SK_USER_DATA_PTRMASK C) := 0]>
                    w))
    /\ linked C (globals st')
    /\ reuseport_lock (globals st') = reuseport_lock w
    /\ (forall p, sk_callback_lock <$> socks (globals st') !! p
                  = sk_callback_lock <$> socks w !! p)
    /\ (forall a, slots (globals st') !! a <> Some sk).
Proof.
  intros w Hs Hsk Hlink Htag Hl. subst w. set (w := globals st) in *.
  unfold bpf_sk_reuseport_detach.
  kstep ltac:(eapply write_lock_bh_run; [exact Hs|exact Hl]).
  kstep ltac:(apply read_sock_run; apply lookup_insert_eq).
  change (sk_user_data (set_sk_callback_lock true s)) with (sk_user_data s).
  destruct (Z.eqb_spec (Z.land (sk_user_data s) (SK_USER_DATA_BPF C)) 0)
    as [Hflag|Hflag]; cbn [negb].
  - kstep ltac:(reflexivity).
    assert (Hrun : write_unlock_bh sk
                     (with_globals st
                        (with_socks <[sk := set_sk_callback_lock true s]> w))
                   = Done tt (with_globals st w) []).
    { erewrite write_unlock_bh_run; [|apply lookup_insert_eq|done].
      rewrite globals_with_globals, with_globals_twice. do 2 f_equal.
      world_fields.
      rewrite insert_insert_eq, (set_lock_twice s Hl).
      apply (insert_id _ _ _ Hs). }
    fold w. rewrite Hrun. eexists. split; [done|]. rewrite globals_with_globals.
    split; [done|]. split; [done|]. split; [done|]. split; [done|].
    intros a Ha. destruct Hlink as [H1 _].
    destruct (H1 a sk Ha Hsk) as (s0 & Hs0 & Hu0).
    assert (s0 = s) by congruence. subst s0.
    destruct (Htag a) as [_ Hf]; [by eexists|]. by rewrite <- Hu0 in Hf.
  - set (a := Z.land (sk_user_data s) (SK_USER_DATA_PTRMASK C)).
    assert (Ha : slots w !! a = Some sk) by (by apply (proj2 Hlink sk s)).
    kstep ltac:(eapply update_sock_run; apply lookup_insert_eq).
    kstep ltac:(eapply write_slot_run; exact Ha).
    set (w' := with_socks <[sk := set_sk_user_data 0 s]>
                 (with_slots <[a := 0]> w)).
    assert (Hrun : write_unlock_bh sk
                     (with_globals st
                        (with_slots <[a := 0]>
                           (with_socks
                              <[sk := set_sk_user_data 0
                                        (set_sk_callback_lock true s)]>
                              (with_socks
                                 <[sk := set_sk_callback_lock true s]> w))))
                   = Done tt (with_globals st w') []).
    { erewrite write_unlock_bh_run; [|apply lookup_insert_eq|done].
      rewrite globals_with_globals, with_globals_twice. do 2 f_equal.
      unfold w'. world_fields.
      rewrite !insert_insert_eq. f_equal. destruct s; simpl in *; by subst. }
    fold w. rewrite Hrun. eexists. split; [done|]. rewrite globals_with_globals.
    split; [done|]. split; [|split; [|split]].
    + by apply (linked_clear w w' a sk s (set_sk_user_data 0 s)).
    + done.
    + intros p. unfold w'. cbn [socks with_socks with_slots].
      destruct (decide (p = sk)) as [->|Hp].
      * by rewrite lookup_insert_eq, Hs.
      * by rewrite lookup_insert_ne.
    + intros b. unfold w'. cbn [slots with_socks with_slots].
      destruct (decide (b = a)) as [->|Hb].
      * rewrite lookup_insert_eq. congruence.
      * rewrite lookup_insert_ne by done. intros Hb'.
        destruct Hlink as [H1 _].
        destruct (H1 b sk Hb' Hsk) as (s0 & Hs0 & Hu0).
        assert (s0 = s) by congruence. subst s0.
        destruct (Htag b) as [Hd _]; [by eexists|].
        apply Hb. unfold a. by rewrite Hu0.
Qed.

(** *** reuseport_array_free *)

(** Releasing elements that hold a null pointer keeps the links. *)
Lemma linked_drop_nulls (w w' : world) :
  linked C w ->
  socks w !! 0 = None ->
  socks w' = socks w ->
  (forall b, slots w' !! b = slots w !! b
             \/ slots w' !! b = None /\ slots w !! b = Some 0) ->
  linked C w'.
Proof.
  intros [H1 H2] Hnull Hso Hsl. split.
  - intros b sk Hb Hsk. rewrite Hso.
    destruct (Hsl b) as [Heq|[Heq _]]; [|congruence].
    rewrite Heq in Hb. by apply H1.
  - intros sk s Hs Hf. rewrite Hso in Hs.
    specialize (H2 sk s Hs Hf).
    destruct (Hsl (Z.land (sk_user_data s) (SK_USER_DATA_PTRMASK C)))
      as [Heq|[_ Heq]]; [congruence|].
    assert (sk = 0) by congruence. subst sk. congruence.
Qed.

Lemma free_slots_lookup (map : Z) (n : nat) (i : Z) (sl : gmap Z Z) :
  (forall b, free_slots C map i n sl !! b = sl !! b
             \/ free_slots C map i n sl !! b = None
                /\ exists j, i <= j < i + Z.of_nat n /\ b = ptrs_at C map j)
  /\ (forall j, i <= j < i + Z.of_nat n ->
        free_slots C map i n sl !! ptrs_at C map j = None).
Proof.
  revert i sl. induction n as [|n IH]; intros i sl.
  { split; [by left|]. intros j Hj. lia. }
  destruct (IH (i + 1) (delete (ptrs_at C map i) sl)) as [IH1 IH2].
  assert (Hb : forall b,
            free_slots C map i (S n) sl !! b = sl !! b
            \/ free_slots C map i (S n) sl !! b = None
               /\ exists j, i <= j < i + Z.of_nat (S n) /\ b = ptrs_at C map j).
  { intros b. cbn [free_slots].
    destruct (IH1 b) as [Heq|[Heq (j & Hj & ->)]].
    - destruct (decide (b = ptrs_at C map i)) as [->|Hne].
      + right. rewrite Heq, lookup_delete_eq. split; [done|].
        exists i. split; [lia|done].
      + left. by rewrite Heq, lookup_delete_ne.
    - right. split; [done|]. exists j. split; [lia|done]. }
  split; [exact Hb|].
  intros j Hj. destruct (decide (j = i)) as [->|Hne].
  - cbn [free_slots].
    destruct (IH1 (ptrs_at C map i)) as [Heq|[Heq _]]; [|done].
    by rewrite Heq, lookup_delete_eq.
  - cbn [free_slots]. apply IH2. lia.
Qed.

Lemma free_loop_run (map : Z) (n : nat) (i : Z) st :
  (forall j, i <= j < i + Z.of_nat n ->
     is_Some (slots (globals st) !! ptrs_at C map j)) ->
  linked C (globals st) ->
  slots_taggable C (globals st) ->
  unlocked (globals st) ->
  exists st',
    free_loop C map i n st = Done tt st' []
    /\ linked C (globals st')
    /\ unlocked (globals st')
    /\ (forall j, i <= j < i + Z.of_nat n ->
          slots (globals st') !! ptrs_at C map j = Some 0)
    /\ (forall b, slots (globals st') !! b = slots (globals st) !! b
                  \/ slots (globals st') !! b = Some 0
                     /\ is_Some (slots (globals st) !! b))
    /\ bpf_maps (globals st') = bpf_maps (globals st)
    /\ rcu_nesting (globals st') = rcu_nesting (globals st)
    /\ (socks (globals st) !! 0 = None -> socks (globals st') !! 0 = None).
Proof.
  revert i st. induction n as [|n IH]; intros i st Hmap Hlink Htag Hun.
  { exists st. split; [done|]. split; [done|]. split; [done|].
    split; [intros j Hj; lia|]. split; [by left|]. done. }
  cbn [free_loop].
  destruct (Hmap i) as [sk Hslot]; [lia|].
  kstep ltac:(apply read_slot_run; exact Hslot).
  destruct (Z.eqb_spec sk 0) as [->|Hsk]; cbn [negb].
  - kstep ltac:(reflexivity).
    destruct (IH (i + 1) st) as (st' & Hrun & Hl' & Hu' & Hz & Hsl & Hrest);
      [intros j Hj; apply Hmap; lia|done|done|done|].
    exists st'. split; [done|]. split; [done|]. split; [done|].
    split; [|done].
    intros j Hj. destruct (decide (j = i)) as [->|Hne]; [|apply Hz; lia].
    destruct (Hsl (ptrs_at C map i)) as [Heq|[Heq _]]; congruence.
  - destruct (proj1 Hlink _ _ Hslot Hsk) as (s & Hs & Hud).
    assert (Hl : sk_callback_lock s = false)
      by (by apply (unlocked_sock (globals st) sk)).
    kstep ltac:(eapply write_lock_bh_run; [exact Hs|exact Hl]).
    kstep ltac:(eapply update_sock_run; apply lookup_insert_eq).
    kstep ltac:(eapply write_unlock_bh_run; [apply lookup_insert_eq|done]).
    kstep ltac:(eapply write_slot_run; exact Hslot).
    set (w := globals st) in *.
    set (w1 := with_slots <[ptrs_at C map i := 0]> _).
    assert (Hsocks1 : socks w1 = <[sk := set_sk_user_data 0 s]> (socks w)).
    { unfold w1. cbn [socks with_socks with_slots].
      rewrite !insert_insert_eq. f_equal. destruct s; simpl in *; by subst. }
    assert (Hslots1 : slots w1 = <[ptrs_at C map i := 0]> (slots w)) by done.
    assert (Hlink1 : linked C w1).
    { by apply (linked_clear w w1 (ptrs_at C map i) sk s
                  (set_sk_user_data 0 s)). }
    assert (Htag1 : slots_taggable C w1).
    { intros b Hb. apply Htag. rewrite Hslots1 in Hb.
      destruct (decide (b = ptrs_at C map i)) as [->|Hne]; [by eexists|].
      by rewrite lookup_insert_ne in Hb. }
    assert (Hun1 : unlocked w1).
    { destruct Hun as [Hrl Hlk]. split; [done|].
      intros p sp. rewrite Hsocks1.
      destruct (decide (p = sk)) as [->|Hp].
      - rewrite lookup_insert_eq. intros [= <-]. exact Hl.
      - rewrite lookup_insert_ne by done. apply Hlk. }
    destruct (IH (i + 1) (with_globals st w1))
      as (st' & Hrun & Hl' & Hu' & Hz & Hsl & Hmaps & Hrcu & Hnull).
    { intros j Hj. rewrite globals_with_globals, Hslots1.
      destruct (decide (ptrs_at C map j = ptrs_at C map i)) as [->|Hne].
      - rewrite lookup_insert_eq. by eexists.
      - rewrite lookup_insert_ne by done. apply Hmap. lia. }
    { done. } { done. } { done. }
    rewrite globals_with_globals in *.
    exists st'. split; [done|]. split; [done|]. split; [done|].
    assert (Hb : forall b, slots (globals st') !! b = slots w !! b
                  \/ slots (globals st') !! b = Some 0
                     /\ is_Some (slots w !! b)).
    { intros b. rewrite Hslots1 in Hsl.
      destruct (decide (b = ptrs_at C map i)) as [->|Hne].
      - right. split; [|by eexists].
        destruct (Hsl (ptrs_at C map i)) as [Heq|[Heq _]]; [|done].
        by rewrite Heq, lookup_insert_eq.
      - destruct (Hsl b) as [Heq|[Heq Hsome]].
        + left. by rewrite Heq, lookup_insert_ne.
        + right. split; [done|]. by rewrite lookup_insert_ne in Hsome. }
    split; [|split; [exact Hb|]].
    + intros j Hj. destruct (decide (j = i)) as [->|Hne]; [|apply Hz; lia].
      destruct (Hb (ptrs_at C map i)) as [Heq|[Heq _]]; [|done].
      rewrite Hslots1 in Hsl.
      destruct (Hsl (ptrs_at C map i)) as [Heq'|[Heq' _]]; [|done].
      by rewrite Heq', lookup_insert_eq.
    + split; [done|]. split; [done|].
      intros H0. apply Hnull. rewrite Hsocks1.
      rewrite lookup_insert_ne; [done|]. by apply not_eq_sym.
Qed.

(** X13: reuseport_array_free empties every element before the array is
    released, so that afterwards no socket has a sk_user_data that
    designates an element of the released array; the links between the
    remaining elements and sockets stay intact, no lock is held and the
    read-side nesting is as before. *)
Theorem reuseport_array_free_no_dangling (map : Z) (m : bpf_map) st :
  let w := globals st in
  array_mapped C w map m ->
  linked C w ->
  slots_taggable C w ->
  unlocked w ->
  socks w !! 0 = None ->
  0 <= rcu_nesting w ->
  exists st',
    reuseport_array_free C map st = Done tt st' []
    /\ bpf_maps (globals st') !! map = None
    /\ (forall sk s i,
          socks (globals st') !! sk = Some s ->
          Z.land (sk_user_data s) (SK_USER_DATA_BPF C) <> 0 ->
          0 <= i < max_entries m ->
          Z.land (sk_user_data s) (SK_USER_DATA_PTRMASK C)
          <> ptrs_at C map i)
    /\ linked C (globals st')
    /\ unlocked (globals st')
    /\ rcu_nesting (globals st') = rcu_nesting w.
Proof.
  intros w [Hm Hmap] Hlink Htag Hun Hnull Hrcu.
  unfold reuseport_array_free, synchronize_rcu.
  kstep ltac:(reflexivity).
  kstep ltac:(reflexivity).
  kstep ltac:(apply read_map_run; exact Hm).
  set (w0 := with_rcu_nesting (rcu_nesting (globals st) + 1) (globals st)).
  destruct (free_loop_run map (Z.to_nat (max_entries m)) 0
              (with_globals st w0))
    as (st1 & Hrun & Hl1 & Hu1 & Hz & Hsl & Hmaps & Hrcu1 & Hnull1).
  { intros j Hj. apply Hmap. lia. }
  { apply (linked_same_data w); [done|done|done]. }
  { done. } { done. }
  rewrite globals_with_globals in *.
  kstep ltac:(exact Hrun).
  assert (Hn1 : rcu_nesting (globals st1) = rcu_nesting w + 1) by done.
  unfold rcu_read_unlock.
  kstep ltac:(reflexivity).
  destruct (Z.leb_spec (rcu_nesting (globals st1)) 0); [lia|].
  kstep ltac:(reflexivity).
  unfold bpf_map_area_free.
  kstep ltac:(apply read_map_run; rewrite globals_with_globals;
              cbn [bpf_maps with_rcu_nesting]; rewrite Hmaps; exact Hm).
  kstep ltac:(reflexivity).
  eexists. split; [reflexivity|]. rewrite globals_with_globals.
  set (w' := with_bpf_maps _ _).
  assert (Hsl' : forall b,
            slots w' !! b = slots (globals st1) !! b
            \/ slots w' !! b = None /\ slots (globals st1) !! b = Some 0).
  { intros b. unfold w'.
    cbn [slots with_bpf_maps with_slots with_rcu_nesting].
    destruct (free_slots_lookup map (Z.to_nat (max_entries m)) 0
                (slots (globals st1))) as [Hf _].
    destruct (Hf b) as [Heq|[Heq (j & Hj & ->)]]; [by left|right].
    split; [done|]. by apply Hz. }
  assert (Hlink' : linked C w').
  { apply (linked_drop_nulls (globals st1)); [done|by apply Hnull1|done|done]. }
  split; [|split; [|split; [done|split]]].
  - unfold w'. cbn [bpf_maps with_bpf_maps]. apply lookup_delete_eq.
  - intros sk s i Hs Hf Hi Heq.
    pose proof (proj2 Hlink' sk s Hs Hf) as Hslot. rewrite Heq in Hslot.
    unfold w' in Hslot.
    cbn [slots with_bpf_maps with_slots with_rcu_nesting] in Hslot.
    destruct (free_slots_lookup map (Z.to_nat (max_entries m)) 0
                (slots (globals st1))) as [_ Hf2].
    rewrite Hf2 in Hslot by lia. done.
  - done.
  - unfold w'. cbn [rcu_nesting with_bpf_maps with_slots with_rcu_nesting].
    lia.
Qed.

End ReuseportArrayFacts.

Section ReuseportArraySamples.

Import ReuseportArray.

Lemma linux_errno_nonzero (e : errname) : linux_errno e <> 0.
Proof. by destruct e. Qed.

Lemma sample_ra_state_valid (w : world) : current_valid (sample_ra_state w).
Proof. intros _. by eexists. Qed.

Lemma sample_slots_cases (first user_data a : Z) :
  is_Some (slots (sample_world first user_data) !! a) ->
  a = 4352 \/ a = 4360.
Proof.
  intros [v Hv]. cbn [slots sample_world] in Hv.
  destruct (decide (a = 4352)) as [|H1]; [by left|].
  destruct (decide (a = 4360)) as [|H2]; [by right|].
  rewrite lookup_insert_ne in Hv by congruence.
  by rewrite lookup_singleton_ne in Hv by congruence.
Qed.

Lemma sample_array_mapped (first user_data : Z) :
  array_mapped linux_ra_consts (sample_world first user_data) 4096
    (mk_bpf_map 2 8).
Proof.
  split; [done|]. intros i Hi. cbn [max_entries] in Hi.
  assert (i = 0 \/ i = 1) as [-> | ->] by lia; by eexists.
Qed.

Lemma sample_slots_taggable (first user_data : Z) :
  slots_taggable linux_ra_consts (sample_world first user_data).
Proof.
  intros a Ha. by destruct (sample_slots_cases _ _ _ Ha) as [-> | ->].
Qed.

Lemma sample_files_ok (first user_data : Z) :
  files_ok (sample_world first user_data).
Proof.
  split; [done|]. intros fd skt Hfd. cbn [fdtable sample_world] in Hfd.
  apply lookup_singleton_Some in Hfd as [<- <-]. split; [done|].
  exists (mk_socket 9000 7000), 1. split; [done|]. split; [done|].
  right. by eexists.
Qed.

Lemma sample_unlocked (first user_data : Z) :
  unlocked (sample_world first user_data).
Proof.
  split; [done|]. intros sk s Hs. cbn [socks sample_world] in Hs.
  by apply lookup_singleton_Some in Hs as [<- <-].
Qed.

Lemma sample_empty_linked : linked linux_ra_consts sample_empty.
Proof.
  split.
  - intros a sk Ha Hsk.
    destruct (sample_slots_cases 0 0 a) as [-> | ->]; [by eexists|..];
      by injection Ha as <-.
  - intros sk s Hs Hf. cbn [socks sample_empty sample_world] in Hs.
    by apply lookup_singleton_Some in Hs as [<- <-].
Qed.

Lemma sample_held_linked : linked linux_ra_consts sample_held.
Proof.
  split.
  - intros a sk Ha Hsk.
    destruct (sample_slots_cases 9000 4355 a) as [-> | ->]; [by eexists|..].
    + injection Ha as <-. by exists (sample_sock 4355).
    + by injection Ha as <-.
  - intros sk s Hs Hf. cbn [socks sample_held sample_world] in Hs.
    by apply lookup_singleton_Some in Hs as [<- <-].
Qed.

Lemma reuseport_array_get_next_key_walk_witness :
  exists st',
    next_keys linux_errno (S (Z.to_nat (max_entries (mk_bpf_map 2 8)))) 4096
      None (sample_ra_state sample_empty)
    = Done (seqZ 0 (max_entries (mk_bpf_map 2 8))) st'
        [mk_rec_call (Some reuseport_array_c) 348
           (to_int (linux_errno ENOENT))]
    /\ globals st' = globals (sample_ra_state sample_empty).
Proof.
  apply (reuseport_array_get_next_key_walk linux_errno (mk_bpf_map 2 8) 4096
           (sample_ra_state sample_empty));
    [reflexivity | simpl; lia | apply linux_errno_nonzero
    | apply sample_ra_state_valid].
Defined.

Lemma reuseport_array_delete_elem_keeps_links_witness :
  exists r st' calls,
    reuseport_array_delete_elem linux_errno linux_errno_ext linux_ra_consts
      4096 0 (sample_ra_state sample_held)
    = Done r st' calls
    /\ linked linux_ra_consts (globals st')
    /\ unlocked (globals st')
    /\ (r = 0 /\ calls = []
        /\ reuseport_array_lookup_elem linux_ra_consts 4096 0 st'
           = Done 0 st' []
        \/ globals st' = globals (sample_ra_state sample_held)
           /\ length calls = 1%nat
           /\ (r = - linux_errno_ext E2BIG \/ r = - linux_errno ENOENT)).
Proof.
  apply (reuseport_array_delete_elem_keeps_links linux_errno linux_errno_ext
           linux_ra_consts 4096 0 (mk_bpf_map 2 8)
           (sample_ra_state sample_held));
    [apply sample_array_mapped | lia | apply sample_held_linked
    | apply sample_slots_taggable | apply sample_unlocked
    | apply sample_ra_state_valid].
Defined.

Lemma bpf_fd_reuseport_array_update_elem_keeps_links_witness :
  exists r st' calls,
    bpf_fd_reuseport_array_update_elem linux_errno linux_errno_ext
      linux_ra_consts 4096 0 3 3 0 (sample_ra_state sample_empty)
    = Done r st' calls
    /\ linked linux_ra_consts (globals st')
    /\ unlocked (globals st')
    /\ f_count (globals st') = f_count (globals (sample_ra_state sample_empty)).
Proof.
  apply (bpf_fd_reuseport_array_update_elem_keeps_links linux_errno
           linux_errno_ext linux_ra_consts 4096 0 3 3 0 (mk_bpf_map 2 8)
           (sample_ra_state sample_empty));
    [apply linux_errno_nonzero | apply sample_array_mapped | lia
    | apply sample_files_ok | apply sample_empty_linked
    | apply sample_slots_taggable | apply sample_unlocked
    | apply sample_ra_state_valid].
Defined.

Lemma sample_sock_acceptable : acceptable linux_ra_consts (sample_sock 0).
Proof.
  split; [by right|]. split; [by left|]. split; [by left|]. by repeat split.
Qed.

Lemma bpf_fd_reuseport_array_update_elem_installs_witness :
  exists st',
    bpf_fd_reuseport_array_update_elem linux_errno linux_errno_ext
      linux_ra_consts 4096 0 3 3 0 (sample_ra_state sample_empty)
    = Done 0 st' []
    /\ reuseport_array_lookup_elem linux_ra_consts 4096 0 st' = Done 9000 st' []
    /\ sk_user_data <$> socks (globals st') !! 9000
       = Some (tagged linux_ra_consts (ptrs_at linux_ra_consts 4096 0))
    /\ (0 <> 0 -> sk_user_data <$> socks (globals st') !! 0 = Some 0).
Proof.
  apply (bpf_fd_reuseport_array_update_elem_installs linux_errno
           linux_errno_ext linux_ra_consts 4096 0 3 3 0 3 8000 9000 0
           (mk_bpf_map 2 8) (mk_socket 9000 7000) (sample_sock 0)
           (sample_ra_state sample_empty));
    [apply sample_array_mapped | apply sample_files_ok
    | apply sample_empty_linked | apply sample_slots_taggable
    | apply sample_unlocked | simpl; lia | simpl; lia | reflexivity
    | simpl; lia | reflexivity | reflexivity | reflexivity | lia
    | reflexivity | apply sample_sock_acceptable | reflexivity
    | split; [lia | simpl; lia]].
Defined.

Lemma bpf_sk_reuseport_detach_unlinks_witness :
  exists st',
    bpf_sk_reuseport_detach linux_ra_consts 9000
      (sample_ra_state sample_held_locked)
    = Done tt st' []
    /\ globals st'
       = with_socks <[9000 := sample_sock 0]>
           (with_slots <[4352 := 0]> sample_held_locked)
    /\ linked linux_ra_consts (globals st')
    /\ reuseport_lock (globals st') = true
    /\ (forall p, sk_callback_lock <$> socks (globals st') !! p
                  = sk_callback_lock <$> socks sample_held_locked !! p)
    /\ (forall a, slots (globals st') !! a <> Some 9000).
Proof.
  apply (bpf_sk_reuseport_detach_unlinks linux_ra_consts 9000
           (sample_sock 4355) (sample_ra_state sample_held_locked));
    [reflexivity | lia | apply sample_held_linked
    | apply sample_slots_taggable | reflexivity].
Defined.

Lemma reuseport_array_free_no_dangling_witness :
  exists st',
    reuseport_array_free linux_ra_consts 4096 (sample_ra_state sample_held)
    = Done tt st' []
    /\ bpf_maps (globals st') !! 4096 = None
    /\ (forall sk s i,
          socks (globals st') !! sk = Some s ->
          Z.land (sk_user_data s) (SK_USER_DATA_BPF linux_ra_consts) <> 0 ->
          0 <= i < max_entries (mk_bpf_map 2 8) ->
          Z.land (sk_user_data s) (SK_USER_DATA_PTRMASK linux_ra_consts)
          <> ptrs_at linux_ra_consts 4096 i)
    /\ linked linux_ra_consts (globals st')
    /\ unlocked (globals st')
    /\ rcu_nesting (globals st')
       = rcu_nesting (globals (sample_ra_state sample_held)).
Proof.
  apply (reuseport_array_free_no_dangling linux_ra_consts 4096
           (mk_bpf_map 2 8) (sample_ra_state sample_held));
    [apply sample_array_mapped | apply sample_held_linked
    | apply sample_slots_taggable | apply sample_unlocked | reflexivity
    | simpl; lia].
Defined.

End ReuseportArraySamples.

(** ** fs/xfs/xfs_acl.c: the disk format and xfs_set_acl *)

Section XfsAclSetFacts.

Context {Other Global : Type}.
Variable errno_of : errname -> Z.
Variable errno_ext : errname_ext -> Z.
Variable X : @xfs_ext Other Global.
Variable Y : @xfs_set_ext Other Global.
Implicit Types st : kstate Other Global.

Lemma short_through_u32 (t : Z) :
  - 2 ^ 15 <= t < 2 ^ 15 -> wrap_signed 16 (to_uint t) = t.
Proof.
  intros Ht. unfold wrap_signed, to_uint, wrap_unsigned.
  change (2 ^ (16 - 1)) with 32768. change (2 ^ 16) with 65536.
  change (2 ^ 32) with 4294967296. change (2 ^ 15) with 32768 in Ht.
  assert (Hu : t mod 4294967296 = t \/ t mod 4294967296 = t + 65536 * 65536).
  { destruct (Z.neg_nonneg_cases t) as [Hneg|Hpos].
    - right. rewrite <- (Z_mod_plus_full t 1 4294967296).
      apply Z.mod_small. lia.
    - left. apply Z.mod_small. lia. }
  destruct Hu as [-> | ->].
  - rewrite Z.mod_small; lia.
  - replace (t + 65536 * 65536 + 32768) with (t + 32768 + 65536 * 65536)
      by lia.
    rewrite Z_mod_plus_full, Z.mod_small; lia.
Qed.

Lemma entry_round_trip (e : posix_acl_entry) (ace : xfs_acl_entry) :
  byte_order_ok X Y ->
  entry_in_core_ok X Y e ->
  entry_to_disk X Y e = Some ace ->
  entry_from_disk X ace = Some e.
Proof.
  intros [H32 H16] (Htag & Hperm & Hkind) Hto.
  unfold entry_to_disk in Hto. unfold entry_from_disk.
  assert (Hu : uint_range (to_uint (e_tag e))).
  { unfold uint_range, to_uint, wrap_unsigned. apply Z.mod_pos_bound. lia. }
  destruct e as [tag perm id]. cbn [e_tag e_perm e_id] in *.
  destruct Hkind as [(-> & u & -> & Hur & Hmk)
                    |[(-> & Hnu & g & -> & Hur & Hmk)
                    |(Hobj & Hnu & Hng & ->)]].
  - rewrite Z.eqb_refl in Hto. simpl in Hto. injection Hto as <-.
    cbn [ae_tag ae_id ae_perm].
    rewrite H32, short_through_u32, Z.eqb_refl by done.
    by rewrite H32, H16, Hmk.
  - destruct (Z.eqb_spec (ACL_GROUP X) (ACL_USER X)); [done|].
    rewrite Z.eqb_refl in Hto. simpl in Hto. injection Hto as <-.
    cbn [ae_tag ae_id ae_perm].
    rewrite H32, short_through_u32 by done.
    destruct (Z.eqb_spec (ACL_GROUP X) (ACL_USER X)); [done|].
    rewrite Z.eqb_refl. by rewrite H32, H16, Hmk.
  - destruct (Z.eqb_spec tag (ACL_USER X)); [done|].
    destruct (Z.eqb_spec tag (ACL_GROUP X)); [done|].
    injection Hto as <-. cbn [ae_tag ae_id ae_perm].
    rewrite H32, short_through_u32 by done.
    destruct (Z.eqb_spec tag (ACL_USER X)); [done|].
    destruct (Z.eqb_spec tag (ACL_GROUP X)); [done|].
    rewrite H16 by done.
    destruct Hobj as [-> |[-> |[-> | ->]]];
      rewrite Z.eqb_refl, ?orb_true_r; done.
Qed.

Lemma to_disk_loop_frame (acl : list posix_acl_entry) (n i : nat)
    (aclp aclp' : xfs_acl) :
  to_disk_loop X Y acl i n aclp = Some aclp' ->
  acl_cnt aclp' = acl_cnt aclp
  /\ forall k, (k < i)%nat -> acl_entry aclp' !! k = acl_entry aclp !! k.
Proof.
  revert i aclp. induction n as [|n IH]; intros i aclp Hrun.
  { injection Hrun as <-. done. }
  cbn [to_disk_loop] in Hrun.
  destruct (acl !! i) as [e|]; [|done]. simpl in Hrun.
  destruct (decide (i < length (acl_entry aclp))%nat); [|done].
  destruct (entry_to_disk X Y e) as [ace|]; [|done]. simpl in Hrun.
  destruct (IH _ _ Hrun) as [Hcnt Hk]. split; [done|].
  intros k Hlt. rewrite Hk by lia. cbn [with_entry acl_entry].
  apply list_lookup_insert_ne. lia.
Qed.

Lemma loops_round_trip (acl : list posix_acl_entry) (n i : nat)
    (aclp aclp' : xfs_acl) (filled : list posix_acl_entry) :
  byte_order_ok X Y ->
  Forall (entry_in_core_ok X Y) acl ->
  to_disk_loop X Y acl i n aclp = Some aclp' ->
  from_disk_loop X aclp' i n filled
  = loop_done (filled ++ take n (drop i acl)).
Proof.
  intros Hbo Hok. revert i aclp filled.
  induction n as [|n IH]; intros i aclp filled Hrun.
  { by rewrite take_0, app_nil_r. }
  cbn [to_disk_loop] in Hrun.
  destruct (acl !! i) as [e|] eqn:He; [|done]. simpl in Hrun.
  destruct (decide (i < length (acl_entry aclp))%nat) as [Hlt|]; [|done].
  destruct (entry_to_disk X Y e) as [ace|] eqn:Hace; [|done].
  simpl in Hrun.
  destruct (to_disk_loop_frame _ _ _ _ _ Hrun) as [_ Hk].
  cbn [from_disk_loop]. rewrite (Hk i) by lia.
  cbn [with_entry acl_entry]. rewrite list_lookup_insert_eq by done.
  rewrite (entry_round_trip e ace) by
    (done || by apply (Forall_lookup_1 _ _ _ _ Hok He)).
  rewrite (IH _ _ _ Hrun).
  rewrite (drop_S _ _ _ He). cbn [take]. by rewrite <- app_assoc.
Qed.

(** X14: what xfs_acl_to_disk writes, xfs_acl_from_disk reads back: for an
    ACL in core whose entries carry one of the six tags, with the id
    that goes with it, the disk image converts back to that same ACL. *)
Theorem xfs_acl_disk_round_trip (acl : list posix_acl_entry)
    (aclp0 aclp : xfs_acl) (mp len max_entries : Z) st st1 c :
  let count := Z.of_nat (length acl) in
  byte_order_ok X Y ->
  Forall (entry_in_core_ok X Y) acl ->
  xfs_acl_to_disk X Y aclp0 acl = Some aclp ->
  count <= to_uint max_entries ->
  count < 2 ^ 32 ->
  sizeof_xfs_acl X <= wrap_unsigned (size_t_bits X) len ->
  XFS_ACL_SIZE X count = wrap_unsigned (size_t_bits X) len ->
  posix_acl_alloc X (to_int count) st = Done true st1 c ->
  xfs_acl_from_disk errno_of X mp aclp len max_entries st
  = Done (acl_ptr acl) st1 c.
Proof.
  intros count Hbo Hok Hto Hmax Hc Hlen Hsize Halloc.
  unfold xfs_acl_to_disk in Hto.
  destruct (to_disk_loop_frame _ _ _ _ _ Hto) as [Hcnt _].
  cbn [acl_cnt] in Hcnt. fold count in Hcnt.
  assert (Hcount : to_uint (be32_to_cpu X (acl_cnt aclp)) = count).
  { rewrite Hcnt, (to_uint_id count) by (unfold uint_range; lia).
    rewrite (proj1 Hbo) by (unfold uint_range; lia).
    apply to_uint_id. unfold uint_range. lia. }
  unfold xfs_acl_from_disk. rewrite Hcount.
  destruct (Z.ltb_spec (wrap_unsigned (size_t_bits X) len) (sizeof_xfs_acl X));
    [lia|].
  destruct (Z.ltb_spec (to_uint max_entries) count); [lia|].
  rewrite Hsize, Z.eqb_refl. cbn [negb orb].
  unfold bind. rewrite Halloc. cbn [negb].
  unfold count. rewrite Nat2Z.id.
  rewrite (loops_round_trip acl (length acl) 0 _ aclp []) by done.
  rewrite drop_0, firstn_all. simpl. by rewrite app_nil_r.
Qed.

Lemma from_disk_loop_valid (aclp : xfs_acl) (n i : nat)
    (filled l : list posix_acl_entry) :
  from_disk_loop X aclp i n filled = loop_done l ->
  exists l', l = (filled ++ l')%list /\ length l' = n
             /\ Forall (entry_valid X) l'.
Proof.
  revert i filled. induction n as [|n IH]; intros i filled Hrun.
  { injection Hrun as <-. exists []. by rewrite app_nil_r. }
  cbn [from_disk_loop] in Hrun.
  destruct (acl_entry aclp !! i) as [ace|]; [|done].
  destruct (entry_from_disk X ace) as [e|] eqn:He; [|done].
  destruct (IH _ _ Hrun) as (l' & -> & Hn & Hv).
  exists (e :: l'). rewrite <- app_assoc. split; [done|].
  split; [simpl; by rewrite Hn|].
  constructor; [|done].
  unfold entry_from_disk in He.
  destruct (Z.eqb_spec (wrap_signed 16 (be32_to_cpu X (ae_tag ace)))
              (ACL_USER X)) as [Hu|_].
  { injection He as <-. left. split; [done|]. by eexists. }
  destruct (Z.eqb_spec (wrap_signed 16 (be32_to_cpu X (ae_tag ace)))
              (ACL_GROUP X)) as [Hg|_].
  { injection He as <-. right; left. split; [done|]. by eexists. }
  destruct (_ || _) eqn:Hobj in He; [|done].
  injection He as <-. right; right. split; [|done].
  cbn [e_tag].
  repeat (apply orb_true_iff in Hobj as [Hobj|Hobj]);
    apply Z.eqb_eq in Hobj; tauto.
Qed.

(** X15: an ACL that xfs_acl_from_disk hands out has as many entries as the
    disk header announces, no more than max_entries, and each entry
    carries one of the six tags: a uid with ACL_USER, a gid with
    ACL_GROUP, no id with the others. *)
Theorem xfs_acl_from_disk_valid (mp : Z) (aclp : xfs_acl)
    (len max_entries : Z) (l : list posix_acl_entry) st st' calls :
  xfs_acl_from_disk errno_of X mp aclp len max_entries st
  = Done (acl_ptr l) st' calls ->
  Z.of_nat (length l) = to_uint (be32_to_cpu X (acl_cnt aclp))
  /\ Z.of_nat (length l) <= to_uint max_entries
  /\ XFS_ACL_SIZE X (Z.of_nat (length l)) = wrap_unsigned (size_t_bits X) len
  /\ Forall (entry_valid X) l.
Proof.
  unfold xfs_acl_from_disk. intros Hrun.
  destruct (wrap_unsigned (size_t_bits X) len <? sizeof_xfs_acl X).
  { unfold bind in Hrun.
    destruct (XFS_CORRUPTION_ERROR X mp aclp len st); by simplify_eq. }
  set (count := to_uint (be32_to_cpu X (acl_cnt aclp))) in *.
  destruct (Z.ltb_spec (to_uint max_entries) count) as [|Hmax].
  { unfold bind in Hrun. cbn [orb] in Hrun.
    destruct (XFS_CORRUPTION_ERROR X mp aclp len st); by simplify_eq. }
  destruct (Z.eqb_spec (XFS_ACL_SIZE X count)
              (wrap_unsigned (size_t_bits X) len)) as [Hsize|].
  2:{ unfold bind in Hrun. cbn [orb negb] in Hrun.
      destruct (XFS_CORRUPTION_ERROR X mp aclp len st); by simplify_eq. }
  cbn [orb negb] in Hrun. unfold bind in Hrun.
  destruct (posix_acl_alloc X (to_int count) st) as [|[] st1 c1]; [done| |].
  2:{ by simplify_eq. }
  cbn [negb] in Hrun.
  destruct (from_disk_loop X aclp 0 (Z.to_nat count) []) as [l0| |] eqn:Hloop.
  - assert (l0 = l) by (unfold ret in Hrun; by simplify_eq). subst l0.
    destruct (from_disk_loop_valid _ _ _ _ _ Hloop) as (l' & -> & Hn & Hv).
    assert (Hc0 : 0 <= count).
    { unfold count, to_uint, wrap_unsigned. apply Z.mod_pos_bound. lia. }
    cbn [app]. rewrite Hn, Z2Nat.id by done. done.
  - destruct (posix_acl_release X st1) as [|[] st2 c2]; [done|].
    destruct (ERR xfs_acl_c 92 (ret (errno_of EINVAL)) st2); [done|].
    unfold ret in Hrun. by simplify_eq.
  - done.
Qed.


End XfsAclSetFacts.

Lemma sample_byte_order_ok : byte_order_ok sample_xfs sample_xfs_set.
Proof. by split. Qed.

Lemma sample_acl_in_core_ok :
  Forall (entry_in_core_ok sample_xfs sample_xfs_set) sample_acl.
Proof.
  repeat apply Forall_cons_2; [| | |apply Forall_nil_2].
  - split; [simpl; lia|]. split; [simpl; lia|].
    right; right. split; [by left|]. by repeat split.
  - split; [simpl; lia|]. split; [simpl; lia|].
    left. split; [done|]. exists 1000. split; [done|].
    split; [|done]. unfold uint_range. simpl. lia.
  - split; [simpl; lia|]. split; [simpl; lia|].
    right; right. split; [by right; right; right|]. by repeat split.
Qed.

Lemma xfs_acl_disk_round_trip_witness :
  xfs_acl_from_disk linux_errno sample_xfs 0 sample_disk_acl 40 25
    sample_state
  = Done (acl_ptr sample_acl) sample_state [].
Proof.
  apply (xfs_acl_disk_round_trip linux_errno sample_xfs sample_xfs_set
           sample_acl (zeroed_acl 3) sample_disk_acl 0 40 25 sample_state
           sample_state []);
    [apply sample_byte_order_ok | apply sample_acl_in_core_ok | reflexivity
    | vm_compute; discriminate | reflexivity | vm_compute; discriminate
    | reflexivity | reflexivity].
Defined.

Lemma xfs_acl_from_disk_valid_witness :
  Z.of_nat (length sample_acl)
  = to_uint (be32_to_cpu sample_xfs (acl_cnt sample_disk_acl))
  /\ Z.of_nat (length sample_acl) <= to_uint 25
  /\ XFS_ACL_SIZE sample_xfs (Z.of_nat (length sample_acl))
     = wrap_unsigned (size_t_bits sample_xfs) 40
  /\ Forall (entry_valid sample_xfs) sample_acl.
Proof.
  apply (xfs_acl_from_disk_valid linux_errno sample_xfs 0 sample_disk_acl 40
           25 sample_acl sample_state sample_state []).
  reflexivity.
Defined.


(** ** kernel/trace/trace_functions.c *)

Section TraceFunctionsFacts.

Import TraceFunctions.

Context {Other : Type}.
Variable errno_of : errname -> Z.
Implicit Types st : kstate Other world.

Lemma find_ip_run (mapper ip v : Z) st :
  counts (globals st) !! (mapper, ip) = Some v ->
  ftrace_func_mapper_find_ip mapper ip st = Done (Some (mapper, ip)) st [].
Proof.
  intros H. unfold ftrace_func_mapper_find_ip, bind, read_globals.
  simpl. by rewrite H.
Qed.

Lemma read_count_run (p : Z * Z) (v : Z) st :
  counts (globals st) !! p = Some v -> read_count p st = Done v st [].
Proof. intros H. unfold read_count, bind, read_globals. simpl. by rewrite H. Qed.

Lemma write_count_run (p : Z * Z) (v v0 : Z) st :
  counts (globals st) !! p = Some v0 ->
  write_count p v st
  = Done tt (replace_globals st (with_counts <[p := v]> (globals st))) [].
Proof. intros H. unfold write_count, bind, read_globals. simpl. by rewrite H. Qed.

Lemma tracer_tracing_is_on_run (tr : Z) (b : bool) st :
  tracer_on (globals st) !! tr = Some b ->
  tracer_tracing_is_on tr st = Done b st [].
Proof.
  intros H. unfold tracer_tracing_is_on, bind, read_globals. simpl.
  by rewrite H.
Qed.

Lemma tracer_tracing_set_run (tr : Z) (b b0 : bool) st :
  tracer_on (globals st) !! tr = Some b0 ->
  tracer_tracing_set tr b st
  = Done tt (replace_globals st (with_tracer_on <[tr := b]> (globals st))) [].
Proof.
  intros H. unfold tracer_tracing_set, bind, read_globals. simpl.
  by rewrite H.
Qed.

(** One call of ftrace_dump_probe: a dump and one count less, or nothing
    once the count is used up. *)
Lemma ftrace_dump_probe_once (ip parent_ip tr data c : Z) st :
  data <> 0 ->
  counts (globals st) !! (data, ip) = Some c ->
  exists st',
    ftrace_dump_probe ip parent_ip tr data st = Done tt st' []
    /\ counts (globals st') !! (data, ip)
       = Some (if c <=? 0 then c else c - 1)
    /\ dumps (globals st')
       = ((if c <=? 0 then [] else [DUMP_ALL]) ++ dumps (globals st))%list.
Proof.
  intros Hd Hc. unfold ftrace_dump_probe, update_count.
  destruct (Z.eqb_spec data 0) as [|_]; [done|]. cbn [negb].
  gstep ltac:(eapply find_ip_run; exact Hc).
  gstep ltac:(apply read_count_run; exact Hc).
  destruct (Z.leb_spec c 0).
  - gstep ltac:(reflexivity). change (negb (0 =? 0)) with false. cbn iota.
    by exists st.
  - gstep ltac:(eapply write_count_run; exact Hc).
    gstep ltac:(reflexivity). change (negb (1 =? 0)) with true. cbn iota.
    eexists. split; [reflexivity|].
    cbn [globals replace_globals counts dumps with_counts with_dumps].
    by rewrite lookup_insert_eq.
Qed.

(** X17: a counted dump probe dumps exactly as often as its count allows:
    [n] calls of ftrace_dump_probe on an entry with count c >= 0 make
    min(c, n) calls of ftrace_dump(DUMP_ALL) and leave the count at
    c - min(c, n). *)
Theorem ftrace_dump_probe_counts (n : nat) (ip parent_ip tr data c : Z) st :
  data <> 0 ->
  counts (globals st) !! (data, ip) = Some c ->
  0 <= c ->
  exists st',
    repeated n (ftrace_dump_probe ip parent_ip tr data) st = Done tt st' []
    /\ counts (globals st') !! (data, ip) = Some (c - Z.min c (Z.of_nat n))
    /\ dumps (globals st')
       = (replicate (Z.to_nat (Z.min c (Z.of_nat n))) DUMP_ALL
          ++ dumps (globals st))%list.
Proof.
  intros Hd. revert c st. induction n as [|n IH]; intros c st Hc H0.
  { exists st. split; [done|]. rewrite Z.min_r by lia.
    split; [by rewrite Z.sub_0_r|done]. }
  destruct (ftrace_dump_probe_once ip parent_ip tr data c st Hd Hc)
    as (st1 & Hrun1 & Hc1 & Hd1).
  cbn [repeated]. rewrite (bind_step _ _ _ _ _ Hrun1).
  destruct (Z.leb_spec c 0).
  - assert (c = 0) by lia. subst c.
    destruct (IH 0 st1 Hc1) as (st' & Hrun & Hc' & Hd'); [lia|].
    exists st'. split; [done|].
    rewrite Z.min_l in * by lia. by rewrite Hd', Hd1.
  - destruct (IH (c - 1) st1 Hc1) as (st' & Hrun & Hc' & Hd'); [lia|].
    exists st'. split; [done|]. split.
    + rewrite Hc'. f_equal. lia.
    + rewrite Hd', Hd1.
      replace (Z.to_nat (Z.min c (Z.of_nat (S n))))
        with (S (Z.to_nat (Z.min (c - 1) (Z.of_nat n)))) by lia.
      rewrite replicate_S_end, <- app_assoc. done.
Qed.

Lemma update_traceon_count_settled (ip tr data c : Z) (on : bool) st :
  counts (globals st) !! (data, ip) = Some c ->
  tracer_on (globals st) !! tr = Some on ->
  update_traceon_count ip tr on data st = Done tt st [].
Proof.
  intros Hc Hon. unfold update_traceon_count.
  gstep ltac:(eapply find_ip_run; exact Hc).
  gstep ltac:(apply read_count_run; exact Hc).
  destruct (c <=? 0); [done|].
  gstep ltac:(apply tracer_tracing_is_on_run; exact Hon).
  by rewrite eqb_reflx.
Qed.

(** X18: a counted traceon or traceoff probe uses up a count only when it
    throws the switch: on a trace_array in the other state and with a
    count c > 0, any number n >= 1 of calls of update_traceon_count
    leaves the trace_array in the wanted state and the count at c - 1. *)
Theorem update_traceon_count_once (n : nat) (ip tr data c : Z) (on : bool)
    st :
  counts (globals st) !! (data, ip) = Some c ->
  0 < c ->
  tracer_on (globals st) !! tr = Some (negb on) ->
  (0 < n)%nat ->
  exists st',
    repeated n (update_traceon_count ip tr on data) st = Done tt st' []
    /\ tracer_on (globals st') !! tr = Some on
    /\ counts (globals st') !! (data, ip) = Some (c - 1).
Proof.
  intros Hc Hpos Hon Hn. destruct n as [|n]; [lia|]. clear Hn.
  cbn [repeated].
  set (st1 := replace_globals st
                (with_counts <[(data, ip) := c - 1]>
                   (with_tracer_on <[tr := on]> (globals st)))).
  assert (Hfirst : update_traceon_count ip tr on data st = Done tt st1 []).
  { unfold update_traceon_count.
    gstep ltac:(eapply find_ip_run; exact Hc).
    gstep ltac:(apply read_count_run; exact Hc).
    destruct (Z.leb_spec c 0); [lia|].
    gstep ltac:(apply tracer_tracing_is_on_run; exact Hon).
    replace (Bool.eqb on (negb on)) with false by (by destruct on).
    assert (Hset : (if on then tracer_tracing_on tr
                    else tracer_tracing_off tr) st
                   = Done tt (replace_globals st
                                (with_tracer_on <[tr := on]> (globals st))) []).
    { destruct on; by apply (tracer_tracing_set_run tr _ _ st Hon). }
    gstep ltac:(exact Hset).
    erewrite write_count_run; [reflexivity|exact Hc]. }
  rewrite (bind_step _ _ _ _ _ Hfirst).
  assert (Hc1 : counts (globals st1) !! (data, ip) = Some (c - 1))
    by apply lookup_insert_eq.
  assert (Hon1 : tracer_on (globals st1) !! tr = Some on)
    by apply lookup_insert_eq.
  clearbody st1. clear Hfirst Hc Hon.
  induction n as [|n IH].
  - by exists st1.
  - cbn [repeated].
    by rewrite (bind_step _ _ _ _ _
                  (update_traceon_count_settled ip tr data (c - 1) on st1
                     Hc1 Hon1)).
Qed.

(** *** init_func_cmd_traceon *)

Lemma commands_replaced (w : world) :
  w = with_ftrace_commands (fun _ => ftrace_commands w) w.
Proof. by destruct w. Qed.

Lemma register_new (name : string) (l : list string) (w : world) st :
  globals st = with_ftrace_commands (fun _ => l) w ->
  name ∉ l ->
  register_ftrace_command errno_of name st
  = Done 0
      (replace_globals st (with_ftrace_commands (fun _ => name :: l) w)) [].
Proof.
  intros Hg H. unfold register_ftrace_command, bind, read_globals. simpl.
  rewrite Hg. cbn [ftrace_commands with_ftrace_commands].
  by destruct (decide (name ∈ l)).
Qed.

Lemma register_busy (name : string) (l : list string) (w : world) st :
  globals st = with_ftrace_commands (fun _ => l) w ->
  name ∈ l ->
  register_ftrace_command errno_of name st = Done (- errno_of EBUSY) st [].
Proof.
  intros Hg H. unfold register_ftrace_command, bind, read_globals. simpl.
  rewrite Hg. cbn [ftrace_commands with_ftrace_commands].
  by destruct (decide (name ∈ l)).
Qed.

Lemma unregister_latest (name : string) (l : list string) (w : world) st :
  globals st = with_ftrace_commands (fun _ => name :: l) w ->
  unregister_ftrace_command errno_of name st
  = Done 0 (replace_globals st (with_ftrace_commands (fun _ => l) w)) [].
Proof.
  intros Hg. unfold unregister_ftrace_command, bind, read_globals. simpl.
  rewrite Hg. cbn [ftrace_commands with_ftrace_commands].
  destruct (decide (name ∈ name :: l)) as [_|Hn]; [|by destruct Hn; left].
  simpl. do 2 f_equal. unfold with_ftrace_commands.
  cbn [counts tracer_on dumps ftrace_commands remove_first].
  by destruct (decide (name = name)).
Qed.

Ltac reg_new Hnin :=
  gstep ltac:(eapply register_new;
              [reflexivity
              |rewrite ?not_elem_of_cons; repeat split; (done || exact Hnin)]);
  change (negb (0 =? 0)) with false; cbn iota.

Ltac reg_busy Hin Hbusy :=
  gstep ltac:(eapply register_busy;
              [reflexivity|rewrite ?elem_of_cons; auto]);
  rewrite Hbusy; cbn iota.

Ltac unreg :=
  gstep ltac:(eapply unregister_latest; reflexivity).

(** X19: init_func_cmd_traceon registers all five commands or none: if
    none of their names is taken it returns 0 with the five put in
    front of the list; if one is taken it returns the -EBUSY of the
    failed registration, having taken out again, latest first, those it
    had put in, so that the list is as it was. *)
Theorem init_func_cmd_traceon_all_or_nothing st :
  errno_of EBUSY <> 0 ->
  exists r st',
    init_func_cmd_traceon errno_of st = Done r st' []
    /\ (Forall (fun c => c ∉ ftrace_commands (globals st)) func_commands
        /\ r = 0
        /\ ftrace_commands (globals st')
           = (func_commands ++ ftrace_commands (globals st))%list
        \/ Exists (fun c => c ∈ ftrace_commands (globals st)) func_commands
           /\ r = - errno_of EBUSY
           /\ ftrace_commands (globals st') = ftrace_commands (globals st)).
Proof.
  intros Hne.
  assert (Hbusy : negb (- errno_of EBUSY =? 0) = true).
  { destruct (Z.eqb_spec (- errno_of EBUSY) 0); [lia|done]. }
  set (w := globals st). set (l := ftrace_commands w).
  assert (Hg : replace_globals st (with_ftrace_commands (fun _ => l) w)
               = replace_globals st w).
  { f_equal. symmetry. apply commands_replaced. }
  assert (Hst : init_func_cmd_traceon errno_of st
                = init_func_cmd_traceon errno_of
                    (replace_globals st (with_ftrace_commands (fun _ => l) w))).
  { rewrite Hg. unfold w. by destruct st. }
  rewrite Hst. clear Hst Hg.
  unfold init_func_cmd_traceon.
  destruct (decide (ftrace_traceoff_cmd ∈ l)) as [H1|H1].
  { reg_busy H1 Hbusy. eexists _, _. split; [reflexivity|]. right.
    split; [|done]. do 4 apply Exists_cons_tl. by apply Exists_cons_hd. }
  reg_new H1.
  destruct (decide (ftrace_traceon_cmd ∈ l)) as [H2|H2].
  { reg_busy H2 Hbusy. unfold out_free_traceoff. unreg.
    eexists _, _. split; [reflexivity|]. right.
    split; [|done]. do 3 apply Exists_cons_tl. by apply Exists_cons_hd. }
  reg_new H2.
  destruct (decide (ftrace_stacktrace_cmd ∈ l)) as [H3|H3].
  { reg_busy H3 Hbusy. unfold out_free_traceon, out_free_traceoff.
    unreg. unreg.
    eexists _, _. split; [reflexivity|]. right.
    split; [|done]. do 2 apply Exists_cons_tl. by apply Exists_cons_hd. }
  reg_new H3.
  destruct (decide (ftrace_dump_cmd ∈ l)) as [H4|H4].
  { reg_busy H4 Hbusy.
    unfold out_free_stacktrace, out_free_traceon, out_free_traceoff.
    unreg. unreg. unreg.
    eexists _, _. split; [reflexivity|]. right.
    split; [|done]. apply Exists_cons_tl. by apply Exists_cons_hd. }
  reg_new H4.
  destruct (decide (ftrace_cpudump_cmd ∈ l)) as [H5|H5].
  { reg_busy H5 Hbusy.
    unfold out_free_dump, out_free_stacktrace, out_free_traceon,
      out_free_traceoff.
    unreg. unreg. unreg. unreg.
    eexists _, _. split; [reflexivity|]. right.
    split; [|done]. by apply Exists_cons_hd. }
  reg_new H5.
  eexists _, _. split; [reflexivity|]. left.
  split; [|done]. by repeat constructor.
Qed.

End TraceFunctionsFacts.

Section TraceFunctionsSamples.

Import TraceFunctions.

Lemma ftrace_dump_probe_counts_witness :
  exists st',
    repeated 3 (ftrace_dump_probe 4096 0 1 64) sample_tf_state
    = Done tt st' []
    /\ counts (globals st') !! (64, 4096) = Some (2 - Z.min 2 (Z.of_nat 3))
    /\ dumps (globals st')
       = (replicate (Z.to_nat (Z.min 2 (Z.of_nat 3))) DUMP_ALL
          ++ dumps (globals sample_tf_state))%list.
Proof.
  apply (ftrace_dump_probe_counts 3 4096 0 1 64 2 sample_tf_state);
    [lia | reflexivity | lia].
Defined.

Lemma update_traceon_count_once_witness :
  exists st',
    repeated 2 (update_traceon_count 4096 1 false 64) sample_tf_state
    = Done tt st' []
    /\ tracer_on (globals st') !! 1 = Some false
    /\ counts (globals st') !! (64, 4096) = Some (2 - 1).
Proof.
  apply (update_traceon_count_once 2 4096 1 64 2 false sample_tf_state);
    [reflexivity | lia | reflexivity | lia].
Defined.

Lemma init_func_cmd_traceon_all_or_nothing_witness :
  exists r st',
    init_func_cmd_traceon linux_errno sample_tf_state = Done r st' []
    /\ (Forall (fun c => c ∉ ftrace_commands (globals sample_tf_state))
          func_commands
        /\ r = 0
        /\ ftrace_commands (globals st')
           = (func_commands ++ ftrace_commands (globals sample_tf_state))%list
        \/ Exists (fun c => c ∈ ftrace_commands (globals sample_tf_state))
             func_commands
           /\ r = - linux_errno EBUSY
           /\ ftrace_commands (globals st')
              = ftrace_commands (globals sample_tf_state)).
Proof.
  apply (init_func_cmd_traceon_all_or_nothing linux_errno sample_tf_state).
  simpl. lia.
Defined.

End TraceFunctionsSamples.

(** ** net/ethtool/channels.c *)

Section EthtoolChannelsFacts.

Import EthtoolChannels.

Context {Other : Type}.
Variable errno_of : errname -> Z.
Variable errno_ext : errname_ext -> Z.
Implicit Types st : kstate Other world.

Ltac wnorm :=
  unfold replace_globals, with_devices, with_rtnl_held, with_notified,
    with_extack;
  cbn [globals ctx_in_task current tasks devices rtnl_held notified extack].

Lemma read_dev_run (dev : Z) (d : net_device) st :
  devices (globals st) !! dev = Some d -> read_dev dev st = Done d st [].
Proof. intros H. unfold read_dev, bind, read_globals. simpl. by rewrite H. Qed.

Lemma update_dev_run (dev : Z) (f : net_device -> net_device)
    (d : net_device) st :
  devices (globals st) !! dev = Some d ->
  update_dev dev f st
  = Done tt (replace_globals st (with_devices <[dev := f d]> (globals st))) [].
Proof.
  intros H. unfold update_dev, bind, read_globals. simpl. by rewrite H.
Qed.

Lemma dev_put_run (dev : Z) (d : net_device) st :
  devices (globals st) !! dev = Some d ->
  0 < refcnt d ->
  dev_put dev st
  = Done tt
      (replace_globals st
         (with_devices <[dev := with_refcnt (fun n => n - 1) d]>
            (globals st))) [].
Proof.
  intros H Hn. unfold dev_put.
  gstep ltac:(apply read_dev_run; exact H).
  destruct (Z.leb_spec (refcnt d) 0); [lia|].
  by apply update_dev_run.
Qed.

Lemma rtnl_lock_run st :
  rtnl_held (globals st) = false ->
  rtnl_lock st
  = Done tt (replace_globals st (with_rtnl_held true (globals st))) [].
Proof. intros H. unfold rtnl_lock, bind, read_globals. simpl. by rewrite H. Qed.

Lemma rtnl_unlock_run st :
  rtnl_held (globals st) = true ->
  rtnl_unlock st
  = Done tt (replace_globals st (with_rtnl_held false (globals st))) [].
Proof.
  intros H. unfold rtnl_unlock, bind, read_globals. simpl. by rewrite H.
Qed.

Lemma ethnl_ops_begin_run (dev : Z) (d : net_device) st :
  devices (globals st) !! dev = Some d ->
  ethnl_ops_begin dev st
  = Done (begin_ret d)
      (if begin_ret d <? 0 then st
       else replace_globals st
              (with_devices <[dev := with_ops_begun (fun n => n + 1) d]>
                 (globals st))) [].
Proof.
  intros H. unfold ethnl_ops_begin.
  gstep ltac:(apply read_dev_run; exact H).
  destruct (begin_ret d <? 0); [done|].
  gstep ltac:(apply update_dev_run; exact H). done.
Qed.

Lemma ethnl_ops_complete_run (dev : Z) (d : net_device) st :
  devices (globals st) !! dev = Some d ->
  0 < ops_begun d ->
  ethnl_ops_complete dev st
  = Done tt
      (replace_globals st
         (with_devices <[dev := with_ops_begun (fun n => n - 1) d]>
            (globals st))) [].
Proof.
  intros H Hn. unfold ethnl_ops_complete.
  gstep ltac:(apply read_dev_run; exact H).
  destruct (Z.leb_spec (ops_begun d) 0); [lia|].
  by apply update_dev_run.
Qed.

Lemma get_channels_run (dev : Z) (d : net_device) st :
  devices (globals st) !! dev = Some d ->
  has_get_channels d = true ->
  get_channels dev st = Done (reported d) st [].
Proof.
  intros H Hg. unfold get_channels.
  gstep ltac:(apply read_dev_run; exact H). by rewrite Hg.
Qed.

Lemma set_channels_run (dev : Z) (d : net_device) (c : ethtool_channels) st :
  devices (globals st) !! dev = Some d ->
  has_set_channels d = true ->
  set_channels dev c st
  = Done (set_channels_ret d c)
      (replace_globals st
         (with_devices <[dev := with_set_channels c d]> (globals st))) [].
Proof.
  intros H Hs. unfold set_channels.
  gstep ltac:(apply read_dev_run; exact H). rewrite Hs.
  gstep ltac:(apply update_dev_run; exact H). done.
Qed.

(** The three labels give back what is held when they are reached. *)
Lemma out_dev_run (dev r : Z) (d : net_device) st :
  devices (globals st) !! dev = Some d ->
  0 < refcnt d ->
  out_dev dev r st
  = Done r
      (replace_globals st
         (with_devices <[dev := with_refcnt (fun n => n - 1) d]>
            (globals st))) [].
Proof.
  intros H Hn. unfold out_dev.
  gstep ltac:(apply dev_put_run; [exact H|exact Hn]). done.
Qed.

Lemma out_rtnl_run (dev r : Z) (d : net_device) st :
  devices (globals st) !! dev = Some d ->
  0 < refcnt d ->
  rtnl_held (globals st) = true ->
  out_rtnl dev r st
  = Done r
      (replace_globals st
         (with_devices <[dev := with_refcnt (fun n => n - 1) d]>
            (with_rtnl_held false (globals st)))) [].
Proof.
  intros H Hn Hl. unfold out_rtnl.
  gstep ltac:(apply rtnl_unlock_run; exact Hl).
  by erewrite out_dev_run.
Qed.

Lemma out_ops_run (dev r : Z) (d : net_device) st :
  devices (globals st) !! dev = Some d ->
  0 < refcnt d ->
  0 < ops_begun d ->
  rtnl_held (globals st) = true ->
  out_ops dev r st
  = Done r
      (replace_globals st
         (with_devices
            <[dev := with_refcnt (fun n => n - 1)
                       (with_ops_begun (fun n => n - 1) d)]>
            (with_rtnl_held false (globals st)))) [].
Proof.
  intros H Hn Hb Hl. unfold out_ops.
  gstep ltac:(apply ethnl_ops_complete_run; [exact H|exact Hb]).
  erewrite out_rtnl_run; [|by apply lookup_insert_eq|done|done].
  wnorm. by rewrite insert_insert_eq.
Qed.

Lemma held_at (dev : Z) (d : net_device) (ds : gmap Z net_device)
    (b : bool) (n : list Z) (e : option netlink_ext_ack) :
  held dev {| devices := <[dev := d]> ds; rtnl_held := b; notified := n;
              extack := e |}
  = Some (b, refcnt d, ops_begun d).
Proof. unfold held. cbn [devices rtnl_held]. by rewrite lookup_insert_eq. Qed.

Lemma held_eq (b b' : bool) (r r' o o' : Z) :
  b = b' -> r = r' -> o = o' -> Some (b, r, o) = Some (b', r', o').
Proof. by intros -> -> ->. Qed.

Lemma current_valid_replace_globals st (w : world) :
  current_valid st -> current_valid (replace_globals st w).
Proof. done. Qed.

Lemma direct_return_1 (f : cstr) (x : Z) :
  direct_return [mk_rec_call f 154 x] = false.
Proof. reflexivity. Qed.

Lemma direct_return_2 (f g : cstr) (l x y : Z) :
  direct_return [mk_rec_call f 154 x; mk_rec_call g l y]
  = (l =? 219) || (l =? 228).
Proof. unfold direct_return. cbn. by rewrite orb_false_r. Qed.

Ltac errstep st0 Hv0 L X :=
  let st' := fresh "st" in
  let Hrun := fresh "Hrun" in
  let Hg := fresh "Hg" in
  let Hv' := fresh "Hv" in
  let ctx' := fresh "ctx" in
  let cur' := fresh "cur" in
  let ts' := fresh "ts" in
  let w' := fresh "w" in
  destruct (neg_ERR_ret st0 channels_c L X)
    as (st' & Hrun & Hg & Hv' & _); [lia|exact Hv0|];
  first [ rewrite Hrun | erewrite bind_emits; [|exact Hrun] ];
  clear Hrun;
  destruct st' as [ctx' cur' ts' w']; cbn [globals replace_globals] in Hg;
  subst w'.

Ltac dev_lookup := wnorm; first [eassumption | apply lookup_insert_eq].

Ltac unfold_dev :=
  unfold with_refcnt, with_ops_begun, with_set_channels;
  cbn [refcnt ops_begun has_get_channels has_set_channels begin_ret reported
       set_channels_ret set_channels_calls rxfh_configured max_rxfh_channel
       max_rxfh_channel_ret
       umem_qids].

Ltac side :=
  first [ dev_lookup
        | unfold_dev; first [reflexivity | lia | eassumption]
        | wnorm; reflexivity ].

Ltac dstep lem := gstep ltac:(eapply lem; side); wnorm.

Ltac wstep :=
  gstep ltac:(unfold NL_SET_ERR_MSG_ATTR, GENL_SET_ERR_MSG, ethtool_notify,
              rtnl_lock, bind, read_globals, write_globals; reflexivity);
  wnorm.

Ltac err L X :=
  match goal with
  | Hv : current_valid _
    |- context [bind (bind (ERR channels_c L _) _) _ ?s] => errstep s Hv L X
  | Hv : current_valid _
    |- context [bind (ERR channels_c L _) _ ?s] => errstep s Hv L X
  end.

Ltac branch H :=
  match goal with
  | |- context [(if ?c then _ else _) _] => destruct c eqn:H
  end.

Ltac label lem :=
  erewrite lem; [|side..]; wnorm.

Ltac held_done :=
  cbn iota; eexists _, _, _; split; [reflexivity|];
  cbn [app globals]; rewrite ?direct_return_1, ?direct_return_2;
  rewrite held_at; unfold_dev; cbn [orb Z.eqb Pos.eqb];
  apply held_eq; [reflexivity|lia|lia].

(** X20: ethnl_set_channels gives back what it took on every return but
    two.  With the rtnl mutex free at entry, the call returns, and the
    mutex is free again, every begun operation is completed and the
    reference count of the device is what it was, unless the call left
    through one of the two [return -ERR(EINVAL);] of lines 219 and 228,
    which skip the labels: then the mutex is still held, the operation
    is still begun and the reference is still taken. *)
Theorem ethnl_set_channels_holds (info : genl_info) (d : net_device) st :
  current_valid st ->
  devices (globals st) !! header_dev info = Some d ->
  rtnl_held (globals st) = false ->
  0 <= refcnt d ->
  0 <= ops_begun d ->
  exists r st' calls,
    ethnl_set_channels errno_of errno_ext info st = Done r st' calls
    /\ held (header_dev info) (globals st')
       = if direct_return calls
         then Some (true, refcnt d + 1, ops_begun d + 1)
         else Some (false, refcnt d, ops_begun d).
Proof.
  intros Hv Hd Hl Hn Hb. unfold ethnl_set_channels.
  set (dev := header_dev info) in *.
  gstep ltac:(reflexivity).
  assert (Hheld : held dev (globals st) = Some (false, refcnt d, ops_begun d)).
  { unfold held. by rewrite Hd, Hl. }
  destruct (nlmsg_parse_ret info <? 0); [by exists (nlmsg_parse_ret info), st, []|].
  unfold ethnl_parse_header_dev_get. fold dev.
  destruct (header_ret info <? 0) eqn:Hh.
  { gstep ltac:(reflexivity). rewrite Hh.
    by exists (header_ret info), st, []. }
  clear Hheld.
  destruct st as [ctx cur ts [ds b n e]]. cbn [globals devices rtnl_held] in *.
  subst b.
  gstep ltac:(apply update_dev_run; exact Hd). wnorm.
  gstep ltac:(reflexivity). change (0 <? 0) with false. cbn iota.
  dstep read_dev_run.
  match goal with
  | |- context [bind _ _ ?s] => errstep s Hv 154 (errno_ext EOPNOTSUPP)
  end.
  unfold_dev.
  destruct (has_get_channels d) eqn:Hget; cbn [negb orb];
    [destruct (has_set_channels d) eqn:Hset; cbn [negb]|].
  2,3: label out_dev_run; held_done.
  wstep.
  dstep ethnl_ops_begin_run. unfold_dev.
  destruct (begin_ret d <? 0) eqn:Hbeg.
  { label out_rtnl_run. held_done. }
  dstep get_channels_run. unfold_dev.
  destruct (ethnl_update_u32 _ _ _) as [v0 m0].
  destruct (ethnl_update_u32 _ _ _) as [v1 m1].
  destruct (ethnl_update_u32 _ _ _) as [v2 m2].
  destruct (ethnl_update_u32 _ _ _) as [v3 mc].
  branch Hmod.
  { label out_ops_run. held_done. }
  branch Hlim.
  { err 191 (errno_of EINVAL). wstep. label out_ops_run. held_done. }
  branch Hnone.
  { err 207 (errno_of EINVAL). wstep. label out_ops_run. held_done. }
  dstep read_dev_run. unfold_dev.
  destruct (if rxfh_configured d then _ else _) as [rxfh_ret max_rx_in_use].
  branch Hrxfh.
  { wstep. err 219 (errno_of EINVAL). held_done. }
  dstep read_dev_run. unfold_dev.
  branch Humem.
  { wstep. err 228 (errno_of EINVAL). held_done. }
  dstep set_channels_run. unfold_dev.
  branch Hset_ret.
  { label out_ops_run. held_done. }
  wstep. label out_ops_run. held_done.
Qed.

Lemma update_eq (dst : Z) (attr : option Z) (m : bool) :
  ethnl_update_u32 dst attr m
  = (default dst attr, m || negb (default dst attr =? dst)).
Proof.
  destruct attr as [val|]; cbn.
  - rewrite (Z.eqb_sym val dst). destruct (dst =? val) eqn:E.
    + apply Z.eqb_eq in E. subst val. by rewrite orb_false_r.
    + by rewrite orb_true_r.
  - by rewrite Z.eqb_refl, orb_false_r.
Qed.

(** The loop over the queue ids finds a umem exactly when one of the
    ids it runs through is, once narrowed, a queue with a umem. *)
Lemma umem_loop_spec (d : net_device) (n : nat) (i : Z) :
  umem_loop d n i = true
  <-> exists j, i <= j < i + Z.of_nat n /\ j mod 2 ^ 16 ∈ umem_qids d.
Proof.
  revert i. induction n as [|n IH]; intros i; cbn [umem_loop].
  - split; [done|]. intros (j & H & _). lia.
  - unfold xdp_get_umem_from_qid, wrap_unsigned. case_bool_decide as Hi.
    + split; [|done]. intros _. exists i. split; [lia|done].
    + rewrite IH. split; intros (j & Hj & H); exists j; (split; [|done]).
      * lia.
      * assert (j <> i) by (by intros ->). lia.
Qed.

(** [gives_up] tells in closed form whether an id of the range is
    narrowed to the queue. *)
Lemma gives_up_spec (old new : ethtool_channels) (q : Z) :
  gives_up old new q = true
  <-> exists j,
        to_uint (combined_count new + Z.min (rx_count new) (tx_count new))
        <= j
        < to_uint (combined_count old + Z.max (rx_count old) (tx_count old))
        /\ j mod 2 ^ 16 = q.
Proof.
  unfold gives_up.
  set (from_channel := to_uint (combined_count new + _)).
  set (old_total := to_uint (combined_count old + _)).
  rewrite !andb_true_iff, Z.leb_le, !Z.ltb_lt.
  assert (HM : 0 < 2 ^ 16) by lia.
  split.
  - intros [[Hq0 Hq1] Hlt].
    exists (from_channel + (q - from_channel) mod 2 ^ 16).
    pose proof (Z.mod_pos_bound (q - from_channel) (2 ^ 16) HM).
    split; [lia|].
    rewrite Zplus_mod_idemp_r.
    replace (from_channel + (q - from_channel)) with q by lia.
    apply Z.mod_small. lia.
  - intros (j & Hj & <-).
    pose proof (Z.mod_pos_bound j (2 ^ 16) HM).
    split; [lia|].
    assert (E : (j mod 2 ^ 16 - from_channel) mod 2 ^ 16
                = (j - from_channel) mod 2 ^ 16).
    { rewrite Zminus_mod_idemp_l. done. }
    rewrite E.
    pose proof (Z.mod_le (j - from_channel) (2 ^ 16)). lia.
Qed.

Lemma umem_loop_gives_up (d : net_device) (old new : ethtool_channels) :
  umem_loop d
    (Z.to_nat
       (to_uint (combined_count old + Z.max (rx_count old) (tx_count old))
        - to_uint (combined_count new
                   + Z.min (rx_count new) (tx_count new))))
    (to_uint (combined_count new + Z.min (rx_count new) (tx_count new)))
  = existsb (gives_up old new) (umem_qids d).
Proof.
  apply eq_true_iff_eq. rewrite umem_loop_spec, existsb_exists.
  setoid_rewrite gives_up_spec.
  set (from_channel := to_uint (combined_count new + _)).
  set (old_total := to_uint (combined_count old + _)).
  split.
  - intros (j & Hj & Hin). exists (j mod 2 ^ 16).
    split; [by apply list_elem_of_In|]. exists j. split; [lia|done].
  - intros (q & Hq & j & Hj & <-). exists j.
    split; [lia|by apply list_elem_of_In].
Qed.

Ltac chan_norm :=
  unfold requested, set_rx_count, set_tx_count, set_other_count,
    set_combined_count in *;
  cbn [max_rx max_tx max_other max_combined rx_count tx_count other_count
       combined_count] in *.

(** X21: what happens to a request that passes the checks of its counts.
    For a request that changes a count, stays within the maxima and
    keeps an RX and a TX channel: if the flow indirection table set by
    the user needs more RX queues, or a queue that is given up has an
    AF_XDP umem, the call returns -EINVAL without calling the driver,
    and with the mutex, the operation and the reference still held;
    otherwise it hands the requested counts to the driver's
    set_channels, returns what that returns, and holds nothing. *)
Theorem ethnl_set_channels_late_checks (info : genl_info) (d : net_device)
    st :
  current_valid st ->
  devices (globals st) !! header_dev info = Some d ->
  rtnl_held (globals st) = false ->
  0 <= refcnt d ->
  0 <= ops_begun d ->
  0 <= nlmsg_parse_ret info ->
  0 <= header_ret info ->
  has_get_channels d = true ->
  has_set_channels d = true ->
  0 <= begin_ret d ->
  let c := requested (attrs info) (reported d) in
  c <> reported d ->
  within_limits c ->
  combined_count c <> 0 \/ (rx_count c <> 0 /\ tx_count c <> 0) ->
  exists r st' calls d',
    ethnl_set_channels errno_of errno_ext info st = Done r st' calls
    /\ devices (globals st') !! header_dev info = Some d'
    /\ if rxfh_too_low d c || umem_given_up d c
       then r = - errno_of EINVAL
            /\ set_channels_calls d' = set_channels_calls d
            /\ held (header_dev info) (globals st')
               = Some (true, refcnt d + 1, ops_begun d + 1)
       else r = set_channels_ret d c
            /\ set_channels_calls d' = c :: set_channels_calls d
            /\ held (header_dev info) (globals st')
               = Some (false, refcnt d, ops_begun d).
Proof.
  intros Hv Hd Hl Hn Hb Hparse Hhdr Hget Hset Hbeg c Hc Hlim Hany.
  unfold ethnl_set_channels.
  set (dev := header_dev info) in *.
  gstep ltac:(reflexivity).
  destruct (Z.ltb_spec (nlmsg_parse_ret info) 0) as [|_]; [lia|].
  unfold ethnl_parse_header_dev_get. fold dev.
  destruct (Z.ltb_spec (header_ret info) 0) as [|_]; [lia|].
  destruct st as [ctx cur ts [ds b n e]]. cbn [globals devices rtnl_held] in *.
  subst b.
  gstep ltac:(apply update_dev_run; exact Hd). wnorm.
  gstep ltac:(reflexivity). change (0 <? 0) with false. cbn iota.
  dstep read_dev_run.
  err 154 (errno_ext EOPNOTSUPP).
  unfold_dev. rewrite Hget, Hset. cbn [negb orb].
  wstep.
  dstep ethnl_ops_begin_run. unfold_dev.
  destruct (Z.ltb_spec (begin_ret d) 0) as [|_]; [lia|].
  dstep get_channels_run. unfold_dev.
  do 4 (rewrite update_eq; cbn beta iota).
  subst c. chan_norm.
  set (rx' := default (rx_count (reported d))
                (attrs info ETHTOOL_A_CHANNELS_RX_COUNT)) in *.
  set (tx' := default (tx_count (reported d))
                (attrs info ETHTOOL_A_CHANNELS_TX_COUNT)) in *.
  set (other' := default (other_count (reported d))
                   (attrs info ETHTOOL_A_CHANNELS_OTHER_COUNT)) in *.
  set (combined' := default (combined_count (reported d))
                      (attrs info ETHTOOL_A_CHANNELS_COMBINED_COUNT)) in *.
  branch Hmod.
  { exfalso. apply Hc.
    rewrite negb_true_iff, !orb_false_iff, !negb_false_iff, !Z.eqb_eq in Hmod.
    destruct (reported d); cbn in *. f_equal; tauto. }
  branch Hlim'.
  { exfalso. apply bool_decide_eq_true in Hlim'.
    destruct Hlim as (? & ? & ? & ?). cbn in *.
    repeat match type of Hlim' with
           | context [?a >? ?b] => destruct (Z.gtb_spec a b); [lia|]
           end.
    by destruct Hlim'. }
  branch Hnone.
  { exfalso. apply bool_decide_eq_true in Hnone.
    repeat match type of Hnone with
           | context [?a =? ?b] => destruct (Z.eqb_spec a b)
           end; cbn in *; try (by destruct Hnone); lia. }
  clear Hmod Hlim' Hnone.
  set (c := {| max_rx := max_rx (reported d); combined_count := combined' |})
    in *.
  dstep read_dev_run. unfold_dev.
  assert (Hrx : exists rr mx,
    (if rxfh_configured d
     then ethtool_get_max_rxfh_channel
            {| refcnt := refcnt d + 1; has_get_channels := true;
               has_set_channels := true; begin_ret := begin_ret d;
               ops_begun := ops_begun d + 1; reported := reported d;
               set_channels_ret := set_channels_ret d;
               set_channels_calls := set_channels_calls d;
               rxfh_configured := rxfh_configured d;
               max_rxfh_channel_ret := max_rxfh_channel_ret d;
               max_rxfh_channel := max_rxfh_channel d;
               umem_qids := umem_qids d |} 0
     else (0, 0)) = (rr, mx)
    /\ rxfh_configured d && (rr =? 0) && (to_uint (combined' + rx') <=? mx)
       = rxfh_too_low d c).
  { unfold ethtool_get_max_rxfh_channel, rxfh_too_low. unfold_dev.
    destruct (rxfh_configured d); [|by eexists _, _].
    destruct (max_rxfh_channel_ret d =? 0) eqn:E; eexists _, _;
      (split; [reflexivity|]); [done|by rewrite E]. }
  destruct Hrx as (rr & mx & -> & ->).
  destruct (rxfh_too_low d c) eqn:Hlow; cbn [orb].
  { wstep. err 219 (errno_of EINVAL). cbn iota.
    eexists _, _, _, _. split; [reflexivity|].
    split; [wnorm; apply lookup_insert_eq|]. unfold_dev.
    split; [done|]. split; [done|].
    wnorm. rewrite held_at. unfold_dev. done. }
  dstep read_dev_run. unfold_dev.
  rewrite (umem_loop_gives_up _ (reported d) c). unfold_dev.
  fold (umem_given_up d c).
  destruct (umem_given_up d c) eqn:Humem.
  { wstep. err 228 (errno_of EINVAL). cbn iota.
    eexists _, _, _, _. split; [reflexivity|].
    split; [wnorm; apply lookup_insert_eq|]. unfold_dev.
    split; [done|]. split; [done|].
    wnorm. rewrite held_at. unfold_dev. done. }
  dstep set_channels_run. unfold_dev.
  branch Hret.
  - label out_ops_run. cbn iota.
    eexists _, _, _, _. split; [reflexivity|].
    split; [wnorm; apply lookup_insert_eq|]. unfold_dev.
    split; [done|]. split; [done|].
    wnorm. rewrite held_at. unfold_dev. apply held_eq; [done|lia|lia].
  - wstep. label out_ops_run. cbn iota.
    eexists _, _, _, _. split; [reflexivity|].
    split; [wnorm; apply lookup_insert_eq|]. unfold_dev.
    split; [done|]. split; [done|].
    wnorm. rewrite held_at. unfold_dev. apply held_eq; [done|lia|lia].
Qed.

Ltac no_call Hd :=
  cbn iota; eexists _, _, _, _; split; [reflexivity|];
  split; [wnorm; first [exact Hd | apply lookup_insert_eq]|];
  unfold_dev; left; reflexivity.

(** X22: the driver never gets a count above a maximum it reported.  If
    the counts that get_channels reports are within its maxima, a call
    of ethnl_set_channels makes at most one call of the driver's
    set_channels, with the requested counts, and these are within the
    maxima. *)
Theorem ethnl_set_channels_within_limits (info : genl_info) (d : net_device)
    st :
  current_valid st ->
  devices (globals st) !! header_dev info = Some d ->
  rtnl_held (globals st) = false ->
  0 <= refcnt d ->
  0 <= ops_begun d ->
  within_limits (reported d) ->
  exists r st' calls d',
    ethnl_set_channels errno_of errno_ext info st = Done r st' calls
    /\ devices (globals st') !! header_dev info = Some d'
    /\ (set_channels_calls d' = set_channels_calls d
        \/ exists c,
             set_channels_calls d' = c :: set_channels_calls d
             /\ c = requested (attrs info) (reported d)
             /\ within_limits c).
Proof.
  intros Hv Hd Hl Hn Hb Hrep. unfold ethnl_set_channels.
  set (dev := header_dev info) in *.
  gstep ltac:(reflexivity).
  destruct (nlmsg_parse_ret info <? 0).
  { exists (nlmsg_parse_ret info), st, [], d. by repeat split; [|left]. }
  unfold ethnl_parse_header_dev_get. fold dev.
  destruct (header_ret info <? 0) eqn:Hh.
  { gstep ltac:(reflexivity). rewrite Hh.
    exists (header_ret info), st, [], d. by repeat split; [|left]. }
  destruct st as [ctx cur ts [ds b n e]]. cbn [globals devices rtnl_held] in *.
  subst b.
  gstep ltac:(apply update_dev_run; exact Hd). wnorm.
  gstep ltac:(reflexivity). change (0 <? 0) with false. cbn iota.
  dstep read_dev_run.
  err 154 (errno_ext EOPNOTSUPP).
  unfold_dev.
  destruct (has_get_channels d) eqn:Hget; cbn [negb orb];
    [destruct (has_set_channels d) eqn:Hset; cbn [negb]|].
  2,3: label out_dev_run; no_call Hd.
  wstep.
  dstep ethnl_ops_begin_run. unfold_dev.
  destruct (begin_ret d <? 0) eqn:Hbeg.
  { label out_rtnl_run. no_call Hd. }
  dstep get_channels_run. unfold_dev.
  do 4 (rewrite update_eq; cbn beta iota).
  chan_norm.
  branch Hmod.
  { label out_ops_run. no_call Hd. }
  branch Hlim.
  { err 191 (errno_of EINVAL). wstep. label out_ops_run. no_call Hd. }
  branch Hnone.
  { err 207 (errno_of EINVAL). wstep. label out_ops_run. no_call Hd. }
  dstep read_dev_run. unfold_dev.
  destruct (if rxfh_configured d then _ else _) as [rxfh_ret max_rx_in_use].
  branch Hrxfh.
  { wstep. err 219 (errno_of EINVAL). no_call Hd. }
  dstep read_dev_run. unfold_dev.
  branch Humem.
  { wstep. err 228 (errno_of EINVAL). no_call Hd. }
  assert (Hreq : within_limits (requested (attrs info) (reported d))).
  { clear -Hlim Hrep. apply bool_decide_eq_false in Hlim.
    destruct Hrep as (? & ? & ? & ?). unfold within_limits, tb_ptr in *.
    chan_norm.
    destruct (attrs info ETHTOOL_A_CHANNELS_RX_COUNT);
      destruct (attrs info ETHTOOL_A_CHANNELS_TX_COUNT);
      destruct (attrs info ETHTOOL_A_CHANNELS_OTHER_COUNT);
      destruct (attrs info ETHTOOL_A_CHANNELS_COMBINED_COUNT);
      cbn [default] in *;
      repeat match type of Hlim with
             | context [?a >? ?b] => destruct (Z.gtb_spec a b)
             end;
      first [lia | by (exfalso; apply Hlim)]. }
  dstep set_channels_run. unfold_dev.
  branch Hret.
  - label out_ops_run. cbn iota.
    eexists _, _, _, _. split; [reflexivity|].
    split; [wnorm; apply lookup_insert_eq|]. unfold_dev.
    right. eexists. split; [reflexivity|]. split; [reflexivity|]. exact Hreq.
  - wstep. label out_ops_run. cbn iota.
    eexists _, _, _, _. split; [reflexivity|].
    split; [wnorm; apply lookup_insert_eq|]. unfold_dev.
    right. eexists. split; [reflexivity|]. split; [reflexivity|]. exact Hreq.
Qed.

(** X23: the check for at least one RX channel tests the attribute, not
    the count.  A request without an RX_COUNT attribute that leaves no
    combined and no RX channel (a device with combined channels only,
    asked for zero of them) is not refused: with no indirection table
    and no umem in the way, the requested counts reach the driver's
    set_channels. *)
Theorem ethnl_set_channels_no_rx_left (info : genl_info) (d : net_device)
    st :
  current_valid st ->
  devices (globals st) !! header_dev info = Some d ->
  rtnl_held (globals st) = false ->
  0 <= refcnt d ->
  0 <= ops_begun d ->
  0 <= nlmsg_parse_ret info ->
  0 <= header_ret info ->
  has_get_channels d = true ->
  has_set_channels d = true ->
  0 <= begin_ret d ->
  let c := requested (attrs info) (reported d) in
  c <> reported d ->
  within_limits c ->
  attrs info ETHTOOL_A_CHANNELS_RX_COUNT = None ->
  combined_count c = 0 ->
  rx_count c = 0 ->
  rxfh_too_low d c = false ->
  umem_given_up d c = false ->
  exists st' calls d',
    ethnl_set_channels errno_of errno_ext info st
    = Done (set_channels_ret d c) st' calls
    /\ devices (globals st') !! header_dev info = Some d'
    /\ set_channels_calls d' = c :: set_channels_calls d.
Proof.
  intros Hv Hd Hl Hn Hb Hparse Hhdr Hget Hset Hbeg c Hc Hlim Hrx Hcomb0 Hrx0
    Hlow Humem.
  unfold ethnl_set_channels.
  set (dev := header_dev info) in *.
  gstep ltac:(reflexivity).
  destruct (Z.ltb_spec (nlmsg_parse_ret info) 0) as [|_]; [lia|].
  unfold ethnl_parse_header_dev_get. fold dev.
  destruct (Z.ltb_spec (header_ret info) 0) as [|_]; [lia|].
  destruct st as [ctx cur ts [ds b n e]]. cbn [globals devices rtnl_held] in *.
  subst b.
  gstep ltac:(apply update_dev_run; exact Hd). wnorm.
  gstep ltac:(reflexivity). change (0 <? 0) with false. cbn iota.
  dstep read_dev_run.
  err 154 (errno_ext EOPNOTSUPP).
  unfold_dev. rewrite Hget, Hset. cbn [negb orb].
  wstep.
  dstep ethnl_ops_begin_run. unfold_dev.
  destruct (Z.ltb_spec (begin_ret d) 0) as [|_]; [lia|].
  dstep get_channels_run. unfold_dev.
  do 4 (rewrite update_eq; cbn beta iota).
  subst c. chan_norm.
  set (rx' := default (rx_count (reported d))
                (attrs info ETHTOOL_A_CHANNELS_RX_COUNT)) in *.
  set (tx' := default (tx_count (reported d))
                (attrs info ETHTOOL_A_CHANNELS_TX_COUNT)) in *.
  set (other' := default (other_count (reported d))
                   (attrs info ETHTOOL_A_CHANNELS_OTHER_COUNT)) in *.
  set (combined' := default (combined_count (reported d))
                      (attrs info ETHTOOL_A_CHANNELS_COMBINED_COUNT)) in *.
  branch Hmod.
  { exfalso. apply Hc.
    rewrite negb_true_iff, !orb_false_iff, !negb_false_iff, !Z.eqb_eq in Hmod.
    destruct (reported d); cbn in *. f_equal; tauto. }
  branch Hlim'.
  { exfalso. apply bool_decide_eq_true in Hlim'.
    destruct Hlim as (? & ? & ? & ?). cbn in *.
    repeat match type of Hlim' with
           | context [?a >? ?b] => destruct (Z.gtb_spec a b); [lia|]
           end.
    by destruct Hlim'. }
  branch Hnone.
  { exfalso. apply bool_decide_eq_true in Hnone.
    rewrite Hcomb0, Hrx0 in Hnone. cbn [Z.eqb andb] in Hnone.
    unfold tb_ptr in Hnone. rewrite Hrx in Hnone. by destruct Hnone. }
  clear Hmod Hlim' Hnone.
  set (c := {| max_rx := max_rx (reported d); combined_count := combined' |})
    in *.
  dstep read_dev_run. unfold_dev.
  assert (Hrxfh : exists rr mx,
    (if rxfh_configured d
     then ethtool_get_max_rxfh_channel
            {| refcnt := refcnt d + 1; has_get_channels := true;
               has_set_channels := true; begin_ret := begin_ret d;
               ops_begun := ops_begun d + 1; reported := reported d;
               set_channels_ret := set_channels_ret d;
               set_channels_calls := set_channels_calls d;
               rxfh_configured := rxfh_configured d;
               max_rxfh_channel_ret := max_rxfh_channel_ret d;
               max_rxfh_channel := max_rxfh_channel d;
               umem_qids := umem_qids d |} 0
     else (0, 0)) = (rr, mx)
    /\ rxfh_configured d && (rr =? 0) && (to_uint (combined' + rx') <=? mx)
       = rxfh_too_low d c).
  { unfold ethtool_get_max_rxfh_channel, rxfh_too_low. unfold_dev.
    destruct (rxfh_configured d); [|by eexists _, _].
    destruct (max_rxfh_channel_ret d =? 0) eqn:E; eexists _, _;
      (split; [reflexivity|]); [done|by rewrite E]. }
  destruct Hrxfh as (rr & mx & -> & ->). rewrite Hlow.
  dstep read_dev_run. unfold_dev.
  rewrite (umem_loop_gives_up _ (reported d) c). unfold_dev.
  fold (umem_given_up d c). rewrite Humem.
  dstep set_channels_run. unfold_dev.
  branch Hret.
  - label out_ops_run. cbn iota.
    eexists _, _, _. split; [reflexivity|].
    split; [wnorm; apply lookup_insert_eq|]. unfold_dev. done.
  - wstep. label out_ops_run. cbn iota.
    eexists _, _, _. split; [reflexivity|].
    split; [wnorm; apply lookup_insert_eq|]. unfold_dev. done.
Qed.


End EthtoolChannelsFacts.

Section EthtoolChannelsSamples.

Import EthtoolChannels.

Lemma sample_eth_state_valid (configured : bool) (in_use : Z)
    (umems : list Z) :
  current_valid (sample_eth_state configured in_use umems).
Proof. intros _. by eexists. Qed.

Lemma ethnl_set_channels_holds_witness :
  exists r st' calls,
    ethnl_set_channels linux_errno linux_errno_ext (sample_request 2)
      (sample_eth_state true 3 [])
    = Done r st' calls
    /\ held 4096 (globals st')
       = if direct_return calls
         then Some (true, 2, 1)
         else Some (false, 1, 0).
Proof.
  apply (ethnl_set_channels_holds linux_errno linux_errno_ext
           (sample_request 2) (sample_device true 3 [])
           (sample_eth_state true 3 []));
    [apply sample_eth_state_valid | reflexivity | reflexivity
    | simpl; lia | simpl; lia].
Defined.

Lemma ethnl_set_channels_late_checks_witness :
  exists r st' calls d',
    ethnl_set_channels linux_errno linux_errno_ext (sample_request 65538)
      (sample_wide_state [3])
    = Done r st' calls
    /\ devices (globals st') !! 4096 = Some d'
    /\ r = - linux_errno EINVAL
    /\ set_channels_calls d' = []
    /\ held 4096 (globals st') = Some (true, 2, 1).
Proof.
  apply (ethnl_set_channels_late_checks linux_errno linux_errno_ext
           (sample_request 65538) (sample_wide_device [3])
           (sample_wide_state [3]));
    [intros _; by eexists | reflexivity | reflexivity
    | simpl; lia | simpl; lia | simpl; lia | simpl; lia
    | reflexivity | reflexivity | simpl; lia
    | discriminate | repeat split; simpl; lia | left; simpl; lia].
Defined.

Lemma ethnl_set_channels_within_limits_witness :
  exists r st' calls d',
    ethnl_set_channels linux_errno linux_errno_ext (sample_request 6)
      (sample_eth_state true 3 [])
    = Done r st' calls
    /\ devices (globals st') !! 4096 = Some d'
    /\ (set_channels_calls d' = []
        \/ exists c,
             set_channels_calls d' = [c]
             /\ c = requested (attrs (sample_request 6))
                      (reported (sample_device true 3 []))
             /\ within_limits c).
Proof.
  apply (ethnl_set_channels_within_limits linux_errno linux_errno_ext
           (sample_request 6) (sample_device true 3 [])
           (sample_eth_state true 3 []));
    [apply sample_eth_state_valid | reflexivity | reflexivity
    | simpl; lia | simpl; lia | repeat split; simpl; lia].
Defined.

Lemma ethnl_set_channels_no_rx_left_witness :
  exists st' calls d',
    ethnl_set_channels linux_errno linux_errno_ext (sample_request 0)
      (sample_eth_state false 0 [])
    = Done 0 st' calls
    /\ devices (globals st') !! 4096 = Some d'
    /\ set_channels_calls d'
       = [ {| max_rx := 0; max_tx := 0; max_other := 0; max_combined := 8;
              rx_count := 0; tx_count := 0; other_count := 0;
              combined_count := 0 |} ].
Proof.
  apply (ethnl_set_channels_no_rx_left linux_errno linux_errno_ext
           (sample_request 0) (sample_device false 0 [])
           (sample_eth_state false 0 []));
    [apply sample_eth_state_valid | reflexivity | reflexivity
    | simpl; lia | simpl; lia | simpl; lia | simpl; lia
    | reflexivity | reflexivity | simpl; lia
    | discriminate | repeat split; simpl; lia
    | reflexivity | reflexivity | reflexivity | reflexivity | reflexivity].
Defined.


End EthtoolChannelsSamples.

(** ** net/nfc/nci/lib.c: nci_to_errno *)

Section NciLibFacts.

Context {Other Global : Type}.
Variable errno_of : errname -> Z.
Variable errno_ext : errname_ext -> Z.
Variable status_val : nci_status -> Z.
Implicit Types st : kstate Other Global.

(** Every entry of the table has one of the lines of the switch and a
    positive errno. *)
Lemma nci_error_cases_positive :
  nci_errnos_positive errno_of errno_ext ->
  Forall (fun c => 31 <= fst (snd c) <= 70 /\ 0 < snd (snd c))
    (nci_error_cases errno_of errno_ext status_val).
Proof.
  intros [H1 H2].
  repeat match goal with
         | H : Forall _ (_ :: _) |- _ =>
             apply Forall_cons in H; destruct H as [? H]
         end.
  unfold nci_error_cases. repeat (constructor; [cbn; lia|]). constructor.
Qed.

Lemma switch_int_In {A : Type} (cases : list (Z * A)) (code : Z) (a : A) :
  switch_int cases code = Some a -> In (code, a) cases.
Proof.
  induction cases as [|[l b] rest IH]; cbn; [done|].
  destruct (Z.eqb_spec code l) as [->|_].
  - intros [= ->]. by left.
  - intros H. right. by apply IH.
Qed.

(** X25: nci_to_errno gives 0 for NCI_STATUS_OK, without a call of the
    recorder, and for every other code the negative of a positive errno
    that it records exactly once, at a line of its switch; a code that
    labels no case gives -ENOSYS. *)
Theorem nci_to_errno_result (code : Z) st :
  current_valid st ->
  nci_errnos_positive errno_of errno_ext ->
  exists r st' calls,
    nci_to_errno errno_of errno_ext status_val code st = Done r st' calls
    /\ (code = status_val NCI_STATUS_OK /\ r = 0 /\ st' = st /\ calls = []
        \/ code <> status_val NCI_STATUS_OK /\ r < 0
           /\ (exists l, 31 <= l <= 70
                 /\ calls = [mk_rec_call (Some nci_lib_c) l (to_int (- r))])
           /\ (switch_int (nci_error_cases errno_of errno_ext status_val)
                 code = None -> r = - errno_ext ENOSYS)).
Proof.
  intros Hv Hpos. unfold nci_to_errno.
  destruct (Z.eqb_spec code (status_val NCI_STATUS_OK)) as [->|Hne].
  { exists 0, st, []. split; [done|]. by left. }
  pose proof (nci_error_cases_positive Hpos) as Hall.
  destruct (switch_int _ code) as [[l e]|] eqn:Hsw.
  - apply switch_int_In, list_elem_of_In in Hsw.
    rewrite Forall_forall in Hall. specialize (Hall _ Hsw). cbn in Hall.
    destruct (neg_ERR_ret st nci_lib_c l e) as (st' & Hrun & _);
      [lia|done|].
    eexists (- e), st', _. split; [exact Hrun|]. right.
    split; [done|]. split; [lia|]. split; [|done].
    exists l. split; [lia|]. by rewrite Z.opp_involutive.
  - destruct Hpos as [_ Hext].
    assert (0 < errno_ext ENOSYS).
    { rewrite !Forall_cons in Hext. tauto. }
    destruct (neg_ERR_ret st nci_lib_c 70 (errno_ext ENOSYS))
      as (st' & Hrun & _); [lia|done|].
    eexists (- errno_ext ENOSYS), st', _. split; [exact Hrun|]. right.
    split; [done|]. split; [lia|]. split; [|done].
    exists 70. split; [lia|]. by rewrite Z.opp_involutive.
Qed.

End NciLibFacts.

Lemma linux_nci_errnos_positive :
  nci_errnos_positive linux_errno linux_errno_ext.
Proof. split; repeat constructor. Qed.

Lemma nci_to_errno_result_witness :
  exists r st' calls,
    nci_to_errno linux_errno linux_errno_ext linux_nci_status 161
      sample_state
    = Done r st' calls
    /\ (161 = 0 /\ r = 0 /\ st' = sample_state /\ calls = []
        \/ 161 <> 0 /\ r < 0
           /\ (exists l, 31 <= l <= 70
                 /\ calls = [mk_rec_call (Some nci_lib_c) l (to_int (- r))])
           /\ (switch_int
                 (nci_error_cases linux_errno linux_errno_ext
                    linux_nci_status) 161 = None ->
               r = - 38)).
Proof.
  apply (nci_to_errno_result linux_errno linux_errno_ext linux_nci_status
           161 sample_state);
    [intros _; by eexists | exact linux_nci_errnos_positive].
Defined.

(** ** net/wimax/op-state-get.c *)

Section WimaxStateGetFacts.

Import WimaxStateGet.

Context {Other : Type}.
Variable errno_of : errname -> Z.
Implicit Types st : kstate Other world.

(** X26: wimax_gnl_doit_state_get records ENODEV on every call, because
    [result = -ERR(ENODEV);] comes first: the call makes exactly one
    call of the recorder, at line 37, also when it finds the device and
    answers with its state.  It answers -ENODEV when the attribute is
    missing or designates no WiMAX device, and it leaves every
    reference count as it was. *)
Theorem wimax_gnl_doit_state_get_records (attr : option Z) st :
  current_valid st ->
  table_ok (globals st) ->
  exists r st',
    wimax_gnl_doit_state_get errno_of attr st
    = Done r st'
        [mk_rec_call (Some op_state_get_c) 37 (to_int (errno_of ENODEV))]
    /\ r = default (- errno_of ENODEV) (state_of (globals st) attr)
    /\ globals st' = globals st
    /\ (ctx_in_task st = true ->
        read_last_err (current st) st'
        = Some (mk_last_err (Some op_state_get_c) 37
                  (to_int (errno_of ENODEV)))).
Proof.
  intros Hv Hok. unfold wimax_gnl_doit_state_get.
  destruct (neg_ERR_ret st op_state_get_c 37 (errno_of ENODEV))
    as (st1 & Hrun & Hg & Hv1 & Hctx1 & Hcur1 & Hrec); [lia|exact Hv|].
  erewrite bind_emits; [|exact Hrun]. clear Hrun.
  destruct attr as [v|]; cbn [state_of default mbind option_bind].
  2: { exists (- errno_of ENODEV), st1. by repeat split. }
  unfold wimax_dev_get_by_genl_info.
  gstep ltac:(reflexivity). rewrite Hg.
  destruct (by_ifindex (globals st) !! to_int v) as [p|] eqn:Hp;
    cbn [mbind option_bind default].
  2: { gstep ltac:(reflexivity). change (0 =? 0) with true. cbn iota.
       exists (- errno_of ENODEV), st1. by repeat split. }
  destruct (Hok _ _ Hp) as (Hp0 & d & n & Hd & Hn & Hn0).
  assert (Hread : forall st2, wimax_devs (globals st2) = wimax_devs (globals st)
            -> read_wimax_dev p st2 = Done d st2 []).
  { intros st2 E. unfold read_wimax_dev, bind, read_globals. cbn.
    by rewrite E, Hd. }
  gstep ltac:(apply Hread; by rewrite Hg).
  gstep ltac:(unfold dev_hold, bind, read_globals; cbn; rewrite Hg, Hn;
              reflexivity).
  gstep ltac:(reflexivity).
  destruct (Z.eqb_spec p 0) as [|_]; [done|].
  unfold wimax_state_get.
  gstep ltac:(apply Hread; reflexivity).
  gstep ltac:(reflexivity).
  gstep ltac:(apply Hread; reflexivity).
  gstep ltac:(unfold dev_put, bind, read_globals; cbn;
              rewrite lookup_insert_eq;
              destruct (Z.leb_spec (n + 1) 0); [lia|reflexivity]).
  exists (state d), (replace_globals st1 (globals st)).
  rewrite Hd. cbn [mbind option_bind default]. split.
  { unfold ret. cbn. do 2 f_equal.
    unfold with_refcnt. cbn. rewrite insert_insert_eq.
    replace (n + 1 - 1) with n by lia. rewrite insert_id by done.
    by destruct (globals st). }
  by repeat split.
Qed.

End WimaxStateGetFacts.

Section WimaxStateGetSamples.

Import WimaxStateGet.

Lemma sample_table_ok : table_ok (globals sample_wimax_state).
Proof.
  intros i p H. cbn [globals sample_wimax_state sample_world by_ifindex] in H.
  apply lookup_singleton_Some in H as [<- <-].
  split; [done|]. by eexists _, 1.
Qed.

Lemma wimax_gnl_doit_state_get_records_witness :
  exists r st',
    wimax_gnl_doit_state_get linux_errno (Some 3) sample_wimax_state
    = Done r st' [mk_rec_call (Some op_state_get_c) 37 19]
    /\ r = 4
    /\ globals st' = sample_world
    /\ (true = true ->
        read_last_err 1 st'
        = Some (mk_last_err (Some op_state_get_c) 37 19)).
Proof.
  apply (wimax_gnl_doit_state_get_records linux_errno (Some 3)
           sample_wimax_state);
    [intros _; by eexists | exact sample_table_ok].
Defined.

End WimaxStateGetSamples.

(** ** net/netfilter/nft_bitwise.c: nft_bitwise_init_shift *)

Section NftBitwiseInitFacts.

Import NftBitwise NftBitwiseInit.

Context {Other Global : Type}.
Variable errno_of : errname -> Z.
Variable NFT_DATA_VALUE : Z.
Implicit Types st : kstate Other Global.

(** With a shift count of 0 the first carry of either evaluator is a
    shift by 32 bits. *)
Lemma eval_shift_zero_undefined (dst src : nat) (priv : nft_bitwise)
    (regs : list Z) :
  let n := Z.to_nat (DIV_ROUND_UP (len priv) 4) in
  data priv !! 0%nat = Some 0 ->
  (0 < n)%nat ->
  (src + n <= length regs)%nat ->
  (dst + n <= length regs)%nat ->
  nft_bitwise_eval_lshift dst src priv regs = None
  /\ nft_bitwise_eval_rshift dst src priv regs = None.
Proof.
  intros n Hdata Hn Hs Hd.
  unfold nft_bitwise_eval_lshift, nft_bitwise_eval_rshift. fold n.
  rewrite Hdata. simpl. split.
  - destruct n as [|i]; [lia|].
    destruct (regs !! (src + i)%nat) as [s|] eqn:Es;
      [|apply lookup_ge_None_1 in Es; lia].
    simpl eval_lshift_loop. unfold load. rewrite Es. simpl.
    rewrite store_Some by lia. simpl.
    set (regs1 := <[(dst + i)%nat := _]> regs).
    assert (Hlen1 : length regs1 = length regs) by apply length_insert.
    destruct (regs1 !! (src + i)%nat) as [s'|] eqn:Es';
      [|apply lookup_ge_None_1 in Es'; lia].
    done.
  - destruct n as [|n']; [lia|].
    destruct (regs !! (src + 0)%nat) as [s|] eqn:Es;
      [|apply lookup_ge_None_1 in Es; lia].
    simpl eval_rshift_loop. unfold load. rewrite Es. simpl.
    rewrite store_Some by lia. simpl.
    set (regs1 := <[(dst + 0)%nat := _]> regs).
    assert (Hlen1 : length regs1 = length regs) by apply length_insert.
    destruct (regs1 !! (src + 0)%nat) as [s'|] eqn:Es';
      [|apply lookup_ge_None_1 in Es'; lia].
    done.
Qed.

(** X27: nft_bitwise_init_shift accepts a shift count of 0, which the
    evaluators cannot handle.  It returns 0 exactly for a request
    without mask and xor whose data is a value of four bytes with a
    first word below 32, and records EINVAL once for every other request
    that nft_data_init takes.  For an expression it has accepted, with
    at least one word to shift, nft_bitwise_eval_lshift and
    nft_bitwise_eval_rshift have a defined result exactly when the
    count is not 0. *)
Theorem nft_bitwise_init_shift_admits_zero (priv : nft_bitwise)
    (tb : bitwise_attrs) st :
  current_valid st ->
  0 < errno_of EINVAL ->
  words_ok tb ->
  exists r priv' st' calls,
    nft_bitwise_init_shift errno_of NFT_DATA_VALUE priv tb st
    = Done (r, priv') st' calls
    /\ (r = 0 <-> accepted NFT_DATA_VALUE tb)
    /\ (r = 0 ->
        calls = [] /\ len priv' = len priv
        /\ exists shift,
             data priv' !! 0%nat = Some shift /\ 0 <= shift < 32
             /\ forall (dst src : nat) (regs : list Z),
                  let n := Z.to_nat (DIV_ROUND_UP (len priv') 4) in
                  (0 < n)%nat ->
                  (src + n <= length regs)%nat ->
                  (dst + n <= length regs)%nat ->
                  (is_Some (nft_bitwise_eval_lshift dst src priv' regs)
                   <-> shift <> 0)
                  /\ (is_Some (nft_bitwise_eval_rshift dst src priv' regs)
                      <-> shift <> 0)).
Proof.
  intros Hv HE Hw. unfold nft_bitwise_init_shift.
  destruct tb as [tm tx td]. unfold accepted, words_ok in *.
  cbn [NFTA_BITWISE_MASK NFTA_BITWISE_XOR NFTA_BITWISE_DATA] in *.
  set (acc := _ /\ _ /\ exists a w, _).
  assert (Hrefuse : forall (L : Z) (p : nft_bitwise) st0,
    0 <= L < 4294967296 -> current_valid st0 ->
    ~ acc ->
    exists r priv' st' calls,
      (v <- ERR nft_bitwise_c L (ret (errno_of EINVAL)) ;; ret (- v, p)) st0
      = Done (r, priv') st' calls
      /\ (r = 0 <-> acc)
      /\ (r = 0 ->
          calls = [] /\ len priv' = len priv
          /\ exists shift,
               data priv' !! 0%nat = Some shift /\ 0 <= shift < 32
               /\ forall (dst src : nat) (regs : list Z),
                    let n := Z.to_nat (DIV_ROUND_UP (len priv') 4) in
                    (0 < n)%nat ->
                    (src + n <= length regs)%nat ->
                    (dst + n <= length regs)%nat ->
                    (is_Some (nft_bitwise_eval_lshift dst src priv' regs)
                     <-> shift <> 0)
                    /\ (is_Some (nft_bitwise_eval_rshift dst src priv' regs)
                        <-> shift <> 0))).
  { intros L p st0 HL Hv0 Hna.
    destruct (set_last_err_total st0 (Some nft_bitwise_c) (to_uint L)
                (to_int (errno_of EINVAL)) Hv0) as (st1 & Hrun & _).
    eexists (- errno_of EINVAL), p, st1, _. split.
    { unfold bind at 1. rewrite (ERR_const _ _ _ _ _ Hrun). reflexivity. }
    split; [split; [lia|done]|lia]. }
  subst acc.
  destruct tm as [m|].
  { apply Hrefuse; [lia|done|]. intros (H & _). congruence. }
  destruct tx as [x|].
  { apply Hrefuse; [lia|done|]. intros (_ & H & _). congruence. }
  rewrite !bool_decide_eq_false_2 by (by intros [? ?]). cbn [orb].
  destruct td as [a|].
  2: { apply Hrefuse; [lia|done|]. intros (_ & _ & a & w & H & _). congruence. }
  destruct (Hw a eq_refl) as [Hlen Hu32].
  destruct (init_words a) as [|w ws] eqn:Hws; [done|].
  apply Forall_cons in Hu32 as [Hw32 _].
  unfold nft_data_init.
  destruct (Z.ltb_spec (init_ret a) 0) as [Hneg|Hpos].
  { cbn beta iota. destruct (Z.ltb_spec (init_ret a) 0) as [_|]; [|lia].
    exists (init_ret a), priv, st, []. split; [reflexivity|]. split; [|lia].
    split; [lia|]. intros (_ & _ & a' & w' & [= <-] & H & _). lia. }
  cbn beta iota. destruct (Z.ltb_spec (init_ret a) 0) as [|_]; [lia|].
  cbn [fst snd set_data data]. rewrite Hws.
  match goal with |- context [_ = 0 <-> ?P] => set (acc := P) in * end.
  assert (Hacc : acc
                 -> desc_type a = NFT_DATA_VALUE /\ desc_len a = 4 /\ w < 32).
  { intros (_ & _ & a' & w' & [= <-] & _ & H1 & H2 & H3 & H4).
    rewrite Hws in H3. injection H3 as <-. done. }
  destruct (Z.eqb_spec (desc_type a) NFT_DATA_VALUE) as [Ht|Ht]; cbn [negb].
  2: { gstep ltac:(reflexivity). unfold nft_data_release.
       gstep ltac:(reflexivity). apply Hrefuse; [lia|done|].
       intros H. by apply Hacc in H as (? & _). }
  destruct (Z.eqb_spec (desc_len a) 4) as [Hl|Hl]; cbn [negb].
  2: { gstep ltac:(reflexivity). unfold nft_data_release.
       gstep ltac:(reflexivity). apply Hrefuse; [lia|done|].
       intros H. by apply Hacc in H as (_ & ? & _). }
  cbn [lookup]. gstep ltac:(reflexivity).
  rewrite (to_uint_id w) by (unfold uint_range; lia).
  unfold BITS_PER_U32.
  destruct (Z.leb_spec 32 w) as [Hge|Hlt].
  { unfold nft_data_release. gstep ltac:(reflexivity).
    apply Hrefuse; [lia|done|].
    intros H. apply Hacc in H as (_ & _ & ?). lia. }
  eexists 0, _, st, []. split; [reflexivity|]. split.
  { split; [intros _|done]. split; [done|]. split; [done|].
    exists a, w. rewrite Hws. by repeat split. }
  intros _. split; [done|]. split; [done|].
  exists w. split; [done|]. split; [lia|].
  intros dst src regs Hn Hs Hd.
  destruct (Z.eq_dec w 0) as [->|Hne].
  - destruct (eval_shift_zero_undefined dst src
                (set_data (0 :: ws) priv) regs) as [-> ->]; [done..|].
    split; (split; [by intros [? ?]|done]).
  - split; (split; [done|intros _]).
    + unfold nft_bitwise_eval_lshift. cbn [data set_data lookup mbind].
      apply eval_lshift_loop_defined; [lia|done..].
    + unfold nft_bitwise_eval_rshift. cbn [data set_data lookup mbind].
      apply eval_rshift_loop_defined; [lia| |]; lia.
Qed.

End NftBitwiseInitFacts.

Section NftBitwiseInitSamples.

Import NftBitwise NftBitwiseInit.

Lemma sample_shift_attrs_ok (shift : Z) :
  0 <= shift < 2 ^ 32 -> words_ok (sample_shift_attrs shift).
Proof.
  intros H a [= <-]. split; [reflexivity|].
  repeat constructor; cbn; lia.
Qed.

Lemma nft_bitwise_init_shift_admits_zero_witness :
  exists r priv' st' calls,
    nft_bitwise_init_shift linux_errno 0 sample_bitwise_word
      (sample_shift_attrs 0) sample_state
    = Done (r, priv') st' calls
    /\ (r = 0 <-> accepted 0 (sample_shift_attrs 0))
    /\ (r = 0 ->
        calls = [] /\ len priv' = 4
        /\ exists shift,
             data priv' !! 0%nat = Some shift /\ 0 <= shift < 32
             /\ forall (dst src : nat) (regs : list Z),
                  let n := Z.to_nat (DIV_ROUND_UP (len priv') 4) in
                  (0 < n)%nat ->
                  (src + n <= length regs)%nat ->
                  (dst + n <= length regs)%nat ->
                  (is_Some (nft_bitwise_eval_lshift dst src priv' regs)
                   <-> shift <> 0)
                  /\ (is_Some (nft_bitwise_eval_rshift dst src priv' regs)
                      <-> shift <> 0)).
Proof.
  apply (nft_bitwise_init_shift_admits_zero linux_errno 0 sample_bitwise_word
           (sample_shift_attrs 0) sample_state);
    [intros _; by eexists | simpl; lia | apply sample_shift_attrs_ok; lia].
Defined.

End NftBitwiseInitSamples.
